(* ===== verification/_CoqProject ===== *)
-Q . S2P
Prelude.v
GoStrings.v
Pool.v
PoolFacts.v
Encoding.v
Migrations.v
MigrationsFacts.v
GoFiles.v
Schema.v
Config.v
Cli.v
CliFacts.v
Scaffold.v
ScaffoldFacts.v
Auth.v
AuthFacts.v
OwnerAuth.v
OwnerAuthFacts.v
OAuth.v
OAuthFacts.v
ConcurrencyFacts.v
Register.v
RegisterFacts.v
AuditLog.v
RateLimit.v
RateLimitFacts.v
Storage.v
StorageFacts.v
Http.v
Social.v
Realtime.v
RealtimeFacts.v
Registry.v
RegistryFacts.v
RestApi.v
RestApiFacts.v
App.v
AppFacts.v
AdminUi.v
AdminUiFacts.v
HttpServer.v
HttpServerFacts.v
Live.v
LiveFacts.v
Boot.v
BootFacts.v
