(* ===== verification/Prelude.v ===== *)
(** * maubase: a verification development

    maubase is a single-binary backend: accounts and sessions, an OAuth 2.1
    authorization server, a REST surface discovered from the deployment's own
    tables, file storage, realtime events and an admin plane, over one SQLite
    database.  This library is a model of its Go code, written to be read next to
    it, and the theorems that make it correct.

    ** How the code is modelled

    Every operation is a function in the monad [M] of this file: it takes and
    returns a [World], the data it works on and the environment.  A call that
    leaves the process (a statement, a file operation, a read of random bytes) is
    a step at which the environment may let time pass and may report a fault
    ([exec], [query], [update], [rand_read]); the schedule of both is arbitrary
    data, so a theorem about every world is a theorem about every pattern of
    failures.  [transaction] rolls back on every early return.  Go errors are
    values of [error], compared with [errors_Is] as the code does.  Strings are
    byte strings; an int is an integer whose overflow is written out where the
    code can reach it ([wrap_int64]).  Nothing is left to fuel: every loop is
    structural.

    Two files make a component: [X.v] has its state, data and operations, under
    the names of the source, [XFacts.v] its invariants and theorems, with the
    concrete runs that show their hypotheses can be met.  Small components have
    both in one file.

    ** The parts

    - Shared: this file (monad, [within] and [forward] automation, list lemmas),
      [GoStrings] (strings, strconv, sort, regexp with its correctness),
      [GoFiles] (path/filepath, os), [Encoding] (SHA-256, hex, base64), [Schema]
      (the embedded tables as records).
    - [Migrations] (internal/db/migrate.go): files with an up and a down half, the
      bookkeeping table, up, down, redo, to, status, diff.  Refinement of every
      run to up and down steps, exactness of "to", "redo" and of the drift report.
    - [Config] (internal/config) and [Cli] (cmd/maubase/migrate.go, db.go): the
      settings and the migrate command line, printing included.  What arguments
      mean, the file "new" writes, what "up" reports.
    - [Auth] (internal/auth), [OwnerAuth] (internal/ownerauth): accounts,
      sessions, reset tokens, roles.  Integrity of the tables under every fault,
      single use of reset tokens, the last owner cannot go.
    - [OAuth], [Register] (internal/oauth): stores, consent, the authorize endpoint,
      keys; client registration, discovery, the token endpoint.  Refresh tokens
      rotate once, only what was consented to is granted, a registration is
      stored as it was checked.
    - [AuditLog] (internal/audit), [RateLimit] (internal/ratelimit).
    - [Registry], [RestApi] (internal/restapi): introspection, access rules, the
      generic handlers.  Row isolation of reads and writes, the exact effect of
      each handler and of what it publishes.
    - [Storage] (internal/storage): uploads, downloads, erasure.
    - [Realtime] (internal/realtime): the broker as a state machine with
      reachability, delivery across processes through the relay.
    - [Http], [Social] (cookies, mail, internal/social), [App], [AdminUi]
      (internal/adminui), [HttpServer] (internal/server): the middleware, the
      handlers and the routing that put the parts together, over one state [App].
      The theorems about every route at once are in [HttpServerFacts].
    - [Live] (internal/realtime/server.go): requests, connections, subscriptions and
      the sends of every publish interleaved as steps over the HTTP server and the
      broker.  In every interleaving a record reaches no connection but its
      owner's, and nobody listens without a token.
    - [Pool] (SetMaxOpenConns(1) in internal/db/db.go): operations as goroutines that
      interleave statement by statement over one database connection, transactions
      holding it.  A [Reified] instance takes an operation of another file apart,
      with the proof that run alone it is the same.  Every interleaving amounts to
      sections one after the other and comes to an end; what each goroutine does may
      rely on what every section of the others keeps ([PoolFacts]).  What src/spec
      asks of concurrent requests is in [ConcurrencyFacts]: at most one of the
      contenders for a reset token, a refresh token or an address gets it, for an
      address and a refresh token exactly one when nothing fails, an owner stays.
    - [Scaffold] (cmd/maubase/init.go, skill.go, jsclient.go, updateagentdocs.go,
      version.go): what "init" writes, byte for byte, and never overwrites; the
      refresh of the managed blocks.
    - [Boot] (cmd/maubase/main.go): the dispatch of the command line, what "serve"
      does before it listens, over the files and databases of the host and the
      [App]; the janitor.  A server that listens is ready; nothing is touched
      before every migration is in.

    The packages share one database in the code.  Here it is a record with one
    sub-database per package, and [zoom] runs a package's operation inside the
    whole; a frame lemma per package ([AppFacts]) says what it leaves alone.

    ** What is assumed

    Code that is not in the repository is a class or a parameter: [SqlEngine] (the
    SQL of a migration), [Sqlite] with [SqliteLaws] (typing and comparison of
    values in application tables), [Studio] (what SQLite makes of typed SQL),
    [Bcrypt] with [BcryptLaws] (a hash matches the password it was made of and no
    other), [Provider], [Introspection], [SecretsHasher] and [TokenEndpoint]
    (Fosite), [HostSyntax] (the host check of url.Parse, which differs between
    releases of Go), [Upstream] (Google, GitHub),
    [Resend] (mail), the process environment ([Getenv]).  [Bystander] and [TokenBystander] say
    that the provider's own calls leave the tables of other packages alone.  Each law
    is shown to hold of a concrete instance where a theorem uses it.

    ** What is not modelled

    - internal/testserver and the tests, sdk/js and its embedding, the site, the
      end-to-end suite.
    - The protocol inside Fosite (codes, PKCE, token formats): the library is a
      third party's; the storage it calls and the handlers that call it are here.
    - The WebSocket transport of internal/realtime (frames, pings, timeouts): the
      connection is the point where messages arrive and events leave.
    - HTML: a page is the name of its template and the data handed to it, which
      html/template escapes.  Static assets.
    - Signals and the shutdown of the HTTP server; access logs and request ids.
    - Symbolic links and permissions of files; the syntax of data source names;
      the effect of WAL mode and of the busy timeout.
    - Case folding and spaces outside ASCII; %q of bytes outside ASCII.
*)

From Stdlib Require Export ZArith Ascii String Lia.
From stdpp Require Export base gmap sets list strings sorting pretty.
#[export] Set Default Goal Selector "!".
#[export] Set Warnings "-clear-no-such-hyp".

Open Scope string_scope.
Open Scope list_scope.
Declare Scope go_scope.
Delimit Scope go_scope with go.
#[global] Arguments String.append !_ _ / : simpl nomatch.

(** ** Go error values

    A sentinel declared with [errors.New] is compared by identity, so it carries
    the name it is declared under next to its text; [Wrap] is [fmt.Errorf] with
    a [%w] verb at its end, [Errorf] is [fmt.Errorf] without one, and [Driver]
    is an error that came out of a dependency (the SQL driver, the file
    system). *)
Inductive error : Type :=
| Sentinel (name text : string)
| Driver (text : string)
| Errorf (text : string)
| Wrap (prefix : string) (cause : error).

#[global] Instance error_eq_dec : EqDecision error.
Proof. solve_decision. Defined.

(** [err.Error()]. *)
Fixpoint error_text (e : error) : string :=
  match e with
  | Sentinel _ t => t
  | Driver t => t
  | Errorf t => t
  | Wrap p c => p +:+ ": " +:+ error_text c
  end.

(** [errors.Is(err, target)] for a sentinel target. *)
Fixpoint errors_Is (e target : error) : bool :=
  bool_decide (e = target) ||
  match e with
  | Wrap _ c => errors_Is c target
  | _ => false
  end.

(** ** Results *)
Inductive result (A : Type) : Type :=
| Ok (a : A)
| Err (e : error).
Arguments Ok {A} a.
Arguments Err {A} e.

Definition is_ok {A} (r : result A) : bool :=
  match r with Ok _ => true | Err _ => false end.

(** ** The world an operation runs in

    [env_sched] is what the environment does at each call that leaves the
    process: the time that passes, and the fault (if any) the driver or the
    operating system reports.  An exhausted schedule means no further fault and
    no further delay.  [env_uuid] and [env_bytes] are the supplies behind
    [uuid.NewString] and [crypto/rand.Read]; [env_draws] counts the draws. *)
Record event : Type := mkEvent { ev_fault : option string; ev_elapsed : N }.

Record Env : Type := mkEnv {
  env_sched : list event;
  env_clock : Z;
  env_draws : N;
  env_uuid : N -> string;
  env_bytes : N -> string;
}.

Record World (D : Type) : Type := mkWorld { w_env : Env; w_db : D }.
Arguments mkWorld {D} _ _.
Arguments w_env {D} _.
Arguments w_db {D} _.

Definition clock {D} (w : World D) : Z := env_clock (w_env w).

(** Take the next scheduled event: the fault it reports and the environment
    after the time it took. *)
Definition env_step (e : Env) : option string * Env :=
  match env_sched e with
  | [] => (None, e)
  | ev :: rest =>
      (ev_fault ev,
       mkEnv rest (env_clock e + Z.of_N (ev_elapsed ev)) (env_draws e)
             (env_uuid e) (env_bytes e))
  end.

Definition env_draw (e : Env) : N * Env :=
  (env_draws e,
   mkEnv (env_sched e) (env_clock e) (N.succ (env_draws e)) (env_uuid e) (env_bytes e)).

(** ** The state-and-error monad of the operations *)
Definition M (D A : Type) : Type := World D -> result A * World D.

#[global] Instance M_ret D : MRet (M D) := fun A a w => (Ok a, w).
#[global] Instance M_bind D : MBind (M D) :=
  fun A B k m w =>
    match m w with
    | (Ok a, w') => k a w'
    | (Err e, w') => (Err e, w')
    end.

Section ops.
Context {D : Type}.

(** [return nil, err] *)
Definition fail {A} (e : error) : M D A := fun w => (Err e, w).

(** [x, err := m]: the error as a value, for code that branches on it. *)
Definition attempt {A} (m : M D A) : M D (result A) :=
  fun w => let '(r, w') := m w in (Ok r, w').

(** [if err != nil { return nil, f(err) }] *)
Definition map_err {A} (f : error -> error) (m : M D A) : M D A :=
  fun w => match m w with
           | (Ok a, w') => (Ok a, w')
           | (Err e, w') => (Err (f e), w')
           end.

(** [fmt.Errorf("prefix: %w", err)] on the error path. *)
Definition wrapping {A} (prefix : string) (m : M D A) : M D A :=
  map_err (Wrap prefix) m.

(** [x, err := m; if err != nil { return onErr(err) }]: an operation that gives
    back its error in its own result type (a partial result next to an error,
    an HTTP response). *)
Definition try_or {A B} (on_err : error -> B) (m : M D A) (k : A -> M D B) : M D B :=
  fun w => match m w with
           | (Ok a, w') => k a w'
           | (Err e, w') => (Ok (on_err e), w')
           end.

(** One statement sent to the data store: the environment may make it fail
    before it has any effect; otherwise the statement itself decides, reading
    the clock of the moment it runs at. *)
Definition exec_at {A} (stmt : Z -> D -> string + (A * D)) : M D A :=
  fun w =>
    let '(fault, e') := env_step (w_env w) in
    match fault with
    | Some msg => (Err (Driver msg), mkWorld e' (w_db w))
    | None =>
        match stmt (env_clock e') (w_db w) with
        | inl msg => (Err (Driver msg), mkWorld e' (w_db w))
        | inr (a, d') => (Ok a, mkWorld e' d')
        end
    end.

Definition exec {A} (stmt : D -> string + (A * D)) : M D A := exec_at (fun _ => stmt).

(** A statement that only reads. *)
Definition query {A} (q : D -> A) : M D A := exec (fun d => inr (q d, d)).

(** A statement that always succeeds once it reaches the store. *)
Definition update {A} (f : D -> A * D) : M D A := exec (fun d => inr (f d)).

(** [time.Now()] *)
Definition now : M D Z := fun w => (Ok (clock w), w).

(** [uuid.NewString()] *)
Definition new_uuid : M D string :=
  fun w => let '(n, e') := env_draw (w_env w) in
           (Ok (env_uuid e' n), mkWorld e' (w_db w)).

(** [rand.Read] filling a buffer: the bytes it delivers. *)
Definition rand_read : M D string :=
  fun w =>
    let '(fault, e') := env_step (w_env w) in
    match fault with
    | Some msg => (Err (Driver msg), mkWorld e' (w_db w))
    | None => let '(n, e'') := env_draw e' in
              (Ok (env_bytes e'' n), mkWorld e'' (w_db w))
    end.

(** [BeginTx], the body, then [Commit]; every early return of the body, and a
    [Commit] that fails, rolls the data back. *)
Definition transaction {A} (begin_err commit_err : error -> error) (body : M D A) : M D A :=
  fun w =>
    match map_err begin_err (query (fun _ => tt)) w with
    | (Err e, w1) => (Err e, w1)
    | (Ok _, w1) =>
        match body w1 with
        | (Err e, w2) => (Err e, mkWorld (w_env w2) (w_db w1))
        | (Ok a, w2) =>
            match map_err commit_err (query (fun _ => tt)) w2 with
            | (Err e, w3) => (Err e, mkWorld (w_env w3) (w_db w1))
            | (Ok _, w3) => (Ok a, w3)
            end
        end
    end.

End ops.

(** Run an operation of a part of the state inside the whole. *)
Definition zoom {S D A} (get : S -> D) (put : D -> S -> S) (m : M D A) : M S A :=
  fun w =>
    let '(r, w') := m (mkWorld (w_env w) (get (w_db w))) in
    (r, mkWorld (w_env w') (put (w_db w') (w_db w))).

(** A loop over a list whose body may return early with an error. *)
Fixpoint for_each {D A} (body : A -> M D unit) (l : list A) : M D unit :=
  match l with
  | [] => mret tt
  | x :: rest => body x ;; for_each body rest
  end.

(** ** Run lemmas *)

Lemma mret_ok {D A} (a b : A) (w w' : World D) :
  (mret a : M D A) w = (Ok b, w') -> b = a /\ w' = w.
Proof. intros [= -> ->]. done. Qed.

Lemma bind_ok {D A B} (m : M D A) (k : A -> M D B) w b w' :
  (m ≫= k) w = (Ok b, w') ->
  exists a w1, m w = (Ok a, w1) /\ k a w1 = (Ok b, w').
Proof. unfold mbind, M_bind. destruct (m w) as [[a|e] w1] eqn:E; [eauto|discriminate]. Qed.

Lemma bind_err {D A B} (m : M D A) (k : A -> M D B) w e w' :
  (m ≫= k) w = (Err e, w') ->
  m w = (Err e, w') \/ exists a w1, m w = (Ok a, w1) /\ k a w1 = (Err e, w').
Proof.
  unfold mbind, M_bind. destruct (m w) as [[a|e1] w1] eqn:E; intros H; [|left; congruence].
  right; eauto.
Qed.

Lemma bind_cases {D A B} (m : M D A) (k : A -> M D B) (w : World D) r w' :
  (a ← m; k a) w = (r, w') ->
  (exists e, m w = (Err e, w') /\ r = Err e) \/ exists a w1, m w = (Ok a, w1) /\ k a w1 = (r, w').
Proof.
  destruct r as [b|e].
  - intros (a & w1 & H1 & H)%bind_ok. eauto.
  - intros [H|(a & w1 & H1 & H)]%bind_err; [left|right]; eauto.
Qed.

Lemma map_err_err {D A} f (m : M D A) (w : World D) e w' :
  map_err f m w = (Err e, w') -> exists e', m w = (Err e', w').
Proof. unfold map_err. destruct (m w) as [[a|e'] w1]; [done|]. intros [= _ <-]. eauto. Qed.

Lemma map_err_ok {D A} f (m : M D A) w a w' :
  map_err f m w = (Ok a, w') -> m w = (Ok a, w').
Proof. unfold map_err. destruct (m w) as [[?|?] ?]; congruence. Qed.

Lemma try_or_ok {D A B} (f : error -> B) (m : M D A) (k : A -> M D B) w b w' :
  try_or f m k w = (Ok b, w') ->
  (exists e, m w = (Err e, w') /\ b = f e) \/ (exists a w1, m w = (Ok a, w1) /\ k a w1 = (Ok b, w')).
Proof. unfold try_or. destruct (m w) as [[a|e] w1]; [eauto|]. intros [= <- <-]. eauto. Qed.

Lemma attempt_run {D A} (m : M D A) w : attempt m w = (Ok (m w).1, (m w).2).
Proof. unfold attempt. by destruct (m w). Qed.

Lemma attempt_bind {D A B} (m : M D A) (k : result A -> M D B) w :
  (attempt m ≫= k) w = k (m w).1 (m w).2.
Proof. unfold mbind, M_bind. by rewrite attempt_run. Qed.

(** No event is scheduled: nothing fails and no time passes meanwhile. *)
Definition quiet {D} (w : World D) : Prop := env_sched (w_env w) = [].

Lemma exec_quiet {D A} (stmt : D -> string + (A * D)) w :
  quiet w ->
  exec stmt w = match stmt (w_db w) with
                | inl msg => (Err (Driver msg), w)
                | inr (a, d') => (Ok a, mkWorld (w_env w) d')
                end.
Proof.
  unfold quiet, exec, exec_at, env_step. intros ->. by destruct w, (stmt _) as [|[]].
Qed.

Lemma query_quiet {D A} (q : D -> A) w : quiet w -> query q w = (Ok (q (w_db w)), w).
Proof. intros Hq. unfold query. rewrite exec_quiet by done. by destruct w. Qed.

Lemma update_quiet {D A} (f : D -> A * D) w :
  quiet w -> update f w = (Ok (f (w_db w)).1, mkWorld (w_env w) (f (w_db w)).2).
Proof. intros Hq. unfold update. rewrite exec_quiet by done. by destruct (f (w_db w)). Qed.

Lemma exec_ok {D A} (stmt : D -> string + (A * D)) w a w' :
  exec stmt w = (Ok a, w') -> stmt (w_db w) = inr (a, w_db w').
Proof.
  unfold exec, exec_at. destruct (env_step _) as [[?|] e']; [discriminate|].
  destruct (stmt (w_db w)) as [?|[a1 d1]]; [discriminate|].
  intros [= -> <-]. done.
Qed.

Lemma exec_at_quiet {D A} (stmt : Z -> D -> string + (A * D)) w :
  quiet w ->
  exec_at stmt w = match stmt (clock w) (w_db w) with
                   | inl msg => (Err (Driver msg), w)
                   | inr (a, d') => (Ok a, mkWorld (w_env w) d')
                   end.
Proof.
  unfold quiet, exec_at, env_step, clock. intros ->. by destruct w, (stmt _ _) as [|[]].
Qed.

Lemma exec_at_ok {D A} (stmt : Z -> D -> string + (A * D)) w a w' :
  exec_at stmt w = (Ok a, w') -> stmt (clock w') (w_db w) = inr (a, w_db w').
Proof.
  unfold exec_at, clock. destruct (env_step _) as [[?|] e']; [discriminate|].
  destruct (stmt _ (w_db w)) as [?|[a1 d1]] eqn:E; [discriminate|].
  intros [= -> <-]. done.
Qed.

Lemma exec_at_err {D A} (stmt : Z -> D -> string + (A * D)) w e w' :
  exec_at stmt w = (Err e, w') -> w_db w' = w_db w.
Proof.
  unfold exec_at. destruct (env_step _) as [[?|] e']; [by intros [= _ <-]|].
  destruct (stmt _ (w_db w)) as [?|[a1 d1]]; [by intros [= _ <-]|discriminate].
Qed.

Lemma exec_err {D A} (stmt : D -> string + (A * D)) w e w' :
  exec stmt w = (Err e, w') -> w_db w' = w_db w.
Proof.
  unfold exec, exec_at. destruct (env_step _) as [[?|] e']; [by intros [= _ <-]|].
  destruct (stmt (w_db w)) as [?|[a1 d1]]; [by intros [= _ <-]|discriminate].
Qed.

Lemma query_ok {D A} (q : D -> A) w a w' :
  query q w = (Ok a, w') -> a = q (w_db w) /\ w_db w' = w_db w.
Proof. intros H%exec_ok. by injection H as -> ->. Qed.

Lemma update_ok {D A} (f : D -> A * D) w a w' :
  update f w = (Ok a, w') -> f (w_db w) = (a, w_db w').
Proof. intros H%exec_ok. by injection H as ->. Qed.

(** ** What an operation may do to the data

    [within R m]: every run of [m], whatever the environment makes fail,
    relates the data before to the data after by [R].  With [R] a preorder the
    property composes along a program, so one lemma per statement is enough. *)
Definition within {D A} (R : relation D) (m : M D A) : Prop :=
  forall w, R (w_db w) (w_db (m w).2).

(** Preservation of an invariant is the preorder "if it held it holds". *)
Definition keeps {D} (I : D -> Prop) : relation D := fun d d' => I d -> I d'.

#[global] Instance keeps_preorder {D} (I : D -> Prop) : PreOrder (keeps I).
Proof. split; unfold keeps; [intros ?|intros ???]; tauto. Qed.

Section within.
Context {D : Type} (R : relation D) `{!PreOrder R}.

Lemma within_same {A} (m : M D A) : (forall w, w_db (m w).2 = w_db w) -> within R m.
Proof using PreOrder0. intros H w. rewrite H. reflexivity. Qed.

Lemma within_ret {A} (a : A) : within R (mret a).
Proof using PreOrder0. by apply within_same. Qed.

Lemma within_fail {A} e : within R (fail (A := A) e).
Proof using PreOrder0. by apply within_same. Qed.

Lemma within_now : within R now.
Proof using PreOrder0. by apply within_same. Qed.

Lemma within_new_uuid : within R new_uuid.
Proof using PreOrder0. by apply within_same. Qed.

Lemma within_rand_read : within R rand_read.
Proof using PreOrder0.
  apply within_same. intros w. unfold rand_read.
  by destruct (env_step (w_env w)) as [[?|] ?].
Qed.

Lemma within_query {A} (q : D -> A) : within R (query q).
Proof using PreOrder0.
  intros w. unfold query, exec, exec_at. destruct (env_step _) as [[?|] ?]; reflexivity.
Qed.

Lemma within_exec_at {A} (stmt : Z -> D -> string + (A * D)) :
  (forall t d a d', stmt t d = inr (a, d') -> R d d') -> within R (exec_at stmt).
Proof using PreOrder0.
  intros Hs w. unfold exec_at. destruct (env_step (w_env w)) as [[?|] e]; [reflexivity|].
  destruct (stmt _ (w_db w)) as [?|[a d']] eqn:E; [reflexivity|]. simpl. eauto.
Qed.

Lemma within_exec {A} (stmt : D -> string + (A * D)) :
  (forall d a d', stmt d = inr (a, d') -> R d d') -> within R (exec stmt).
Proof using PreOrder0. intros Hs. apply within_exec_at. intros _ d a d'. apply Hs. Qed.

Lemma within_update {A} (f : D -> A * D) :
  (forall d, R d (f d).2) -> within R (update f).
Proof using PreOrder0.
  intros Hf. apply within_exec. intros d a d' [= E]. specialize (Hf d).
  by rewrite E in Hf.
Qed.

Lemma within_bind {A B} (m : M D A) (k : A -> M D B) :
  within R m -> (forall a, within R (k a)) -> within R (m ≫= k).
Proof using PreOrder0.
  intros Hm Hk w. unfold mbind, M_bind. specialize (Hm w).
  destruct (m w) as [[a|e] w1] eqn:E; [|done]. etrans; [exact Hm|apply Hk].
Qed.

Lemma within_map_err {A} f (m : M D A) : within R m -> within R (map_err f m).
Proof using PreOrder0. intros Hm w. specialize (Hm w). unfold map_err. by destruct (m w) as [[?|?] ?]. Qed.

Lemma within_attempt {A} (m : M D A) : within R m -> within R (attempt m).
Proof using PreOrder0. intros Hm w. rewrite attempt_run. apply Hm. Qed.

Lemma within_try_or {A B} (on_err : error -> B) (m : M D A) (k : A -> M D B) :
  within R m -> (forall a, within R (k a)) -> within R (try_or on_err m k).
Proof using PreOrder0.
  intros Hm Hk w. unfold try_or. specialize (Hm w).
  destruct (m w) as [[a|e] w1] eqn:E; [|done]. etrans; [exact Hm|apply Hk].
Qed.

Lemma within_transaction {A} f g (body : M D A) :
  within R body -> within R (transaction f g body).
Proof using PreOrder0.
  intros Hb w. unfold transaction.
  pose proof (within_map_err f _ (within_query (fun _ => tt)) w) as H1.
  destruct (map_err f _ w) as [[?|?] w1]; [|done]. simpl in H1.
  pose proof (Hb w1) as H2. destruct (body w1) as [[x|?] w2]; [|done]. simpl in H2.
  pose proof (within_map_err g _ (within_query (fun _ => tt)) w2) as H3.
  destruct (map_err g _ w2) as [[?|?] w3]; simpl in *; [|done].
  etrans; [exact H1|]. by etrans.
Qed.

(** A transaction, when only the whole body is related. *)
Lemma within_transaction_body {A} f g (body : M D A) :
  (forall w a w', body w = (Ok a, w') -> R (w_db w) (w_db w')) -> within R (transaction f g body).
Proof using PreOrder0.
  intros Hb w. unfold transaction.
  pose proof (within_map_err f _ (within_query (fun _ => tt)) w) as H1.
  destruct (map_err f _ w) as [[?|?] w1]; [|done]. simpl in H1.
  destruct (body w1) as [[x|?] w2] eqn:E; [|done]. apply Hb in E.
  pose proof (within_map_err g _ (within_query (fun _ => tt)) w2) as H3.
  destruct (map_err g _ w2) as [[?|?] w3]; simpl in *; [|done].
  etrans; [exact H1|]. by etrans.
Qed.

Lemma within_for_each {A} (body : A -> M D unit) l :
  (forall x, x ∈ l -> within R (body x)) -> within R (for_each body l).
Proof using PreOrder0.
  induction l as [|x l IH]; intros Hb; simpl; [apply within_ret|].
  apply within_bind; [apply Hb; left|]. intros _. apply IH. intros y Hy. apply Hb. by right.
Qed.

End within.

(** A transaction that reports an error leaves the data as they were. *)
Lemma transaction_err {D A} f g (body : M D A) w e w' :
  transaction f g body w = (Err e, w') -> w_db w' = w_db w.
Proof.
  unfold transaction. unfold map_err at 1.
  destruct (query (fun _ => tt) w) as [[[]|e1] w1] eqn:E1.
  - apply query_ok in E1 as [_ E1].
    destruct (body w1) as [[a|e2] w2]; [|by intros [= _ <-]].
    destruct (map_err g _ w2) as [[?|?] ?]; [discriminate|]. by intros [= _ <-].
  - apply exec_err in E1. by intros [= _ <-].
Qed.

Lemma transaction_ok {D A} f g (body : M D A) w a w' :
  transaction f g body w = (Ok a, w') ->
  exists w1 w2, w_db w1 = w_db w /\ body w1 = (Ok a, w2) /\ w_db w' = w_db w2.
Proof.
  unfold transaction. unfold map_err at 1.
  destruct (query (fun _ => tt) w) as [[[]|e1] w1] eqn:E1; [|discriminate].
  apply query_ok in E1 as [_ E1].
  destruct (body w1) as [[a1|e2] w2] eqn:E2; [|discriminate].
  unfold map_err. destruct (query (fun _ => tt) w2) as [[[]|?] w3] eqn:E3; [|discriminate].
  apply query_ok in E3 as [_ E3]. intros [= <- <-]. eauto.
Qed.

Lemma transaction_quiet {D A} f g (body : M D A) w :
  quiet w ->
  (forall a w2, body w = (Ok a, w2) -> quiet w2) ->
  transaction f g body w =
    match body w with
    | (Err e, w2) => (Err e, mkWorld (w_env w2) (w_db w))
    | r => r
    end.
Proof.
  intros Hq Hb. unfold transaction. unfold map_err at 1. rewrite query_quiet by done.
  destruct (body w) as [[a|e] w2]; [|done].
  unfold map_err. rewrite query_quiet; [done|eauto].
Qed.

Lemma within_zoom {S D A} (R : relation D) (R' : relation S) (get : S -> D) put (m : M D A) :
  within R m ->
  (forall s d, R (get s) d -> R' s (put d s)) ->
  within R' (zoom get put m).
Proof.
  intros Hm HR w. unfold zoom. specialize (Hm (mkWorld (w_env w) (get (w_db w)))).
  destruct (m _) as [r w1]. simpl in *. by apply HR.
Qed.

Lemma zoom_run {S D A} (get : S -> D) put (m : M D A) w r w' :
  zoom get put m w = (r, w') ->
  exists w1, m (mkWorld (w_env w) (get (w_db w))) = (r, w1) /\ w' = mkWorld (w_env w1) (put (w_db w1) (w_db w)).
Proof. unfold zoom. destruct (m _) as [x w1]. intros [= <- <-]. eauto. Qed.

Lemma zoom_ok {S D A} (get : S -> D) put (m : M D A) w a w' :
  zoom get put m w = (Ok a, w') ->
  exists w1, m (mkWorld (w_env w) (get (w_db w))) = (Ok a, w1) /\ w_db w' = put (w_db w1) (w_db w).
Proof. intros (w1 & H & ->)%zoom_run. eauto. Qed.

Lemma within_ok {D A} (R : relation D) (m : M D A) (w : World D) a w' :
  within R m -> m w = (Ok a, w') -> R (w_db w) (w_db w').
Proof. intros H E. specialize (H w). by rewrite E in H. Qed.

(** ** What an operation may return

    [yields m P]: whenever [m] returns, what it returns satisfies [P]. *)
Definition yields {D A} (m : M D A) (P : A -> Prop) : Prop := forall w a w', m w = (Ok a, w') -> P a.

Section yields.
Context {D : Type}.

Lemma yields_ret {A} (a : A) (P : A -> Prop) : P a -> yields (D := D) (mret a) P.
Proof. by intros HP w b w' [= <- _]. Qed.

Lemma yields_fail {A} e (P : A -> Prop) : yields (D := D) (fail e) P.
Proof. by intros w b w'. Qed.

Lemma yields_bind {A B} (m : M D A) (k : A -> M D B) (P : B -> Prop) :
  (forall a, yields (k a) P) -> yields (m ≫= k) P.
Proof. intros Hk w b w' (a & w1 & _ & H)%bind_ok. by eapply Hk. Qed.

(** The cut rule: what the first part returns may be used. *)
Lemma yields_cut {A B} (m : M D A) (k : A -> M D B) (Q : A -> Prop) (P : B -> Prop) :
  yields m Q -> (forall a, Q a -> yields (k a) P) -> yields (m ≫= k) P.
Proof. intros Hm Hk w b w' (a & w1 & H1 & H)%bind_ok. eapply Hk; [by eapply Hm|done]. Qed.

Lemma yields_try_or {A B} f (m : M D A) (k : A -> M D B) (P : B -> Prop) :
  (forall e, P (f e)) -> (forall a, yields (k a) P) -> yields (try_or f m k) P.
Proof. intros Hf Hk w b w' [(e & _ & ->)|(a & w1 & _ & H)]%try_or_ok; [done|by eapply Hk]. Qed.
End yields.

(** ** What an operation may fail with *)

Definition fails {D A} (m : M D A) (P : error -> Prop) : Prop := forall w e w', m w = (Err e, w') -> P e.

Section fails.
Context {D : Type} (P : error -> Prop).

Lemma fails_ret {A} (a : A) : fails (D := D) (mret a) P.
Proof. by intros w e w'. Qed.

Lemma fails_fail {A} e : P e -> fails (D := D) (fail (A := A) e) P.
Proof. by intros H w e' w' [= <- _]. Qed.

Lemma fails_new_uuid : fails (D := D) new_uuid P.
Proof. by intros w e w'. Qed.

Lemma fails_bind {A B} (m : M D A) (k : A -> M D B) : fails m P -> (forall a, fails (k a) P) -> fails (a ← m; k a) P.
Proof. intros Hm Hk w e w' [H|(a & w1 & _ & H)]%bind_err; [by eapply Hm|by eapply Hk]. Qed.

Lemma fails_map_err {A} (Q : error -> Prop) f (m : M D A) :
  (forall e, Q e -> P (f e)) -> fails m Q -> fails (map_err f m) P.
Proof.
  unfold map_err. intros Hf Hm w e w' H. destruct (m w) as [[a|e1] w1] eqn:E; [done|]. injection H as <- <-. eauto.
Qed.

Lemma fails_exec_at {A} (stmt : Z -> D -> string + (A * D)) : (forall t, P (Driver t)) -> fails (exec_at stmt) P.
Proof.
  intros HP w e w' H. unfold exec_at in H. destruct (env_step _) as [[t|] e']; [by injection H as <- _|].
  destruct (stmt _ (w_db w)) as [t|[a1 d1]]; [by injection H as <- _|done].
Qed.

Lemma fails_rand_read : (forall t, P (Driver t)) -> fails (D := D) rand_read P.
Proof.
  intros HP w e w' H. unfold rand_read in H. destruct (env_step _) as [[t|] e']; [by injection H as <- _|].
  by destruct (env_draw _).
Qed.

End fails.

(** ** The environment only moves forward

    Time does not go back, the supplies are consumed in order, and once the
    schedule is exhausted it stays so. *)
Record env_le (e e' : Env) : Prop := {
  le_clock : (env_clock e <= env_clock e')%Z;
  le_draws : (env_draws e <= env_draws e')%N;
  le_uuid : env_uuid e' = env_uuid e;
  le_bytes : env_bytes e' = env_bytes e;
  le_quiet : env_sched e = [] -> env_sched e' = [];
}.

#[global] Instance env_le_preorder : PreOrder env_le.
Proof.
  split; [intros e; split; done || lia|]. intros e1 e2 e3 [] [].
  split; [lia|lia|congruence|congruence|auto].
Qed.

Definition forward {D A} (m : M D A) : Prop := forall w, env_le (w_env w) (w_env (m w).2).

Lemma env_step_le e : env_le e (env_step e).2.
Proof. unfold env_step. destruct (env_sched e) eqn:E; [reflexivity|]. split; simpl; try done; [lia|by rewrite E]. Qed.

Lemma env_draw_le e : env_le e (env_draw e).2.
Proof. split; simpl; try done; lia. Qed.

Section forward.
Context {D : Type}.

Lemma forward_ret {A} (a : A) : forward (D := D) (mret a).
Proof. intros w. reflexivity. Qed.
Lemma forward_fail {A} e : forward (D := D) (fail (A := A) e).
Proof. intros w. reflexivity. Qed.
Lemma forward_now : forward (D := D) now.
Proof. intros w. reflexivity. Qed.
Lemma forward_new_uuid : forward (D := D) new_uuid.
Proof. intros w. apply env_draw_le. Qed.
Lemma forward_rand_read : forward (D := D) rand_read.
Proof.
  intros w. unfold rand_read. pose proof (env_step_le (w_env w)) as H1.
  destruct (env_step (w_env w)) as [[?|] e]; simpl in *; [done|].
  etrans; [exact H1|]. apply env_draw_le.
Qed.
Lemma forward_exec_at {A} (stmt : Z -> D -> string + (A * D)) : forward (exec_at stmt).
Proof.
  intros w. unfold exec_at. pose proof (env_step_le (w_env w)) as H1.
  destruct (env_step (w_env w)) as [[?|] e]; simpl in *; [done|].
  by destruct (stmt _ _) as [?|[? ?]].
Qed.
Lemma forward_bind {A B} (m : M D A) (k : A -> M D B) :
  forward m -> (forall a, forward (k a)) -> forward (m ≫= k).
Proof.
  intros Hm Hk w. unfold mbind, M_bind. specialize (Hm w).
  destruct (m w) as [[a|e] w1]; [|done]. etrans; [exact Hm|apply Hk].
Qed.
Lemma forward_try_or {A B} (f : error -> B) (m : M D A) (k : A -> M D B) :
  forward m -> (forall a, forward (k a)) -> forward (try_or f m k).
Proof.
  intros Hm Hk w. unfold try_or. specialize (Hm w).
  destruct (m w) as [[a|e] w1]; [|done]. etrans; [exact Hm|apply Hk].
Qed.
Lemma forward_map_err {A} f (m : M D A) : forward m -> forward (map_err f m).
Proof. intros Hm w. specialize (Hm w). unfold map_err. by destruct (m w) as [[?|?] ?]. Qed.
Lemma forward_attempt {A} (m : M D A) : forward m -> forward (attempt m).
Proof. intros Hm w. rewrite attempt_run. apply Hm. Qed.
Lemma forward_transaction {A} f g (body : M D A) : forward body -> forward (transaction f g body).
Proof.
  intros Hb w. unfold transaction.
  pose proof (forward_map_err f _ (forward_exec_at (fun _ d => inr (tt, d))) w) as H1.
  change (exec_at (fun _ d => inr (tt, d))) with (query (fun _ : D => tt)) in H1.
  destruct (map_err f _ w) as [[?|?] w1]; [|done]. simpl in H1.
  pose proof (Hb w1) as H2. destruct (body w1) as [[x|?] w2]; [|by etrans]. simpl in H2.
  pose proof (forward_map_err g _ (forward_exec_at (fun _ d => inr (tt, d))) w2) as H3.
  change (exec_at (fun _ d => inr (tt, d))) with (query (fun _ : D => tt)) in H3.
  destruct (map_err g _ w2) as [[?|?] w3]; simpl in *; (etrans; [exact H1|by etrans]).
Qed.
Lemma forward_for_each {A} (body : A -> M D unit) l :
  (forall x, forward (body x)) -> forward (for_each body l).
Proof.
  intros Hb. induction l as [|x l IH]; simpl; [apply forward_ret|].
  apply forward_bind; auto.
Qed.
End forward.

Lemma forward_zoom {S D A} (get : S -> D) put (m : M D A) : forward m -> forward (zoom get put m).
Proof.
  intros Hm w. unfold zoom. specialize (Hm (mkWorld (w_env w) (get (w_db w)))).
  by destruct (m _) as [r w1].
Qed.

Lemma forward_run {D A} (m : M D A) w r w' : forward m -> m w = (r, w') -> env_le (w_env w) (w_env w').
Proof. intros Hm H. specialize (Hm w). by rewrite H in Hm. Qed.

Lemma forward_quiet {D A} (m : M D A) w : forward m -> quiet w -> quiet (m w).2.
Proof. intros Hm Hq. by apply (Hm w). Qed.

Create HintDb forward.

Ltac forward_step :=
  match goal with
  | |- forall _, _ => intros ?
  | |- forward (match ?x with _ => _ end) => destruct x
  | |- forward (mret _) => apply forward_ret
  | |- forward (fail _) => apply forward_fail
  | |- forward now => apply forward_now
  | |- forward new_uuid => apply forward_new_uuid
  | |- forward rand_read => apply forward_rand_read
  | |- forward (_ ≫= _) => apply forward_bind
  | |- forward (try_or _ _ _) => apply forward_try_or
  | |- forward (wrapping _ _) => apply forward_map_err
  | |- forward (map_err _ _) => apply forward_map_err
  | |- forward (attempt _) => apply forward_attempt
  | |- forward (transaction _ _ _) => apply forward_transaction
  | |- forward (for_each _ _) => apply forward_for_each
  | |- forward (zoom _ _ _) => apply forward_zoom
  | |- forward (query _) => apply forward_exec_at
  | |- forward (update _) => apply forward_exec_at
  | |- forward (exec _) => apply forward_exec_at
  | |- forward (exec_at _) => apply forward_exec_at
  | |- forward _ => solve [eauto with forward nocore]
  end.

Ltac forward_solve := repeat forward_step.

(** ** Automation

    [within_solve] walks down a program and leaves the obligations of its
    statements; a component adds the lemmas about its own operations to the
    [within] hint database. *)
Create HintDb within.
#[export] Hint Resolve within_ret within_fail within_now within_new_uuid
  within_rand_read within_query within_map_err within_attempt
  within_transaction : within.

Ltac within_step :=
  match goal with
  | |- forall _, _ => intros ?
  | |- within _ (match ?x with _ => _ end) => destruct x
  | |- within _ (mret _) => apply within_ret; try first [assumption | exact _]
  | |- within _ (fail _) => apply within_fail; try first [assumption | exact _]
  | |- within _ now => apply within_now; try first [assumption | exact _]
  | |- within _ new_uuid => apply within_new_uuid; try first [assumption | exact _]
  | |- within _ rand_read => apply within_rand_read; try first [assumption | exact _]
  | |- within _ (query _) => apply within_query; try first [assumption | exact _]
  | |- within _ (_ ≫= _) => apply within_bind; [try first [assumption | exact _]| |]
  | |- within _ (try_or _ _ _) => apply within_try_or; [try first [assumption | exact _]| |]
  | |- within _ (wrapping _ _) => apply within_map_err; try first [assumption | exact _]
  | |- within _ (map_err _ _) => apply within_map_err; try first [assumption | exact _]
  | |- within _ (attempt _) => apply within_attempt; try first [assumption | exact _]
  | |- within _ (transaction _ _ _) => apply within_transaction; [try first [assumption | exact _]|]
  | |- within _ (for_each _ _) => apply within_for_each; [try first [assumption | exact _]|intros ? ?]
  | |- within _ (update _) => apply within_update; [try first [assumption | exact _]|intros ?]
  | |- within _ (exec_at _) => apply within_exec_at; [try first [assumption | exact _]|intros ? ? ? ? ?]
  | |- within _ (exec _) => apply within_exec; [try first [assumption | exact _]|intros ? ? ? ?]
  | |- within _ _ => solve [eauto with within nocore typeclass_instances]
  end.

Ltac within_solve := repeat within_step.

(** Invert a run that is known to have succeeded, one statement at a time. *)
Ltac run_inv_step :=
  match goal with
  | H : (_ ≫= _) _ = (Ok _, _) |- _ =>
      let a := fresh "r" in let w1 := fresh "w" in let H1 := fresh "Hrun" in
      apply bind_ok in H as (a & w1 & H1 & H)
  | H : wrapping _ _ _ = (Ok _, _) |- _ => apply map_err_ok in H
  | H : map_err _ _ _ = (Ok _, _) |- _ => apply map_err_ok in H
  | H : mret _ _ = (Ok _, _) |- _ => apply mret_ok in H as [? ?]; subst
  | H : fail _ _ = (Ok _, _) |- _ => discriminate H
  | H : now _ = (Ok _, _) |- _ => injection H as ? ?; subst
  | H : query _ _ = (Ok _, _) |- _ =>
      let H' := fresh "Hdb" in apply query_ok in H as [? H']; subst
  | H : update _ _ = (Ok _, _) |- _ => apply update_ok in H
  | H : exec _ _ = (Ok _, _) |- _ => apply exec_ok in H
  | H : exec_at _ _ = (Ok _, _) |- _ => apply exec_at_ok in H
  | H : attempt _ _ = (Ok _, _) |- _ => rewrite attempt_run in H; injection H as ? ?; subst
  | H : Ok _ = Ok _ |- _ => injection H as H; subst
  | H : Err _ = Err _ |- _ => injection H as H; subst
  | H : (_, _) = (_, _) |- _ => injection H as ? ?; subst
  | H : inr _ = inr _ |- _ => injection H as H; subst
  | H : inl _ = inr _ |- _ => discriminate H
  | H : inr _ = inl _ |- _ => discriminate H
  end.

Ltac run_inv := repeat run_inv_step.

(** ** Lists *)

Lemma filter_all {A} (P : A -> Prop) `{!forall x, Decision (P x)} (l : list A) :
  Forall P l -> filter P l = l.
Proof. induction 1; [done|]. rewrite filter_cons_True by done. by f_equal. Qed.

Lemma filter_none {A} (P : A -> Prop) `{!forall x, Decision (P x)} (l : list A) :
  Forall (fun x => ~ P x) l -> filter P l = [].
Proof. induction 1; [done|]. by rewrite filter_cons_False. Qed.

Lemma filter_weaken {A} (P Q : A -> Prop) `{!forall x, Decision (P x)} `{!forall x, Decision (Q x)} (l : list A) :
  (forall x, x ∈ l -> P x -> Q x) -> filter Q (filter P l) = filter P l.
Proof.
  intros Hw. apply filter_all, Forall_forall. intros x [Hp Hx]%list_elem_of_filter. eauto.
Qed.

Lemma filter_ext_in {A} (P Q : A -> Prop) `{!forall x, Decision (P x)} `{!forall x, Decision (Q x)} (l : list A) :
  (forall x, x ∈ l -> P x <-> Q x) -> filter P l = filter Q l.
Proof.
  induction l as [|x l IH]; intros Hl; [done|].
  assert (filter P l = filter Q l) as Hr by (apply IH; intros y Hy; apply Hl; by right).
  assert (P x <-> Q x) as Hx by (apply Hl; left).
  destruct (decide (P x)).
  - rewrite !filter_cons_True by tauto. by f_equal.
  - by rewrite !filter_cons_False by tauto.
Qed.

Lemma filter_fmap {A B} (f : A -> B) (P : B -> Prop) `{!forall x, Decision (P x)} (l : list A) :
  filter P (f <$> l) = f <$> filter (fun x => P (f x)) l.
Proof.
  induction l as [|x l IH]; [done|]. rewrite fmap_cons. destruct (decide (P (f x))).
  - rewrite !filter_cons_True by done. by rewrite fmap_cons, IH.
  - by rewrite !filter_cons_False by done.
Qed.

Lemma elem_of_key_filter {A K} (f : A -> K) (P : K -> Prop) `{!forall x, Decision (P (f x))} (l : list A) v :
  v ∈ f <$> filter (fun x => P (f x)) l <-> P v /\ v ∈ f <$> l.
Proof.
  rewrite !list_elem_of_fmap. split.
  - intros (x & -> & [HP Hx]%list_elem_of_filter). eauto.
  - intros (HP & x & -> & Hx). exists x. split; [done|]. by apply list_elem_of_filter.
Qed.

Lemma filter_split_perm {A} (P : A -> Prop) `{!forall x, Decision (P x)} (l : list A) :
  filter (fun x => ~ P x) l ++ filter P l ≡ₚ l.
Proof.
  induction l as [|x l IH]; [done|]. destruct (decide (P x)).
  - rewrite (filter_cons_False (fun y => ~ P y)) by tauto. rewrite filter_cons_True by done.
    rewrite <- Permutation_middle. by constructor.
  - rewrite filter_cons_True by done. rewrite (filter_cons_False P) by done. simpl. by constructor.
Qed.

(** The elements of an upward closed set come first in a sorted list. *)
Lemma take_upper {A} (R : relation A) (P : A -> Prop) `{!forall x, Decision (P x)} (l : list A) :
  StronglySorted R l -> (forall x y, x ∈ l -> y ∈ l -> R x y -> P y -> P x) ->
  take (length (filter P l)) l = filter P l.
Proof.
  induction 1 as [|x l Hs IH Hx]; intros HP; [done|]. destruct (decide (P x)).
  - rewrite filter_cons_True by done. simpl. f_equal. apply IH.
    intros a b Ha Hb. apply HP; by right.
  - rewrite filter_cons_False by done. rewrite filter_none; [done|].
    rewrite Forall_forall in Hx. apply Forall_forall. intros y Hy HPy.
    apply n, (HP x y); [left|by right|auto|done].
Qed.

(** The first row a predicate accepts. *)
Definition find_row {A} (P : A -> Prop) `{!forall x, Decision (P x)} (l : list A) : option A :=
  head (filter P l).

Lemma find_row_Some {A} (P : A -> Prop) `{!forall x, Decision (P x)} (l : list A) x :
  find_row P l = Some x -> x ∈ l /\ P x.
Proof.
  unfold find_row. destruct (filter P l) as [|y r] eqn:E; [discriminate|]. intros [= ->].
  assert (x ∈ filter P l) as Hin by (rewrite E; left).
  apply list_elem_of_filter in Hin. tauto.
Qed.

Lemma find_row_None {A} (P : A -> Prop) `{!forall x, Decision (P x)} (l : list A) :
  find_row P l = None -> forall x, x ∈ l -> ~ P x.
Proof.
  unfold find_row. destruct (filter P l) as [|y r] eqn:E; [|discriminate].
  intros _ x Hx HP. assert (x ∈ filter P l) as Hin by (apply list_elem_of_filter; done).
  rewrite E in Hin. by apply elem_of_nil in Hin.
Qed.

Lemma find_row_is_Some {A} (P : A -> Prop) `{!forall x, Decision (P x)} (l : list A) x :
  x ∈ l -> P x -> is_Some (find_row P l).
Proof.
  intros Hx HP. destruct (find_row P l) eqn:E; [by eexists|].
  by destruct (find_row_None _ _ E x Hx).
Qed.

(** The rows of [l] have pairwise distinct values of the key [f]. *)
Definition unique_on {A K} (f : A -> K) (l : list A) : Prop := NoDup (f <$> l).

Lemma unique_on_eq {A K} (f : A -> K) (l : list A) x y :
  unique_on f l -> x ∈ l -> y ∈ l -> f x = f y -> x = y.
Proof.
  unfold unique_on. induction l as [|z l IH]; intros Hnd Hx Hy Hf; [by apply elem_of_nil in Hx|].
  rewrite fmap_cons in Hnd. apply NoDup_cons in Hnd as [Hz Hnd].
  apply elem_of_cons in Hx as [->|Hx]; apply elem_of_cons in Hy as [->|Hy]; [done| | |by apply IH].
  - destruct Hz. rewrite Hf. by apply list_elem_of_fmap_2.
  - destruct Hz. rewrite <- Hf. by apply list_elem_of_fmap_2.
Qed.

Lemma find_row_unique {A K} `{!EqDecision K} (f : A -> K) (P : A -> Prop) `{HP : forall x, Decision (P x)} k l x :
  unique_on f l -> (forall y, P y <-> f y = k) -> x ∈ l -> P x -> find_row P l = Some x.
Proof.
  intros Hu Hk Hx Px. destruct (find_row_is_Some P l x Hx Px) as [y Hy].
  apply find_row_Some in Hy as Hy'. destruct Hy' as [Hin Py]. rewrite Hy. f_equal.
  apply (unique_on_eq f l); [done..|]. by rewrite (proj1 (Hk y) Py), (proj1 (Hk x) Px).
Qed.

Lemma unique_on_filter {A K} (f : A -> K) (P : A -> Prop) `{!forall x, Decision (P x)} (l : list A) :
  unique_on f l -> unique_on f (filter P l).
Proof.
  unfold unique_on. induction l as [|z l IH]; [done|].
  rewrite fmap_cons. intros [Hz Hnd]%NoDup_cons. destruct (decide (P z)).
  - rewrite filter_cons_True by done. rewrite fmap_cons. apply NoDup_cons. split; [|auto].
    intros (y & Hfy & Hy)%list_elem_of_fmap. apply list_elem_of_filter in Hy as [_ Hy].
    destruct Hz. rewrite Hfy. by apply list_elem_of_fmap_2.
  - rewrite filter_cons_False by done. auto.
Qed.

Lemma unique_on_snoc {A K} (f : A -> K) (l : list A) x :
  unique_on f l -> (forall y, y ∈ l -> f y <> f x) -> unique_on f (l ++ [x]).
Proof.
  unfold unique_on. intros Hnd Hx. rewrite fmap_app. apply NoDup_app. split_and!; [done| |].
  - intros k (y & -> & Hy)%list_elem_of_fmap Hk. simpl in Hk.
    apply list_elem_of_singleton in Hk. by apply (Hx y).
  - apply NoDup_singleton.
Qed.

Lemma unique_on_map {A K} (f : A -> K) (g : A -> A) (l : list A) :
  (forall x, f (g x) = f x) -> unique_on f l -> unique_on f (g <$> l).
Proof.
  unfold unique_on. intros Hg. rewrite <- list_fmap_compose.
  by rewrite (list_fmap_ext (f ∘ g) f) by (intros; apply Hg).
Qed.

Lemma unique_on_insert {A K} (f : A -> K) (l : list A) x :
  unique_on f l -> f x ∉ f <$> l -> unique_on f (l ++ [x]).
Proof.
  intros Hu Hx. apply unique_on_snoc; [done|]. intros y Hy Heq. apply Hx.
  rewrite <- Heq. by apply list_elem_of_fmap_2.
Qed.

Lemma Forall_filter_sub {A} (P Q : A -> Prop) `{!forall x, Decision (Q x)} (l : list A) :
  Forall P l -> Forall P (filter Q l).
Proof. rewrite !Forall_forall. intros Hl x [_ Hx]%list_elem_of_filter. auto. Qed.

Lemma fmap_same {A B} (f : A -> B) (g : A -> A) (l : list A) :
  (forall x, f (g x) = f x) -> f <$> (g <$> l) = f <$> l.
Proof. intros H. rewrite <- list_fmap_compose. apply list_fmap_ext. intros. apply H. Qed.

(** Every foreign key still resolves when the referenced keys only grow. *)
Lemma Forall_key_mono {A K} (f : A -> K) (l : list A) (ks ks' : list K) :
  (forall k, k ∈ ks -> k ∈ ks') -> Forall (fun r => f r ∈ ks) l -> Forall (fun r => f r ∈ ks') l.
Proof. intros Hs Hl. eapply Forall_impl; [exact Hl|]. simpl. auto. Qed.

(** ** Evaluation on concrete inputs *)

(** An environment in which nothing fails, at time [t]; the random supply always
    delivers the same bytes. *)
Definition sample_env (t : Z) : Env :=
  mkEnv [] t 0 (fun n => "id-" +:+ pretty n) (fun _ => "0123456789abcdef0123456789abcdef").

Definition sample_world {D} (t : Z) (d : D) : World D := mkWorld (sample_env t) d.

(** Decide a closed proposition by running its decision procedure. *)
Ltac evaluate := apply (bool_decide_unpack _); vm_compute; exact I.

(** ** Counting rows by a key *)

Lemma unique_filter_le1 {A K} `{!EqDecision K} (f : A -> K) (l : list A) (k : K) :
  unique_on f l -> length (filter (fun x => f x = k) l) <= 1.
Proof.
  intros Hu. destruct (filter _ l) as [|x [|y r]] eqn:E; simpl; [lia|lia|].
  assert (unique_on f (x :: y :: r)) as Hu' by (rewrite <- E; by apply unique_on_filter).
  assert (forall z, z ∈ x :: y :: r -> f z = k) as Hk.
  { intros z Hz. rewrite <- E in Hz. by apply list_elem_of_filter in Hz as [? _]. }
  unfold unique_on in Hu'. rewrite !fmap_cons in Hu'. apply NoDup_cons in Hu' as [Hn _].
  destruct Hn. rewrite (Hk x), (Hk y); set_solver.
Qed.

Lemma filter_delete_length {A K} `{!EqDecision K} (f : A -> K) (P : A -> Prop) `{!forall x, Decision (P x)} (l : list A) (k : K) :
  unique_on f l -> length (filter P l) <= S (length (filter P (filter (fun x => f x <> k) l))).
Proof.
  intros Hu. rewrite <- (filter_split_perm (fun x => f x = k) (filter P l)), length_app.
  assert (length (filter (fun x => f x = k) (filter P l)) <= 1) as H1
    by (by apply unique_filter_le1, unique_on_filter).
  rewrite !list_filter_filter.
  rewrite (filter_ext_in (fun x => P x /\ f x <> k) (fun x => f x <> k /\ P x)) by (intros; tauto).
  rewrite list_filter_filter in H1. lia.
Qed.
