(* ===== verification/GoStrings.v ===== *)
(** * The parts of Go's [strings], [strconv], [sort] and [regexp] the program uses

    A Go string is a sequence of bytes, here [string] (a sequence of 8-bit
    [ascii]).  The case and space functions are those of the ASCII range, which
    is what every identifier, keyword and marker in the program is made of;
    bytes from 0x80 up are left alone.  Regular expressions are a syntax with a
    matcher by derivatives, proved against their languages. *)

From S2P Require Import Prelude.

(** ** Bytes *)

Definition byte_n (c : ascii) : N := N_of_ascii c.

Definition byte_eqb (a b : ascii) : bool := Ascii.eqb a b.

Definition in_range (lo hi : N) (c : ascii) : bool := ((lo <=? byte_n c) && (byte_n c <=? hi))%N.

Definition is_digit : ascii -> bool := in_range 48 57.
Definition is_lower : ascii -> bool := in_range 97 122.
Definition is_upper : ascii -> bool := in_range 65 90.

(** [unicode.IsSpace] on ASCII: tab, newline, vertical tab, form feed,
    carriage return, space. *)
Definition is_space (c : ascii) : bool := in_range 9 13 c || (byte_n c =? 32)%N.

(** The regexp class [\s]: no vertical tab. *)
Definition re_space (c : ascii) : bool := is_space c && negb (byte_n c =? 11)%N.

Definition lower_byte (c : ascii) : ascii :=
  if is_upper c then ascii_of_N (byte_n c + 32) else c.
Definition upper_byte (c : ascii) : ascii :=
  if is_lower c then ascii_of_N (byte_n c - 32) else c.

Definition newline : ascii := ascii_of_nat 10.
Definition dquote : ascii := ascii_of_nat 34.
Definition backslash : ascii := ascii_of_nat 92.

Definition one (c : ascii) : string := String c EmptyString.

(** ** strings *)

Fixpoint smap (f : ascii -> ascii) (s : string) : string :=
  match s with
  | EmptyString => EmptyString
  | String c r => String (f c) (smap f r)
  end.

Definition ToLower : string -> string := smap lower_byte.
Definition ToUpper : string -> string := smap upper_byte.

Fixpoint sall (p : ascii -> bool) (s : string) : bool :=
  match s with
  | EmptyString => true
  | String c r => p c && sall p r
  end.

Fixpoint TrimLeftFunc (p : ascii -> bool) (s : string) : string :=
  match s with
  | EmptyString => EmptyString
  | String c r => if p c then TrimLeftFunc p r else s
  end.

Fixpoint TrimRightFunc (p : ascii -> bool) (s : string) : string :=
  match s with
  | EmptyString => EmptyString
  | String c r =>
      match TrimRightFunc p r with
      | EmptyString => if p c then EmptyString else one c
      | r' => String c r'
      end
  end.

Definition TrimFunc (p : ascii -> bool) (s : string) : string :=
  TrimRightFunc p (TrimLeftFunc p s).

Definition TrimSpace : string -> string := TrimFunc is_space.

(** [strings.CutPrefix]. *)
Fixpoint CutPrefix (s p : string) {struct p} : option string :=
  match p, s with
  | EmptyString, _ => Some s
  | String a p', String b s' => if byte_eqb a b then CutPrefix s' p' else None
  | String _ _, EmptyString => None
  end.

Definition HasPrefix (s p : string) : bool :=
  match CutPrefix s p with Some _ => true | None => false end.

Definition TrimPrefix (s p : string) : string :=
  match CutPrefix s p with Some r => r | None => s end.

(** [strings.Index]. *)
Fixpoint Index (s sub : string) : option nat :=
  if HasPrefix s sub then Some 0
  else match s with
       | EmptyString => None
       | String _ r => S <$> Index r sub
       end.

Definition Contains (s sub : string) : bool :=
  match Index s sub with Some _ => true | None => false end.

Fixpoint IndexFunc (p : ascii -> bool) (s : string) : option nat :=
  match s with
  | EmptyString => None
  | String c r => if p c then Some 0 else S <$> IndexFunc p r
  end.

Fixpoint LastIndexFunc (p : ascii -> bool) (s : string) : option nat :=
  match s with
  | EmptyString => None
  | String c r =>
      match LastIndexFunc p r with
      | Some i => Some (S i)
      | None => if p c then Some 0 else None
      end
  end.

(** [s[:n]] and [s[n:]] for [n <= len(s)]. *)
Fixpoint stake (n : nat) (s : string) : string :=
  match n, s with
  | S n', String c r => String c (stake n' r)
  | _, _ => EmptyString
  end.

Fixpoint sdrop (n : nat) (s : string) : string :=
  match n, s with
  | S n', String _ r => sdrop n' r
  | _, _ => s
  end.

(** [strings.HasSuffix(s, c)] for a one-byte suffix. *)
Fixpoint HasSuffixByte (c : ascii) (s : string) : bool :=
  match s with
  | EmptyString => false
  | String x EmptyString => byte_eqb x c
  | String _ r => HasSuffixByte c r
  end.

(** [strings.Split(s, c)] for a one-byte separator: never empty. *)
Fixpoint Split (c : ascii) (s : string) : list string :=
  match s with
  | EmptyString => [EmptyString]
  | String x r =>
      if byte_eqb x c then EmptyString :: Split c r
      else match Split c r with
           | [] => [one x]
           | w :: ws => String x w :: ws
           end
  end.

Fixpoint Join (sep : string) (l : list string) : string :=
  match l with
  | [] => EmptyString
  | [x] => x
  | x :: r => x +:+ sep +:+ Join sep r
  end.

(** [strings.Fields]: the maximal runs of non-space bytes. *)
Fixpoint fields_aux (s cur : string) : list string :=
  match s with
  | EmptyString => if bool_decide (cur = EmptyString) then [] else [cur]
  | String c r =>
      if is_space c then
        if bool_decide (cur = EmptyString) then fields_aux r EmptyString
        else cur :: fields_aux r EmptyString
      else fields_aux r (cur +:+ one c)
  end.
Definition Fields (s : string) : list string := fields_aux s EmptyString.

(** [strings.ReplaceAll(s, c, by)] for a one-byte [c]. *)
Fixpoint ReplaceByte (c : ascii) (by_ : string) (s : string) : string :=
  match s with
  | EmptyString => EmptyString
  | String x r => (if byte_eqb x c then by_ else one x) +:+ ReplaceByte c by_ r
  end.

Definition EqualFold (a b : string) : bool := bool_decide (ToLower a = ToLower b).

(** ** strconv *)

Definition digit_val (c : ascii) : Z := Z.of_N (byte_n c) - 48.

Fixpoint digits_val (acc : Z) (s : string) : Z :=
  match s with
  | EmptyString => acc
  | String c r => digits_val (acc * 10 + digit_val c) r
  end.

Definition max_int64 : Z := 9223372036854775807.
Definition min_int64 : Z := -9223372036854775808.

(** The value an int is left with: arithmetic on ints wraps around. *)
Definition wrap_int64 (z : Z) : Z := ((z - min_int64) mod 2 ^ 64 + min_int64)%Z.

(** [strconv.Atoi]: an optional sign, at least one decimal digit, no other
    byte, and a value that fits [int] (64 bits). *)
Definition Atoi (s : string) : option Z :=
  let '(neg, body) :=
    match s with
    | String c r =>
        if byte_eqb c "-" then (true, r)
        else if byte_eqb c "+" then (false, r) else (false, s)
    | EmptyString => (false, s)
    end in
  if bool_decide (body = EmptyString) || negb (sall is_digit body) then None
  else
    let v := digits_val 0 body in
    let v := if (neg : bool) then (- v)%Z else v in
    if ((min_int64 <=? v) && (v <=? max_int64))%Z then Some v else None.

(** [strconv.Itoa], [%d]. *)
Definition Itoa (z : Z) : string := pretty z.

Definition hex_digit (n : N) : ascii :=
  if (n <? 10)%N then ascii_of_N (n + 48) else ascii_of_N (n + 87).

Definition hex_byte (c : ascii) : string :=
  String (hex_digit (byte_n c / 16)) (one (hex_digit (byte_n c mod 16))).

Fixpoint hex_encode (s : string) : string :=
  match s with
  | EmptyString => EmptyString
  | String c r => hex_byte c +:+ hex_encode r
  end.

(** One byte under the verb [%q]. *)
Definition quote_byte (c : ascii) : string :=
  let n := byte_n c in
  let esc (x : ascii) := String backslash (one x) in
  if byte_eqb c dquote || byte_eqb c backslash then esc c
  else if (n =? 7)%N then esc "a"%char
  else if (n =? 8)%N then esc "b"%char
  else if (n =? 9)%N then esc "t"%char
  else if (n =? 10)%N then esc "n"%char
  else if (n =? 11)%N then esc "v"%char
  else if (n =? 12)%N then esc "f"%char
  else if (n =? 13)%N then esc "r"%char
  else if (n <? 32)%N || (n =? 127)%N then esc "x"%char +:+ hex_byte c
  else one c.

Fixpoint quote_body (s : string) : string :=
  match s with
  | EmptyString => EmptyString
  | String c r => quote_byte c +:+ quote_body r
  end.

(** The verb [%q] of a string. *)
Definition Quote (s : string) : string := one dquote +:+ quote_body s +:+ one dquote.

(** ** sort.Strings: the byte-wise order *)

Fixpoint str_leb (a b : string) : bool :=
  match a, b with
  | EmptyString, _ => true
  | String _ _, EmptyString => false
  | String x a', String y b' =>
      (byte_n x <? byte_n y)%N || ((byte_n x =? byte_n y)%N && str_leb a' b')
  end.

Definition str_le (a b : string) : Prop := str_leb a b = true.

#[global] Instance str_le_dec : RelDecision str_le := fun a b => decide (str_leb a b = true).

Definition sort_strings (l : list string) : list string := merge_sort str_le l.

(** ** regexp *)

Inductive re : Type :=
| REmpty
| REps
| RChr (p : ascii -> bool)
| RSeq (a b : re)
| RAlt (a b : re)
| RStar (a : re).

Definition RPlus (a : re) : re := RSeq a (RStar a).
Definition RByte (c : ascii) : re := RChr (byte_eqb c).

Fixpoint nullable (r : re) : bool :=
  match r with
  | REmpty | RChr _ => false
  | REps | RStar _ => true
  | RSeq a b => nullable a && nullable b
  | RAlt a b => nullable a || nullable b
  end.

Fixpoint deriv (c : ascii) (r : re) : re :=
  match r with
  | REmpty | REps => REmpty
  | RChr p => if p c then REps else REmpty
  | RSeq a b =>
      if nullable a then RAlt (RSeq (deriv c a) b) (deriv c b)
      else RSeq (deriv c a) b
  | RAlt a b => RAlt (deriv c a) (deriv c b)
  | RStar a => RSeq (deriv c a) (RStar a)
  end.

(** [MatchString] of an expression anchored at both ends. *)
Fixpoint re_match (r : re) (s : string) : bool :=
  match s with
  | EmptyString => nullable r
  | String c s' => re_match (deriv c r) s'
  end.

Inductive re_lang : re -> string -> Prop :=
| lang_eps : re_lang REps EmptyString
| lang_chr p c : p c = true -> re_lang (RChr p) (one c)
| lang_seq a b s t : re_lang a s -> re_lang b t -> re_lang (RSeq a b) (s +:+ t)
| lang_alt_l a b s : re_lang a s -> re_lang (RAlt a b) s
| lang_alt_r a b s : re_lang b s -> re_lang (RAlt a b) s
| lang_star_nil a : re_lang (RStar a) EmptyString
| lang_star_cons a c s t :
    re_lang a (String c s) -> re_lang (RStar a) t -> re_lang (RStar a) (String c s +:+ t).

(** The numeric prefix of a migration file name: what the group of the
    expression [^(\d+)_] captures. *)
Fixpoint span_digits (s : string) : string * string :=
  match s with
  | EmptyString => (EmptyString, EmptyString)
  | String c r =>
      if is_digit c then let '(d, t) := span_digits r in (String c d, t)
      else (EmptyString, s)
  end.

Definition number_prefix (s : string) : option string :=
  match span_digits s with
  | (EmptyString, _) => None
  | (d, String c _) => if byte_eqb c "_" then Some d else None
  | (_, EmptyString) => None
  end.

(** ** Lemmas: append *)

Lemma sapp_assoc a b c : a +:+ b +:+ c = (a +:+ b) +:+ c.
Proof. induction a; simpl; [done|]. by f_equal. Qed.

Lemma sapp_nil_r a : a +:+ EmptyString = a.
Proof. induction a; simpl; [done|]. by f_equal. Qed.

Lemma slength_app a b : String.length (a +:+ b) = String.length a + String.length b.
Proof. induction a as [|c a IH]; cbn; [done|]. by rewrite IH. Qed.

Lemma sapp_inj_l a b c : a +:+ b = a +:+ c -> b = c.
Proof. induction a; simpl; [done|]. intros [= ?]. auto. Qed.

Lemma sall_app p a b : sall p (a +:+ b) = sall p a && sall p b.
Proof. induction a; simpl; [done|]. rewrite IHa. by rewrite andb_assoc. Qed.

Lemma byte_eqb_eq a b : byte_eqb a b = true <-> a = b.
Proof. apply Ascii.eqb_eq. Qed.

Lemma byte_eqb_refl a : byte_eqb a a = true.
Proof. by apply byte_eqb_eq. Qed.

Lemma byte_eqb_neq a b : byte_eqb a b = false <-> a <> b.
Proof. apply Ascii.eqb_neq. Qed.

(** ** Lemmas: prefixes and substrings *)

Lemma CutPrefix_Some s p r : CutPrefix s p = Some r <-> s = p +:+ r.
Proof.
  revert s. induction p as [|a p IH]; intros s; simpl.
  - split; [by intros [= ->]|by intros ->].
  - destruct s as [|b s]; [split; [done|intros [=]]|].
    destruct (byte_eqb a b) eqn:E.
    + apply byte_eqb_eq in E as ->. rewrite IH. split; [by intros ->|by intros [= ->]].
    + apply byte_eqb_neq in E. split; [done|]. intros [= -> _]. done.
Qed.

Lemma HasPrefix_true s p : HasPrefix s p = true <-> exists r, s = p +:+ r.
Proof.
  unfold HasPrefix. destruct (CutPrefix s p) as [r|] eqn:E.
  - apply CutPrefix_Some in E. split; [by exists r|done].
  - split; [done|]. intros [r Hr%CutPrefix_Some]. congruence.
Qed.

Lemma TrimPrefix_app p s : TrimPrefix (p +:+ s) p = s.
Proof. unfold TrimPrefix. by rewrite (proj2 (CutPrefix_Some (p +:+ s) p s)). Qed.

Lemma Index_Some s sub n :
  Index s sub = Some n -> exists a b, s = a +:+ sub +:+ b /\ String.length a = n.
Proof.
  revert n. induction s as [|c s IH]; intros n; simpl.
  - destruct (HasPrefix _ sub) eqn:E; [|done]. intros [= <-].
    apply HasPrefix_true in E as [r Hr]. by exists EmptyString, r.
  - destruct (HasPrefix _ sub) eqn:E.
    + intros [= <-]. apply HasPrefix_true in E as [r Hr]. by exists EmptyString, r.
    + destruct (Index s sub) as [m|]; [|done]. intros [= <-].
      destruct (IH m eq_refl) as (a & b & -> & <-). by exists (String c a), b.
Qed.

Lemma Contains_true s sub : Contains s sub = true <-> exists a b, s = a +:+ sub +:+ b.
Proof.
  unfold Contains. split.
  - destruct (Index s sub) eqn:E; [|done]. apply Index_Some in E as (a & b & -> & _). eauto.
  - intros (a & b & ->). induction a as [|c a IH]; simpl.
    + assert (HasPrefix (sub +:+ b) sub = true) as H by (apply HasPrefix_true; eauto).
      destruct (sub +:+ b); simpl; by rewrite H.
    + destruct (HasPrefix _ sub); [done|]. by destruct (Index (a +:+ sub +:+ b) sub).
Qed.

(** ** Lemmas: case and space *)

Lemma lower_byte_idemp c : lower_byte (lower_byte c) = lower_byte c.
Proof. by destruct c as [[] [] [] [] [] [] [] []]. Qed.

Lemma lower_byte_space c : is_space (lower_byte c) = is_space c.
Proof. by destruct c as [[] [] [] [] [] [] [] []]. Qed.

Lemma ToLower_idemp s : ToLower (ToLower s) = ToLower s.
Proof. unfold ToLower. induction s; simpl; [done|]. by rewrite lower_byte_idemp, IHs. Qed.

Lemma TrimLeftFunc_smap p f s :
  (forall c, p (f c) = p c) -> TrimLeftFunc p (smap f s) = smap f (TrimLeftFunc p s).
Proof. intros H. induction s; simpl; [done|]. rewrite H. by destruct (p a). Qed.

Lemma TrimRightFunc_smap p f s :
  (forall c, p (f c) = p c) -> TrimRightFunc p (smap f s) = smap f (TrimRightFunc p s).
Proof.
  intros H. induction s; simpl; [done|]. rewrite IHs, H.
  destruct (TrimRightFunc p s); simpl; [by destruct (p a)|done].
Qed.

Lemma TrimRightFunc_nil_all p s : TrimRightFunc p s = EmptyString -> sall p s = true.
Proof.
  induction s; simpl; [done|]. destruct (TrimRightFunc p s); [|done].
  destruct (p a); [|done]. intros _. by apply IHs.
Qed.

Lemma TrimRightFunc_idemp p s : TrimRightFunc p (TrimRightFunc p s) = TrimRightFunc p s.
Proof.
  induction s as [|c s IH]; simpl; [done|].
  destruct (TrimRightFunc p s) as [|d r] eqn:E.
  - destruct (p c) eqn:Ec; simpl; [done|]. by rewrite Ec.
  - change (match TrimRightFunc p (String d r) with
            | EmptyString => if p c then EmptyString else one c
            | String _ _ as r' => String c r' end = String c (String d r)).
    by rewrite IH.
Qed.

Lemma TrimLeftFunc_trimmed p s :
  match TrimLeftFunc p s with EmptyString => True | String c _ => p c = false end.
Proof. induction s; simpl; [done|]. by destruct (p a) eqn:E. Qed.

Lemma TrimLeft_TrimRight p s :
  match s with EmptyString => True | String c _ => p c = false end ->
  TrimLeftFunc p (TrimRightFunc p s) = TrimRightFunc p s.
Proof.
  destruct s as [|c s]; simpl; [done|]. intros Hc.
  by destruct (TrimRightFunc p s); simpl; rewrite Hc; simpl; rewrite ?Hc.
Qed.

Lemma TrimFunc_idemp p s : TrimFunc p (TrimFunc p s) = TrimFunc p s.
Proof.
  unfold TrimFunc. rewrite TrimLeft_TrimRight by apply TrimLeftFunc_trimmed.
  apply TrimRightFunc_idemp.
Qed.

(** ** Lemmas: lines *)

Lemma Split_ne c s : Split c s <> [].
Proof. destruct s as [|x s]; simpl; [done|]. destruct (byte_eqb x c); [done|]. by destruct (Split c s). Qed.

Lemma Join_Split c s : Join (one c) (Split c s) = s.
Proof.
  induction s as [|x s IH]; simpl; [done|].
  destruct (byte_eqb x c) eqn:E.
  - apply byte_eqb_eq in E as ->. destruct (Split c s) as [|w ws] eqn:Es; [by destruct (Split_ne c s)|].
    change (one c +:+ Join (one c) (w :: ws) = String c s). by rewrite IH.
  - destruct (Split c s) as [|w ws] eqn:Es; [by destruct (Split_ne c s)|].
    rewrite <- IH. by destruct ws.
Qed.

(** A line holds no separator. *)
Definition no_byte (c : ascii) (s : string) : bool := sall (fun x => negb (byte_eqb x c)) s.

Lemma Split_no_byte c s : Forall (fun w => no_byte c w = true) (Split c s).
Proof.
  induction s as [|x s IH]; simpl; [by repeat constructor|].
  destruct (byte_eqb x c) eqn:E; [by constructor|].
  destruct (Split c s) as [|w ws]; inversion IH; subst; constructor; try done.
  all: unfold no_byte in *; simpl; by rewrite E.
Qed.

Lemma Split_word c w s : no_byte c w = true -> Split c (w +:+ String c s) = w :: Split c s.
Proof.
  unfold no_byte. induction w as [|x w IH]; simpl; [by rewrite byte_eqb_refl|].
  intros [Hx Hw]%andb_true_iff. apply negb_true_iff in Hx. by rewrite Hx, IH.
Qed.

Lemma Split_single c w : no_byte c w = true -> Split c w = [w].
Proof.
  unfold no_byte. induction w as [|x w IH]; simpl; [done|].
  intros [Hx Hw]%andb_true_iff. apply negb_true_iff in Hx. by rewrite Hx, IH.
Qed.

Lemma Split_Join c l :
  l <> [] -> Forall (fun w => no_byte c w = true) l -> Split c (Join (one c) l) = l.
Proof.
  induction l as [|w l IH]; [done|]. intros _ [Hw Hl]%Forall_cons.
  destruct l as [|v l]; [by apply Split_single|].
  change (Split c (w +:+ String c (Join (one c) (v :: l))) = w :: v :: l).
  rewrite Split_word by done. by rewrite IH.
Qed.

Lemma Split_app_line c a b :
  Split c (a +:+ String c b) = Split c a ++ Split c b.
Proof.
  induction a as [|x a IH]; simpl; [by rewrite byte_eqb_refl|].
  rewrite IH. destruct (byte_eqb x c); [done|].
  by destruct (Split c a) eqn:E; [destruct (Split_ne c a)|].
Qed.

(** ** Lemmas: the order *)

Lemma str_leb_refl a : str_leb a a = true.
Proof. induction a; simpl; [done|]. rewrite N.eqb_refl, IHa. by rewrite orb_true_r. Qed.

Lemma str_leb_total a b : str_leb a b = true \/ str_leb b a = true.
Proof.
  revert b. induction a as [|x a IH]; intros [|y b]; simpl; auto.
  destruct (N.lt_trichotomy (byte_n x) (byte_n y)) as [H|[H|H]].
  - left. apply orb_true_iff. left. by apply N.ltb_lt.
  - rewrite H, N.eqb_refl. destruct (IH b) as [->| ->]; rewrite orb_true_r; auto.
  - right. apply orb_true_iff. left. by apply N.ltb_lt.
Qed.

Lemma str_leb_cases x a y b :
  str_leb (String x a) (String y b) = true <->
  (byte_n x < byte_n y)%N \/ (byte_n x = byte_n y /\ str_leb a b = true).
Proof. simpl. by rewrite orb_true_iff, andb_true_iff, N.ltb_lt, N.eqb_eq. Qed.

Lemma str_leb_trans a b c : str_leb a b = true -> str_leb b c = true -> str_leb a c = true.
Proof.
  revert b c. induction a as [|x a IH]; intros [|y b] [|z c]; try done.
  rewrite !str_leb_cases. intros [H1|[H1 H1']] [H2|[H2 H2']]; [left; lia..|].
  right. split; [lia|eauto].
Qed.

Lemma byte_n_inj x y : byte_n x = byte_n y -> x = y.
Proof. intros H. rewrite <- (ascii_N_embedding x), <- (ascii_N_embedding y). unfold byte_n in H. by rewrite H. Qed.

Lemma str_leb_antisym a b : str_leb a b = true -> str_leb b a = true -> a = b.
Proof.
  revert b. induction a as [|x a IH]; intros [|y b]; try done.
  rewrite !str_leb_cases. intros [H1|[H1 H1']] [H2|[H2 H2']]; [lia..|].
  f_equal; [by apply byte_n_inj|auto].
Qed.

#[global] Instance str_le_preorder : PreOrder str_le.
Proof. split; [intros ?; apply str_leb_refl|intros ???; apply str_leb_trans]. Qed.
#[global] Instance str_le_total : Total str_le.
Proof. intros a b. apply str_leb_total. Qed.
#[global] Instance str_le_antisym : AntiSymm (=) str_le.
Proof. intros a b. apply str_leb_antisym. Qed.

Lemma sort_strings_perm l : sort_strings l ≡ₚ l.
Proof. apply merge_sort_Permutation. Qed.

Lemma sort_strings_sorted l : Sorted str_le (sort_strings l).
Proof. apply Sorted_merge_sort, _. Qed.

Lemma sort_strings_nodup l : NoDup l -> NoDup (sort_strings l).
Proof. by rewrite sort_strings_perm. Qed.

Lemma elem_of_sort_strings x l : x ∈ sort_strings l <-> x ∈ l.
Proof. by rewrite sort_strings_perm. Qed.

(** ** Lemmas: regexp *)

Lemma nullable_correct r : nullable r = true <-> re_lang r EmptyString.
Proof.
  split.
  - induction r; simpl; try done; try by (intros; constructor).
    + intros [H1 H2]%andb_true_iff. apply (lang_seq r1 r2 EmptyString EmptyString); auto.
    + intros [H|H]%orb_true_iff; [by apply lang_alt_l; auto|by apply lang_alt_r; auto].
  - intros H. remember EmptyString as s eqn:Es. induction H; simpl; try done.
    + destruct s, t; try done. by rewrite IHre_lang1, IHre_lang2.
    + by rewrite IHre_lang.
    + rewrite IHre_lang by done. by rewrite orb_true_r.
Qed.

Lemma deriv_sound c r s : re_lang (deriv c r) s -> re_lang r (String c s).
Proof.
  revert s. induction r; simpl; intros s H; try by inversion H.
  - destruct (p c) eqn:E; inversion H; subst. by apply lang_chr.
  - assert (forall t, re_lang (RSeq (deriv c r1) r2) t -> re_lang (RSeq r1 r2) (String c t)) as Hs.
    { intros t Ht. inversion Ht; subst. change (re_lang (RSeq r1 r2) (String c s0 +:+ t0)).
      apply lang_seq; auto. }
    destruct (nullable r1) eqn:E; [|by apply Hs].
    inversion H; subst; [by apply Hs|].
    change (re_lang (RSeq r1 r2) (EmptyString +:+ String c s)).
    apply lang_seq; [by apply nullable_correct|auto].
  - inversion H; subst; [apply lang_alt_l|apply lang_alt_r]; auto.
  - inversion H; subst. change (re_lang (RStar r) (String c s0 +:+ t)).
    apply lang_star_cons; auto.
Qed.

Lemma deriv_complete c r s : re_lang r (String c s) -> re_lang (deriv c r) s.
Proof.
  intros H. remember (String c s) as u eqn:Eu. revert c s Eu.
  induction H; intros d u Eu; simpl; try discriminate.
  - injection Eu as -> <-. rewrite H. constructor.
  - destruct s as [|x s]; simpl in Eu.
    + subst t. apply nullable_correct in H. rewrite H. apply lang_alt_r. auto.
    + injection Eu as -> <-.
      assert (re_lang (RSeq (deriv d a) b) (s +:+ t)) by (apply lang_seq; auto).
      destruct (nullable a); [by apply lang_alt_l|done].
  - apply lang_alt_l. auto.
  - apply lang_alt_r. auto.
  - injection Eu as -> <-. apply lang_seq; auto.
Qed.

Lemma re_match_lang r s : re_match r s = true <-> re_lang r s.
Proof.
  revert r. induction s as [|c s IH]; intros r; simpl; [apply nullable_correct|].
  rewrite IH. split; [apply deriv_sound|apply deriv_complete].
Qed.

Lemma lang_star_chr p s : re_lang (RStar (RChr p)) s <-> sall p s = true.
Proof.
  split.
  - intros H. remember (RStar (RChr p)) as r eqn:Er. induction H; try discriminate; [done|].
    injection Er as ->. inversion H; subst. simpl. rewrite IHre_lang2 by done. by rewrite H3.
  - induction s as [|c s IH]; simpl; [constructor|]. intros [Hc Hs]%andb_true_iff.
    change (String c s) with (String c EmptyString +:+ s).
    apply lang_star_cons; [by apply lang_chr|auto].
Qed.
