(* ===== verification/Pool.v ===== *)
(** * Goroutines over one database connection

    The operations as the programs of goroutines that run at the same time.
    internal/db.Open gives the pool a single connection (SetMaxOpenConns(1)): a
    statement takes it for itself, a transaction from BeginTx to Commit or Rollback,
    and everybody else waits.  What does not use it (the clock, random bytes) goes
    on meanwhile.

    [prog] is an operation taken apart into its calls; [Reified m] is the program of
    an operation [m] of the other files with the proof that, run alone, it is [m].
    Instances make it from the operation itself, so no code is written twice. *)

From S2P Require Import Prelude.

Module Pool.

(** ** Programs *)

Inductive prog (D A : Type) : Type :=
| Done (r : result A)
| Now (k : Z -> prog D A)
| Uuid (k : string -> prog D A)
| Rand (k : result string -> prog D A)
| Stmt {B} (s : Z -> D -> string + (B * D)) (k : result B -> prog D A)
| Tx {B} (begin_err commit_err : error -> error) (body : prog D B) (k : result B -> prog D A).
Arguments Done {D A} r.
Arguments Now {D A} k.
Arguments Uuid {D A} k.
Arguments Rand {D A} k.
Arguments Stmt {D A B} s k.
Arguments Tx {D A B} begin_err commit_err body k.

(** The program run alone. *)
Fixpoint denote {D A} (p : prog D A) : M D A :=
  match p with
  | Done r => fun w => (r, w)
  | Now k => t ← now; denote (k t)
  | Uuid k => x ← new_uuid; denote (k x)
  | Rand k => r ← attempt rand_read; denote (k r)
  | Stmt s k => r ← attempt (exec_at s); denote (k r)
  | Tx f g body k => r ← attempt (transaction f g (denote body)); denote (k r)
  end.

(** Go on with the result. *)
Fixpoint next {D A B} (p : prog D A) : (result A -> prog D B) -> prog D B :=
  match p with
  | Done r => fun h => h r
  | Now k => fun h => Now (fun t => next (k t) h)
  | Uuid k => fun h => Uuid (fun x => next (k x) h)
  | Rand k => fun h => Rand (fun r => next (k r) h)
  | Stmt s k => fun h => Stmt s (fun r => next (k r) h)
  | Tx f g body k => fun h => Tx f g body (fun r => next (k r) h)
  end.

(** ** The program of an operation *)

Class Reified {D A} (m : M D A) := { code : prog D A; code_ok w : denote code w = m w }.
Arguments code {D A} m {_}.
Arguments code_ok {D A} m {_} w.

Lemma denote_next {D A B} (p : prog D A) : forall (h : result A -> prog D B) w,
  denote (next p h) w = denote (h (denote p w).1) (denote p w).2.
Proof.
  induction p as [A r|A k IH|A k IH|A k IH|A C s k IH|A C f g body _ k IH]; intros h w; cbn [next denote];
    unfold mbind, M_bind; [done|..].
  - apply IH.
  - destruct (new_uuid w) as [[x|e] w1] eqn:E; [apply IH|]. unfold new_uuid in E. by destruct (env_draw _).
  - unfold attempt. destruct (rand_read w). apply IH.
  - unfold attempt. destruct (exec_at s w). apply IH.
  - unfold attempt. destruct (transaction _ _ _ w). apply IH.
Qed.

Section instances.
Context {D : Type}.

Definition then_ok {A B} (k : A -> prog D B) (r : result A) : prog D B :=
  match r with Ok a => k a | Err e => Done (Err e) end.

Definition map_result {A} (f : error -> error) (r : result A) : result A :=
  match r with Ok a => Ok a | Err e => Err (f e) end.

Definition handle {A B} (on_err : error -> B) (k : A -> prog D B) (r : result A) : prog D B :=
  match r with Ok a => k a | Err e => Done (Ok (on_err e)) end.

#[export, program] Instance reified_ret {A} (a : A) : Reified (mret a : M D A) := {| code := Done (Ok a) |}.
Next Obligation. done. Qed.
#[export, program] Instance reified_fail {A} e : Reified (fail (D := D) (A := A) e) := {| code := Done (Err e) |}.
Next Obligation. done. Qed.
#[export, program] Instance reified_bind {A B} (m : M D A) (k : A -> M D B)
    `{!Reified m, !forall a, Reified (k a)} : Reified (m ≫= k) :=
  {| code := next (code m) (then_ok (fun a => code (k a))) |}.
Next Obligation.
  intros A B m k Hm Hk w. rewrite denote_next, code_ok. unfold mbind, M_bind.
  destruct (m w) as [[a|e] w1]; [apply code_ok|done].
Qed.
#[export, program] Instance reified_map_err {A} f (m : M D A) `{!Reified m} : Reified (map_err f m) :=
  {| code := next (code m) (fun r => Done (map_result f r)) |}.
Next Obligation. intros A f m Hm w. rewrite denote_next, code_ok. unfold map_err. by destruct (m w) as [[a|e] w1]. Qed.
#[export] Instance reified_wrapping {A} prefix (m : M D A) `{H : !Reified m} : Reified (wrapping prefix m) :=
  reified_map_err (Wrap prefix) m.
#[export, program] Instance reified_attempt {A} (m : M D A) `{!Reified m} : Reified (attempt m) :=
  {| code := next (code m) (fun r => Done (Ok r)) |}.
Next Obligation. intros A m Hm w. by rewrite denote_next, code_ok, attempt_run. Qed.
#[export, program] Instance reified_try_or {A B} on_err (m : M D A) (k : A -> M D B)
    `{!Reified m, !forall a, Reified (k a)} : Reified (try_or on_err m k) :=
  {| code := next (code m) (handle on_err (fun a => code (k a))) |}.
Next Obligation.
  intros A B on_err m k Hm Hk w. rewrite denote_next, code_ok. unfold try_or.
  destruct (m w) as [[a|e] w1]; [apply code_ok|done].
Qed.
#[export, program] Instance reified_now : Reified (now (D := D)) := {| code := Now (fun t => Done (Ok t)) |}.
Next Obligation. done. Qed.
#[export, program] Instance reified_new_uuid : Reified (new_uuid (D := D)) := {| code := Uuid (fun x => Done (Ok x)) |}.
Next Obligation. done. Qed.
#[export, program] Instance reified_rand_read : Reified (rand_read (D := D)) := {| code := Rand Done |}.
Next Obligation. intros w. cbn. unfold mbind, M_bind, attempt. by destruct (rand_read w). Qed.
#[export, program] Instance reified_exec_at {A} (s : Z -> D -> string + (A * D)) : Reified (exec_at s) := {| code := Stmt s Done |}.
Next Obligation. intros A s w. cbn. unfold mbind, M_bind, attempt. by destruct (exec_at s w). Qed.
#[export] Instance reified_exec {A} (s : D -> string + (A * D)) : Reified (exec s) := reified_exec_at (fun _ => s).
#[export] Instance reified_query {A} (q : D -> A) : Reified (query q) := reified_exec _.
#[export] Instance reified_update {A} (f : D -> A * D) : Reified (update f) := reified_exec _.
#[export, program] Instance reified_transaction {A} f g (body : M D A) `{!Reified body} : Reified (transaction f g body) :=
  {| code := Tx f g (code body) Done |}.
Next Obligation.
  intros A f g body Hb w. cbn. unfold mbind, M_bind, attempt.
  assert (transaction f g (denote (code body)) w = transaction f g body w) as ->; [|by destruct (transaction f g body w)].
  unfold transaction. destruct (map_err f _ w) as [[?|?] w1]; [|done]. by rewrite code_ok.
Qed.
End instances.

(** Takes an operation apart where its code branches. *)
Ltac reify_step :=
  match goal with
  | |- Reified (mbind _ _) => apply reified_bind; [|intros ?]
  | |- Reified (map_err _ _) => apply reified_map_err
  | |- Reified (wrapping _ _) => apply reified_wrapping
  | |- Reified (attempt _) => apply reified_attempt
  | |- Reified (try_or _ _ _) => apply reified_try_or; [|intros ?]
  | |- Reified (transaction _ _ _) => apply reified_transaction
  | |- Reified (match ?x with _ => _ end) => destruct x
  | |- Reified _ => exact _
  end.
Ltac reify := repeat (reify_step; cbv zeta).

(** ** Goroutines *)

Inductive goroutine (D A : Type) : Type :=
| Free (p : prog D A)
| InTx {B} (saved : D) (commit_err : error -> error) (body : prog D B) (k : result B -> prog D A).
Arguments Free {D A} p.
Arguments InTx {D A B} saved commit_err body k.

Definition in_tx {D A} (g : goroutine D A) : bool := match g with InTx _ _ _ _ => true | Free _ => false end.

(** The database as statements see it; the goroutines, each with the time it has
    seen last (nothing is assumed of the times of different goroutines). *)
Record Pool (D A : Type) : Type := mkPool { db : D; goroutines : list (Z * goroutine D A) }.
Arguments mkPool {D A} _ _.
Arguments db {D A} _.
Arguments goroutines {D A} _.

(** Who goes on, and what the environment does: the time that passes, the fault, the
    bytes or identifier drawn. *)
Record choice : Type := mkChoice { who : nat; elapsed : N; fault : option string; drawn : string }.

(** The connection is taken. *)
Definition busy {D A} (c : Pool D A) : bool := existsb (fun g => in_tx g.2) (goroutines c).

Definition faulty {A} (c : choice) (ok : result A) : result A :=
  match fault c with Some msg => Err (Driver msg) | None => ok end.

(** One call of a program. *)
Definition act {D A} (c : choice) (t : Z) (p : prog D A) (d : D) : option (Z * prog D A * D) :=
  let t' := (t + Z.of_N (elapsed c))%Z in
  match p with
  | Done _ => None
  | Now k => Some (t, k t, d)
  | Uuid k => Some (t, k (drawn c), d)
  | Rand k => Some (t', k (faulty c (Ok (drawn c))), d)
  | Stmt s k =>
      match fault c with
      | Some msg => Some (t', k (Err (Driver msg)), d)
      | None => match s t' d with
                | inl msg => Some (t', k (Err (Driver msg)), d)
                | inr (b, d') => Some (t', k (Ok b), d')
                end
      end
  | Tx _ _ _ _ => None (* would wait for the connection its own goroutine holds *)
  end.

Definition waits {D A} (p : prog D A) : bool :=
  match p with Stmt _ _ | Tx _ _ _ _ => true | _ => false end.

(** One step of a goroutine that holds no connection, with the database. *)
Definition free_step {D A} (c : choice) (t : Z) (p : prog D A) (d : D) : option (Z * goroutine D A * D) :=
  match p with
  | Tx f g body k =>
      let t' := (t + Z.of_N (elapsed c))%Z in
      match fault c with
      | Some msg => Some (t', Free (k (Err (f (Driver msg)))), d)
      | None => Some (t', InTx d g body k, d)
      end
  | _ => match act c t p d with Some (t', p', d') => Some (t', Free p', d') | None => None end
  end.

(** One step inside a transaction: Rollback, Commit or a call of its body. *)
Definition tx_step {D A B} (c : choice) (t : Z) (saved : D) (g : error -> error) (body : prog D B)
    (k : result B -> prog D A) (d : D) : option (Z * goroutine D A * D) :=
  match body with
  | Done (Err e) => Some (t, Free (k (Err e)), saved)
  | Done (Ok b) =>
      let t' := (t + Z.of_N (elapsed c))%Z in
      match fault c with
      | Some msg => Some (t', Free (k (Err (g (Driver msg)))), saved)
      | None => Some (t', Free (k (Ok b)), d)
      end
  | _ => match act c t body d with Some (t', body', d') => Some (t', InTx saved g body' k, d') | None => None end
  end.

Definition goroutine_step {D A} (c : choice) (taken : bool) (t : Z) (g : goroutine D A) (d : D) :
    option (Z * goroutine D A * D) :=
  match g with
  | Free p => if taken && waits p then None else free_step c t p d
  | InTx saved ce body k => tx_step c t saved ce body k d
  end.

Definition step {D A} (s : Pool D A) (c : choice) : option (Pool D A) :=
  '(t, g) ← goroutines s !! who c;
  '(t', g', d') ← goroutine_step c (busy s) t g (db s);
  Some (mkPool d' (<[who c := (t', g')]> (goroutines s))).

Fixpoint steps {D A} (s : Pool D A) (cs : list choice) : option (Pool D A) :=
  match cs with
  | [] => Some s
  | c :: rest => s' ← step s c; steps s' rest
  end.

(** The goroutines as they start. *)
Definition start {D A} (d : D) (t : Z) (ps : list (prog D A)) : Pool D A :=
  mkPool d ((fun p => (t, Free p)) <$> ps).

(** What the database holds for everybody else: a transaction under way may still be
    rolled back. *)
Definition committed {D A} (s : Pool D A) : D :=
  match list_find (fun g => in_tx g.2 = true) (goroutines s) with
  | Some (_, (_, InTx saved _ _ _)) => saved
  | _ => db s
  end.

(** What a goroutine has returned. *)
Definition returned {D A} (s : Pool D A) (i : nat) : option (result A) :=
  match goroutines s !! i with
  | Some (_, Free (Done r)) => Some r
  | _ => None
  end.

End Pool.
