(* ===== verification/PoolFacts.v ===== *)
(** * Goroutines over one database connection: theorems

    Every interleaving amounts to running whole transactions and single statements
    one after the other; nobody waits forever and everybody returns.  So what every
    such section keeps holds however the goroutines interleave; a goroutine may rely
    on it ([wp]), and of contenders that alone get their way or are refused exactly
    one gets it ([exactly_one]). *)

From S2P Require Import Prelude Pool.

Module PoolFacts.
Import Pool.

Lemma within_ext {D} (R : relation D) {B} (m m' : M D B) : (forall w, m w = m' w) -> within R m -> within R m'.
Proof. intros Heq Hm w. rewrite <- Heq. apply Hm. Qed.

Lemma within_unmap {D} (R : relation D) {A} f (m : M D A) : within R (map_err f m) -> within R m.
Proof. intros Hm w. specialize (Hm w). unfold map_err in Hm. by destruct (m w) as [[?|?] ?]. Qed.

(** ** A call in a world *)

Definition supply_of (l : list string) : N -> string := fun n => default EmptyString (l !! N.to_nat n).

(** An environment about to deliver [evs], with [n] strings of [l] drawn. *)
Definition env_at (t : Z) (evs : list event) (n : nat) (l : list string) : Env :=
  mkEnv evs t (N.of_nat n) (supply_of l) (supply_of l).

Lemma supply_of_middle (pre suf : list string) x : supply_of (pre ++ x :: suf) (N.of_nat (length pre)) = x.
Proof. unfold supply_of. rewrite Nat2N.id, lookup_app_r, Nat.sub_diag by lia. done. Qed.

(** No fault is scheduled. *)
Definition unfaulty (e : Env) : Prop := Forall (fun ev => ev_fault ev = None) (env_sched e).

(** A statement that no fault stops. *)
Lemma exec_at_calm {D A} (st : Z -> D -> string + (A * D)) w r w' :
  unfaulty (w_env w) -> exec_at st w = (r, w') ->
  exists clk, match st clk (w_db w) with
              | inl msg => r = Err (Driver msg) /\ w_db w' = w_db w
              | inr (a, d) => r = Ok a /\ w_db w' = d
              end.
Proof.
  unfold unfaulty, exec_at, env_step. destruct (env_sched (w_env w)) as [|ev l].
  - intros _ H. exists (env_clock (w_env w)). destruct (st _ _) as [msg|[a d]]; by injection H as <- <-.
  - intros [-> _]%Forall_cons H. cbn in H. eexists. destruct (st _ _) as [msg|[a d]] eqn:E in H; rewrite E; by injection H as <- <-.
Qed.

Section calls.
Context {D : Type}.
(** Nothing fails. *)
Variable calm : Prop.

(** What the calls between two points of a program need of the environment. *)
Definition leads {A} (p : prog D A) (t : Z) (d : D) (p' : prog D A) (t' : Z) (d' : D) : Prop :=
  exists evs ds, (calm -> Forall (fun ev => ev_fault ev = None) evs) /\ forall s pre suf,
    denote p (mkWorld (env_at t (evs ++ s) (length pre) (pre ++ ds ++ suf)) d) =
    denote p' (mkWorld (env_at t' s (length (pre ++ ds)) (pre ++ ds ++ suf)) d').

Lemma act_leads {A} c t (p : prog D A) d t' p' d' :
  (calm -> fault c = None) -> act c t p d = Some (t', p', d') -> leads p t d p' t' d'.
Proof.
  intros Hcalm.
  assert (calm -> Forall (fun ev => ev_fault ev = None) [mkEvent (fault c) (elapsed c)]) as Hev by (intros H; repeat constructor; by apply Hcalm).
  unfold act, leads.
  destruct p as [r|k|k|k|B s k|B f g body k]; [done|..|done].
  - intros [= <- <- <-]. exists [], []. split; [by constructor|]. intros s pre suf. by rewrite app_nil_r.
  - intros [= <- <- <-]. exists [], [drawn c]. split; [by constructor|]. intros s pre suf. cbn [denote]. unfold mbind, M_bind, new_uuid, env_at, env_draw.
    cbn [w_env w_db env_draws env_sched env_clock env_uuid env_bytes]. cbn [app]. rewrite supply_of_middle, length_app. cbn [length].
    by rewrite Nat.add_1_r, Nat2N.inj_succ.
  - intros [= <- <- <-]. unfold faulty. destruct (fault c) as [msg|] eqn:E.
    + exists [mkEvent (fault c) (elapsed c)], []. split; [first [exact Hev|rewrite E; exact Hev]|]. intros s pre suf. cbn [denote]. unfold mbind, M_bind, attempt, rand_read, env_step, env_at.
      cbn. rewrite E, app_nil_r. done.
    + exists [mkEvent (fault c) (elapsed c)], [drawn c]. split; [first [exact Hev|rewrite E; exact Hev]|]. intros s pre suf. cbn [denote]. unfold mbind, M_bind, attempt, rand_read, env_step, env_at.
      cbn [app w_env w_db env_draws env_sched env_clock env_uuid env_bytes ev_fault ev_elapsed]. rewrite E. unfold env_draw.
      cbn [w_env w_db env_draws env_sched env_clock env_uuid env_bytes].
      rewrite supply_of_middle, length_app. cbn [length]. by rewrite Nat.add_1_r, Nat2N.inj_succ.
  - intros H. exists [mkEvent (fault c) (elapsed c)], []. split; [first [exact Hev|rewrite E; exact Hev]|]. intros s' pre suf. cbn [denote]. unfold mbind, M_bind, attempt, exec_at, env_step, env_at.
    cbn [app w_env w_db env_draws env_sched env_clock env_uuid env_bytes ev_fault ev_elapsed]. rewrite app_nil_r.
    destruct (fault c) as [msg|]; [by injection H as <- <- <-|].
    destruct (s _ d) as [msg|[b d1]]; by injection H as <- <- <-.
Qed.

Lemma leads_refl {A} (p : prog D A) t d : leads p t d p t d.
Proof. exists [], []. split; [by constructor|]. intros s pre suf. by rewrite app_nil_r. Qed.

Lemma leads_trans {A} (p1 p2 p3 : prog D A) t1 t2 t3 d1 d2 d3 :
  leads p1 t1 d1 p2 t2 d2 -> leads p2 t2 d2 p3 t3 d3 -> leads p1 t1 d1 p3 t3 d3.
Proof.
  intros (e1 & s1 & F1 & H1) (e2 & s2 & F2 & H2). exists (e1 ++ e2), (s1 ++ s2).
  split; [intros Hc; apply Forall_app; auto|]. intros s pre suf.
  specialize (H1 (e2 ++ s) pre (s2 ++ suf)). specialize (H2 s (pre ++ s1) suf).
  rewrite <- !app_assoc in *. rewrite H1. exact H2.
Qed.

(** The whole of a transaction, from the calls of its body. *)
Lemma leads_transaction {B} f g (body : prog D B) t d r t' d' (el : N) :
  leads body t d (Done r) t' d' ->
  forall fault, (calm -> fault = None) -> exists w w', w_db w = d /\ (calm -> unfaulty (w_env w)) /\
    transaction f g (denote body) w =
      (match r with Err e => Err e | Ok b => match fault with Some msg => Err (g (Driver msg)) | None => Ok b end end, w') /\
    w_db w' = match r with Err _ => d | Ok _ => match fault with Some _ => d | None => d' end end.
Proof.
  intros (evs & ds & Hq & H) fault Hfault.
  set (e0 := env_at t (mkEvent None 0 :: evs ++ [mkEvent fault el]) 0 ds).
  exists (mkWorld e0 d).
  assert (calm -> unfaulty e0) as Hun.
  { intros Hc. unfold unfaulty. cbn. constructor; [done|]. apply Forall_app. auto. }
  specialize (H [mkEvent fault el] [] []). cbn [app length] in H. rewrite app_nil_r in H.
  assert (map_err f (query (fun _ : D => tt)) (mkWorld e0 d) = (Ok tt, mkWorld (env_at t (evs ++ [mkEvent fault el]) 0 ds) d)) as Hb.
  { unfold e0, env_at, map_err, query, exec, exec_at, env_step. cbn. by rewrite Z.add_0_r. }
  unfold transaction. rewrite Hb. cbn [w_db].
  rewrite H. cbn [denote]. destruct r as [b|e]; cbn.
  - destruct fault as [msg|]; eexists; split_and!; done.
  - eexists. split_and!; done.
Qed.

End calls.

(** ** One section after the other *)

Section serial.
Context {D A : Type}.
(** What may be drawn. *)
Variable supply : string -> Prop.
(** Nothing fails. *)
Variable calm : Prop.

(** A goroutine runs up to the end of its next statement or transaction, alone. *)
Inductive section : prog D A -> D -> prog D A -> D -> Prop :=
| section_now t k d : section (Now k) d (k t) d
| section_uuid x k d : supply x -> section (Uuid k) d (k x) d
| section_rand r k d : (forall x, r = Ok x -> supply x) -> (calm -> is_ok r = true) -> section (Rand k) d (k r) d
| section_stmt {B} (s : Z -> D -> string + (B * D)) k w r w' :
    (calm -> unfaulty (w_env w)) -> exec_at s w = (r, w') -> section (Stmt s k) (w_db w) (k r) (w_db w')
| section_tx {B} f g (body : prog D B) k w r w' :
    (calm -> unfaulty (w_env w)) -> transaction f g (denote body) w = (r, w') -> section (Tx f g body k) (w_db w) (k r) (w_db w').

Definition serial_step (s s' : D * list (prog D A)) : Prop :=
  exists i p p', s.2 !! i = Some p /\ section p s.1 p' s'.1 /\ s'.2 = <[i := p']> s.2.

(** ** Every interleaving is one of sections *)

(** A goroutine and its program in the serial run, where a transaction under way has
    not begun. *)
Definition matches (d now_ : D) (tg : Z * goroutine D A) (p : prog D A) : Prop :=
  match tg.2 with
  | Free q => p = q
  | InTx saved g body k =>
      saved = d /\ exists f body0 t0, p = Tx f g body0 k /\ leads calm body0 t0 d body tg.1 now_
  end.

Record sim (s : Pool D A) (d : D) (ps : list (prog D A)) : Prop := {
  sim_goroutines : Forall2 (matches d (db s)) (goroutines s) ps;
  sim_one : forall i j gi gj, goroutines s !! i = Some gi -> goroutines s !! j = Some gj ->
    in_tx gi.2 = true -> in_tx gj.2 = true -> i = j;
  sim_idle : busy s = false -> db s = d;
}.

Lemma busy_false (s : Pool D A) : busy s = false <-> forall i g, goroutines s !! i = Some g -> in_tx g.2 = false.
Proof.
  unfold busy. rewrite <- not_true_iff_false, existsb_exists. split.
  - intros H i g Hi. apply not_true_iff_false. intros Hg. apply H. exists g. split; [|done].
    apply list_elem_of_In. by eapply list_elem_of_lookup_2.
  - intros H (g & [i Hi]%list_elem_of_In%list_elem_of_lookup_1 & Hg). rewrite (H _ _ Hi) in Hg. done.
Qed.

Definition allowed (c : choice) : Prop := supply (drawn c) /\ (calm -> fault c = None).

(** The step of a goroutine that holds no connection, once it has one if it waits
    for it. *)
Lemma sim_update s d ps i t g p d' now' p' t' g' :
  sim s d ps -> goroutines s !! i = Some (t, g) -> ps !! i = Some p ->
  matches d' now' (t', g') p' ->
  (forall j gj pj, j <> i -> goroutines s !! j = Some gj -> ps !! j = Some pj -> matches d (db s) gj pj -> matches d' now' gj pj) ->
  (in_tx g' = true -> forall j gj, j <> i -> goroutines s !! j = Some gj -> in_tx gj.2 = false) ->
  (in_tx g' = false -> (forall j gj, j <> i -> goroutines s !! j = Some gj -> in_tx gj.2 = false) -> now' = d') ->
  sim (mkPool now' (<[i := (t', g')]> (goroutines s))) d' (<[i := p']> ps).
Proof.
  intros [Hg H1 Hi] Hgi Hpi Hm Hother Hone Hidle. pose proof (lookup_lt_Some _ _ _ Hgi) as Hlt. split; cbn [db goroutines].
  - apply Forall2_same_length_lookup_2.
    { rewrite !length_insert. by eapply Forall2_length. }
    intros j gj pj Hj Hpj. destruct (decide (j = i)) as [->|Hne].
    + rewrite list_lookup_insert_eq in Hj by done. rewrite list_lookup_insert_eq in Hpj by (by eapply lookup_lt_Some).
      by simplify_eq.
    + rewrite list_lookup_insert_ne in Hj by done; rewrite list_lookup_insert_ne in Hpj by done. eapply Hother; [done..|]. by eapply Forall2_lookup_lr.
  - intros j1 j2 g1 g2 Hj1 Hj2 Ht1 Ht2.
    destruct (decide (j1 = i)) as [->|Hn1], (decide (j2 = i)) as [->|Hn2]; [done|..].
    + rewrite list_lookup_insert_eq in Hj1 by done. rewrite list_lookup_insert_ne in Hj2 by done. injection Hj1 as <-.
      by rewrite (Hone Ht1 _ _ Hn2 Hj2) in Ht2.
    + rewrite list_lookup_insert_eq in Hj2 by done. rewrite list_lookup_insert_ne in Hj1 by done. injection Hj2 as <-.
      by rewrite (Hone Ht2 _ _ Hn1 Hj1) in Ht1.
    + rewrite list_lookup_insert_ne in Hj1 by done; rewrite list_lookup_insert_ne in Hj2 by done. by eapply H1.
  - intros Hb. rewrite busy_false in Hb. cbn [goroutines] in Hb. apply Hidle.
    + apply (Hb i (t', g')). by rewrite list_lookup_insert_eq.
    + intros j gj Hne Hj. apply (Hb j). by rewrite list_lookup_insert_ne.
Qed.

Lemma matches_free d now_ d' now' tg p : in_tx tg.2 = false -> matches d now_ tg p -> matches d' now' tg p.
Proof. destruct tg as [t [q|B saved g body k]]; [done|discriminate]. Qed.

(** The others, when the one that steps is the only one with the connection or nobody
    has it. *)
Lemma sim_alone s d ps i t g p d' now' p' t' g' :
  sim s d ps -> goroutines s !! i = Some (t, g) -> ps !! i = Some p ->
  (forall j gj, j <> i -> goroutines s !! j = Some gj -> in_tx gj.2 = false) ->
  matches d' now' (t', g') p' -> (in_tx g' = false -> now' = d') ->
  sim (mkPool now' (<[i := (t', g')]> (goroutines s))) d' (<[i := p']> ps).
Proof.
  intros Hs Hgi Hpi Hothers Hm Hidle. eapply sim_update; [done..| | |].
  - intros j gj pj Hne Hj Hpj Hmj. eapply matches_free; [by eapply Hothers|exact Hmj].
  - done.
  - auto.
Qed.

(** A call that does not use the database. *)
Lemma sim_local s d ps i t q p' t' :
  sim s d ps -> goroutines s !! i = Some (t, Free q) -> ps !! i = Some q ->
  sim (mkPool (db s) (<[i := (t', Free p')]> (goroutines s))) d (<[i := p']> ps).
Proof.
  intros Hs Hgi Hpi. eapply sim_update; [done..|done| | |].
  - auto.
  - done.
  - intros _ Hothers. apply Hs. apply busy_false. intros j gj Hj.
    destruct (decide (j = i)) as [->|Hne]; [|by eapply Hothers]. by simplify_eq.
Qed.

Lemma free_step_sim s d ps i t q c t' g' d' :
  sim s d ps -> goroutines s !! i = Some (t, Free q) -> ps !! i = Some q -> allowed c ->
  (waits q = true -> busy s = false) ->
  free_step c t q (db s) = Some (t', g', d') ->
  let s' := mkPool d' (<[i := (t', g')]> (goroutines s)) in
  sim s' d ps \/ exists ds' ps', serial_step (d, ps) (ds', ps') /\ sim s' ds' ps'.
Proof.
  intros Hs Hgi Hpi [Hc Hcalm] Hw Hst. cbv zeta.
  assert (forall p' ds', section q d p' ds' -> serial_step (d, ps) (ds', <[i := p']> ps)) as Hser
    by (intros p' ds' H; by exists i, q, p').
  assert (waits q = true -> db s = d /\ forall j gj, j <> i -> goroutines s !! j = Some gj -> in_tx gj.2 = false) as Halone.
  { intros H. specialize (Hw H). split; [by apply Hs|]. intros j gj _ Hj. rewrite busy_false in Hw. by eapply Hw. }
  unfold free_step, act in Hst. destruct q as [r|k|k|k|B st k|B f g body k]; [done|..].
  - injection Hst as <- <- <-. right. exists d, (<[i := k t]> ps). split; [apply Hser; constructor|]. by eapply sim_local.
  - injection Hst as <- <- <-. right. exists d, (<[i := k (drawn c)]> ps). split; [apply Hser; by constructor|]. by eapply sim_local.
  - injection Hst as <- <- <-. right. eexists d, (<[i := _]> ps). split; [|by eapply sim_local]. apply Hser. constructor.
    + unfold faulty. destruct (fault c); [done|]. by intros x [= <-].
    + unfold faulty. intros H. by rewrite (Hcalm H).
  - destruct (Halone eq_refl) as [Hd Ho]. right.
    set (w := mkWorld (env_at t [mkEvent (fault c) (elapsed c)] 0 []) d).
    assert (exists r d1, exec_at st w = (r, mkWorld (env_at (t + Z.of_N (elapsed c)) [] 0 []) d1) /\
      d' = d1 /\ g' = Free (k r)) as (r & d1 & Hx & -> & ->).
    { unfold exec_at, env_step. cbn. rewrite Hd in Hst. destruct (fault c) as [msg|]; [injection Hst as <- <- <-; eauto|].
      destruct (st _ d) as [msg|[b d1]]; injection Hst as <- <- <-; eauto. }
    exists d1, (<[i := k r]> ps). split; [|by eapply sim_alone].
    apply Hser. refine (section_stmt st k w r _ _ Hx). intros H. unfold unfaulty. cbn. auto.
  - destruct (Halone eq_refl) as [Hd Ho]. destruct (fault c) as [msg|] eqn:Ef; injection Hst as <- <- <-.
    + right. exists d, (<[i := k (Err (f (Driver msg)))]> ps). split; [|by eapply sim_alone; try done].
      apply Hser.
      set (w := mkWorld (env_at t [mkEvent (Some msg) 0] 0 []) d).
      refine (section_tx f g body k w (Err (f (Driver msg))) (mkWorld (env_at (t + 0) [] 0 []) d) _ _); [|reflexivity].
      intros H. by specialize (Hcalm H).
    + left. rewrite <- (list_insert_id ps i _ Hpi). eapply sim_alone; [done..| |done].
      split; [exact Hd|]. exists f, body, (t + Z.of_N (elapsed c))%Z. split; [done|]. cbn. rewrite Hd. apply leads_refl.
Qed.

Lemma tx_step_sim s d ps i t B saved g (body : prog D B) k c t' g' d' p :
  sim s d ps -> goroutines s !! i = Some (t, InTx saved g body k) -> ps !! i = Some p ->
  matches d (db s) (t, InTx saved g body k) p ->
  allowed c -> tx_step c t saved g body k (db s) = Some (t', g', d') ->
  let s' := mkPool d' (<[i := (t', g')]> (goroutines s)) in
  sim s' d ps \/ exists ds' ps', serial_step (d, ps) (ds', ps') /\ sim s' ds' ps'.
Proof.
  intros Hs Hgi Hpi [-> (f & body0 & t0 & -> & Hl)] [_ Hcalm] Hst. cbv zeta.
  assert (forall j gj, j <> i -> goroutines s !! j = Some gj -> in_tx gj.2 = false) as Ho.
  { intros j gj Hne Hj. apply not_true_iff_false. intros Ht. apply Hne. by eapply (sim_one _ _ _ Hs). }
  assert (forall r p' ds' fault, (calm -> fault = None) -> body = Done r ->
    p' = k match r with Err e => Err e | Ok b => match fault with Some msg => Err (g (Driver msg)) | None => Ok b end end ->
    ds' = match r with Err _ => d | Ok _ => match fault with Some _ => d | None => db s end end ->
    exists d2 ps2, serial_step (d, ps) (d2, ps2) /\
      sim (mkPool ds' (<[i := (t', Free p')]> (goroutines s))) d2 ps2) as Hend.
  { intros r p' ds' fl Hfl -> -> ->. destruct (leads_transaction calm f g body0 t0 d r t (db s) 0 Hl fl Hfl) as (w & w' & Hw & Hun & Htx & Hw').
    set (res := match r with Err e => Err e | Ok b => match fl with Some msg => Err (g (Driver msg)) | None => Ok b end end) in *.
    assert (section (Tx f g body0 k) d (k res) (w_db w')) as Hsec by (rewrite <- Hw; by econstructor).
    exists (w_db w'), (<[i := k res]> ps). split; [|eapply sim_alone; [done..|reflexivity|by symmetry]].
    exists i, (Tx f g body0 k), (k res). split; [exact Hpi|]. split; [exact Hsec|reflexivity]. }
  assert (match act c t body (db s) with Some (t1, b1, d1) => Some (t1, InTx d g b1 k, d1) | None => None end = Some (t', g', d') ->
    sim (mkPool d' (<[i := (t', g')]> (goroutines s))) d ps \/ exists ds' ps', serial_step (d, ps) (ds', ps') /\
      sim (mkPool d' (<[i := (t', g')]> (goroutines s))) ds' ps') as Hcall.
  { destruct (act c t body (db s)) as [[[t1 b1] d1]|] eqn:E; [|done]. intros [= <- <- <-]. left.
    rewrite <- (list_insert_id ps i _ Hpi). eapply sim_alone; [done..| |done].
    split; [done|]. exists f, body0, t0. split; [done|]. eapply leads_trans; [exact Hl|]. by eapply act_leads. }
  destruct body as [[b|e]|k0|k0|k0|B0 st k0|B0 f0 g0 body1 k0]; cbn [tx_step] in Hst.
  - right. destruct (fault c) as [msg|] eqn:Ef; injection Hst as <- <- <-.
    + by apply (Hend (Ok b) _ _ (Some msg)).
    + by apply (Hend (Ok b) _ _ None).
  - right. injection Hst as <- <- <-. by apply (Hend (Err e) _ _ None).
  - by eapply Hcall.
  - by eapply Hcall.
  - by eapply Hcall.
  - by eapply Hcall.
  - done.
Qed.

Lemma step_sim s c s' d ps :
  step s c = Some s' -> allowed c -> sim s d ps ->
  sim s' d ps \/ exists d' ps', serial_step (d, ps) (d', ps') /\ sim s' d' ps'.
Proof.
  intros Hst Hc Hs. unfold step in Hst. destruct (goroutines s !! who c) as [[t g]|] eqn:Hgi; [|done].
  cbn [mbind option_bind] in Hst.
  destruct (goroutine_step c (busy s) t g (db s)) as [[[t' g'] d1]|] eqn:E; [|done]. injection Hst as <-.
  destruct (Forall2_lookup_l _ _ _ _ _ (sim_goroutines _ _ _ Hs) Hgi) as (p & Hpi & Hm).
  destruct g as [q|B saved g body k]; cbn [goroutine_step] in E.
  - change (p = q) in Hm. subst p. destruct (busy s && waits q) eqn:Eb; [done|].
    eapply free_step_sim; [done..| |exact E]. intros Hw. rewrite Hw, andb_true_r in Eb. exact Eb.
  - by eapply tx_step_sim.
Qed.

Lemma serial_length s s' : rtc serial_step s s' -> length s'.2 = length s.2.
Proof. induction 1 as [|s1 s2 s3 (i & p & p' & _ & _ & Hps) _ IH]; [done|]. by rewrite IH, Hps, length_insert. Qed.

Lemma steps_sim cs : forall s s' d ps,
  steps s cs = Some s' -> Forall allowed cs -> sim s d ps ->
  exists d' ps', rtc serial_step (d, ps) (d', ps') /\ sim s' d' ps'.
Proof.
  induction cs as [|c cs IH]; intros s s' d ps; cbn [steps].
  - intros [= <-] _ Hs. by exists d, ps.
  - destruct (step s c) as [s1|] eqn:E; [|done]. cbn [mbind option_bind]. intros Hst [Hc Hcs]%Forall_cons Hs.
    destruct (step_sim _ _ _ _ _ E Hc Hs) as [H|(d1 & ps1 & H1 & H)].
    + by eapply IH.
    + destruct (IH _ _ _ _ Hst Hcs H) as (d' & ps' & H2 & H3). exists d', ps'. split; [|done]. by eapply rtc_l.
Qed.

Lemma busy_start d t (ps : list (prog D A)) : busy (start d t ps) = false.
Proof. apply busy_false. intros i g Hi. unfold start in Hi. cbn in Hi. apply list_lookup_fmap_Some in Hi as (p & -> & _). done. Qed.

Lemma sim_start d t ps : sim (start d t ps) d ps.
Proof.
  split; [| |done].
  - unfold start. cbn. apply Forall2_fmap_l. by apply Forall_Forall2_diag, Forall_forall.
  - intros i j gi gj Hi _ Ht. pose proof (proj1 (busy_false _) (busy_start d t ps) _ _ Hi). congruence.
Qed.

Lemma sim_committed s d ps : sim s d ps -> committed s = d.
Proof.
  intros Hs. unfold committed. destruct (list_find _ _) as [[i [t g]]|] eqn:E.
  - apply list_find_Some in E as (Hi & Ht & _).
    destruct (Forall2_lookup_l _ _ _ _ _ (sim_goroutines _ _ _ Hs) Hi) as (p & _ & Hm).
    destruct g as [q|B saved g body k]; [done|]. by destruct Hm as [-> _].
  - apply Hs. apply busy_false. intros i g Hi. apply list_find_None in E. apply not_true_iff_false.
    exact (proj1 (Forall_lookup _ _) E i g Hi).
Qed.

Lemma sim_returned s d ps i r : sim s d ps -> returned s i = Some r -> ps !! i = Some (Done r).
Proof.
  intros Hs. unfold returned. destruct (goroutines s !! i) as [[t g]|] eqn:E; [|done].
  destruct (Forall2_lookup_l _ _ _ _ _ (sim_goroutines _ _ _ Hs) E) as (p & Hp & Hm).
  destruct g as [q|]; [|done]. change (p = q) in Hm. subst. destruct q; try done. by intros [= ->].
Qed.

Lemma serializable_run d t ps cs s :
  steps (start d t ps) cs = Some s -> Forall allowed cs ->
  exists ps', rtc serial_step (d, ps) (committed s, ps') /\ (busy s = false -> db s = committed s) /\
    forall i r, returned s i = Some r -> ps' !! i = Some (Done r).
Proof.
  intros Hst Hcs. destruct (steps_sim _ _ _ _ _ Hst Hcs (sim_start d t ps)) as (d' & ps' & Hrun & Hs).
  rewrite <- (sim_committed _ _ _ Hs) in Hrun. exists ps'. split; [done|]. split.
  - intros Hb. rewrite (sim_committed _ _ _ Hs). by apply Hs.
  - intros i r. by apply (sim_returned _ _ _ _ _ Hs).
Qed.

(** ** What every section keeps *)

Fixpoint inside (R : relation D) (p : prog D A) : Prop :=
  match p with
  | Done _ => True
  | Now k => forall t, inside R (k t)
  | Uuid k => forall x, supply x -> inside R (k x)
  | Rand k => forall r, (forall x, r = Ok x -> supply x) -> inside R (k r)
  | Stmt s k => within R (exec_at s) /\ forall r, inside R (k r)
  | Tx f g body k => within R (transaction f g (denote body)) /\ forall r, inside R (k r)
  end.

Section keeps.
Variable R : relation D.
Context `{!PreOrder R}.

Lemma section_inside p d p' d' : section p d p' d' -> inside R p -> R d d' /\ inside R p'.
Proof using PreOrder0.
  destruct 1 as [t k d|x k d Hx|r k d Hr _|B s k w r w' _ Hx|B f g body k w r w' _ Hx]; cbn [inside].
  - split; [reflexivity|auto].
  - split; [reflexivity|auto].
  - split; [reflexivity|auto].
  - intros [Hw Hk]. split; [|auto]. specialize (Hw w). by rewrite Hx in Hw.
  - intros [Hw Hk]. split; [|auto]. specialize (Hw w). by rewrite Hx in Hw.
Qed.

Lemma serial_inside d ps d' ps' :
  rtc serial_step (d, ps) (d', ps') -> Forall (inside R) ps -> R d d' /\ Forall (inside R) ps'.
Proof using PreOrder0.
  intros Hrun. remember (d, ps) as s eqn:Es. remember (d', ps') as s' eqn:Es'. revert d ps Es.
  induction Hrun as [s|s1 [d2 ps2] s3 (i & p & p' & Hp & Hsec & Hps) _ IH]; intros d ps -> Hin.
  - by injection Es' as -> ->.
  - cbn in *. subst ps2. rewrite Forall_lookup in Hin.
    destruct (section_inside _ _ _ _ Hsec (Hin _ _ Hp)) as [HR Hp'].
    destruct (IH Es' _ _ eq_refl) as [HR' H'].
    + apply Forall_insert; [by apply Forall_lookup|exact Hp'].
    + split; [by etrans|done].
Qed.
End keeps.

(** ** At most one *)

(** Ends well only after a section that does [P]. *)
Fixpoint commits (P : relation D) (p : prog D A) : Prop :=
  match p with
  | Done (Ok _) => False
  | Done (Err _) => True
  | Now k => forall t, commits P (k t)
  | Uuid k => forall x, commits P (k x)
  | Rand k => forall r, commits P (k r)
  | Stmt s k => forall w r w', exec_at s w = (r, w') -> P (w_db w) (w_db w') \/ commits P (k r)
  | Tx f g body k =>
      forall w r w', transaction f g (denote body) w = (r, w') -> P (w_db w) (w_db w') \/ commits P (k r)
  end.

Section once.
Variables (P : relation D) (I T : D -> Prop).
Hypothesis HP : forall d d', I d -> P d d' -> ~ T d /\ T d'.

(** The contenders that have not had their way yet; once one has, [T]. *)
Definition contending (W : nat -> Prop) (s : D * list (prog D A)) : Prop :=
  (forall i p, W i -> s.2 !! i = Some p -> commits P p) \/
  T s.1 /\ exists j, forall i p, W i -> i <> j -> s.2 !! i = Some p -> commits P p.

Lemma section_commits p d p' d' : section p d p' d' -> commits P p -> P d d' \/ commits P p'.
Proof using. destruct 1; cbn [commits]; eauto. Qed.

Lemma contending_step W `{Wdec : !forall i, Decision (W i)} s s' :
  serial_step s s' -> I s.1 -> (T s.1 -> T s'.1) -> contending W s -> contending W s'.
Proof using HP.
  intros (i & p & p' & Hp & Hsec & Hps) HI HT Hc. unfold contending. rewrite Hps. pose proof (lookup_lt_Some _ _ _ Hp) as Hlt.
  assert (forall j q, j <> i -> <[i := p']> s.2 !! j = Some q -> s.2 !! j = Some q) as Hne
    by (intros j q Hne; by rewrite list_lookup_insert_ne).
  assert (forall q, <[i := p']> s.2 !! i = Some q -> q = p') as Heq
    by (intros q; rewrite list_lookup_insert_eq by done; congruence).
  destruct Hc as [H|[Ht [j H]]].
  - destruct (decide (W i)) as [Hw|Hw].
    + destruct (section_commits _ _ _ _ Hsec (H _ _ Hw Hp)) as [Hfire|Hc].
      * right. split; [by apply (HP _ _ HI Hfire)|]. exists i. intros k q Hk Hki Hq. eapply H; [done|by apply Hne].
      * left. intros k q Hk Hq. destruct (decide (k = i)) as [->|Hki]; [by rewrite (Heq q Hq)|]. eapply H; [done|by apply Hne].
    + left. intros k q Hk Hq. destruct (decide (k = i)) as [->|Hki]; [done|]. eapply H; [done|by apply Hne].
  - right. split; [by apply HT|]. exists j. intros k q Hk Hkj Hq.
    destruct (decide (k = i)) as [->|Hki]; [|eapply H; [done..|by apply Hne]]. rewrite (Heq q Hq).
    destruct (section_commits _ _ _ _ Hsec (H _ _ Hk Hkj Hp)) as [Hfire|Hc]; [|done]. by destruct (HP _ _ HI Hfire).
Qed.

(** Of the goroutines that end well only through [P], at most one does, when nothing
    anybody does takes [T] back. *)
Lemma at_most_one W `{Wdec : !forall i, Decision (W i)} d ps d' ps' :
  rtc serial_step (d, ps) (d', ps') -> I d -> Forall (inside (keeps I)) ps -> Forall (inside (keeps T)) ps ->
  (forall i p, W i -> ps !! i = Some p -> commits P p) ->
  forall i j a b, W i -> W j -> ps' !! i = Some (Done (Ok a)) -> ps' !! j = Some (Done (Ok b)) -> i = j.
Proof using HP.
  intros Hrun HI HinI HinT Hc. assert (contending W (d', ps')) as Hcont.
  { remember (d, ps) as s eqn:Es.
    assert (I s.1 /\ Forall (inside (keeps I)) s.2 /\ Forall (inside (keeps T)) s.2 /\ contending W s) as (H1 & H2 & H3 & H4).
    { subst s. split_and!; [done..|]. by left. }
    clear Es HI HinI HinT Hc. revert H1 H2 H3 H4. induction Hrun as [s|s1 s2 s3 Hst Hrun IH]; [done|]. intros HI HinI HinT Hcont.
    pose proof (rtc_once _ _ Hst) as Hone. rewrite (surjective_pairing s1), (surjective_pairing s2) in Hone.
    destruct (serial_inside (keeps I) _ _ _ _ Hone HinI) as [HI2 HinI2].
    destruct (serial_inside (keeps T) _ _ _ _ Hone HinT) as [HT2 HinT2].
    apply IH; [by apply HI2|done..|]. by eapply contending_step. }
  intros i j a b Hi Hj Ha Hb. destruct Hcont as [H|[_ [k H]]].
  - by destruct (H _ _ Hi Ha).
  - destruct (decide (i = k)) as [->|Hik]; [|by destruct (H _ _ Hi Hik Ha)].
    destruct (decide (j = k)) as [->|Hjk]; [done|]. by destruct (H _ _ Hj Hjk Hb).
Qed.
End once.


(** ** What comes of a program among others

    [wp R Q p d]: whatever the others do to the data, as long as it is [R], and however
    the calls of [p] turn out, it ends with a result and data that [Q] allows. *)

Definition turns_out (r : result string) : Prop := (forall x, r = Ok x -> supply x) /\ (calm -> is_ok r = true).

Fixpoint wp (R : relation D) (Q : result A -> D -> Prop) (p : prog D A) (d : D) : Prop :=
  forall d1, R d d1 ->
  match p with
  | Done r => Q r d1
  | Now k => forall t, wp R Q (k t) d1
  | Uuid k => forall x, supply x -> wp R Q (k x) d1
  | Rand k => forall r, turns_out r -> wp R Q (k r) d1
  | Stmt s k => forall w r w', w_db w = d1 -> (calm -> unfaulty (w_env w)) ->
      exec_at s w = (r, w') -> wp R Q (k r) (w_db w')
  | Tx f g body k => forall w r w', w_db w = d1 -> (calm -> unfaulty (w_env w)) ->
      transaction f g (denote body) w = (r, w') -> wp R Q (k r) (w_db w')
  end.

(** Every way through ends well, and the first one to change the data from [I] is as
    good as done: [I] holds up to there, [W] after. *)
Fixpoint ahead (I : D -> Prop) (W : prog D A -> D -> Prop) (p : prog D A) : Prop :=
  match p with
  | Done _ => False
  | Now k => forall t, ahead I W (k t)
  | Uuid k => forall x, supply x -> ahead I W (k x)
  | Rand k => forall r, turns_out r -> ahead I W (k r)
  | Stmt s k => forall w r w', I (w_db w) -> (calm -> unfaulty (w_env w)) ->
      exec_at s w = (r, w') -> I (w_db w') /\ ahead I W (k r) \/ W (k r) (w_db w')
  | Tx f g body k => forall w r w', I (w_db w) -> (calm -> unfaulty (w_env w)) ->
      transaction f g (denote body) w = (r, w') -> I (w_db w') /\ ahead I W (k r) \/ W (k r) (w_db w')
  end.

Section rely.
Variable R : relation D.
Context `{!PreOrder R}.

Lemma wp_rely Q p d d1 : R d d1 -> wp R Q p d -> wp R Q p d1.
Proof using PreOrder0. destruct p; cbn [wp]; intros HR Hp d2 H2; apply Hp; by etrans. Qed.

Lemma section_wp Q p d p' d' : section p d p' d' -> wp R Q p d -> wp R Q p' d'.
Proof using PreOrder0.
  destruct 1 as [t k d|x k d Hx|r k d Hr Hc|B s k w r w' Hu Hx|B f g body k w r w' Hu Hx]; cbn [wp]; intros Hp;
    (eapply Hp; [reflexivity|..]); done.
Qed.

Lemma serial_step_wp Q s s' i p :
  serial_step s s' -> Forall (inside R) s.2 -> s.2 !! i = Some p -> wp R Q p s.1 ->
  exists p', s'.2 !! i = Some p' /\ wp R Q p' s'.1.
Proof using PreOrder0.
  intros (j & q & q' & Hq & Hsec & Hps) Hin Hi Hp. rewrite Forall_lookup in Hin.
  destruct (section_inside R _ _ _ _ Hsec (Hin _ _ Hq)) as [HR _]. rewrite Hps. destruct (decide (j = i)) as [->|Hne].
  - exists q'. rewrite list_lookup_insert_eq by (by eapply lookup_lt_Some). split; [done|]. simplify_eq. by eapply section_wp.
  - exists p. rewrite list_lookup_insert_ne by done. split; [done|]. by eapply wp_rely.
Qed.

Lemma serial_step_inside s s' : serial_step s s' -> Forall (inside R) s.2 -> R s.1 s'.1 /\ Forall (inside R) s'.2.
Proof using PreOrder0.
  intros Hst. pose proof (rtc_once _ _ Hst) as Hone. rewrite (surjective_pairing s), (surjective_pairing s') in Hone.
  by apply serial_inside.
Qed.

(** Each goroutine may rely on the others for what every section keeps. *)
Lemma rely_guarantee Q s s' i p :
  rtc serial_step s s' -> Forall (inside R) s.2 -> s.2 !! i = Some p -> wp R Q p s.1 ->
  exists p', s'.2 !! i = Some p' /\ wp R Q p' s'.1.
Proof using PreOrder0.
  intros Hrun. revert p. induction Hrun as [s|s1 s2 s3 Hst _ IH]; intros p Hin Hi Hp; [eauto|].
  destruct (serial_step_wp _ _ _ _ _ Hst Hin Hi Hp) as (p' & Hi' & Hp').
  destruct (serial_step_inside _ _ Hst Hin) as [_ Hin']. by eapply IH.
Qed.

Lemma section_ahead (I : D -> Prop) W p d p' d' :
  section p d p' d' -> I d -> ahead I W p -> I d' /\ ahead I W p' \/ W p' d'.
Proof using.
  destruct 1 as [t k d|x k d Hx|r k d Hr Hc|B s k w r w' Hu Hx|B f g body k w r w' Hu Hx]; cbn [ahead]; intros HI Hp.
  - left. auto.
  - left. auto.
  - left. split; [done|]. by apply Hp.
  - by eapply Hp.
  - by eapply Hp.
Qed.

(** When everybody has returned, somebody has got through. *)
Lemma somebody_wins (I : D -> Prop) Q s s' :
  rtc serial_step s s' -> Forall (inside R) s.2 -> s.2 <> [] ->
  I s.1 -> Forall (ahead I (wp R Q)) s.2 ->
  Forall (fun p => exists r, p = Done r) s'.2 ->
  exists i r, s'.2 !! i = Some (Done r) /\ Q r s'.1.
Proof using PreOrder0.
  intros Hrun Hin Hne HI Ha Hend.
  assert ((I s'.1 /\ Forall (ahead I (wp R Q)) s'.2) \/ exists i p, s'.2 !! i = Some p /\ wp R Q p s'.1) as Hcases.
  { clear Hend Hne. induction Hrun as [s|s1 s2 s3 Hst Hrun IH]; [by left|].
    destruct (serial_step_inside _ _ Hst Hin) as [_ Hin'].
    pose proof Hst as (i & p & p' & Hp & Hsec & Hps). rewrite Forall_lookup in Ha.
    destruct (section_ahead _ _ _ _ _ _ Hsec HI (Ha _ _ Hp)) as [[HI' Ha']|Hw].
    - apply IH; [done..|]. rewrite Hps. apply Forall_insert; [by apply Forall_lookup|done].
    - right. exists i. eapply rely_guarantee; [exact Hrun|done| |exact Hw]. rewrite Hps.
      apply list_lookup_insert_eq. by eapply lookup_lt_Some. }
  destruct Hcases as [[_ Ha']|(i & p & Hi & Hp)].
  - exfalso. assert (length s'.2 <> 0) as Hlen.
    { rewrite (serial_length _ _ Hrun). by destruct s.2. }
    destruct s'.2 as [|p ps]; [done|]. apply Forall_cons in Hend as [[r ->] _]. apply Forall_cons in Ha' as [[] _].
  - rewrite Forall_lookup in Hend. destruct (Hend _ _ Hi) as [r ->]. exists i, r. split; [done|].
    cbn in Hp. by apply Hp.
Qed.
End rely.

End serial.

(** ** Nobody waits forever *)

(** No statement of a transaction begins another one, which would wait for the
    connection the first one holds. *)
Fixpoint no_tx {D A} (p : prog D A) : Prop :=
  match p with
  | Done _ => True
  | Now k => forall t, no_tx (k t)
  | Uuid k => forall x, no_tx (k x)
  | Rand k => forall r, no_tx (k r)
  | Stmt _ k => forall r, no_tx (k r)
  | Tx _ _ _ _ => False
  end.

Fixpoint flat {D A} (p : prog D A) : Prop :=
  match p with
  | Done _ => True
  | Now k => forall t, flat (k t)
  | Uuid k => forall x, flat (k x)
  | Rand k => forall r, flat (k r)
  | Stmt _ k => forall r, flat (k r)
  | Tx _ _ body k => no_tx body /\ forall r, flat (k r)
  end.

Section progress.
Context {D A : Type}.
Implicit Types (s : Pool D A).

Definition flat_goroutine (g : goroutine D A) : Prop :=
  match g with Free p => flat p | InTx _ _ body k => no_tx body /\ forall r, flat (k r) end.

Lemma act_flat {B} c t (p : prog D B) d t' p' d' :
  act c t p d = Some (t', p', d') -> (flat p -> flat p') /\ (no_tx p -> no_tx p').
Proof.
  unfold act. destruct p as [r|k|k|k|C st k|C f g body k]; [done|..|done]; cbn [flat no_tx].
  1-3: intros [= <- <- <-]; auto.
  destruct (fault c); [intros [= <- <- <-]; auto|]. destruct (st _ d) as [?|[b d1]]; intros [= <- <- <-]; auto.
Qed.

Lemma goroutine_step_flat c b t (g : goroutine D A) d t' g' d' :
  goroutine_step c b t g d = Some (t', g', d') -> flat_goroutine g -> flat_goroutine g'.
Proof.
  unfold goroutine_step. destruct g as [p|B saved ce body k].
  - destruct (b && waits p); [done|]. intros H Hf. unfold free_step in H.
    destruct p as [r|k|k|k|C st k|C f g body k].
    6:{ destruct Hf. destruct (fault c); injection H as <- <- <-; cbn; auto. }
    all: destruct (act _ _ _ _) as [[[t1 p1] d1]|] eqn:E; [|done]; injection H as <- <- <-; by apply (act_flat _ _ _ _ _ _ _ E).
  - intros H [Hb Hk]. unfold tx_step in H. destruct body as [[x|e]|k0|k0|k0|C st k0|C f g0 body k0].
    1: destruct (fault c); injection H as <- <- <-; cbn; auto.
    1: injection H as <- <- <-; cbn; auto.
    all: destruct (act _ _ _ _) as [[[t1 p1] d1]|] eqn:E; [|done]; injection H as <- <- <-; split; [|done];
      by apply (act_flat _ _ _ _ _ _ _ E).
Qed.

Lemma steps_flat cs : forall s s', steps s cs = Some s' ->
  Forall (fun g => flat_goroutine g.2) (goroutines s) -> Forall (fun g => flat_goroutine g.2) (goroutines s').
Proof.
  induction cs as [|c cs IH]; intros s s'; cbn [steps]; [by intros [= <-]|].
  destruct (step s c) as [s1|] eqn:E; [|done]. cbn [mbind option_bind]. intros H Hs. apply (IH _ _ H).
  unfold step in E. destruct (goroutines s !! who c) as [[t g]|] eqn:Hg; [|done]. cbn [mbind option_bind] in E.
  destruct (goroutine_step _ _ _ _ _) as [[[t' g'] d1]|] eqn:E1; [|done]. injection E as <-. cbn.
  apply Forall_insert; [done|]. rewrite Forall_lookup in Hs. exact (goroutine_step_flat _ _ _ _ _ _ _ _ E1 (Hs _ _ Hg)).
Qed.

Lemma act_runs {B} c t (p : prog D B) d : no_tx p -> (forall r, p <> Done r) -> is_Some (act c t p d).
Proof.
  unfold act. destruct p as [r|k|k|k|C st k|C f g body k]; intros Hn Hd; [by destruct (Hd r)|..|done].
  1-3: by eexists.
  destruct (fault c); [by eexists|]. destruct (st _ d) as [?|[b d1]]; by eexists.
Qed.

Lemma holder_runs c b t (g : goroutine D A) d : in_tx g = true -> flat_goroutine g -> is_Some (goroutine_step c b t g d).
Proof.
  destruct g as [p|B saved ce body k]; [done|]. intros _ [Hn _]. cbn [goroutine_step].
  destruct body as [[x|e]|k0|k0|k0|C st k0|C f g0 body k0]; cbn [tx_step]; [destruct (fault c); by eexists|by eexists|..|done].
  all: match goal with |- context [act ?c ?t ?p ?d] => destruct (act_runs c t p d Hn) as [[[t1 p1] d1] E]; [done|] end;
    rewrite E; by eexists.
Qed.

Lemma free_runs c t (p : prog D A) d : (forall r, p <> Done r) -> is_Some (goroutine_step c false t (Free p) d).
Proof.
  intros Hd. cbn [goroutine_step andb]. unfold free_step, act.
  destruct p as [r|k|k|k|C st k|C f g body k]; [by destruct (Hd r)|by eexists..| |].
  - destruct (fault c); [by eexists|]. destruct (st _ d) as [?|[b d1]]; by eexists.
  - destruct (fault c); by eexists.
Qed.

Lemma can_go_on s i : is_Some (goroutines s !! i) -> Forall (fun g => flat_goroutine g.2) (goroutines s) ->
  returned s i = None -> exists j, forall c, who c = j -> is_Some (step s c).
Proof.
  intros [[t g] Hi] Hf Hr. rewrite Forall_lookup in Hf.
  assert (forall j t g, goroutines s !! j = Some (t, g) -> (forall c, is_Some (goroutine_step c (busy s) t g (db s))) ->
    forall c, who c = j -> is_Some (step s c)) as Hgo.
  { intros j t0 g0 Hj H c <-. unfold step. rewrite Hj. cbn [mbind option_bind]. destruct (H c) as [[[t' g'] d'] ->]. by eexists. }
  destruct (busy s) eqn:Hb.
  - unfold busy in Hb. apply existsb_exists in Hb as ([t0 g0] & [j Hj]%list_elem_of_In%list_elem_of_lookup_1 & Ht).
    exists j. apply (Hgo _ _ _ Hj). intros c. apply holder_runs; [done|by apply (Hf _ _ Hj)].
  - exists i. apply (Hgo _ _ _ Hi). intros c. destruct g as [p|B saved ce body k].
    + apply free_runs. intros r ->. unfold returned in Hr. by rewrite Hi in Hr.
    + apply holder_runs; [done|by apply (Hf _ _ Hi)].
Qed.

End progress.

(** ** Everybody returns *)

Section returns.
Context {D : Type}.

Definition goes_on {A} (g' g : goroutine D A) : Prop :=
  exists c b t d t' d', goroutine_step c b t g d = Some (t', g', d').

Lemma act_subterm {B} (Q : prog D B -> Prop) c t (p : prog D B) d t' p' d' :
  act c t p d = Some (t', p', d') ->
  match p with
  | Now k => forall t, Q (k t)
  | Uuid k => forall x, Q (k x)
  | Rand k => forall r, Q (k r)
  | Stmt _ k => forall r, Q (k r)
  | _ => True
  end -> Q p'.
Proof.
  unfold act. destruct p as [r|k|k|k|C st k|C f g body k]; [done|..|done].
  1-3: intros [= <- <- <-]; auto.
  destruct (fault c); [intros [= <- <- <-]; auto|]. destruct (st _ d) as [?|[b d1]]; intros [= <- <- <-]; auto.
Qed.

Lemma in_tx_acc {A B} (body : prog D B) : forall saved ce (k : result B -> prog D A),
  (forall r, Acc goes_on (Free (k r))) -> Acc goes_on (InTx saved ce body k).
Proof.
  induction body as [B r|B k0 IH|B k0 IH|B k0 IH|B C st k0 IH|B C f g body _ k0 IH]; intros saved ce k Hk; constructor;
    intros g' (c & b & t & d & t' & d' & H); cbn [goroutine_step tx_step] in H.
  1: destruct r as [x|e]; [destruct (fault c)|]; injection H as <- <- <-; apply Hk.
  5: done.
  all: destruct (act _ _ _ _) as [[[t1 p1] d1]|] eqn:E; [|done]; injection H as <- <- <-;
    apply (act_subterm (fun p => Acc goes_on (InTx saved ce p k)) _ _ _ _ _ _ _ E); intros ?; by apply IH.
Qed.

Lemma free_acc {A} (p : prog D A) : Acc goes_on (Free p).
Proof.
  assert (forall (A : Type) (p : prog D A),
    match p with
    | Now k => forall t, Acc goes_on (Free (k t))
    | Uuid k => forall x, Acc goes_on (Free (k x))
    | Rand k => forall r, Acc goes_on (Free (k r))
    | Stmt _ k => forall r, Acc goes_on (Free (k r))
    | Tx _ _ _ k => forall r, Acc goes_on (Free (k r))
    | Done _ => True
    end -> Acc goes_on (Free p)) as Hone.
  { clear. intros A p Hk. constructor. intros g' (c & b & t & d & t' & d' & H). cbn [goroutine_step] in H.
    destruct (b && waits p); [done|]. unfold free_step in H.
    destruct p as [r|k|k|k|C st k|C f g body k]; [done|..].
    5:{ destruct (fault c); injection H as <- <- <-; [apply Hk|by apply in_tx_acc]. }
    all: destruct (act c t _ d) as [[[t1 p1] d1]|] eqn:E; [|done]; injection H as <- <- <-.
    all: exact (act_subterm (fun p => Acc goes_on (Free p)) _ _ _ _ _ _ _ E Hk). }
  induction p; apply Hone; try assumption. exact I.
Qed.

Lemma goroutine_acc {A} (g : goroutine D A) : Acc goes_on g.
Proof. destruct g as [p|B saved ce body k]; [apply free_acc|]. apply in_tx_acc. intros r. apply free_acc. Qed.

(** One of several goes on. *)
Definition one_goes_on {A} (l' l : list (Z * goroutine D A)) : Prop :=
  exists i t g t' g', l !! i = Some (t, g) /\ goes_on g' g /\ l' = <[i := (t', g')]> l.

Lemma one_goes_on_cons {A} (g : goroutine D A) l : Acc goes_on g -> Acc one_goes_on l -> forall t, Acc one_goes_on ((t, g) :: l).
Proof.
  intros Hg Hl. revert l Hl. induction Hg as [g _ IHg]. intros l Hl. induction Hl as [l Hl IHl]. intros t. constructor.
  intros l' ([|i] & t0 & g0 & t' & g' & Hi & Hg' & ->); cbn in Hi; cbn.
  - injection Hi as -> ->. apply IHg; [exact Hg'|by constructor].
  - apply IHl. by exists i, t0, g0, t', g'.
Qed.

Lemma one_goes_on_acc {A} (l : list (Z * goroutine D A)) : Acc one_goes_on l.
Proof.
  induction l as [|[t g] l IH]; [|apply one_goes_on_cons; [apply goroutine_acc|done]].
  constructor. intros l' (i & t & g & t' & g' & Hi & _). by rewrite lookup_nil in Hi.
Qed.

Lemma step_acc {A} (s : Pool D A) : Acc (fun s' s => exists c, step s c = Some s') s.
Proof.
  destruct s as [d l]. revert d. induction (one_goes_on_acc l) as [l _ IH]. intros d. constructor.
  intros s' (c & H). unfold step in H. cbn in H. destruct (l !! who c) as [[t g]|] eqn:Hi; [|done]. cbn in H.
  destruct (goroutine_step _ _ _ _ _) as [[[t' g'] d1]|] eqn:E; [|done]. injection H as <-.
  apply IH. exists (who c), t, g, t', g'. split_and!; [done| |done]. by exists c, (busy (mkPool d l)), t, d, t', d1.
Qed.

End returns.

(** ** Along the programs of operations *)

Section codes.
Context {D : Type}.
Variable supply : string -> Prop.

Lemma inside_mono (R R' : relation D) {A} (p : prog D A) :
  (forall d d', R d d' -> R' d d') -> inside supply R p -> inside supply R' p.
Proof.
  intros HR. induction p as [A r|A k IH|A k IH|A k IH|A C st k IH|A C f g body _ k IH]; cbn [inside]; auto.
  - intros [Hw Hk]. split; [|auto]. intros w. apply HR, Hw.
  - intros [Hw Hk]. split; [|auto]. intros w. apply HR, Hw.
Qed.

Lemma inside_true {A} (p : prog D A) : inside supply (keeps (fun _ => True)) p.
Proof. induction p as [A r|A k IH|A k IH|A k IH|A C st k IH|A C f g body _ k IH]; cbn [inside]; auto; by split. Qed.

(** The body of a transaction as the operation has it. *)
Lemma transaction_body {A} f g (body : M D A) `{!Reified body} w :
  transaction f g body w = transaction f g (denote (code body)) w.
Proof. unfold transaction. destruct (map_err f _ w) as [[?|?] w1]; [|done]. by rewrite code_ok. Qed.

Lemma within_body (R : relation D) {A} f g (body : M D A) `{!Reified body} :
  within R (transaction f g body) -> within R (transaction f g (denote (code body))).
Proof. apply within_ext. intros w. apply transaction_body. Qed.

End codes.

(** The next call of a program. *)
Ltac next_call :=
  cbn [inside flat no_tx commits wp ahead next then_ok handle map_result code reified_ret reified_fail reified_bind reified_map_err
    reified_wrapping reified_attempt reified_try_or reified_now reified_new_uuid reified_rand_read reified_exec_at
    reified_exec reified_query reified_update reified_transaction].

(** Follows the program of an operation from call to call; [unfolding] opens the
    programs of the operations it calls. *)
Ltac explore unfolding :=
  repeat (unfolding; next_call;
    match goal with
    | |- True => exact I
    | |- _ /\ _ => split
    | |- forall _, _ => intro
    | |- context [then_ok _ ?r] => is_var r; destruct r
    | |- context [handle _ _ ?r] => is_var r; destruct r
    | |- context [map_result _ ?r] => is_var r; destruct r
    | |- context [code (match ?x with _ => _ end)] => destruct x eqn:?
    end).

(** ** The pool *)

Lemma allowed_supply supply cs : Forall (fun c => supply (drawn c)) cs -> Forall (allowed supply False) cs.
Proof. intros H. eapply Forall_impl; [exact H|]. intros c Hc. by split. Qed.

Lemma any_allowed cs : Forall (allowed (fun _ => True) False) cs.
Proof. by apply allowed_supply, Forall_true. Qed.

(** Everybody returns, when no transaction waits for its own connection. *)
Lemma everybody_returns {D A} (d : D) t (ps : list (prog D A)) :
  Forall flat ps ->
  Acc (fun s' s => exists c, step s c = Some s') (start d t ps) /\
  forall cs s, steps (start d t ps) cs = Some s -> (forall c, step s c = None) ->
    forall i, i < length ps -> is_Some (returned s i).
Proof.
  intros Hf. split; [apply step_acc|]. intros cs s Hst Hstuck i Hi.
  destruct (returned s i) eqn:E; [by eexists|]. exfalso.
  assert (length (goroutines s) = length ps) as Hlen.
  { destruct (steps_sim (fun _ => True) False cs _ _ _ _ Hst (any_allowed cs) (sim_start False d t ps)) as (d' & ps' & Hrun & Hs).
    rewrite (Forall2_length _ _ _ (sim_goroutines _ _ _ _ Hs)). by apply (serial_length (fun _ => True) False) in Hrun. }
  destruct (can_go_on s i) as [j Hj].
  - apply lookup_lt_is_Some. lia.
  - eapply steps_flat; [exact Hst|]. unfold start. cbn. by apply Forall_fmap.
  - exact E.
  - destruct (Hj (mkChoice j 0 None EmptyString) eq_refl) as [s' Hs']. by rewrite Hstuck in Hs'.
Qed.

Lemma pool_runs {D A} (d : D) t (ps : list (prog D A)) cs s :
  steps (start d t ps) cs = Some s ->
  exists ps', rtc (serial_step (fun _ => True) False) (d, ps) (committed s, ps') /\
    forall i r, returned s i = Some r -> ps' !! i = Some (Done r).
Proof.
  intros Hst. destruct (serializable_run _ _ _ _ _ _ _ Hst (any_allowed cs)) as (ps' & Hrun & _ & Hret). eauto.
Qed.

(** Of contenders that alone can only have their way or be refused with [e], when
    nothing fails, exactly one has its way. *)
Lemma exactly_one {D A} supply (R : relation D) `{!PreOrder R} (I : D -> Prop) (a : A) (e : error) (d : D) t ps cs s :
  ps <> [] -> Forall flat ps -> Forall (inside supply R) ps -> I d ->
  Forall (ahead supply True I (wp supply True R (fun r _ => r = Ok a))) ps ->
  Forall (fun p => wp supply True R (fun r _ => r = Ok a \/ r = Err e) p d) ps ->
  (forall d' ps', rtc (serial_step supply True) (d, ps) (d', ps') ->
    forall i j, ps' !! i = Some (Done (Ok a)) -> ps' !! j = Some (Done (Ok a)) -> i = j) ->
  Forall (fun c => supply (drawn c)) cs -> Forall (fun c => fault c = None) cs ->
  steps (start d t ps) cs = Some s -> (forall c, step s c = None) ->
  exists i, returned s i = Some (Ok a) /\ forall j, j < length ps -> j <> i -> returned s j = Some (Err e).
Proof.
  intros Hne Hflat Hin HI Hahead Hwp Hone Hdrawn Hcalm Hst Hstuck.
  destruct (everybody_returns d t ps Hflat) as [_ Hend]. specialize (Hend _ _ Hst Hstuck).
  assert (Forall (allowed supply True) cs) as Hal by (apply Forall_and; split; [exact Hdrawn|]; eapply Forall_impl; [exact Hcalm|]; done).
  destruct (serializable_run _ _ _ _ _ _ _ Hst Hal) as (ps' & Hrun & _ & Hret).
  pose proof (serial_length _ _ _ _ Hrun) as Hlen. cbn in Hlen.
  assert (forall i, i < length ps -> exists r, returned s i = Some r /\ ps' !! i = Some (Done r)) as Hdone
    by (intros i [r Hi]%Hend; eauto).
  destruct (somebody_wins _ _ R I (fun r _ => r = Ok a) _ _ Hrun Hin Hne HI Hahead) as (i & r & Hi & ->).
  - apply Forall_lookup. cbn. intros k p Hk. destruct (Hdone k) as (r & _ & Hr); [rewrite <- Hlen; by eapply lookup_lt_Some|].
    exists r. congruence.
  - cbn in Hi. destruct (Hdone i) as (r & Hr & Hr'); [rewrite <- Hlen; by eapply lookup_lt_Some|].
    exists i. split; [congruence|]. intros j Hj Hji. destruct (Hdone j Hj) as (rj & Hrj & Hpj). rewrite Hrj. f_equal.
    destruct (lookup_lt_is_Some_2 _ _ Hj) as [p Hp]. rewrite Forall_lookup in Hwp.
    destruct (rely_guarantee _ _ R _ _ _ j p Hrun Hin Hp (Hwp _ _ Hp)) as (p' & Hp' & Hw).
    cbn in Hp'. rewrite Hpj in Hp'. injection Hp' as <-. destruct (Hw _ (reflexivity _)) as [->| ->]; [|done].
    by destruct Hji; eapply Hone.
Qed.

(** C5: What requests do at the same time amounts to their single statements and whole
    transactions one after the other, in some order: what is committed is what that
    order leaves, with nothing of a transaction under way, and every request returns
    what it returns there. *)
Theorem pool_serializable {D A} (d : D) t (ps : list (prog D A)) cs s :
  steps (start d t ps) cs = Some s ->
  exists ps', rtc (serial_step (fun _ => True) False) (d, ps) (committed s, ps') /\
    (busy s = false -> db s = committed s) /\
    forall i r, returned s i = Some r -> ps' !! i = Some (Done r).
Proof. intros Hst. apply (serializable_run _ _ _ _ _ _ _ Hst), any_allowed. Qed.

(** Two transactions that read a counter and write it back one higher. *)
Definition bump : prog nat nat :=
  Tx id id (Stmt (fun _ d => inr (d, d)) (then_ok (fun n => Stmt (fun _ _ => inr (S n, S n)) Done))) Done.
Definition turns (l : list nat) : list choice := (fun i => mkChoice i 0 None EmptyString) <$> l.

Lemma pool_serializable_witness :
  exists s ps', steps (start 0 0 [bump; bump]) (turns [1; 1; 1; 1; 0; 0; 0; 0]) = Some s /\
    rtc (serial_step (fun _ => True) False) (0, [bump; bump]) (2, ps') /\ ps' !! 0 = Some (Done (Ok 2)) /\ ps' !! 1 = Some (Done (Ok 1)).
Proof.
  destruct (pool_serializable 0 0 [bump; bump] (turns [1; 1; 1; 1; 0; 0; 0; 0]) _ eq_refl) as (ps' & Hrun & _ & Hret).
  eexists _, ps'. split; [reflexivity|]. split; [exact Hrun|]. split; apply Hret; reflexivity.
Defined.

(** While one goroutine holds the connection, another cannot begin. *)
Example the_other_waits : steps (start 0 0 [bump; bump]) (turns [1; 0]) = None.
Proof. reflexivity. Qed.

End PoolFacts.
