(* ===== verification/Encoding.v ===== *)
(** * SHA-256 and the text encodings of tokens and checksums

    Models the parts of Go's [crypto/sha256], [encoding/hex] (the encoder is in
    GoStrings) and [encoding/base64] the program calls: session tokens and reset
    tokens are stored as the hexadecimal digest of the raw token, and a migration
    file is identified by the digest of its content.  Everything computes, and
    the published test vectors are checked by evaluation. *)

From S2P Require Import Prelude GoStrings.

(** ** 32-bit words *)

Definition mask32 : N := 4294967295.
Definition add32 (a b : N) : N := N.land (a + b) mask32.
Definition not32 (a : N) : N := N.lxor a mask32.
Definition rotr (n x : N) : N :=
  N.lor (N.shiftr x n) (N.land (N.shiftl x (32 - n)) mask32).
Definition shr (n x : N) : N := N.shiftr x n.

Definition Ch (x y z : N) : N := N.lxor (N.land x y) (N.land (not32 x) z).
Definition Maj (x y z : N) : N :=
  N.lxor (N.land x y) (N.lxor (N.land x z) (N.land y z)).
Definition bsig0 (x : N) : N := N.lxor (rotr 2 x) (N.lxor (rotr 13 x) (rotr 22 x)).
Definition bsig1 (x : N) : N := N.lxor (rotr 6 x) (N.lxor (rotr 11 x) (rotr 25 x)).
Definition ssig0 (x : N) : N := N.lxor (rotr 7 x) (N.lxor (rotr 18 x) (shr 3 x)).
Definition ssig1 (x : N) : N := N.lxor (rotr 17 x) (N.lxor (rotr 19 x) (shr 10 x)).

(** The constants are the first 32 bits of the fractional parts of the square
    roots of the first 8 primes and of the cube roots of the first 64. *)
Definition is_prime (n : nat) : bool :=
  (2 <=? n)%nat && forallb (fun d => negb (Nat.eqb (n mod d) 0)) (seq 2 (n - 2)).
Definition small_primes : list N := N.of_nat <$> List.filter is_prime (seq 0 312).

(** Integer cube root, bit by bit from bit [i]. *)
Fixpoint cube_root (i : nat) (n acc : N) : N :=
  match i with
  | O => acc
  | S i' =>
      let r := (acc + 2 ^ N.of_nat i')%N in
      cube_root i' n (if (r * r * r <=? n)%N then r else acc)
  end.

Definition K256 : list N :=
  Eval vm_compute in (fun p => N.land (cube_root 36 (p * 2 ^ 96) 0) mask32) <$> small_primes.

Definition H256 : list N :=
  Eval vm_compute in (fun p => N.land (N.sqrt (p * 2 ^ 64)) mask32) <$> take 8 small_primes.

(** ** Padding *)

Fixpoint bytes_of (s : string) : list N :=
  match s with
  | EmptyString => []
  | String c r => byte_n c :: bytes_of r
  end.

Fixpoint string_of (l : list N) : string :=
  match l with
  | [] => EmptyString
  | b :: r => String (ascii_of_N b) (string_of r)
  end.

(** [n] big-endian bytes of [x]. *)
Fixpoint be_bytes (n : nat) (x : N) : list N :=
  match n with
  | O => []
  | S n' => N.land (N.shiftr x (8 * N.of_nat n')) 255 :: be_bytes n' x
  end.

Definition pad (msg : list N) : list N :=
  let len := N.of_nat (length msg) in
  let zeros := N.to_nat ((119 - len mod 64) mod 64)%N in
  msg ++ [128%N] ++ replicate zeros 0%N ++ be_bytes 8 (len * 8).

Fixpoint words_of (l : list N) : list N :=
  match l with
  | a :: b :: c :: d :: r => (a * 16777216 + b * 65536 + c * 256 + d)%N :: words_of r
  | _ => []
  end.

(** ** The compression function *)

(** The message schedule, newest word first: [n] further words. *)
Fixpoint schedule (n : nat) (w : list N) : list N :=
  match n with
  | O => w
  | S n' =>
      let get i := nth i w 0%N in
      schedule n' (add32 (add32 (ssig1 (get 1)) (get 6)) (add32 (ssig0 (get 14)) (get 15)) :: w)
  end.

Definition round_step (st : list N) (kw : N * N) : list N :=
  match st with
  | [a; b; c; d; e; f; g; h] =>
      let t1 := add32 (add32 h (bsig1 e)) (add32 (Ch e f g) (add32 (fst kw) (snd kw))) in
      let t2 := add32 (bsig0 a) (Maj a b c) in
      [add32 t1 t2; a; b; c; add32 d t1; e; f; g]
  | _ => st
  end.

Definition compress (h block : list N) : list N :=
  let w := rev (schedule 48 (rev block)) in
  zip_with add32 h (fold_left round_step (zip K256 w) h).

Fixpoint blocks (n : nat) (h words : list N) : list N :=
  match n with
  | O => h
  | S n' => blocks n' (compress h (take 16 words)) (drop 16 words)
  end.

(** [sha256.Sum256]. *)
Definition sha256 (s : string) : string :=
  let words := words_of (pad (bytes_of s)) in
  string_of (concat (be_bytes 4 <$> blocks (length words / 16) H256 words)).

(** [hex.EncodeToString] of the digest. *)
Definition sha256_hex (s : string) : string := hex_encode (sha256 s).

Example sha256_empty :
  sha256_hex EmptyString = "e3b0c44298fc1c149afbf4c8996fb92427ae41e4649b934ca495991b7852b855".
Proof. vm_compute. reflexivity. Qed.

Example sha256_abc :
  sha256_hex "abc" = "ba7816bf8f01cfea414140de5dae2223b00361a396177a9cb410ff61f20015ad".
Proof. vm_compute. reflexivity. Qed.

Example sha256_two_blocks :
  sha256_hex "abcdbcdecdefdefgefghfghighijhijkijkljklmklmnlmnomnopnopq" =
  "248d6a61d20638b8e5c026930c3e6039a33ce45964ff2167f6ecedd419db06c1".
Proof. vm_compute. reflexivity. Qed.

(** ** base64.RawURLEncoding *)

Definition b64_char (n : N) : ascii :=
  if (n <? 26)%N then ascii_of_N (n + 65)
  else if (n <? 52)%N then ascii_of_N (n + 71)
  else if (n <? 62)%N then ascii_of_N (n - 4)
  else if (n =? 62)%N then "-"%char else "_"%char.

Fixpoint RawURLEncode (s : string) : string :=
  match s with
  | String a (String b (String c r)) =>
      let x := (byte_n a * 65536 + byte_n b * 256 + byte_n c)%N in
      String (b64_char (x / 262144)) (String (b64_char (x / 4096 mod 64))
        (String (b64_char (x / 64 mod 64)) (String (b64_char (x mod 64)) (RawURLEncode r))))
  | String a (String b EmptyString) =>
      let x := (byte_n a * 1024 + byte_n b * 4)%N in
      String (b64_char (x / 4096)) (String (b64_char (x / 64 mod 64)) (one (b64_char (x mod 64))))
  | String a EmptyString =>
      let x := (byte_n a * 16)%N in
      String (b64_char (x / 64)) (one (b64_char (x mod 64)))
  | EmptyString => EmptyString
  end.

Example rawurl_foob : RawURLEncode "foob?>" = "Zm9vYj8-".
Proof. reflexivity. Qed.

(** A quoted cookie or header value never needs escaping of these bytes. *)
Definition b64_alphabet (c : ascii) : bool :=
  is_upper c || is_lower c || is_digit c || byte_eqb c "-" || byte_eqb c "_".

Lemma RawURLEncode_alphabet_fuel n s :
  String.length s <= n -> sall b64_alphabet (RawURLEncode s) = true.
Proof.
  assert (forall x, b64_alphabet (b64_char x) = true) as Hc.
  { intros x. unfold b64_char.
    repeat match goal with |- context [(?a <? ?b)%N] => destruct (N.ltb_spec a b) end.
    - assert (x < 26)%N as Hx by lia. clear -Hx. revert Hx.
      rewrite <- (N2Nat.id x). generalize (N.to_nat x). intros m Hm.
      do 26 (destruct m as [|m]; [reflexivity|]). lia.
    - assert (exists y, x = y + 26 /\ y < 26)%N as (y & -> & Hy) by (exists (x - 26)%N; lia).
      clear -Hy. revert Hy. rewrite <- (N2Nat.id y). generalize (N.to_nat y). intros m Hm.
      do 26 (destruct m as [|m]; [reflexivity|]). lia.
    - assert (exists y, x = y + 52 /\ y < 10)%N as (y & -> & Hy) by (exists (x - 52)%N; lia).
      clear -Hy. revert Hy. rewrite <- (N2Nat.id y). generalize (N.to_nat y). intros m Hm.
      do 10 (destruct m as [|m]; [reflexivity|]). lia.
    - by destruct (x =? 62)%N. }
  revert s. induction n as [|n IH]; intros [|a [|b [|c s]]] Hl; simpl in *; try lia;
    rewrite ?Hc; try done.
  apply IH. lia.
Qed.

Lemma RawURLEncode_alphabet s : sall b64_alphabet (RawURLEncode s) = true.
Proof. by eapply RawURLEncode_alphabet_fuel. Qed.

#[global] Opaque sha256.
