(* ===== verification/Migrations.v ===== *)
(** * Schema migrations

    Models src/internal/db/migrate.go: the embedded and the application
    migrations, their two-section files, the bookkeeping table
    [schema_migrations], and the commands up, down, redo, to, status and diff.

    The tables a migration's SQL creates and changes are those of an SQL engine,
    which is a third-party driver: [SqlEngine] is its interface, and the scripts
    are assumed to leave [schema_migrations] itself alone. *)

From S2P Require Import Prelude GoStrings Encoding.

(** ** The SQL engine, as far as migrations see it *)

Class SqlEngine (U : Type) := {
  sql_empty : U;                              (* a new, empty database *)
  sql_exec : string -> U -> string + U;       (* run a script, or fail *)
  sql_master : U -> gmap string string;       (* name -> CREATE TABLE text *)
  (* the text kept for [schema_migrations], with or without the added column *)
  sql_bookkeeping : bool -> string;
}.

Module Migrate.

(** ** Migration files *)

Definition migrateUpMarker : string := "-- +migrate Up".
Definition migrateDownMarker : string := "-- +migrate Down".

(** The loop over the lines: the last marker of each kind wins. *)
Fixpoint scan_markers (i : Z) (lines : list string) (upStart downLine : Z) : Z * Z :=
  match lines with
  | [] => (upStart, downLine)
  | line :: rest =>
      if bool_decide (TrimSpace line = migrateUpMarker) then
        scan_markers (i + 1) rest (i + 1) downLine
      else if bool_decide (TrimSpace line = migrateDownMarker) then
        scan_markers (i + 1) rest upStart i
      else scan_markers (i + 1) rest upStart downLine
  end.

(** [lines[lo:hi]] and [lines[lo:]]. *)
Definition slice {A} (lo hi : Z) (l : list A) : list A :=
  take (Z.to_nat (hi - lo)) (drop (Z.to_nat lo) l).
Definition slice_from {A} (lo : Z) (l : list A) : list A := drop (Z.to_nat lo) l.

Definition splitMigrationSQL (content : string) : string * string * bool :=
  let lines := Split newline content in
  let nl := one newline in
  let '(upStart, downLine) := scan_markers 0 lines (-1) (-1) in
  if (upStart <? 0)%Z then (content, EmptyString, false)
  else if (downLine <? 0)%Z || (downLine <? upStart)%Z then
    (Join nl (slice_from upStart lines), EmptyString, false)
  else (Join nl (slice upStart downLine lines), Join nl (slice_from (downLine + 1) lines), true).

Definition up_sql (content : string) : string := (splitMigrationSQL content).1.1.
Definition down_sql (content : string) : string := (splitMigrationSQL content).1.2.
Definition has_down (content : string) : bool := (splitMigrationSQL content).2.

Definition migrationChecksum (content : string) : string := sha256_hex content.

(** ** State *)

Inductive DirEntry : Type :=
| File (name content : string)
| SubDir (name : string).

(** The names of the entries that are not directories, in name order. *)
Definition file_name (e : DirEntry) : option string :=
  match e with File n _ => Some n | SubDir _ => None end.
Definition migration_names (es : list DirEntry) : list string :=
  sort_strings (omap file_name es).

Fixpoint file_content (es : list DirEntry) (name : string) : option string :=
  match es with
  | [] => None
  | File n c :: r => if bool_decide (n = name) then Some c else file_content r name
  | SubDir _ :: r => file_content r name
  end.

Record MigRow : Type := mkMigRow {
  version : string; applied_at : Z; checksum : option string;
}.

(** The bookkeeping table; [has_checksum] is false for one created before the
    column existed. *)
Record MigTable : Type := mkMigTable { has_checksum : bool; mig_rows : list MigRow }.

Record SQLDB (U : Type) : Type := mkSQLDB {
  schema_migrations : option MigTable;
  user_schema : U;
}.
Arguments mkSQLDB {U} _ _.
Arguments schema_migrations {U} _.
Arguments user_schema {U} _.

(** A migrations directory ([None] when missing) and a database. *)
Record Site (U : Type) : Type := mkSite { site_dir : option (list DirEntry); site_db : SQLDB U }.
Arguments mkSite {U} _ _.
Arguments site_dir {U} _.
Arguments site_db {U} _.

Definition rows_of {U} (d : SQLDB U) : list MigRow := from_option mig_rows [] (schema_migrations d).
Definition recorded {U} (d : SQLDB U) : list string := version <$> rows_of d.

(** The result of a command that reports what it did next to its error. *)
Definition Partial : Type := list string * option error.
Definition nothing_done (e : error) : Partial := ([], Some e).

Definition zero_time : Z := -62135596800000000000.
Definition seconds (t : Z) : Z := (t / 1000000000 * 1000000000)%Z.

Definition app_prefix : string := "app:".
#[global] Arguments app_prefix : simpl never.

(** [version LIKE 'app:%']: SQLite's LIKE ignores the case of ASCII letters. *)
Definition like_app (v : string) : bool := HasPrefix (ToLower v) app_prefix.

(** ORDER BY applied_at DESC, version DESC. *)
Definition newer (a b : MigRow) : Prop :=
  (applied_at b < applied_at a)%Z \/
  (applied_at a = applied_at b /\ str_le (version b) (version a)).

#[global] Instance newer_dec : RelDecision newer.
Proof. intros a b. unfold newer. apply _. Defined.

Definition newest (n : nat) (rows : list MigRow) : list string :=
  take n (version <$> merge_sort newer (filter (fun r => like_app (version r) = true) rows)).

Section migrate.
Context {U : Type} `{!SqlEngine U}.
Local Abbreviation MS := (M (Site U)).

(** ** The file system calls *)

Definition os_Stat : MS bool := query (fun s => bool_decide (is_Some (site_dir s))).

Definition ReadDir : MS (list DirEntry) :=
  exec (fun s => match site_dir s with
                 | Some es => inr (es, s)
                 | None => inl "no such file or directory"
                 end).

Definition ReadFile (name : string) : MS string :=
  exec (fun s => match site_dir s ≫= (fun es => file_content es name) with
                 | Some c => inr (c, s)
                 | None => inl "no such file or directory"
                 end).

(** ** The statements on [schema_migrations] *)

Definition set_table (t : MigTable) (s : Site U) : Site U :=
  mkSite (site_dir s) (mkSQLDB (Some t) (user_schema (site_db s))).

Definition on_table {A} (f : MigTable -> string + (A * MigTable)) (s : Site U) : string + (A * Site U) :=
  match schema_migrations (site_db s) with
  | None => inl "no such table: schema_migrations"
  | Some t => match f t with
              | inl e => inl e
              | inr (a, t') => inr (a, set_table t' s)
              end
  end.

Definition create_if_not_exists : MS unit :=
  update (fun s => (tt, match schema_migrations (site_db s) with
                        | Some _ => s
                        | None => set_table (mkMigTable true []) s
                        end)).

Definition table_columns (s : Site U) : list string :=
  match schema_migrations (site_db s) with
  | None => []
  | Some t => ["version"; "applied_at"] ++ (if has_checksum t then ["checksum"] else [])
  end.

Definition ensureChecksumColumn : MS unit :=
  names ← wrapping "inspect schema_migrations columns" (query table_columns);
  if bool_decide ("checksum" ∈ names) then mret tt
  else wrapping "add schema_migrations.checksum column"
         (exec (on_table (fun t => inr (tt, mkMigTable true (mig_rows t))))).

Definition ensureMigrationsTable : MS unit :=
  wrapping "create schema_migrations" create_if_not_exists ;;
  ensureChecksumColumn.

Definition count_version (v : string) : MS nat :=
  exec (on_table (fun t => inr (length (filter (fun r => version r = v) (mig_rows t)), t))).

Definition insert_row (v sum : string) : MS unit :=
  exec_at (fun clk => on_table (fun t =>
    if negb (has_checksum t) then inl "table schema_migrations has no column named checksum"
    else if bool_decide (v ∈ version <$> mig_rows t) then
      inl "constraint failed: UNIQUE constraint failed: schema_migrations.version (1555)"
    else inr (tt, mkMigTable true (mig_rows t ++ [mkMigRow v (seconds clk) (Some sum)])))).

Definition delete_row (v : string) : MS unit :=
  exec (on_table (fun t =>
    inr (tt, mkMigTable (has_checksum t) (filter (fun r => version r <> v) (mig_rows t))))).

Definition run_script (sql : string) : MS unit :=
  exec (fun s => match sql_exec sql (user_schema (site_db s)) with
                 | inl e => inl e
                 | inr u => inr (tt, mkSite (site_dir s) (mkSQLDB (schema_migrations (site_db s)) u))
                 end).

(** ** Applying *)

(** The transaction that runs a file's up half and records the file. *)
Definition apply_in_tx (label v content : string) : MS unit :=
  transaction (Wrap ("begin tx for " +:+ label)) (Wrap ("commit migration " +:+ label))
    (wrapping ("apply migration " +:+ label) (run_script (up_sql content)) ;;
     wrapping ("record migration " +:+ label) (insert_row v (migrationChecksum content))).

(** One turn of the loop: whether the file was newly applied. *)
Definition apply_pending (versionPrefix name : string) : MS bool :=
  let v := versionPrefix +:+ name in
  count ← wrapping ("check migration " +:+ v) (count_version v);
  if bool_decide (0 < count) then mret false
  else
    content ← wrapping ("read migration " +:+ v) (ReadFile name);
    apply_in_tx v v content ;;
    mret true.

Fixpoint apply_loop (versionPrefix : string) (names applied : list string) : MS Partial :=
  match names with
  | [] => mret (applied, None)
  | name :: rest =>
      try_or (fun e => (applied, Some e)) (apply_pending versionPrefix name) (fun newly : bool =>
        apply_loop versionPrefix rest (if newly then applied ++ [name] else applied))
  end.

Definition applyMigrations (versionPrefix : string) : MS Partial :=
  try_or nothing_done (wrapping "read migrations dir" ReadDir) (fun entries =>
    apply_loop versionPrefix (migration_names entries) []).

(** [Migrate]: the directory is the set of embedded files. *)
Definition Migrate_ : MS (option error) :=
  try_or Some ensureMigrationsTable (fun _ =>
    r ← applyMigrations EmptyString; mret r.2).

Definition MigrateDirApplied (dir : string) : MS Partial :=
  try_or nothing_done (wrapping ("stat " +:+ dir) os_Stat) (fun exists_ =>
    if (exists_ : bool) then
      try_or nothing_done ensureMigrationsTable (fun _ => applyMigrations app_prefix)
    else mret ([], None)).

Definition MigrateDir (dir : string) : MS (option error) :=
  r ← MigrateDirApplied dir; mret r.2.

Definition applyOneMigration (name : string) : MS unit :=
  content ← wrapping ("read migration " +:+ name) (ReadFile name);
  apply_in_tx name (app_prefix +:+ name) content.

(** ** Status *)

Record MigrationStatus : Type := mkStatus {
  Name : string; Applied : bool; AppliedAt : Z; HasDown : bool; ChecksumMismatch : bool;
}.

Definition select_row (v : string) : MS (option MigRow) :=
  exec (on_table (fun t => inr (find_row (fun r => version r = v) (mig_rows t), t))).

Definition status_of (name content : string) (row : option MigRow) : MigrationStatus :=
  match row with
  | None => mkStatus name false zero_time (has_down content) false
  | Some r =>
      mkStatus name true (applied_at r) (has_down content)
        match checksum r with
        | None => false
        | Some c => negb (bool_decide (c = EmptyString)) && negb (bool_decide (c = migrationChecksum content))
        end
  end.

Fixpoint status_loop (names : list string) : MS (list MigrationStatus) :=
  match names with
  | [] => mret []
  | name :: rest =>
      content ← wrapping ("read migration " +:+ name) (ReadFile name);
      row ← wrapping ("check migration " +:+ name) (select_row (app_prefix +:+ name));
      out ← status_loop rest;
      mret (status_of name content row :: out)
  end.

Definition Status (dir : string) : MS (list MigrationStatus) :=
  exists_ ← wrapping ("stat " +:+ dir) os_Stat;
  if (exists_ : bool) then
    ensureMigrationsTable ;;
    entries ← wrapping "read migrations dir" ReadDir;
    status_loop (migration_names entries)
  else mret [].

Definition VerifyChecksums (dir : string) : MS (list string) :=
  statuses ← Status dir;
  mret (Name <$> filter (fun s => ChecksumMismatch s = true) statuses).

(** ** Reverting *)

Definition select_newest (n : nat) : MS (list string) :=
  exec (on_table (fun t => inr (newest n (mig_rows t), t))).

Definition revert_one (v : string) : MS unit :=
  let name := TrimPrefix v app_prefix in
  content ← map_err (Wrap ("read migration " +:+ name +:+ " to revert it")) (ReadFile name);
  if negb (has_down content) || bool_decide (TrimSpace (down_sql content) = EmptyString) then
    fail (Errorf ("migration " +:+ name +:+ " has no " +:+ Quote migrateDownMarker +:+
                  " section — can't revert it"))
  else
    transaction (Wrap ("begin tx to revert " +:+ name)) (Wrap ("commit revert of " +:+ name))
      (wrapping ("revert migration " +:+ name) (run_script (down_sql content)) ;;
       wrapping ("unrecord migration " +:+ name) (delete_row v)).

Fixpoint down_loop (versions reverted : list string) : MS Partial :=
  match versions with
  | [] => mret (reverted, None)
  | v :: rest =>
      try_or (fun e => (reverted, Some e)) (revert_one v) (fun _ =>
        down_loop rest (reverted ++ [TrimPrefix v app_prefix]))
  end.

Definition MigrateDirDown (dir : string) (n : Z) : MS Partial :=
  if (n <=? 0)%Z then
    mret (nothing_done (Errorf ("n must be a positive number of migrations to revert, got " +:+ Itoa n)))
  else
    try_or nothing_done (wrapping ("stat " +:+ dir) os_Stat) (fun exists_ =>
      if (exists_ : bool) then
        try_or nothing_done ensureMigrationsTable (fun _ =>
        try_or nothing_done (wrapping "list applied migrations" (select_newest (Z.to_nat n))) (fun versions =>
          down_loop versions []))
      else mret ([], None)).

Fixpoint redo_loop (names redone : list string) : MS Partial :=
  match names with
  | [] => mret (redone, None)
  | name :: rest =>
      try_or (fun e => (redone, Some (Wrap ("reapply migration " +:+ name) e))) (applyOneMigration name)
        (fun _ => redo_loop rest (redone ++ [name]))
  end.

Definition MigrateDirRedo (dir : string) (n : Z) : MS Partial :=
  r ← MigrateDirDown dir n;
  match r with
  | (_, Some e) => mret (nothing_done e)
  | (reverted, None) => redo_loop (reverse reverted) []
  end.

(** ** Moving to a version *)

Definition resolve_in (dir target : string) (entries : list DirEntry) : error + string :=
  let files := omap file_name entries in
  if bool_decide (target ∈ files) then inr target
  else match Atoi target with
  | None => inl (Errorf ("no migration named " +:+ Quote target +:+ " in " +:+ dir))
  | Some targetN =>
      match filter (fun f => (number_prefix f ≫= Atoi) = Some targetN) files with
      | [] => inl (Errorf ("no migration matching " +:+ Quote target +:+ " in " +:+ dir))
      | [m] => inr m
      | matches => inl (Errorf (Quote target +:+ " matches more than one migration file: [" +:+
                                Join " " matches +:+ "]"))
      end
  end.

Definition resolveVersion (dir target : string) : MS string :=
  entries ← wrapping "read migrations dir" ReadDir;
  match resolve_in dir target entries with
  | inl e => fail e
  | inr name => mret name
  end.

Fixpoint to_loop (statuses : list MigrationStatus) (applied : list string) : MS Partial :=
  match statuses with
  | [] => mret (applied, None)
  | s :: rest =>
      if Applied s then to_loop rest applied
      else
        try_or (fun e => (applied, Some (Wrap ("apply migration " +:+ Name s) e)))
          (applyOneMigration (Name s))
          (fun _ => to_loop rest (applied ++ [Name s]))
  end.

(** The first status of the given name, and those after it. *)
Fixpoint split_at (name : string) (l : list MigrationStatus) :
    option (list MigrationStatus * MigrationStatus * list MigrationStatus) :=
  match l with
  | [] => None
  | s :: r =>
      if bool_decide (Name s = name) then Some ([], s, r)
      else match split_at name r with
           | None => None
           | Some (before, t, after) => Some (s :: before, t, after)
           end
  end.

Inductive Direction : Type := DirUp | DirDown | DirNone.

Definition MigrateDirTo (dir target : string) : MS (list string * Direction * option error) :=
  let none e := ([], DirNone, Some e) in
  try_or none (wrapping ("stat " +:+ dir) os_Stat) (fun exists_ =>
  if negb exists_ then mret (none (Errorf ("no migrations directory at " +:+ dir)))
  else
    try_or none ensureMigrationsTable (fun _ =>
    try_or none (resolveVersion dir target) (fun targetName =>
    try_or none (Status dir) (fun statuses =>
      match split_at targetName statuses with
      | None => mret (none (Errorf ("migration " +:+ targetName +:+ " not found")))
      | Some (before, t, after) =>
          if Applied t then
            let n := length (filter (fun s => Applied s = true) after) in
            if bool_decide (n = 0) then mret ([], DirNone, None)
            else r ← MigrateDirDown dir (Z.of_nat n); mret (r.1, DirDown, r.2)
          else r ← to_loop (before ++ [t]) []; mret (r.1, DirUp, r.2)
      end)))).

End migrate.

(** ** Diff *)

Inductive DiffKind : Type := Unexplained | Missing | Altered.

Record DiffResult : Type := mkDiff {
  Table : string; Kind : DiffKind; LiveSQL : string; ExpectedSQL : string;
}.

#[global] Instance DiffKind_eq_dec : EqDecision DiffKind.
Proof. solve_decision. Defined.
#[global] Instance DiffResult_eq_dec : EqDecision DiffResult.
Proof. solve_decision. Defined.

(** [name LIKE 'sqlite_%']: the underscore stands for any one byte. *)
Definition like_sqlite (name : string) : bool :=
  match CutPrefix (ToLower name) "sqlite" with
  | Some (String _ _) => true
  | _ => false
  end.

Definition live_diff (reserved expected : gmap string string) (kv : string * string) : option DiffResult :=
  let '(name, liveSQL) := kv in
  match reserved !! name with
  | Some _ => None
  | None =>
      match expected !! name with
      | None => Some (mkDiff name Unexplained liveSQL EmptyString)
      | Some expectedSQL =>
          if bool_decide (liveSQL = expectedSQL) then None
          else Some (mkDiff name Altered liveSQL expectedSQL)
      end
  end.

Definition missing_diff (reserved live : gmap string string) (kv : string * string) : option DiffResult :=
  let '(name, expectedSQL) := kv in
  match reserved !! name, live !! name with
  | None, None => Some (mkDiff name Missing EmptyString expectedSQL)
  | _, _ => None
  end.

Definition by_table (a b : DiffResult) : Prop := str_le (Table a) (Table b).
#[global] Instance by_table_dec : RelDecision by_table := fun a b => decide (str_le (Table a) (Table b)).

Definition diff_tables (reserved live expected : gmap string string) : list DiffResult :=
  merge_sort by_table (omap (live_diff reserved expected) (map_to_list live) ++
                       omap (missing_diff reserved live) (map_to_list expected)).

(** The database under inspection with its directory, the files embedded in the
    binary, and the in-memory shadow database. *)
Record Workbench (U : Type) : Type := mkWorkbench {
  wb_live : Site U; wb_embedded : list DirEntry; wb_shadow : SQLDB U;
}.
Arguments mkWorkbench {U} _ _ _.
Arguments wb_live {U} _.
Arguments wb_embedded {U} _.
Arguments wb_shadow {U} _.

Section diff.
Context {U : Type} `{!SqlEngine U}.

Definition tableDefinitions_of (d : SQLDB U) : gmap string string :=
  let all :=
    match schema_migrations d with
    | Some t => <["schema_migrations" := sql_bookkeeping (has_checksum t)]> (sql_master (user_schema d))
    | None => sql_master (user_schema d)
    end in
  filter (fun kv => like_sqlite kv.1 = false) all.

Definition tableDefinitions : M (Site U) (gmap string string) :=
  query (fun s => tableDefinitions_of (site_db s)).

Definition on_live {A} (m : M (Site U) A) : M (Workbench U) A :=
  zoom wb_live (fun s b => mkWorkbench s (wb_embedded b) (wb_shadow b)) m.

(** The shadow database with the embedded files, or with the live directory. *)
Definition on_shadow_embedded {A} (m : M (Site U) A) : M (Workbench U) A :=
  zoom (fun b => mkSite (Some (wb_embedded b)) (wb_shadow b))
       (fun s b => mkWorkbench (wb_live b) (wb_embedded b) (site_db s)) m.
Definition on_shadow {A} (m : M (Site U) A) : M (Workbench U) A :=
  zoom (fun b => mkSite (site_dir (wb_live b)) (wb_shadow b))
       (fun s b => mkWorkbench (wb_live b) (wb_embedded b) (site_db s)) m.

(** [Open(":memory:")]: a new, empty database. *)
Definition open_shadow : M (Workbench U) unit :=
  update (fun b => (tt, mkWorkbench (wb_live b) (wb_embedded b) (mkSQLDB None sql_empty))).

Definition replay_one (s : MigrationStatus) : M (Workbench U) unit :=
  if Applied s then
    wrapping ("replay migration " +:+ Name s +:+ " into shadow database")
      (on_shadow (applyOneMigration (Name s)))
  else mret tt.

Definition Diff (dir : string) : M (Workbench U) (list DiffResult) :=
  wrapping "open shadow database" open_shadow ;;
  wrapping "build shadow database's embedded schema"
    (r ← on_shadow_embedded Migrate_;
     match r with Some e => fail e | None => mret tt end) ;;
  reserved ← wrapping "read shadow embedded schema" (on_shadow tableDefinitions);
  statuses ← on_live (Status dir);
  for_each replay_one statuses ;;
  live ← wrapping "read live schema" (on_live tableDefinitions);
  expected ← wrapping "read shadow schema" (on_shadow tableDefinitions);
  mret (diff_tables reserved live expected).

End diff.

End Migrate.
