(* ===== verification/MigrationsFacts.v ===== *)
(** * Schema migrations: theorems

    The file format (what the two halves of a file are), the refinement of the
    commands to steps on the pair (recorded files, schema), and the exactness of
    status and diff. *)

From S2P Require Import Prelude GoStrings Encoding Migrations.

Module MigrateFacts.
Import Migrate.

(** ** The two-section file format *)

Definition marker (line : string) : Prop :=
  TrimSpace line = migrateUpMarker \/ TrimSpace line = migrateDownMarker.

Definition no_markers (s : string) : Prop :=
  Forall (fun line => ~ marker line) (Split newline s).

Definition render (up down : string) : string :=
  migrateUpMarker +:+ String newline (up +:+ String newline (migrateDownMarker +:+ String newline down)).

Lemma scan_markers_app i l1 l2 u d :
  scan_markers i (l1 ++ l2) u d =
    let '(u', d') := scan_markers i l1 u d in
    scan_markers (i + Z.of_nat (length l1)) l2 u' d'.
Proof.
  revert i u d. induction l1 as [|x l1 IH]; intros i u d; simpl; [by rewrite Z.add_0_r|].
  case_bool_decide; [|case_bool_decide]; rewrite IH;
    destruct (scan_markers (i + 1) l1 _ _); f_equal; lia.
Qed.

Lemma scan_markers_none i l u d :
  Forall (fun line => ~ marker line) l -> scan_markers i l u d = (u, d).
Proof.
  unfold marker. intros Hl. revert i. induction Hl as [|x l Hx Hl IH]; intros i; simpl; [done|].
  rewrite !bool_decide_false by tauto. apply IH.
Qed.

Lemma Split_render up down :
  Split newline (render up down) =
    migrateUpMarker :: Split newline up ++ migrateDownMarker :: Split newline down.
Proof.
  unfold render. rewrite Split_word by done. rewrite Split_app_line.
  by rewrite Split_word.
Qed.

(** A file written as an up marker, the up half, a down marker and the down half
    splits back into the two halves. *)
Theorem splitMigrationSQL_render up down :
  no_markers up -> no_markers down ->
  splitMigrationSQL (render up down) = (up, down, true).
Proof.
  intros Hu Hd. unfold splitMigrationSQL. rewrite Split_render.
  set (ul := Split newline up). set (dl := Split newline down).
  change (scan_markers 0 _ _ _) with (scan_markers 1 (ul ++ [migrateDownMarker] ++ dl) 1 (-1)).
  rewrite scan_markers_app, scan_markers_none by done.
  change (scan_markers (1 + Z.of_nat (length ul)) _ 1 (-1)) with
    (scan_markers (1 + Z.of_nat (length ul) + 1) dl 1 (1 + Z.of_nat (length ul))).
  rewrite scan_markers_none by done.
  unfold slice, slice_from. rewrite !(proj2 (Z.ltb_ge _ _)) by lia. simpl orb. cbn iota.
  replace (Z.to_nat (1 + Z.of_nat (length ul) - 1)) with (length ul) by lia.
  replace (Z.to_nat (1 + Z.of_nat (length ul) + 1)) with (S (S (length ul))) by lia.
  change (Z.to_nat 1) with 1. simpl drop. rewrite !skipn_O, take_app_length.
  change (migrateDownMarker :: dl) with ([migrateDownMarker] ++ dl).
  rewrite app_assoc. rewrite drop_app_length' by (rewrite length_app; simpl; lia).
  subst ul dl. by rewrite !Join_Split.
Qed.
(** A file without markers, as every file written before rollbacks existed, is
    all up half. *)
Lemma splitMigrationSQL_legacy content :
  no_markers content -> splitMigrationSQL content = (content, EmptyString, false).
Proof. intros Hc. unfold splitMigrationSQL. by rewrite scan_markers_none. Qed.

(** ** The abstract machine

    A state is the bookkeeping table and the schema; a step runs the up half of
    one file and records it, or runs the down half and forgets it. *)

Inductive label : Type :=
| Up (v content : string)
| Down (v content : string).

Section spec.
Context {U : Type} `{!SqlEngine U}.

Inductive step : SQLDB U -> label -> SQLDB U -> Prop :=
| step_up t u v c clk u' :
    v ∉ version <$> mig_rows t ->
    sql_exec (up_sql c) u = inr u' ->
    step (mkSQLDB (Some t) u) (Up v c)
      (mkSQLDB (Some (mkMigTable true
         (mig_rows t ++ [mkMigRow v clk (Some (migrationChecksum c))]))) u')
| step_down t u v c u' :
    has_down c = true ->
    sql_exec (down_sql c) u = inr u' ->
    step (mkSQLDB (Some t) u) (Down v c)
      (mkSQLDB (Some (mkMigTable (has_checksum t)
         (filter (fun r => version r <> v) (mig_rows t)))) u').

Inductive steps : SQLDB U -> list label -> SQLDB U -> Prop :=
| steps_nil d : steps d [] d
| steps_cons d l d' ls d'' : step d l d' -> steps d' ls d'' -> steps d (l :: ls) d''.

Lemma steps_snoc d ls d' l d'' : steps d ls d' -> step d' l d'' -> steps d (ls ++ [l]) d''.
Proof. induction 1; intros Hs; simpl; econstructor; eauto using steps_nil. Qed.

Lemma steps_app d ls d' ls' d'' : steps d ls d' -> steps d' ls' d'' -> steps d (ls ++ ls') d''.
Proof. induction 1; intros Hs; simpl; [done|]. econstructor; eauto. Qed.

Lemma step_up_recorded d v c d' : step d (Up v c) d' -> recorded d' = recorded d ++ [v] /\ v ∉ recorded d.
Proof. inversion 1; subst. unfold recorded, rows_of. simpl. by rewrite fmap_app. Qed.

Lemma step_down_rows d v c d' :
  step d (Down v c) d' -> rows_of d' = filter (fun r => version r <> v) (rows_of d).
Proof. by inversion 1; subst. Qed.

(** The recorded versions stay pairwise distinct. *)
Lemma step_unique d l d' : step d l d' -> unique_on version (rows_of d) -> unique_on version (rows_of d').
Proof.
  inversion 1; subst; unfold rows_of; simpl.
  - intros Hu. apply unique_on_snoc; [done|]. intros y Hy Heq. apply H0.
    simpl in Heq. rewrite <- Heq. by apply list_elem_of_fmap_2.
  - apply unique_on_filter.
Qed.

Lemma steps_unique d ls d' : steps d ls d' -> unique_on version (rows_of d) -> unique_on version (rows_of d').
Proof. induction 1; eauto using step_unique. Qed.

(** ** The commands against the machine *)

Definition contents (es : list DirEntry) (name : string) : string := default EmptyString (file_content es name).
Definition up_label (prefix : string) (es : list DirEntry) (name : string) : label :=
  Up (prefix +:+ name) (contents es name).
Definition down_label (es : list DirEntry) (v : string) : label :=
  Down v (contents es (TrimPrefix v app_prefix)).

(** The files of the directory not recorded yet, in name order. *)
Definition pending (prefix : string) (d : SQLDB U) (es : list DirEntry) : list string :=
  filter (fun n => prefix +:+ n ∉ recorded d) (migration_names es).

Lemma run_script_ok sql w w' :
  run_script sql w = (Ok tt, w') ->
  exists u, sql_exec sql (user_schema (site_db (w_db w))) = inr u /\
            w_db w' = mkSite (site_dir (w_db w)) (mkSQLDB (schema_migrations (site_db (w_db w))) u).
Proof.
  intros H%exec_ok. destruct (sql_exec sql _) as [?|u] eqn:E; [done|].
  exists u. split; [done|]. congruence.
Qed.

Lemma on_table_ok {A} (f : MigTable -> string + (A * MigTable)) (s : Site U) a s' :
  on_table f s = inr (a, s') ->
  exists t t', schema_migrations (site_db s) = Some t /\ f t = inr (a, t') /\ s' = set_table t' s.
Proof.
  unfold on_table. destruct (schema_migrations (site_db s)) as [t|]; [|done].
  destruct (f t) as [?|[a' t']] eqn:E; [done|]. intros [= -> <-]. eauto.
Qed.

Lemma apply_in_tx_ok label v c w w' :
  apply_in_tx label v c w = (Ok tt, w') ->
  step (site_db (w_db w)) (Up v c) (site_db (w_db w')) /\ site_dir (w_db w') = site_dir (w_db w).
Proof.
  unfold apply_in_tx. intros (w1 & w2 & E1 & H & E2)%transaction_ok. rewrite E2.
  run_inv. destruct r. apply run_script_ok in Hrun as (u & Hu & Hw). rewrite <- E1.
  apply exec_at_ok, on_table_ok in H as (t & t' & Ht & Hf & Hs). rewrite Hw in Ht, Hs. simpl in *.
  destruct (has_checksum t); [|done]. simpl in Hf.
  case_bool_decide as Hv; [done|]. injection Hf as <-. rewrite Hs. simpl. split; [|done].
  destruct (site_db (w_db w1)) as [sm us]. simpl in *. subst sm. by constructor.
Qed.

Lemma apply_in_tx_err label v c w e w' :
  apply_in_tx label v c w = (Err e, w') -> w_db w' = w_db w.
Proof. apply transaction_err. Qed.

Lemma ReadFile_ok name (w : World (Site U)) c w' :
  ReadFile name w = (Ok c, w') ->
  w_db w' = w_db w /\ exists es, site_dir (w_db w) = Some es /\ file_content es name = Some c.
Proof.
  intros H%exec_ok. destruct (site_dir (w_db w)) as [es|]; simpl in H; [|done].
  destruct (file_content es name) eqn:E; [|done]. injection H as -> ?. eauto.
Qed.

Lemma count_version_ok v (w : World (Site U)) n w' :
  count_version v w = (Ok n, w') ->
  w_db w' = w_db w /\ (0 < n <-> v ∈ recorded (site_db (w_db w))).
Proof.
  intros H%exec_ok. apply on_table_ok in H as (t & t' & Ht & [= <- <-] & ->).
  split.
  { destruct (w_db w) as [dir [sm us]]. simpl in *. unfold set_table. simpl. congruence. }
  unfold recorded, rows_of. rewrite Ht. simpl. rewrite list_elem_of_fmap. split.
  - intros Hn. destruct (filter _ _) as [|r l] eqn:E in Hn; simpl in Hn; [lia|].
    assert (r ∈ filter (fun r => version r = v) (mig_rows t)) as Hr by (rewrite E; left).
    apply list_elem_of_filter in Hr as [? ?]. eauto.
  - intros (r & -> & Hr).
    assert (r ∈ filter (fun r' => version r' = version r) (mig_rows t)) as Hin
      by (by apply list_elem_of_filter).
    destruct (filter _ _); [by apply elem_of_nil in Hin|simpl; lia].
Qed.

Lemma apply_pending_ok p name w b w' es :
  site_dir (w_db w) = Some es ->
  apply_pending p name w = (Ok b, w') ->
  site_dir (w_db w') = Some es /\
  if b then step (site_db (w_db w)) (up_label p es name) (site_db (w_db w'))
  else w_db w' = w_db w /\ p +:+ name ∈ recorded (site_db (w_db w)).
Proof.
  intros Hes H. unfold apply_pending in H. run_inv.
  apply count_version_ok in Hrun as [E1 Hc]. case_bool_decide as Hn; run_inv.
  - rewrite E1. tauto.
  - apply ReadFile_ok in Hrun as (E2 & es' & Hes' & Hf).
    destruct r1. apply apply_in_tx_ok in Hrun0 as [Hs Hd]. rewrite Hd, E2, E1.
    split; [done|]. rewrite E1, Hes in Hes'. injection Hes' as <-.
    unfold up_label, contents. rewrite Hf. simpl. by rewrite <- E1, <- E2.
Qed.

Lemma apply_pending_err p name w e w' :
  apply_pending p name w = (Err e, w') -> w_db w' = w_db w.
Proof.
  intros H. unfold apply_pending in H. apply bind_err in H as [H|(n & w1 & H1 & H)].
  { unfold wrapping, map_err in H. destruct (count_version _ w) as [[?|?] ?] eqn:E; [done|].
    injection H as _ <-. by apply exec_at_err in E. }
  run_inv. apply count_version_ok in H1 as [<- _].
  case_bool_decide; [done|]. apply bind_err in H as [H|(c & w2 & H2 & H)].
  { unfold wrapping, map_err in H. destruct (ReadFile _ w1) as [[?|?] ?] eqn:E; [done|].
    injection H as _ <-. by apply exec_at_err in E. }
  run_inv. apply ReadFile_ok in H2 as [<- _].
  apply bind_err in H as [H|(c' & w3 & _ & H)]; [by apply apply_in_tx_err in H|done].
Qed.

Lemma pending_list_step p (l : list string) d v c d' :
  step d (Up v c) d' -> (forall n, n ∈ l -> p +:+ n <> v) ->
  filter (fun n => p +:+ n ∉ recorded d') l = filter (fun n => p +:+ n ∉ recorded d) l.
Proof.
  intros [Hr _]%step_up_recorded Hl. apply filter_ext_in. intros n Hn. rewrite Hr.
  specialize (Hl n Hn). rewrite elem_of_app, list_elem_of_singleton. tauto.
Qed.

(** One pass over a list of files: the files it applied are the first pending
    ones, all of them when it reports no error. *)
Lemma apply_loop_refines p es (names : list string) : NoDup names -> forall applied w,
  site_dir (w_db w) = Some es ->
  exists news rest err w',
    apply_loop p names applied w = (Ok (applied ++ news, err), w') /\
    filter (fun n => p +:+ n ∉ recorded (site_db (w_db w))) names = news ++ rest /\
    (err = None -> rest = []) /\
    steps (site_db (w_db w)) (up_label p es <$> news) (site_db (w_db w')) /\
    site_dir (w_db w') = Some es.
Proof.
  induction 1 as [|n names Hn Hnd IH]; intros applied w Hes.
  { exists [], [], None, w. simpl. rewrite app_nil_r. split_and!; try done. constructor. }
  simpl. unfold try_or. destruct (apply_pending p n w) as [[b|e] w1] eqn:E.
  - apply (apply_pending_ok _ _ _ _ _ es) in E as [Hd Hb]; [|done].
    destruct b.
    + destruct (IH (applied ++ [n]) w1 Hd) as (news & rest & err & w' & E1 & E2 & E3 & E4 & E5).
      exists (n :: news), rest, err, w'. rewrite E1. rewrite <- app_assoc. split; [done|].
      pose proof (step_up_recorded _ _ _ _ Hb) as [_ Hnew].
      rewrite filter_cons_True by done.
      rewrite (pending_list_step p names _ _ _ _ Hb) in E2
        by (intros n' Hn' Heq%sapp_inj_l; congruence).
      rewrite E2. split_and!; try done. rewrite fmap_cons. by econstructor.
    + destruct Hb as [Hb Hr]. destruct (IH applied w1 Hd) as (news & rest & err & w' & E1 & E2 & E3 & E4 & E5).
      exists news, rest, err, w'. rewrite Hb in E2, E4. rewrite filter_cons_False by tauto. done.
  - apply apply_pending_err in E.
    exists [], (filter (fun n' => p +:+ n' ∉ recorded (site_db (w_db w))) (n :: names)), (Some e), w1.
    rewrite app_nil_r, E. split_and!; try done. constructor.
Qed.

Lemma applyMigrations_run p w es :
  site_dir (w_db w) = Some es -> NoDup (omap file_name es) ->
  exists applied rest err w',
    applyMigrations p w = (Ok (applied, err), w') /\
    pending p (site_db (w_db w)) es = applied ++ rest /\
    (err = None -> rest = []) /\
    steps (site_db (w_db w)) (up_label p es <$> applied) (site_db (w_db w')) /\
    site_dir (w_db w') = Some es.
Proof.
  intros Hes Hnd. unfold applyMigrations, try_or.
  destruct (wrapping _ ReadDir w) as [[es'|e] w1] eqn:E.
  - run_inv. apply exec_ok in E. rewrite Hes in E. injection E as <- E.
    destruct (apply_loop_refines p es (migration_names es)) with (applied := @nil string) (w := w1)
      as (news & rest & err & w' & E1 & E2 & E3 & E4 & E5).
    { by apply sort_strings_nodup. }
    { by rewrite <- E. }
    exists news, rest, err, w'. rewrite <- E in E2, E4. done.
  - unfold wrapping, map_err in E. destruct (ReadDir w) as [[?|?] w2] eqn:E2; [done|].
    injection E as <- <-. apply exec_at_err in E2.
    exists [], (pending p (site_db (w_db w)) es), (Some (Wrap "read migrations dir" e0)), w2.
    rewrite E2. split_and!; try done. constructor.
Qed.

(** C22: Every run of [applyMigrations], whatever fails on the way, is a sequence of
    up steps on the pending files in name order, cut where it reports an error. *)
Theorem applyMigrations_refines p w es :
  site_dir (w_db w) = Some es -> NoDup (omap file_name es) ->
  exists applied rest err w',
    applyMigrations p w = (Ok (applied, err), w') /\
    pending p (site_db (w_db w)) es = applied ++ rest /\
    (err = None -> rest = []) /\
    steps (site_db (w_db w)) (up_label p es <$> applied) (site_db (w_db w')) /\
    site_dir (w_db w') = Some es.
Proof. apply applyMigrations_run. Qed.

(** *** Reverting *)

Lemma revert_one_ok v w w' es :
  site_dir (w_db w) = Some es ->
  revert_one v w = (Ok tt, w') ->
  site_dir (w_db w') = Some es /\ step (site_db (w_db w)) (down_label es v) (site_db (w_db w')).
Proof.
  intros Hes H. unfold revert_one in H. run_inv. apply ReadFile_ok in Hrun as (E1 & es' & Hes' & Hf).
  rewrite Hes in Hes'. injection Hes' as <-.
  destruct (negb (has_down r) || _) eqn:Eb; [done|]. apply orb_false_iff in Eb as [Hd _].
  apply negb_false_iff in Hd.
  apply transaction_ok in H as (w1 & w2 & E2 & H & E3). run_inv. destruct r0.
  apply run_script_ok in Hrun as (u & Hu & Hw).
  apply exec_ok, on_table_ok in H as (t & t' & Ht & [= <-] & Hs).
  rewrite Hw in Ht, Hs. rewrite E3, Hs. simpl in *. rewrite E2, E1 in *. split; [done|].
  unfold down_label, contents. rewrite Hf. simpl.
  destruct (site_db (w_db w)) as [sm us]. simpl in *. subst sm. by constructor.
Qed.

Lemma revert_one_err v w e w' : revert_one v w = (Err e, w') -> w_db w' = w_db w.
Proof.
  intros H. unfold revert_one in H. apply bind_err in H as [H|(c & w1 & H1 & H)].
  { unfold map_err in H. destruct (ReadFile _ w) as [[?|?] ?] eqn:E; [done|].
    injection H as _ <-. by apply exec_at_err in E. }
  run_inv. apply ReadFile_ok in H1 as [<- _]. destruct (negb _ || _).
  - unfold fail in H. by injection H as _ <-.
  - by apply transaction_err in H.
Qed.

(** A pass over a list of versions to revert: the ones reverted are a prefix of
    it, the whole of it when no error is reported. *)
Lemma down_loop_refines es versions : forall reverted w,
  site_dir (w_db w) = Some es ->
  exists done_ rest err w',
    down_loop versions reverted w =
      (Ok (reverted ++ ((fun v => TrimPrefix v app_prefix) <$> done_), err), w') /\
    versions = done_ ++ rest /\ (err = None -> rest = []) /\
    steps (site_db (w_db w)) (down_label es <$> done_) (site_db (w_db w')) /\
    site_dir (w_db w') = Some es.
Proof.
  induction versions as [|v versions IH]; intros reverted w Hes.
  { exists [], [], None, w. simpl. rewrite app_nil_r. split_and!; try done. constructor. }
  simpl. unfold try_or. destruct (revert_one v w) as [[[]|e] w1] eqn:E.
  - apply (revert_one_ok _ _ _ es) in E as [Hd Hs]; [|done].
    destruct (IH (reverted ++ [TrimPrefix v app_prefix]) w1 Hd)
      as (done_ & rest & err & w' & E1 & E2 & E3 & E4 & E5).
    exists (v :: done_), rest, err, w'. rewrite E1, E2, <- app_assoc. split_and!; try done.
    rewrite fmap_cons. by econstructor.
  - apply revert_one_err in E. exists [], (v :: versions), (Some e), w1.
    rewrite app_nil_r, E. split_and!; try done. constructor.
Qed.

Lemma step_downs_rows es vs d d' :
  steps d (down_label es <$> vs) d' -> rows_of d' = filter (fun r => version r ∉ vs) (rows_of d).
Proof.
  revert d. induction vs as [|v vs IH]; intros d H.
  - inversion H; subst. symmetry. apply filter_all, Forall_forall. intros r _. apply not_elem_of_nil.
  - rewrite fmap_cons in H. inversion H as [|? ? d1 ? ? Hs Hss]; subst.
    rewrite (IH _ Hss). apply step_down_rows in Hs. rewrite Hs, list_filter_filter.
    apply filter_ext_in. intros r _. rewrite not_elem_of_cons. tauto.
Qed.

Lemma step_ups_recorded p es ns d d' :
  steps d (up_label p es <$> ns) d' -> recorded d' = recorded d ++ (String.append p <$> ns).
Proof.
  revert d. induction ns as [|n ns IH]; intros d H.
  - inversion H; subst. by rewrite app_nil_r.
  - rewrite fmap_cons in H. inversion H as [|? ? d1 ? ? Hs Hss]; subst.
    rewrite (IH _ Hss). apply step_up_recorded in Hs as [-> _]. by rewrite <- app_assoc.
Qed.

(** The bookkeeping table an operation finds once it has been ensured. *)
Definition ensured (d : SQLDB U) : SQLDB U :=
  mkSQLDB (Some (mkMigTable true (rows_of d))) (user_schema d).

Lemma ensure_ok (w : World (Site U)) w' :
  ensureMigrationsTable w = (Ok tt, w') ->
  site_dir (w_db w') = site_dir (w_db w) /\ site_db (w_db w') = ensured (site_db (w_db w)).
Proof.
  intros H. unfold ensureMigrationsTable in H. run_inv. apply update_ok in Hrun. injection Hrun as _ Hd.
  unfold ensureChecksumColumn in H. run_inv. unfold table_columns in H. rewrite <- Hd in H.
  destruct (w_db w) as [dir [[[hc rows]|] us]]; unfold ensured, rows_of; simpl in *.
  - destruct hc; case_bool_decide as Hc; try set_solver; run_inv.
    + rewrite Hdb. rewrite <- Hd. done.
    + rewrite Hdb, <- Hd in H. injection H as <-. done.
  - run_inv. by rewrite Hdb, <- Hd.
Qed.

Lemma rows_of_ensured d : rows_of (ensured d) = rows_of d.
Proof. done. Qed.

(** Only the existence of the bookkeeping table may differ. *)
Definition unchanged (s s' : Site U) : Prop :=
  rows_of (site_db s') = rows_of (site_db s) /\
  user_schema (site_db s') = user_schema (site_db s) /\ site_dir s' = site_dir s.

#[global] Instance unchanged_preorder : PreOrder unchanged.
Proof. split; [done|]. intros s1 s2 s3 (?&?&?) (?&?&?). unfold unchanged. split_and!; congruence. Qed.

Lemma ensure_unchanged : within unchanged ensureMigrationsTable.
Proof.
  unfold ensureMigrationsTable, ensureChecksumColumn, create_if_not_exists. within_solve.
  - unfold unchanged, rows_of. destruct (schema_migrations (site_db d)) as [t|] eqn:E; simpl; by rewrite ?E.
  - apply on_table_ok in H as (t & t' & Ht & [= Heq] & ->). unfold unchanged, rows_of. simpl.
    subst t'. by rewrite Ht.
Qed.

(** How every command on an existing directory starts: it either stops early,
    with nothing done, or goes on with the bookkeeping table in place. *)
Lemma opening dir (k : unit -> M (Site U) Partial) k0 w es :
  site_dir (w_db w) = Some es ->
  let m := try_or nothing_done (wrapping ("stat " +:+ dir) os_Stat) (fun b : bool =>
             if b then try_or nothing_done ensureMigrationsTable k else k0) in
  (exists e w1, m w = (Ok (nothing_done e), w1) /\ unchanged (w_db w) (w_db w1)) \/
  (exists w1, m w = k tt w1 /\ site_dir (w_db w1) = Some es /\
              site_db (w_db w1) = ensured (site_db (w_db w))).
Proof.
  intros Hes m. subst m. unfold try_or.
  destruct (wrapping _ os_Stat w) as [[b|e] w1] eqn:E1.
  - run_inv. unfold os_Stat in E1. run_inv. rewrite Hes, bool_decide_true by done.
    pose proof (ensure_unchanged w1) as Hu. rewrite Hdb in Hu.
    destruct (ensureMigrationsTable w1) as [[[]|e] w2] eqn:E2; [|left; eauto].
    right. apply ensure_ok in E2 as [Hd2 Hs2]. exists w2. split; [done|]. split; congruence.
  - left. exists e, w1. split; [done|]. unfold wrapping, map_err in E1.
    destruct (os_Stat w) as [[?|?] ?] eqn:E; [done|]. injection E1 as _ <-.
    apply exec_err in E. by rewrite E.
Qed.

(** Every run of [MigrateDirApplied] on an existing directory. *)
Lemma MigrateDirApplied_run dir w es :
  site_dir (w_db w) = Some es -> NoDup (omap file_name es) ->
  exists applied rest err w' d0,
    MigrateDirApplied dir w = (Ok (applied, err), w') /\
    pending app_prefix (site_db (w_db w)) es = applied ++ rest /\
    (err = None -> rest = []) /\
    rows_of d0 = rows_of (site_db (w_db w)) /\ user_schema d0 = user_schema (site_db (w_db w)) /\
    steps d0 (up_label app_prefix es <$> applied) (site_db (w_db w')) /\ site_dir (w_db w') = Some es.
Proof.
  intros Hes Hnd. unfold MigrateDirApplied.
  destruct (opening dir (fun _ => applyMigrations app_prefix) (mret ([], None)) w es Hes)
    as [(e & w1 & E & Hu)|(w1 & E & Hd & Hs)]; cbv zeta in E; rewrite E.
  - destruct Hu as (H1 & H2 & H3). exists [], (pending app_prefix (site_db (w_db w)) es), (Some e), w1, (site_db (w_db w1)).
    split_and!; try done; [constructor|congruence].
  - destruct (applyMigrations_run app_prefix w1 es Hd Hnd) as (ap & rest & err & w2 & E2 & Hp & Hr & Hst & Hd2).
    exists ap, rest, err, w2, (site_db (w_db w1)). rewrite E2. rewrite Hs in Hp, Hst |- *. split_and!; done.
Qed.

Lemma select_newest_ok n (w : World (Site U)) vs w' :
  select_newest n w = (Ok vs, w') ->
  vs = newest n (rows_of (site_db (w_db w))) /\ w_db w' = w_db w.
Proof.
  intros H%exec_ok. apply on_table_ok in H as (t & t' & Ht & [= <- <-] & ->).
  unfold rows_of. rewrite Ht. split; [done|].
  destruct (w_db w) as [dir [sm us]]. simpl in *. by subst sm.
Qed.

(** Every run of [MigrateDirDown] on an existing directory, whatever fails on
    the way, is a sequence of down steps on the newest recorded files, newest
    first, cut where it reports an error. *)
Theorem MigrateDirDown_refines dir n w es :
  (0 < n)%Z -> site_dir (w_db w) = Some es ->
  exists reverted rest err w' d1,
    MigrateDirDown dir n w = (Ok ((fun v => TrimPrefix v app_prefix) <$> reverted, err), w') /\
    newest (Z.to_nat n) (rows_of (site_db (w_db w))) = reverted ++ rest /\
    (err = None -> rest = []) /\
    rows_of d1 = rows_of (site_db (w_db w)) /\ user_schema d1 = user_schema (site_db (w_db w)) /\
    steps d1 (down_label es <$> reverted) (site_db (w_db w')) /\
    site_dir (w_db w') = Some es.
Proof.
  intros Hn Hes. unfold MigrateDirDown. rewrite (proj2 (Z.leb_gt _ _)) by lia.
  set (vs0 := newest (Z.to_nat n) (rows_of (site_db (w_db w)))).
  destruct (opening dir (fun _ => try_or nothing_done (wrapping "list applied migrations" (select_newest (Z.to_nat n)))
    (fun versions => down_loop versions [])) (mret ([], None)) w es Hes)
    as [(e & w1 & -> & Hr & Hu & Hd)|(w1 & -> & Hd & Hs)].
  { exists [], vs0, (Some e), w1, (site_db (w_db w1)). split_and!; try done; [constructor|congruence]. }
  unfold try_or. destruct (wrapping _ (select_newest _) w1) as [[vs|e] w2] eqn:E.
  - run_inv. apply select_newest_ok in E as [-> Hw2]. rewrite Hs. rewrite rows_of_ensured. fold vs0.
    destruct (down_loop_refines es vs0 [] w2) as (done_ & rest & err & w' & F1 & F2 & F3 & F4 & F5);
      [congruence|].
    exists done_, rest, err, w', (ensured (site_db (w_db w))). rewrite F1.
    rewrite Hw2, Hs in F4. split_and!; try done.
  - unfold wrapping, map_err in E. destruct (select_newest _ w1) as [[?|?] ?] eqn:E2; [done|].
    injection E as <- <-. apply exec_err in E2.
    eexists [], vs0, (Some _), _, (ensured (site_db (w_db w))).
    split_and!; try done; rewrite E2; [|done]. rewrite Hs. constructor.
Qed.

(** *** Reapplying *)

Lemma applyOneMigration_ok name w w' es :
  site_dir (w_db w) = Some es ->
  applyOneMigration name w = (Ok tt, w') ->
  site_dir (w_db w') = Some es /\
  step (site_db (w_db w)) (up_label app_prefix es name) (site_db (w_db w')).
Proof.
  intros Hes H. unfold applyOneMigration in H. run_inv.
  apply ReadFile_ok in Hrun as (E & es' & Hes' & Hf). rewrite Hes in Hes'. injection Hes' as <-.
  apply apply_in_tx_ok in H as [Hs Hd]. rewrite Hd, E. split; [done|].
  unfold up_label, contents. rewrite Hf. simpl. by rewrite <- E.
Qed.

Lemma redo_loop_ok es names : forall redone w out w',
  site_dir (w_db w) = Some es ->
  redo_loop names redone w = (Ok (out, None), w') ->
  out = redone ++ names /\
  steps (site_db (w_db w)) (up_label app_prefix es <$> names) (site_db (w_db w')) /\
  site_dir (w_db w') = Some es.
Proof.
  induction names as [|n names IH]; intros redone w out w' Hes H; simpl in H.
  - injection H as <- <-. rewrite app_nil_r. split_and!; try done. constructor.
  - unfold try_or in H. destruct (applyOneMigration n w) as [[[]|e] w1] eqn:E; [|done].
    apply (applyOneMigration_ok _ _ _ es) in E as [Hd Hs]; [|done].
    apply IH in H as (-> & Hss & Hd'); [|done]. rewrite <- app_assoc. split_and!; try done.
    rewrite fmap_cons. by econstructor.
Qed.

(** Every recorded version that the LIKE pattern selects really starts with the
    prefix, as all versions recorded by the program do. *)
Definition exact_prefix (d : SQLDB U) : Prop :=
  Forall (fun v => like_app v = true -> HasPrefix v app_prefix = true) (recorded d).

Lemma newest_elem n rows v :
  v ∈ newest n rows -> v ∈ version <$> rows /\ like_app v = true.
Proof.
  unfold newest. intros Hv. apply elem_of_take in Hv as (i & Hi & _).
  apply list_elem_of_lookup_2 in Hi. apply list_elem_of_fmap in Hi as (r & -> & Hr).
  rewrite merge_sort_Permutation in Hr. apply list_elem_of_filter in Hr as [Hl Hr].
  split; [|done]. by apply list_elem_of_fmap_2.
Qed.

Lemma newest_nodup n rows : unique_on version rows -> NoDup (newest n rows).
Proof.
  intros Hu. unfold newest. eapply sublist_NoDup; [|apply sublist_take].
  rewrite merge_sort_Permutation. by apply unique_on_filter.
Qed.

Lemma prefix_cancel v : HasPrefix v app_prefix = true -> app_prefix +:+ TrimPrefix v app_prefix = v.
Proof. intros [r ->]%HasPrefix_true. by rewrite TrimPrefix_app. Qed.

Lemma versions_back vs :
  Forall (fun v => HasPrefix v app_prefix = true) vs ->
  String.append app_prefix <$> ((fun v => TrimPrefix v app_prefix) <$> vs) = vs.
Proof. induction 1; [done|]. rewrite !fmap_cons, prefix_cancel by done. by f_equal. Qed.

Lemma step_ups_filter p es ns d d' (vs : list string) :
  steps d (up_label p es <$> ns) d' -> (forall v, v ∈ String.append p <$> ns -> v ∈ vs) ->
  filter (fun r => version r ∉ vs) (rows_of d') = filter (fun r => version r ∉ vs) (rows_of d).
Proof.
  revert d. induction ns as [|n ns IH]; intros d H Hin; [by inversion H|].
  rewrite fmap_cons in H. inversion H as [|? ? d1 ? ? Hs Hss]; subst.
  rewrite (IH _ Hss) by (intros v Hv; apply Hin; by right).
  inversion Hs; subst. unfold rows_of. simpl. rewrite filter_app.
  rewrite (filter_cons_False _ _ []) by (simpl; intros Hn; apply Hn, Hin; left).
  by rewrite app_nil_r.
Qed.

(** A redo that reports no error redoes exactly the newest n files in forward
    order, and leaves the recorded set and every other record as they were. *)
Theorem MigrateDirRedo_exact dir n w es redone w' :
  (0 < n)%Z -> site_dir (w_db w) = Some es ->
  unique_on version (rows_of (site_db (w_db w))) -> exact_prefix (site_db (w_db w)) ->
  MigrateDirRedo dir n w = (Ok (redone, None), w') ->
  let targets := newest (Z.to_nat n) (rows_of (site_db (w_db w))) in
  redone = reverse ((fun v => TrimPrefix v app_prefix) <$> targets) /\
  recorded (site_db (w_db w')) ≡ₚ recorded (site_db (w_db w)) /\
  filter (fun r => version r ∉ targets) (rows_of (site_db (w_db w'))) =
    filter (fun r => version r ∉ targets) (rows_of (site_db (w_db w))).
Proof.
  intros Hn Hes Hu Hpre H targets. unfold MigrateDirRedo in H. run_inv.
  destruct (MigrateDirDown_refines dir n w es Hn Hes)
    as (vs & rest & err & w1 & d1 & E1 & E2 & E3 & E4 & _ & E5 & E6).
  rewrite E1 in Hrun. injection Hrun as <- <-. destruct err as [e|]; [done|].
  rewrite (E3 eq_refl), app_nil_r in E2. fold targets in E2. subst vs.
  apply (redo_loop_ok es) in H as (-> & Hss & _); [|done]. split; [done|].
  apply step_downs_rows in E5. rewrite E4 in E5.
  rewrite <- fmap_reverse in Hss. pose proof (step_ups_recorded _ _ _ _ _ Hss) as Hrec.
  assert (Forall (fun v => HasPrefix v app_prefix = true) (reverse targets)) as Hall.
  { apply Forall_reverse, Forall_forall. intros v [Hv Hl]%newest_elem.
    unfold exact_prefix in Hpre. rewrite Forall_forall in Hpre. auto. }
  rewrite versions_back in Hrec by done. split.
  - rewrite Hrec. unfold recorded at 1. rewrite E5.
    rewrite <- (filter_split_perm (fun v => v ∈ targets) (recorded (site_db (w_db w)))).
    apply Permutation_app.
    + unfold recorded. by rewrite filter_fmap.
    + rewrite reverse_Permutation. apply NoDup_Permutation.
      * by apply newest_nodup.
      * by apply NoDup_filter.
      * intros v. rewrite list_elem_of_filter. split; [|tauto].
        intros Hv. split; [done|]. by apply newest_elem in Hv as [? _].
  - rewrite (step_ups_filter _ _ _ _ _ _ Hss).
    + rewrite E5. apply filter_weaken. done.
    + intros v Hv. rewrite versions_back in Hv by done. by rewrite elem_of_reverse in Hv.
Qed.

(** *** Status *)

Definition status_in (es : list DirEntry) (rows : list MigRow) (name : string) : MigrationStatus :=
  status_of name (contents es name) (find_row (fun r => version r = app_prefix +:+ name) rows).

Lemma select_row_ok v (w : World (Site U)) row w' :
  select_row v w = (Ok row, w') ->
  row = find_row (fun r => version r = v) (rows_of (site_db (w_db w))) /\ w_db w' = w_db w.
Proof.
  intros H%exec_ok. apply on_table_ok in H as (t & t' & Ht & [= <- <-] & ->).
  unfold rows_of. rewrite Ht. split; [done|].
  destruct (w_db w) as [dir [sm us]]. simpl in *. by subst sm.
Qed.

Lemma status_loop_ok es names : forall (w : World (Site U)) out w',
  site_dir (w_db w) = Some es -> status_loop names w = (Ok out, w') ->
  w_db w' = w_db w /\ out = status_in es (rows_of (site_db (w_db w))) <$> names.
Proof.
  induction names as [|n names IH]; intros w out w' Hes H; simpl in H; [by injection H as <- <-|].
  run_inv. apply ReadFile_ok in Hrun as (E1 & es' & Hes' & Hf). rewrite Hes in Hes'.
  injection Hes' as <-. apply select_row_ok in Hrun0 as [-> E2].
  apply IH in Hrun1 as [E3 ->]; [|congruence]. rewrite E3, E2, E1. split; [done|].
  rewrite fmap_cons. unfold status_in at 2, contents. by rewrite Hf.
Qed.

Lemma Status_ok dir (w : World (Site U)) es out w' :
  site_dir (w_db w) = Some es -> Status dir w = (Ok out, w') ->
  site_dir (w_db w') = Some es /\ site_db (w_db w') = ensured (site_db (w_db w)) /\
  out = status_in es (rows_of (site_db (w_db w))) <$> migration_names es.
Proof.
  intros Hes H. unfold Status in H. run_inv. unfold os_Stat in Hrun. run_inv.
  rewrite Hes in H. rewrite bool_decide_true in H by done. run_inv.
  destruct r. apply ensure_ok in Hrun as [Hd Hs]. rewrite Hdb in Hd, Hs. rewrite Hes in Hd.
  apply exec_ok in Hrun0. rewrite Hd in Hrun0. injection Hrun0 as <- Hw.
  apply (status_loop_ok es) in H as [E ->]; [|congruence]. rewrite E, <- Hw, Hs. done.
Qed.

Lemma Applied_status_in es rows n :
  Applied (status_in es rows n) = true <-> app_prefix +:+ n ∈ version <$> rows.
Proof.
  unfold status_in, status_of. destruct (find_row _ rows) as [r|] eqn:E; cbn [Applied].
  - apply find_row_Some in E as [Hr <-]. split; [|done]. intros _. by apply list_elem_of_fmap_2.
  - pose proof (find_row_None _ _ E) as Hnone. split; [done|].
    intros (r & Hv & Hr)%list_elem_of_fmap. symmetry in Hv. by destruct (Hnone r Hr).
Qed.

Lemma Name_status_in es rows n : Name (status_in es rows n) = n.
Proof. unfold status_in, status_of. by destruct (find_row _ rows). Qed.

(** A file is reported as modified exactly when it is recorded with a checksum
    and its content now has another one. *)
Lemma VerifyChecksums_ok dir (w : World (Site U)) es out w' :
  site_dir (w_db w) = Some es -> unique_on version (rows_of (site_db (w_db w))) ->
  VerifyChecksums dir w = (Ok out, w') ->
  forall n, n ∈ out <->
    n ∈ migration_names es /\
    exists r c, r ∈ rows_of (site_db (w_db w)) /\ version r = app_prefix +:+ n /\
                checksum r = Some c /\ c <> EmptyString /\ c <> migrationChecksum (contents es n).
Proof.
  intros Hes Hu H n. unfold VerifyChecksums in H. run_inv.
  apply (Status_ok _ _ es) in Hrun as (_ & _ & ->); [|done].
  rewrite filter_fmap, <- list_fmap_compose, list_elem_of_fmap. split.
  - intros (m & -> & [Hm Hin]%list_elem_of_filter). simpl. rewrite Name_status_in.
    split; [done|]. unfold status_in, status_of in Hm.
    destruct (find_row _ _) as [r|] eqn:E; [|done]. apply find_row_Some in E as [Hr Hv]. simpl in Hm.
    destruct (checksum r) as [c|] eqn:Ec; [|done]. exists r, c.
    rewrite andb_true_iff, !negb_true_iff, !bool_decide_eq_false in Hm. tauto.
  - intros (Hin & r & c & Hr & Hv & Hc & Hne & Hdiff). exists n. simpl. rewrite Name_status_in.
    split; [done|]. apply list_elem_of_filter. split; [|done]. unfold status_in, status_of.
    destruct (find_row _ _) as [r'|] eqn:E.
    + apply find_row_Some in E as [Hr' Hv']. simpl.
      rewrite (unique_on_eq _ _ _ _ Hu Hr' Hr) by congruence.
      rewrite Hc. by rewrite !bool_decide_false.
    + by destruct (find_row_None _ _ E r Hr).
Qed.

(** *** Moving to a version *)

Lemma newer_antisym a b : newer a b -> newer b a -> version a = version b.
Proof.
  unfold newer. intros [H1|[H1 H1']] [H2|[H2 H2']]; try lia. by apply (anti_symm str_le).
Qed.

#[local] Instance newer_total : Total newer.
Proof.
  intros a b. unfold newer. destruct (Z.lt_trichotomy (applied_at a) (applied_at b)) as [H|[H|H]]; [auto| |auto].
  destruct (total str_le (version a) (version b)); auto.
Qed.
#[local] Instance newer_trans : Transitive newer.
Proof.
  intros a b c. unfold newer. intros [H1|[H1 H1']] [H2|[H2 H2']]; [left; lia..|].
  right. split; [congruence|by etrans].
Qed.

(** The state ordinary use of the commands keeps: what is recorded are files of
    the directory, the recorded files come first in name order, and they were
    recorded in that order. *)
Record orderly (d : SQLDB U) (es : list DirEntry) : Prop := {
  ord_unique : unique_on version (rows_of d);
  ord_known : forall v, v ∈ recorded d -> like_app v = true ->
    exists f, f ∈ migration_names es /\ v = app_prefix +:+ f;
  ord_prefix : forall f g, f ∈ migration_names es -> g ∈ migration_names es -> str_le f g ->
    app_prefix +:+ g ∈ recorded d -> app_prefix +:+ f ∈ recorded d;
  ord_time : forall r1 r2, r1 ∈ rows_of d -> r2 ∈ rows_of d ->
    like_app (version r1) = true -> like_app (version r2) = true ->
    str_le (version r2) (version r1) -> newer r1 r2;
}.

Lemma like_app_prefixed f : like_app (app_prefix +:+ f) = true.
Proof. done. Qed.

Lemma str_le_prefixed f g : str_le (app_prefix +:+ f) (app_prefix +:+ g) <-> str_le f g.
Proof. done. Qed.

(** When the files after [name] are recorded, they are the newest ones. *)
Lemma newest_after d es before name after :
  orderly d es -> NoDup (migration_names es) ->
  migration_names es = before ++ name :: after ->
  newest (length (filter (fun f => app_prefix +:+ f ∈ recorded d) after)) (rows_of d)
    ≡ₚ String.append app_prefix <$> filter (fun f => app_prefix +:+ f ∈ recorded d) after.
Proof.
  intros Ho Hnd Hsplit. set (A := filter (fun f => app_prefix +:+ f ∈ recorded d) after).
  set (L := merge_sort newer (filter (fun r => like_app (version r) = true) (rows_of d))).
  set (P := fun r => version r ∈ String.append app_prefix <$> A).
  assert (forall r, r ∈ L <-> r ∈ rows_of d /\ like_app (version r) = true) as HL.
  { intros r. unfold L. rewrite merge_sort_Permutation, list_elem_of_filter. tauto. }
  assert (forall f, f ∈ A <-> f ∈ after /\ app_prefix +:+ f ∈ recorded d) as HA.
  { intros f. unfold A. rewrite list_elem_of_filter. tauto. }
  pose proof (sort_strings_sorted (omap file_name es)) as Hsort.
  change (Sorted str_le (migration_names es)) in Hsort.
  apply Sorted_StronglySorted in Hsort; [|apply _].
  rewrite Hsplit in Hsort, Hnd.
  assert (forall f g, f ∈ before ++ [name] -> g ∈ after -> str_le f g /\ f <> g) as Hlt.
  { intros f g Hf Hg. replace (before ++ name :: after) with ((before ++ [name]) ++ after) in Hsort, Hnd
      by (by rewrite <- app_assoc).
    split; [by eapply StronglySorted_app_1_elem_of|].
    apply NoDup_app in Hnd as (_ & Hdis & _). intros ->. by apply (Hdis g). }
  assert (StronglySorted newer L) as HsL.
  { apply Sorted_StronglySorted; [apply _|]. apply Sorted_merge_sort, _. }
  assert (take (length (filter P L)) L = filter P L) as Htake.
  { apply (take_upper newer); [done|]. intros x y Hx Hy Hxy HPy.
    apply HL in Hx as [Hx Hlx], Hy as [Hy Hly].
    assert (version x ∈ recorded d) as Hrx by (by apply list_elem_of_fmap_2).
    destruct (ord_known _ _ Ho _ Hrx Hlx) as (f & Hf & Hvx). unfold P in *. rewrite Hvx in *.
    apply list_elem_of_fmap in HPy as (g & Hvy & [Hg Hrg]%HA).
    apply list_elem_of_fmap_2, HA. split; [|done].
    rewrite Hsplit in Hf. replace (before ++ name :: after) with ((before ++ [name]) ++ after) in Hf
      by (by rewrite <- app_assoc).
    apply elem_of_app in Hf as [Hf|Hf]; [exfalso|done]. destruct (Hlt f g Hf Hg) as [Hle Hne].
    apply Hne, (sapp_inj_l app_prefix). rewrite <- Hvx, <- Hvy.
    apply newer_antisym; [done|]. apply (ord_time _ _ Ho); try done; by rewrite ?Hvx, ?Hvy. }
  assert (version <$> filter P L ≡ₚ String.append app_prefix <$> A) as Hperm.
  { apply NoDup_Permutation.
    - change (unique_on version (filter P L)). apply unique_on_filter. unfold L, unique_on.
      rewrite merge_sort_Permutation. apply unique_on_filter, (ord_unique _ _ Ho).
    - apply NoDup_fmap_2; [intros ??; apply sapp_inj_l|]. apply NoDup_filter.
      apply NoDup_app in Hnd as (_ & _ & Hnd). by apply NoDup_cons in Hnd as [_ Hnd].
    - intros v. rewrite list_elem_of_fmap. split.
      + by intros (r & -> & [HP _]%list_elem_of_filter).
      + intros Hv. pose proof Hv as (f & -> & [Hf Hr]%HA)%list_elem_of_fmap.
        apply list_elem_of_fmap in Hr as (r & Hvr & Hr). exists r. split; [done|].
        apply list_elem_of_filter. unfold P. rewrite <- Hvr. split; [done|].
        apply HL. by rewrite <- Hvr. }
  assert (length A = length (filter P L)) as Hlen.
  { apply Permutation_length in Hperm. rewrite !length_fmap in Hperm. done. }
  unfold newest. fold L. by rewrite Hlen, <- fmap_take, Htake.
Qed.

(** [resolveVersion] accepts a target exactly when it is a file name, or no
    file name but the number of exactly one file. *)
Theorem resolve_in_spec dir target es name :
  NoDup (omap file_name es) ->
  (resolve_in dir target es = inr name <->
  name ∈ omap file_name es /\
  (name = target \/
   ((target ∉ omap file_name es) /\
    (exists k, Atoi target = Some k /\
      (forall f, f ∈ omap file_name es -> ((number_prefix f ≫= Atoi) = Some k <-> f = name)))))).
Proof.
  intros Hnd. unfold resolve_in. set (files := omap file_name es) in *.
  case_bool_decide as Ht.
  { split; [intros [= ->]; tauto|]. intros [Hn [->|(Hn' & _)]]; tauto. }
  destruct (Atoi target) as [k|] eqn:Hk.
  2:{ split; [done|]. intros [Hn [->|(_ & k & [=] & _)]]. tauto. }
  set (m := filter (fun f => (number_prefix f ≫= Atoi) = Some k) files).
  assert (forall f, f ∈ m <-> f ∈ files /\ (number_prefix f ≫= Atoi) = Some k) as Hm.
  { intros f. unfold m. rewrite list_elem_of_filter. tauto. }
  assert (NoDup m) as Hndm by (by apply NoDup_filter).
  transitivity (m = [name]).
  { destruct m as [|a [|b l]]; split; intros E; try done; congruence. }
  split.
  - intros E. rewrite E in Hm. assert (name ∈ files) as Hin by (apply Hm; left).
    split; [done|]. right. split; [done|]. exists k. split; [done|]. intros f Hf.
    specialize (Hm f). rewrite list_elem_of_singleton in Hm. tauto.
  - intros [Hin [->|(_ & k' & [= <-] & Hall)]]; [done|].
    assert (forall f, f ∈ m <-> f = name) as Hm'.
    { intros f. rewrite Hm. split; [intros [Hf H]; by apply Hall|]. intros ->. split; [done|]. by apply Hall. }
    apply Permutation_singleton_r, NoDup_Permutation; [done|apply NoDup_singleton|].
    intros f. by rewrite Hm', list_elem_of_singleton.
Qed.

Lemma resolveVersion_ok dir target (w : World (Site U)) es name w' :
  site_dir (w_db w) = Some es -> resolveVersion dir target w = (Ok name, w') ->
  w_db w' = w_db w /\ resolve_in dir target es = inr name.
Proof.
  intros Hes H. unfold resolveVersion in H. run_inv. apply exec_ok in Hrun. rewrite Hes in Hrun.
  injection Hrun as <- Hw. destruct (resolve_in dir target es) as [e|m]; run_inv; done.
Qed.

Lemma resolve_in_file dir target es name :
  resolve_in dir target es = inr name -> name ∈ migration_names es.
Proof.
  unfold resolve_in, migration_names. rewrite elem_of_sort_strings. case_bool_decide; [by intros [= <-]|].
  destruct (Atoi target) as [k|]; [|done].
  destruct (filter _ _) as [|a [|b l]] eqn:E; try done. intros [= <-].
  assert (a ∈ [a]) as Ha by left. rewrite <- E in Ha. by apply list_elem_of_filter in Ha as [_ ?].
Qed.

Lemma split_at_Some name l b t a :
  split_at name l = Some (b, t, a) -> l = b ++ t :: a /\ Name t = name.
Proof.
  revert b. induction l as [|s l IH]; intros b; simpl; [done|]. case_bool_decide as Hs.
  - by intros [= <- <- <-].
  - destruct (split_at name l) as [[[b' t'] a']|]; [|done]. intros [= <- <- <-].
    destruct (IH b' eq_refl) as [-> ?]. done.
Qed.

Lemma to_loop_ok es l : forall applied (w : World (Site U)) out w',
  site_dir (w_db w) = Some es -> to_loop l applied w = (Ok (out, None), w') ->
  let names := Name <$> filter (fun s => Applied s <> true) l in
  out = applied ++ names /\
  steps (site_db (w_db w)) (up_label app_prefix es <$> names) (site_db (w_db w')).
Proof.
  induction l as [|s l IH]; intros applied w out w' Hes H; simpl in H; cbv zeta.
  - injection H as <- <-. simpl. rewrite app_nil_r. split; [done|constructor].
  - destruct (Applied s) eqn:Hs.
    + rewrite filter_cons_False by tauto. eauto.
    + unfold try_or in H. destruct (applyOneMigration (Name s) w) as [[[]|e] w1] eqn:E; [|done].
      apply (applyOneMigration_ok _ _ _ es) in E as [Hd Hst]; [|done].
      cbv zeta in IH. apply IH in H as [-> Hss]; [|done]. rewrite filter_cons_True by (by rewrite Hs).
      rewrite <- app_assoc. split; [done|]. rewrite !fmap_cons. by econstructor.
Qed.

(** The statuses around the target, as the files around it. *)
Lemma statuses_split es rows b t a :
  status_in es rows <$> migration_names es = b ++ t :: a ->
  migration_names es = (Name <$> b) ++ Name t :: (Name <$> a) /\
  Forall (fun s => Applied s = true <-> app_prefix +:+ Name s ∈ version <$> rows) (b ++ t :: a).
Proof.
  intros H. split.
  - replace (migration_names es) with (Name <$> (status_in es rows <$> migration_names es)).
    + rewrite H. by rewrite fmap_app.
    + rewrite <- list_fmap_compose. rewrite <- (list_fmap_id (migration_names es)) at 2.
      apply list_fmap_ext. intros i n _. apply Name_status_in.
  - rewrite <- H. apply Forall_fmap, Forall_forall. intros n _. simpl.
    rewrite Name_status_in. apply Applied_status_in.
Qed.

Lemma names_around es before name after :
  migration_names es = before ++ name :: after -> NoDup (migration_names es) ->
  forall f, f ∈ migration_names es -> (str_le f name <-> f ∈ before ++ [name]) /\ (f ∈ after <-> ~ str_le f name).
Proof.
  intros Hsplit Hnd f Hf.
  pose proof (sort_strings_sorted (omap file_name es)) as Hsort.
  change (Sorted str_le (migration_names es)) in Hsort.
  apply Sorted_StronglySorted in Hsort; [|apply _]. rewrite Hsplit in *.
  apply StronglySorted_app in Hsort as (H1 & _ & H2). apply StronglySorted_cons in H2 as [H2 _].
  rewrite Forall_forall in H2. apply NoDup_app in Hnd as (_ & _ & Hnd). apply NoDup_cons in Hnd as [Hn _].
  assert (f ∈ before ++ [name] -> str_le f name) as Hle.
  { intros [Hb|Hb%list_elem_of_singleton]%elem_of_app; [|by subst]. apply H1; [done|left]. }
  assert (f ∈ after -> ~ str_le f name) as Hgt.
  { intros Ha Hfn. apply Hn. specialize (H2 f Ha). by rewrite (anti_symm str_le name f). }
  replace (before ++ name :: after) with ((before ++ [name]) ++ after) in Hf by (by rewrite <- app_assoc).
  apply elem_of_app in Hf. tauto.
Qed.

(** The two directions, once the statuses are known. *)
Lemma to_up_reaches d es b t a name w4 touched w' :
  site_dir (w_db w4) = Some es -> rows_of (site_db (w_db w4)) = rows_of d ->
  orderly d es -> NoDup (migration_names es) ->
  migration_names es = (Name <$> b) ++ name :: (Name <$> a) -> Name t = name ->
  Forall (fun s => Applied s = true <-> app_prefix +:+ Name s ∈ recorded d) (b ++ t :: a) ->
  Applied t = false ->
  to_loop (b ++ [t]) [] w4 = (Ok (touched, None), w') ->
  forall f, f ∈ migration_names es ->
    (app_prefix +:+ f ∈ recorded (site_db (w_db w')) <-> str_le f name).
Proof.
  intros Hd Hr Ho Hnd Hn Ht Happ Hta H f Hf.
  apply (to_loop_ok es) in H as [_ Hss]; [|done]. apply step_ups_recorded in Hss.
  rewrite Forall_forall in Happ.
  assert (recorded (site_db (w_db w4)) = recorded d) as Hrec by (unfold recorded; by rewrite Hr).
  rewrite Hss, Hrec, elem_of_app. destruct (names_around _ _ _ _ Hn Hnd f Hf) as [Hle _].
  assert (app_prefix +:+ name ∉ recorded d) as Hnr.
  { rewrite <- Ht. rewrite <- Happ by set_solver. by rewrite Hta. }
  rewrite Hle. split.
  - intros [Hin|Hin].
    + apply Hle. destruct (total str_le f name) as [?|Hnf]; [done|]. destruct Hnr.
      apply (ord_prefix _ _ Ho name f); try done. rewrite Hn. set_solver.
    + apply list_elem_of_fmap in Hin as (g & Hg%sapp_inj_l & Hin). subst g.
      apply list_elem_of_fmap in Hin as (s & -> & [_ Hs]%list_elem_of_filter).
      rewrite <- Ht. apply elem_of_app in Hs as [Hs|Hs%list_elem_of_singleton]; [|set_solver].
      apply elem_of_app. left. by apply list_elem_of_fmap_2.
  - intros Hin. destruct (decide (app_prefix +:+ f ∈ recorded d)) as [?|Hfr]; [by left|right].
    assert (exists s, s ∈ b ++ [t] /\ Name s = f) as (s & Hs & Hsf).
    { apply elem_of_app in Hin as [(s & -> & Hs)%list_elem_of_fmap|Hin%list_elem_of_singleton].
      - exists s. set_solver.
      - exists t. set_solver. }
    apply list_elem_of_fmap_2. rewrite <- Hsf. apply list_elem_of_fmap_2, list_elem_of_filter.
    split; [|done]. rewrite Happ by set_solver. by rewrite Hsf.
Qed.

Lemma to_down_reaches dir d es b t a name w4 r w' :
  site_dir (w_db w4) = Some es -> rows_of (site_db (w_db w4)) = rows_of d ->
  orderly d es -> NoDup (migration_names es) ->
  migration_names es = (Name <$> b) ++ name :: (Name <$> a) -> Name t = name ->
  Forall (fun s => Applied s = true <-> app_prefix +:+ Name s ∈ recorded d) (b ++ t :: a) ->
  Applied t = true ->
  let n := length (filter (fun s => Applied s = true) a) in
  (n = 0 /\ w' = w4 \/ n <> 0 /\ MigrateDirDown dir (Z.of_nat n) w4 = (Ok (r, None), w')) ->
  forall f, f ∈ migration_names es ->
    (app_prefix +:+ f ∈ recorded (site_db (w_db w')) <-> str_le f name).
Proof.
  intros Hd Hr Ho Hnd Hn Ht Happ Hta n H f Hf.
  pose proof (newest_after d es _ _ _ Ho Hnd Hn) as Hnew.
  rewrite Forall_forall in Happ.
  assert (filter (fun g => app_prefix +:+ g ∈ recorded d) (Name <$> a)
          = Name <$> filter (fun s => Applied s = true) a) as Hfil.
  { rewrite filter_fmap. f_equal. apply filter_ext_in. intros s Hs. symmetry. apply Happ. set_solver. }
  rewrite Hfil, length_fmap in Hnew. fold n in Hnew.
  assert (rows_of (site_db (w_db w')) = filter (fun x => version x ∉ newest n (rows_of d)) (rows_of d)) as Hrows.
  { destruct H as [[Hn0 ->]|[Hn0 H]].
    - rewrite Hr, Hn0. symmetry. apply filter_all, Forall_forall. intros x _. apply not_elem_of_nil.
    - destruct (MigrateDirDown_refines dir (Z.of_nat n) w4 es) as (vs & rest & err & w1 & d1 & F1 & F2 & F3 & F4 & _ & F5 & _);
        [lia|done|].
      rewrite H in F1. injection F1 as -> <- <-. rewrite (F3 eq_refl), app_nil_r in F2.
      apply step_downs_rows in F5. by rewrite F5, F4, <- F2, Nat2Z.id, Hr. }
  assert (app_prefix +:+ f ∈ recorded (site_db (w_db w')) <->
          app_prefix +:+ f ∈ recorded d /\ f ∉ Name <$> filter (fun s => Applied s = true) a) as ->.
  { unfold recorded. rewrite Hrows.
    rewrite (elem_of_key_filter version (fun v => v ∉ newest n (rows_of d))), Hnew.
    rewrite list_elem_of_fmap. split.
    - intros [Hx Hin]. split; [done|]. intros Hfa. apply Hx. eauto.
    - intros [Hin Hx]. split; [|done]. intros (g & Hg%sapp_inj_l & Hga). by subst g. }
  destruct (names_around _ _ _ _ Hn Hnd f Hf) as [Hle Hgt]. rewrite <- Hfil, list_elem_of_filter. split.
  - intros [Hin Hx]. destruct (decide (str_le f name)) as [|Hnle]; [done|]. destruct Hx. split; [done|]. by apply Hgt.
  - intros Hfn. split; [|tauto]. apply (ord_prefix _ _ Ho f name); try done.
    + rewrite Hn. set_solver.
    + rewrite <- Ht. apply Happ; [set_solver|done].
Qed.

(** C21: From an orderly state, moving to a target that reports no error leaves
    recorded exactly the files up to the target, in whichever direction. *)
Theorem MigrateDirTo_exact dir target w es touched dirn w' :
  site_dir (w_db w) = Some es -> NoDup (omap file_name es) ->
  orderly (site_db (w_db w)) es ->
  MigrateDirTo dir target w = (Ok (touched, dirn, None), w') ->
  exists name, resolve_in dir target es = inr name /\
    (forall f, f ∈ migration_names es ->
       (app_prefix +:+ f ∈ recorded (site_db (w_db w')) <-> str_le f name)).
Proof.
  intros Hes Hnd Ho H. apply sort_strings_nodup in Hnd. change (NoDup (migration_names es)) in Hnd.
  set (d := site_db (w_db w)) in *. unfold MigrateDirTo, try_or in H.
  destruct (wrapping _ os_Stat w) as [[b|e] w1] eqn:E1; [|done]. run_inv. unfold os_Stat in E1. run_inv.
  rewrite Hes, bool_decide_true in H by done. simpl in H.
  destruct (ensureMigrationsTable w1) as [[[]|e] w2] eqn:E2; [|done].
  apply ensure_ok in E2 as [Hd2 Hs2]. rewrite Hdb in Hd2, Hs2. rewrite Hes in Hd2.
  destruct (resolveVersion dir target w2) as [[name|e] w3] eqn:E3; [|done].
  apply (resolveVersion_ok _ _ _ es) in E3 as [Hw3 Hname]; [|done]. exists name. split; [done|].
  destruct (Status dir w3) as [[out|e] w4] eqn:E4; [|done].
  apply (Status_ok _ _ es) in E4 as (Hd4 & Hs4 & Hout); [|congruence].
  assert (rows_of (site_db (w_db w4)) = rows_of d) as Hr4 by (rewrite Hs4, Hw3, Hs2; done).
  assert (rows_of (site_db (w_db w3)) = rows_of d) as Hr3 by (rewrite Hw3, Hs2; done).
  destruct (split_at name out) as [[[b t] a]|] eqn:E5; [|done].
  apply split_at_Some in E5 as [Hsplit Ht]. rewrite Hsplit in Hout. symmetry in Hout.
  apply statuses_split in Hout as [Hnames Happ]. rewrite Ht in Hnames.
  rewrite Hr3 in Happ. fold (recorded d) in Happ.
  destruct (Applied t) eqn:Hta.
  - case_bool_decide as Hn0.
    + injection H as _ _ <-. by apply (to_down_reaches dir d es b t a name w4 ([] : list string) w4); auto.
    + run_inv. destruct r as [r0 e0]. simpl in *. simplify_eq.
      by eapply (to_down_reaches dir d es b t a _ w4); eauto.
  - run_inv. destruct r as [r0 e0]. simpl in *. simplify_eq.
    by eapply (to_up_reaches d es b t a _ w4); eauto.
Qed.

End spec.
(** ** Diff *)

(** What each kind of discrepancy means. *)
Definition discrepancy (reserved live expected : gmap string string) (r : DiffResult) : Prop :=
  reserved !! Table r = None /\
  match Kind r with
  | Unexplained => live !! Table r = Some (LiveSQL r) /\ expected !! Table r = None /\ ExpectedSQL r = EmptyString
  | Missing => live !! Table r = None /\ expected !! Table r = Some (ExpectedSQL r) /\ LiveSQL r = EmptyString
  | Altered => live !! Table r = Some (LiveSQL r) /\ expected !! Table r = Some (ExpectedSQL r) /\
               LiveSQL r <> ExpectedSQL r
  end.

#[local] Instance by_table_total : Total by_table.
Proof. intros a b. apply (total str_le). Qed.

Lemma live_diff_Some reserved expected kv r :
  live_diff reserved expected kv = Some r ->
  kv.1 = Table r /\ kv.2 = LiveSQL r /\ Kind r <> Missing.
Proof.
  destruct kv as [n s]. unfold live_diff. destruct (reserved !! n); [done|].
  destruct (expected !! n); [case_bool_decide; [done|]|]; intros [= <-]; done.
Qed.

Lemma missing_diff_Some reserved live kv r :
  missing_diff reserved live kv = Some r ->
  kv.1 = Table r /\ kv.2 = ExpectedSQL r /\ Kind r = Missing /\ live !! Table r = None.
Proof.
  destruct kv as [n s]. unfold missing_diff. destruct (reserved !! n); [done|].
  destruct (live !! n) eqn:E; [done|]; intros [= <-]; done.
Qed.

(** The report lists exactly the discrepancies, in table name order. *)
Theorem diff_tables_exact reserved live expected :
  (forall r, r ∈ diff_tables reserved live expected <-> discrepancy reserved live expected r) /\
  Sorted by_table (diff_tables reserved live expected).
Proof.
  split; [|by apply Sorted_merge_sort, _]. intros r. unfold diff_tables, discrepancy.
  rewrite merge_sort_Permutation, elem_of_app, !list_elem_of_omap. split.
  - intros [([n s] & Hkv%elem_of_map_to_list & Hr)|([n s] & Hkv%elem_of_map_to_list & Hr)].
    + unfold live_diff in Hr. destruct (reserved !! n) eqn:E1; [done|].
      destruct (expected !! n) eqn:E2; [case_bool_decide; [done|]|]; injection Hr as <-; done.
    + unfold missing_diff in Hr. destruct (reserved !! n) eqn:E1; [done|].
      destruct (live !! n) eqn:E2; [done|]. injection Hr as <-. done.
  - destruct r as [n k l e]. simpl. intros [Hres Hk]. destruct k.
    + destruct Hk as (Hl & He & ->). left. exists (n, l). split; [by apply elem_of_map_to_list|].
      simpl. by rewrite Hres, He.
    + destruct Hk as (Hl & He & ->). right. exists (n, e). split; [by apply elem_of_map_to_list|].
      simpl. by rewrite Hres, Hl.
    + destruct Hk as (Hl & He & Hne). left. exists (n, l). split; [by apply elem_of_map_to_list|].
      simpl. by rewrite Hres, He, bool_decide_false.
Qed.

Section live.
Context {U : Type} `{!SqlEngine U}.

Definition live_unchanged (b b' : Workbench U) : Prop := unchanged (wb_live b) (wb_live b').

#[global] Instance live_unchanged_preorder : PreOrder live_unchanged.
Proof. split; [intros b; unfold live_unchanged; reflexivity|]. intros b1 b2 b3 H1 H2. unfold live_unchanged in *. by etrans. Qed.

Lemma read_only {A} (m : M (Site U) A) : within eq m -> within unchanged m.
Proof. intros Hm w. specialize (Hm w). simpl in Hm. rewrite <- Hm. reflexivity. Qed.

Lemma on_table_same {A} (g : MigTable -> A) (s : Site U) a s' :
  on_table (fun t => inr (g t, t)) s = inr (a, s') -> s' = s.
Proof.
  intros (t & t' & Ht & [= _ <-] & ->)%on_table_ok. destruct s as [dir [sm us]].
  unfold set_table. simpl in *. by subst sm.
Qed.

Lemma ReadFile_read_only name : within eq (ReadFile (U := U) name).
Proof.
  unfold ReadFile. within_solve. destruct (site_dir d ≫= _); [|done]. by injection H.
Qed.

Lemma ReadDir_read_only : within eq (ReadDir (U := U)).
Proof. unfold ReadDir. within_solve. destruct (site_dir d); [|done]. by injection H. Qed.

Lemma select_row_read_only v : within eq (select_row (U := U) v).
Proof. unfold select_row. within_solve. symmetry. exact (on_table_same _ _ _ _ H). Qed.

Lemma status_loop_read_only names : within eq (status_loop (U := U) names).
Proof.
  pose proof ReadFile_read_only. pose proof select_row_read_only.
  induction names as [|n names IH]; simpl; within_solve; auto.
Qed.

Lemma Status_unchanged dir : within unchanged (Status (U := U) dir).
Proof.
  unfold Status, os_Stat. within_solve; [apply ensure_unchanged|..].
  - apply read_only, ReadDir_read_only.
  - apply read_only, status_loop_read_only.
Qed.

(** Whatever fails on the way, [Diff] leaves the files, the schema and the
    records of the database under inspection as they are; the one thing it may
    do to it is create an empty bookkeeping table. *)
Theorem Diff_reads_only dir : within live_unchanged (Diff (U := U) dir).
Proof.
  assert (forall A (m : M (Site U) A), within live_unchanged (on_shadow m)) as Hs.
  { intros A m w. unfold on_shadow, zoom. destruct (m _). by unfold live_unchanged. }
  assert (forall A (m : M (Site U) A), within live_unchanged (on_shadow_embedded m)) as He.
  { intros A m w. unfold on_shadow_embedded, zoom. destruct (m _). by unfold live_unchanged. }
  assert (forall A (m : M (Site U) A), within unchanged m -> within live_unchanged (on_live m)) as Hl.
  { intros A m Hm. eapply within_zoom; [exact Hm|]. done. }
  unfold Diff, open_shadow, replay_one. within_solve; auto.
  - by unfold live_unchanged.
  - apply Hl, Status_unchanged.
Qed.

End live.

(** ** Witnesses

    A small engine: a script is a line [create t] or [drop t]. *)

#[local] Instance toy_engine : SqlEngine (gmap string string) := {|
  sql_empty := ∅;
  sql_exec sql u :=
    match Fields sql with
    | [] => inr u
    | [cmd; t] =>
        if bool_decide (cmd = "create") then
          match u !! t with Some _ => inl "table exists" | None => inr (<[t := sql]> u) end
        else if bool_decide (cmd = "drop") then
          match u !! t with Some _ => inr (delete t u) | None => inl "no such table" end
        else inl "syntax error"
    | _ => inl "syntax error"
    end;
  sql_master u := u;
  sql_bookkeeping b := if b : bool then "with checksum" else "without checksum";
|}.

Definition toy_files : list DirEntry :=
  [File "0002_tags.sql" (render "create tags" "drop tags"); SubDir "old";
   File "0001_posts.sql" (render "create posts" "drop posts")].
Definition toy_world (rows : list MigRow) (u : gmap string string) : World (Site (gmap string string)) :=
  sample_world 0 (mkSite (Some toy_files) (mkSQLDB (Some (mkMigTable true rows)) u)).
Definition toy_applied : World (Site (gmap string string)) :=
  toy_world [mkMigRow "app:0001_posts.sql" 0 (Some "c1"); mkMigRow "app:0002_tags.sql" 0 (Some "c2")]
    (<["posts" := "create posts"]> (<["tags" := "create tags"]> ∅)).

Example toy_up :
  (applyMigrations app_prefix (toy_world [] ∅)).1 =
    Ok (["0001_posts.sql"; "0002_tags.sql"], None).
Proof. vm_compute. reflexivity. Qed.

Example toy_down : (MigrateDirDown "m" 1 toy_applied).1 = Ok (["0002_tags.sql"], None).
Proof. vm_compute. reflexivity. Qed.

Lemma splitMigrationSQL_render_witness :
  no_markers "create posts" /\ splitMigrationSQL (render "create posts" "drop posts") = ("create posts", "drop posts", true).
Proof.
  assert (forall s, Forall (fun line => TrimSpace line <> migrateUpMarker /\ TrimSpace line <> migrateDownMarker) (Split newline s) ->
    no_markers s) as H.
  { intros s. intros Hs. eapply Forall_impl; [exact Hs|]. unfold marker. tauto. }
  split; [|apply splitMigrationSQL_render]; apply H; evaluate.
Defined.

Lemma applyMigrations_refines_witness :
  exists applied rest err w',
    applyMigrations app_prefix (toy_world [] ∅) = (Ok (applied, err), w') /\
    pending app_prefix (site_db (w_db (toy_world [] ∅))) toy_files = applied ++ rest /\
    (err = None -> rest = []) /\
    steps (site_db (w_db (toy_world [] ∅))) (up_label app_prefix toy_files <$> applied) (site_db (w_db w')) /\
    site_dir (w_db w') = Some toy_files.
Proof. apply (applyMigrations_refines app_prefix (toy_world [] ∅) toy_files); [done|evaluate]. Defined.

Lemma MigrateDirDown_refines_witness :
  exists reverted rest err w' d1,
    MigrateDirDown "m" 1 toy_applied = (Ok ((fun v => TrimPrefix v app_prefix) <$> reverted, err), w') /\
    newest 1 (rows_of (site_db (w_db toy_applied))) = reverted ++ rest /\
    (err = None -> rest = []) /\
    rows_of d1 = rows_of (site_db (w_db toy_applied)) /\
    user_schema d1 = user_schema (site_db (w_db toy_applied)) /\
    steps d1 (down_label toy_files <$> reverted) (site_db (w_db w')) /\
    site_dir (w_db w') = Some toy_files.
Proof. apply (MigrateDirDown_refines "m" 1 toy_applied toy_files); [lia|done]. Defined.

Lemma MigrateDirRedo_exact_witness :
  recorded (site_db (w_db (MigrateDirRedo "m" 1 toy_applied).2)) ≡ₚ recorded (site_db (w_db toy_applied)).
Proof.
  apply (MigrateDirRedo_exact "m" 1 toy_applied toy_files ["0002_tags.sql"]); [lia|done|evaluate|evaluate|].
  vm_compute. reflexivity.
Defined.

Lemma resolve_in_spec_witness : resolve_in "m" "2" toy_files = inr "0002_tags.sql".
Proof.
  apply resolve_in_spec; [evaluate|]. split; [evaluate|]. right. split; [evaluate|].
  exists 2%Z. split; [reflexivity|]. intros f Hf. change (omap file_name toy_files) with ["0002_tags.sql"; "0001_posts.sql"] in Hf.
  rewrite !elem_of_cons, elem_of_nil in Hf.
  destruct Hf as [->|[->|[]]]; split; try done; intros E; discriminate E.
Defined.

Lemma MigrateDirTo_exact_witness :
  exists name, resolve_in "m" "1" toy_files = inr name /\
    (forall f, f ∈ migration_names toy_files ->
       (app_prefix +:+ f ∈ recorded (site_db (w_db (MigrateDirTo "m" "1" toy_applied).2)) <-> str_le f name)).
Proof.
  apply (MigrateDirTo_exact "m" "1" toy_applied toy_files ["0002_tags.sql"] DirDown); [done|evaluate| |].
  2:{ vm_compute. reflexivity. }
  split.
  - evaluate.
  - change (recorded (site_db (w_db toy_applied))) with ["app:0001_posts.sql"; "app:0002_tags.sql"].
    intros v. rewrite !elem_of_cons, elem_of_nil.
    intros [->|[->|[]]] _; eexists; (split; [|reflexivity]); evaluate.
  - intros f g Hf _ _ _. change (migration_names toy_files) with ["0001_posts.sql"; "0002_tags.sql"] in Hf.
    rewrite !elem_of_cons, elem_of_nil in Hf. destruct Hf as [->|[->|[]]]; evaluate.
  - intros r1 r2 H1 H2 _ _ Hle. right. split; [|done].
    change (rows_of (site_db (w_db toy_applied))) with
      [mkMigRow "app:0001_posts.sql" 0 (Some "c1"); mkMigRow "app:0002_tags.sql" 0 (Some "c2")] in *.
    rewrite !elem_of_cons, elem_of_nil in H1, H2.
    destruct H1 as [->|[->|[]]], H2 as [->|[->|[]]]; done.
Defined.

(** The bookkeeping table that [Diff] creates in a database that had none. *)
Example Diff_creates_table :
  let b := mkWorkbench (mkSite (Some []) (mkSQLDB None (∅ : gmap string string))) [] (mkSQLDB None ∅) in
  schema_migrations (site_db (wb_live (w_db (Diff "m" (sample_world 0 b)).2))) = Some (mkMigTable true []).
Proof. vm_compute. reflexivity. Qed.

(** The underscore of LIKE 'sqlite_%' is a wildcard: a table of the deployment named
    "sqlitedata" is compared by no diff, though auto-REST exposes it. *)
Lemma diff_blind_to {U} `{!SqlEngine U} (d : SQLDB U) name :
  like_sqlite name = true -> tableDefinitions_of d !! name = None.
Proof. intros Hn. unfold tableDefinitions_of. apply map_lookup_filter_None. right. intros x _. cbn [fst]. rewrite Hn. done. Qed.

Example like_sqlite_names : (like_sqlite <$> ["sqlite_sequence"; "sqlitedata"; "sqlite"; "notes"]) = [true; true; false; false].
Proof. reflexivity. Qed.

End MigrateFacts.
