(* ===== verification/GoFiles.v ===== *)
(** * Files

    What the command line uses of path/filepath and os: a path is its list of
    components after cleaning, a file system the files and directories at each
    path.  Relative and absolute paths are not resolved against each other, and
    there are no links. *)

From S2P Require Import Prelude GoStrings.

Module Files.

(** ** Paths *)

Definition Path : Type := list string.

(** One more component: empty ones and "." go, ".." takes one back. *)
Definition push (p : Path) (c : string) : Path :=
  if bool_decide (c = EmptyString) || bool_decide (c = ".") then p
  else if bool_decide (c = "..") then
    match last p with
    | None => [".."]
    | Some l => if bool_decide (l = "/") then p else if bool_decide (l = "..") then p ++ [".."] else removelast p
    end
  else p ++ [c].

(** [filepath.Clean]; a rooted path starts with the component "/". *)
Definition Clean (s : string) : Path :=
  fold_left push (Split "/" s) (if HasPrefix s "/" then ["/"] else []).

(** [filepath.Join] of a path and a relative one. *)
Definition Join (dir : Path) (rel : string) : Path := fold_left push (Split "/" rel) dir.

(** [filepath.Dir]: what comes before the last separator. *)
Definition path_Dir (s : string) : Path :=
  Clean (match LastIndexFunc (fun c => byte_eqb c "/") s with
         | Some i => stake (S i) s
         | None => EmptyString
         end).

Definition show (p : Path) : string :=
  match p with
  | [] => "."
  | c :: rest => if bool_decide (c = "/") then "/" +:+ GoStrings.Join "/" rest else GoStrings.Join "/" p
  end.

(** ** File systems *)

Inductive Node : Type := File (content : string) | Dir.

#[global] Instance Node_eq_dec : EqDecision Node.
Proof. solve_decision. Defined.

Abbreviation FS := (gmap Path Node).

(** The working directory, those above it, and the root are always there. *)
Definition is_root (p : Path) : bool :=
  bool_decide (p = ["/"]) || forallb (fun c => bool_decide (c = "..")) p.
Definition is_dir (fs : FS) (p : Path) : bool := is_root p || bool_decide (fs !! p = Some Dir).

Abbreviation MF := (M FS).

(** [os.Stat] without an error. *)
Definition exists_at (p : Path) : MF bool :=
  r ← attempt (exec (fun fs => if is_root p || bool_decide (is_Some (fs !! p)) then inr (tt, fs)
                               else inl "no such file or directory"));
  mret (is_ok r).

(** A path and those above it, the root apart. *)
Definition ancestors (p : Path) : list Path := (fun n => take n p) <$> seq 1 (length p).

Definition is_file (fs : FS) (p : Path) : bool := match fs !! p with Some (File _) => true | _ => false end.

Definition MkdirAll (p : Path) : MF unit :=
  exec (fun fs =>
    if existsb (is_file fs) (ancestors p) then inl "not a directory"
    else inr (tt, fold_right (fun q fs => <[q := Dir]> fs) fs (filter (fun q => is_root q = false) (ancestors p)))).

Definition WriteFile (p : Path) (content : string) : MF unit :=
  exec (fun fs =>
    if is_dir fs p then inl "is a directory"
    else if negb (is_dir fs (removelast p)) then inl "no such file or directory"
    else inr (tt, <[p := File content]> fs)).

(** The content, or [None] when there is no such file. *)
Definition ReadFile (p : Path) : MF (option string) :=
  exec (fun fs =>
    match fs !! p with
    | Some (File c) => inr (Some c, fs)
    | Some Dir => inl "is a directory"
    | None => if is_root p then inl "is a directory" else inr (None, fs)
    end).

(** The component by which [p] lies directly in [d]. *)
Fixpoint child_name (d p : Path) : option string :=
  match d, p with
  | [], [n] => Some n
  | x :: d', y :: p' => if bool_decide (x = y) then child_name d' p' else None
  | _, _ => None
  end.

(** The names in a directory, in name order: what [os.ReadDir] lists. *)
Definition children (fs : FS) (d : Path) : list string :=
  sort_strings (omap (child_name d) (fst <$> map_to_list fs)).

Lemma child_name_spec d p n : child_name d p = Some n <-> p = d ++ [n].
Proof.
  revert p. induction d as [|x d IH]; intros p; destruct p as [|y p]; simpl; try (by split).
  - destruct p; split; try done; by intros [= ->].
  - case_bool_decide as E; [subst; rewrite IH|]; split; congruence.
Qed.

Lemma elem_of_children fs d n : n ∈ children fs d <-> is_Some (fs !! (d ++ [n])).
Proof.
  unfold children. rewrite elem_of_sort_strings, list_elem_of_omap. split.
  - intros (p & Hp & Hn%child_name_spec). subst p. apply list_elem_of_fmap in Hp as ([q nd] & -> & Hp%elem_of_map_to_list).
    by exists nd.
  - intros [nd H]. exists (d ++ [n]). split; [|by apply child_name_spec].
    apply list_elem_of_fmap. exists (d ++ [n], nd). split; [done|]. by apply elem_of_map_to_list.
Qed.

(** ** Lemmas *)

Lemma NoDup_omap_inj {A B} (f : A -> option B) (l : list A) :
  (forall x y b, f x = Some b -> f y = Some b -> x = y) -> NoDup l -> NoDup (omap f l).
Proof.
  intros Hf. induction 1 as [|x l Hx Hl IH]; cbn [omap list_omap]; [constructor|].
  destruct (f x) as [b|] eqn:E; [|done]. constructor; [|done].
  rewrite list_elem_of_omap. intros (y & Hy & Eb). by rewrite (Hf x y b E Eb) in Hx.
Qed.

Lemma children_nodup fs d : NoDup (children fs d).
Proof.
  unfold children. apply sort_strings_nodup, NoDup_omap_inj.
  - intros x y b ->%child_name_spec ->%child_name_spec. done.
  - apply NoDup_fst_map_to_list.
Qed.

Lemma children_ext fs fs' d :
  (forall n, is_Some (fs !! (d ++ [n])) <-> is_Some (fs' !! (d ++ [n]))) -> children fs d = children fs' d.
Proof.
  intros H. apply (Sorted_unique str_le); [apply sort_strings_sorted..|].
  apply NoDup_Permutation; [apply children_nodup..|]. intros n. by rewrite !elem_of_children.
Qed.

(** A name without separators is one component. *)
Lemma Join_file d n :
  no_byte "/" n = true -> 2 < String.length n -> Join d n = d ++ [n].
Proof.
  intros Hn Hl. unfold Join. rewrite Split_single by done. cbn [fold_left].
  unfold push. rewrite !bool_decide_eq_false_2; [done|..]; intros ->; simpl in Hl; lia.
Qed.

Lemma insert_dirs_lookup (l : list Path) (fs : FS) q :
  fold_right (fun q fs => <[q := Dir]> fs) fs l !! q = if bool_decide (q ∈ l) then Some Dir else fs !! q.
Proof.
  induction l as [|p l IH]; cbn [fold_right]; [done|]. destruct (decide (p = q)) as [->|Hne].
  - rewrite lookup_insert_eq, bool_decide_eq_true_2; [done|left].
  - rewrite lookup_insert_ne, IH by done. repeat case_bool_decide; try done; rewrite elem_of_cons in *; naive_solver.
Qed.

Lemma elem_of_ancestors p q : q ∈ ancestors p -> length q <= length p.
Proof. unfold ancestors. intros (n & -> & _)%list_elem_of_fmap. rewrite length_take. lia. Qed.

(** Directories are made, and nothing else changes. *)
Lemma MkdirAll_ok p w w' :
  MkdirAll p w = (Ok tt, w') ->
  (forall q c, w_db w !! q = Some (File c) -> w_db w' !! q = Some (File c)) /\
  (forall q, length p < length q -> w_db w' !! q = w_db w !! q) /\
  (forall q, w_db w' !! q = w_db w !! q \/ w_db w' !! q = Some Dir).
Proof.
  unfold MkdirAll. intros H%exec_ok. destruct (existsb _ _) eqn:E; [done|]. injection H as <-.
  assert (forall q c, w_db w !! q = Some (File c) -> q ∉ ancestors p) as Hf.
  { intros q c Hq Hin. assert (existsb (is_file (w_db w)) (ancestors p) = true); [|congruence].
    apply existsb_exists. exists q. split; [by apply list_elem_of_In|]. unfold is_file. by rewrite Hq. }
  split_and!; intros q; [intros c Hq|intros Hq|]; rewrite insert_dirs_lookup; case_bool_decide as Hin; try auto.
  - apply list_elem_of_filter in Hin as [_ Hin]. by apply Hf in Hq.
  - apply list_elem_of_filter in Hin as [_ Hin]. apply elem_of_ancestors in Hin. lia.
Qed.

Lemma WriteFile_ok p c w w' :
  WriteFile p c w = (Ok tt, w') -> w_db w' = <[p := File c]> (w_db w) /\ is_dir (w_db w) p = false.
Proof.
  unfold WriteFile. intros H%exec_ok. destruct (is_dir (w_db w) p) eqn:E; [done|].
  destruct (negb _); [done|]. by injection H as <-.
Qed.

Lemma exists_at_ok p w b w' : exists_at p w = (Ok b, w') -> w_db w' = w_db w.
Proof.
  unfold exists_at. intros H. apply bind_ok in H as (r & w1 & H1 & H2). apply mret_ok in H2 as [-> ->].
  unfold attempt in H1. destruct (exec _ w) as [r' w2] eqn:E. injection H1 as <- <-.
  destruct r' as [[]|e]; [|by apply exec_err in E].
  apply exec_ok in E. destruct (_ || _); [|done]. by injection E as <-.
Qed.

End Files.
