(* ===== verification/Schema.v ===== *)
(** * The embedded schema

    The tables of src/internal/db/migrations as records and lists of rows, one
    sub-database per component, with the constraints the statements of the
    program run into: primary keys, UNIQUE columns and indexes, foreign keys and
    their ON DELETE CASCADE.  A row list keeps insertion order.  Timestamps are
    nanoseconds; CURRENT_TIMESTAMP has a resolution of one second. *)

From S2P Require Import Prelude GoStrings.

Definition nanosecond : Z := 1.
Definition second : Z := 1000000000.
Definition minute : Z := 60 * second.
Definition hour : Z := 60 * minute.
Definition day : Z := 24 * hour.

(** CURRENT_TIMESTAMP. *)
Definition current_timestamp (clk : Z) : Z := (clk / second * second)%Z.

(** The driver's text for a violated constraint. *)
Definition unique_failed (what : string) : string :=
  "constraint failed: UNIQUE constraint failed: " +:+ what +:+ " (2067)".
Definition foreign_key_failed : string := "constraint failed: FOREIGN KEY constraint failed (787)".

(** ** Identity: users, sessions, reset tokens, social identities *)

Record UserRow : Type := mkUserRow {
  u_id : string; u_email : string; u_password_hash : string; u_created_at : Z; u_updated_at : Z;
}.
Record SessionRow : Type := mkSessionRow {
  s_id : string; s_user_id : string; s_token_hash : string; s_created_at : Z; s_expires_at : Z;
}.
Record ResetRow : Type := mkResetRow {
  r_id : string; r_user_id : string; r_token_hash : string; r_created_at : Z; r_expires_at : Z;
  r_used_at : option Z;
}.
Record SocialRow : Type := mkSocialRow {
  si_id : string; si_user_id : string; si_provider : string; si_provider_user_id : string;
  si_email : string; si_created_at : Z;
}.
Record IdentityDb : Type := mkIdentity {
  users : list UserRow; sessions : list SessionRow;
  reset_tokens : list ResetRow; social_identities : list SocialRow;
}.

Definition set_users (f : list UserRow -> list UserRow) (d : IdentityDb) : IdentityDb :=
  mkIdentity (f (users d)) (sessions d) (reset_tokens d) (social_identities d).
Definition set_sessions (f : list SessionRow -> list SessionRow) (d : IdentityDb) : IdentityDb :=
  mkIdentity (users d) (f (sessions d)) (reset_tokens d) (social_identities d).
Definition set_reset_tokens (f : list ResetRow -> list ResetRow) (d : IdentityDb) : IdentityDb :=
  mkIdentity (users d) (sessions d) (f (reset_tokens d)) (social_identities d).
Definition set_social (f : list SocialRow -> list SocialRow) (d : IdentityDb) : IdentityDb :=
  mkIdentity (users d) (sessions d) (reset_tokens d) (f (social_identities d)).

(** ** Owners: the team running the backend *)

Record OwnerRow : Type := mkOwnerRow {
  o_id : string; o_email : string; o_password_hash : string; o_role : string;
  o_created_at : Z; o_updated_at : Z;
}.
Record OwnerSessionRow : Type := mkOwnerSessionRow {
  os_id : string; os_owner_id : string; os_token_hash : string; os_created_at : Z; os_expires_at : Z;
}.
Record OwnerDb : Type := mkOwnerDb { owner_users : list OwnerRow; owner_sessions : list OwnerSessionRow }.

Definition set_owner_users (f : list OwnerRow -> list OwnerRow) (d : OwnerDb) : OwnerDb :=
  mkOwnerDb (f (owner_users d)) (owner_sessions d).
Definition set_owner_sessions (f : list OwnerSessionRow -> list OwnerSessionRow) (d : OwnerDb) : OwnerDb :=
  mkOwnerDb (owner_users d) (f (owner_sessions d)).

(** ** The audit log *)

Record AuditRow : Type := mkAuditRow {
  a_id : string; a_event : string;
  a_actor_id : option string; a_actor_email : option string;
  a_target_id : option string; a_target_email : option string;
  a_metadata : option (list (string * string)); a_created_at : Z;
}.

(** ** Files *)

Record FileRow : Type := mkFileRow {
  f_id : string; f_owner_id : string; f_filename : string; f_content_type : string;
  f_size_bytes : Z; f_storage_key : string; f_created_at : Z;
}.

(** ** OAuth *)

Record ClientRow : Type := mkClientRow {
  c_id : string; c_secret_hash : option string; c_name : string; c_redirect_uris : list string;
  c_grant_types : list string; c_response_types : list string; c_scopes : list string;
  c_auth_method : string; c_public : bool; c_created_at : Z;
}.

(** What is serialized with a code or token: the request it was issued for, and the
    session, whose [Subject] the statements match with json_extract. *)
Record StoredRequest : Type := mkStoredRequest {
  sr_ID : string; sr_RequestedAt : Z;
  sr_RequestedScope : list string; sr_GrantedScope : list string;
  sr_Form : list (string * string);
  sr_RequestedAudience : list string; sr_GrantedAudience : list string;
}.
Record JWTSession : Type := mkJWTSession {
  js_Subject : string; js_Username : string; js_Issuer : string; js_IssuedAt : Z;
  js_email : string; js_kid : string;
}.

(** One issued code or token: the four grant tables have the same columns, the
    two without an [active] column read as always active. *)
Record GrantRow : Type := mkGrantRow {
  g_signature : string; g_request_id : string; g_client_id : string;
  g_requester : StoredRequest; g_session : JWTSession; g_active : bool; g_created_at : Z;
}.
Record ConsentRow : Type := mkConsentRow {
  k_user_id : string; k_client_id : string; k_scopes : list string; k_created_at : Z;
}.
Record KeyRow : Type := mkKeyRow {
  key_kid : string; key_private_der : string; key_is_current : bool; key_created_at : Z;
}.
Record JtiRow : Type := mkJtiRow { jti_id : string; jti_expires_at : Z }.

Inductive GrantTable : Type := AuthorizeCodes | AccessTokens | RefreshTokens | PKCERequests.

#[global] Instance GrantTable_eq_dec : EqDecision GrantTable.
Proof. solve_decision. Defined.

Record OAuthDb : Type := mkOAuthDb {
  oauth_clients : list ClientRow;
  oauth_client_jti : list JtiRow;
  oauth_grants : GrantTable -> list GrantRow;
  oauth_consents : list ConsentRow;
  oauth_signing_keys : list KeyRow;
  oauth_hmac_secret : option string;
}.

Definition set_clients (f : list ClientRow -> list ClientRow) (d : OAuthDb) : OAuthDb :=
  mkOAuthDb (f (oauth_clients d)) (oauth_client_jti d) (oauth_grants d) (oauth_consents d)
            (oauth_signing_keys d) (oauth_hmac_secret d).
Definition set_jti (f : list JtiRow -> list JtiRow) (d : OAuthDb) : OAuthDb :=
  mkOAuthDb (oauth_clients d) (f (oauth_client_jti d)) (oauth_grants d) (oauth_consents d)
            (oauth_signing_keys d) (oauth_hmac_secret d).
Definition set_grants (t : GrantTable) (f : list GrantRow -> list GrantRow) (d : OAuthDb) : OAuthDb :=
  mkOAuthDb (oauth_clients d) (oauth_client_jti d)
            (fun t' => if decide (t' = t) then f (oauth_grants d t') else oauth_grants d t')
            (oauth_consents d) (oauth_signing_keys d) (oauth_hmac_secret d).
Definition set_consents (f : list ConsentRow -> list ConsentRow) (d : OAuthDb) : OAuthDb :=
  mkOAuthDb (oauth_clients d) (oauth_client_jti d) (oauth_grants d) (f (oauth_consents d))
            (oauth_signing_keys d) (oauth_hmac_secret d).
Definition set_keys (f : list KeyRow -> list KeyRow) (d : OAuthDb) : OAuthDb :=
  mkOAuthDb (oauth_clients d) (oauth_client_jti d) (oauth_grants d) (oauth_consents d)
            (f (oauth_signing_keys d)) (oauth_hmac_secret d).
Definition set_hmac (s : option string) (d : OAuthDb) : OAuthDb :=
  mkOAuthDb (oauth_clients d) (oauth_client_jti d) (oauth_grants d) (oauth_consents d)
            (oauth_signing_keys d) s.

(** ** The whole database *)

Record Database : Type := mkDatabase {
  identity : IdentityDb; owners : OwnerDb; audit_log : list AuditRow;
  files : list FileRow; oauth : OAuthDb;
}.

Definition put_identity (x : IdentityDb) (d : Database) : Database :=
  mkDatabase x (owners d) (audit_log d) (files d) (oauth d).
Definition put_owners (x : OwnerDb) (d : Database) : Database :=
  mkDatabase (identity d) x (audit_log d) (files d) (oauth d).
Definition put_audit_log (x : list AuditRow) (d : Database) : Database :=
  mkDatabase (identity d) (owners d) x (files d) (oauth d).
Definition put_files (x : list FileRow) (d : Database) : Database :=
  mkDatabase (identity d) (owners d) (audit_log d) x (oauth d).
Definition put_oauth (x : OAuthDb) (d : Database) : Database :=
  mkDatabase (identity d) (owners d) (audit_log d) (files d) x.

Definition user_ids (d : Database) : list string := u_id <$> users (identity d).

(** DELETE FROM users WHERE id = ?, with every table that references users(id)
    ON DELETE CASCADE. *)
Definition delete_user_cascade (id : string) (d : Database) : Database :=
  let i := identity d in
  put_identity
    (mkIdentity (filter (fun r => u_id r <> id) (users i))
                (filter (fun r => s_user_id r <> id) (sessions i))
                (filter (fun r => r_user_id r <> id) (reset_tokens i))
                (filter (fun r => si_user_id r <> id) (social_identities i)))
  (put_files (filter (fun r => f_owner_id r <> id) (files d))
  (put_oauth (set_consents (filter (fun r => k_user_id r <> id)) (oauth d)) d)).

(** DELETE FROM owner_users WHERE id = ?. *)
Definition delete_owner_cascade (id : string) (d : OwnerDb) : OwnerDb :=
  mkOwnerDb (filter (fun r => o_id r <> id) (owner_users d))
            (filter (fun r => os_owner_id r <> id) (owner_sessions d)).

(** ** What the constraints guarantee *)

Record identity_ok (d : IdentityDb) : Prop := {
  iok_user_id : unique_on u_id (users d);
  iok_email : unique_on (fun r => ToLower (u_email r)) (users d);
  iok_session_hash : unique_on s_token_hash (sessions d);
  iok_session_user : Forall (fun r => s_user_id r ∈ u_id <$> users d) (sessions d);
  iok_reset_hash : unique_on r_token_hash (reset_tokens d);
  iok_reset_user : Forall (fun r => r_user_id r ∈ u_id <$> users d) (reset_tokens d);
  iok_social : unique_on (fun r => (si_provider r, si_provider_user_id r)) (social_identities d);
  iok_social_user : Forall (fun r => si_user_id r ∈ u_id <$> users d) (social_identities d);
}.

Record owners_ok (d : OwnerDb) : Prop := {
  ook_id : unique_on o_id (owner_users d);
  ook_email : unique_on (fun r => ToLower (o_email r)) (owner_users d);
  ook_session_hash : unique_on os_token_hash (owner_sessions d);
  ook_session_owner : Forall (fun r => os_owner_id r ∈ o_id <$> owner_users d) (owner_sessions d);
}.
