(* ===== verification/Config.v ===== *)
(** * Configuration

    Models src/internal/config: every setting comes from an environment variable
    with a default; an unset variable and an empty one are the same. *)

From S2P Require Import Prelude GoStrings Schema.

Module Config.

Record Config : Type := mkConfig {
  Addr : string; DBPath : string; Issuer : string;
  BootstrapOwnerEmail : string; BootstrapOwnerPassword : string;
  MigrationsDir : string;
  LoginRateLimit : Z; LoginRateWindow : Z;
  SessionCleanupInterval : Z;
  StorageDir : string; MaxUploadBytes : Z; MaxRequestBodyBytes : Z;
  ResendAPIKey : string; EmailFrom : string; PasswordResetURL : string;
  GoogleClientID : string; GoogleClientSecret : string;
  GitHubClientID : string; GitHubClientSecret : string;
  SocialLoginRedirectURL : string; RedisURL : string; Env : string;
}.

Section load.
Variable Getenv : string -> string.

Definition getEnv (key fallback : string) : string :=
  let v := Getenv key in if bool_decide (v = EmptyString) then fallback else v.

Definition getEnvInt (key : string) (fallback : Z) : Z :=
  let v := Getenv key in
  if bool_decide (v = EmptyString) then fallback
  else match Atoi v with
       | None => fallback
       | Some n => n
       end.

(** A [time.Duration] is an int of nanoseconds. *)
Definition getEnvSeconds (key : string) (fallback : Z) : Z :=
  let n := getEnvInt key (-1) in
  if (n <? 0)%Z then fallback else wrap_int64 (n * second).

Definition Load : Config :=
  mkConfig
    (getEnv "MAUBASE_ADDR" ":8080")
    (getEnv "MAUBASE_DB_PATH" "data/maubase.db")
    (getEnv "MAUBASE_ISSUER" "http://localhost:8080")
    (getEnv "MAUBASE_BOOTSTRAP_OWNER_EMAIL" EmptyString)
    (getEnv "MAUBASE_BOOTSTRAP_OWNER_PASSWORD" EmptyString)
    (getEnv "MAUBASE_MIGRATIONS_DIR" "migrations")
    (getEnvInt "MAUBASE_LOGIN_RATE_LIMIT" 10)
    (getEnvSeconds "MAUBASE_LOGIN_RATE_WINDOW_SECONDS" (60 * second)%Z)
    (getEnvSeconds "MAUBASE_SESSION_CLEANUP_INTERVAL_SECONDS" hour)
    (getEnv "MAUBASE_STORAGE_DIR" "data/storage")
    (wrap_int64 (wrap_int64 (getEnvInt "MAUBASE_MAX_UPLOAD_MB" 25 * 1024) * 1024))
    (wrap_int64 (getEnvInt "MAUBASE_MAX_REQUEST_BODY_KB" 1024 * 1024))
    (getEnv "MAUBASE_RESEND_API_KEY" EmptyString)
    (getEnv "MAUBASE_EMAIL_FROM" EmptyString)
    (getEnv "MAUBASE_PASSWORD_RESET_URL" EmptyString)
    (getEnv "MAUBASE_GOOGLE_CLIENT_ID" EmptyString)
    (getEnv "MAUBASE_GOOGLE_CLIENT_SECRET" EmptyString)
    (getEnv "MAUBASE_GITHUB_CLIENT_ID" EmptyString)
    (getEnv "MAUBASE_GITHUB_CLIENT_SECRET" EmptyString)
    (getEnv "MAUBASE_SOCIAL_LOGIN_REDIRECT_URL" EmptyString)
    (getEnv "MAUBASE_REDIS_URL" EmptyString)
    (getEnv "MAUBASE_ENV" "production").

End load.

Definition IsDevelopment (c : Config) : bool := bool_decide (Env c = "development").

End Config.
