(* ===== verification/Cli.v ===== *)
(** * The command line: maubase migrate

    Models src/cmd/maubase/migrate.go and the opening of a database in
    src/internal/db/db.go: the two ways arguments are parsed, the file that
    "migrate new" writes, and what each subcommand prints and returns.  The
    commands on the database are those of [Migrate].

    A database path is taken for the name of a plain file: the syntax of the
    driver's data source name (":memory:", a "?" in the path, an empty path) is
    not modelled, nor is a migrations directory that is a regular file. *)

From S2P Require Import Prelude GoStrings Migrations GoFiles Config.

Module Cli.

Import Migrate.

(** ** Arguments *)

(** Flag values by name, and the other tokens in order. *)
Definition Parsed : Type := gmap string string * list string.

Fixpoint extract (known : list string) (args : list string) (values : gmap string string)
    (rest : list string) : error + Parsed :=
  match args with
  | [] => inr (values, rest)
  | a :: args' =>
      let trimmed := TrimPrefix (TrimPrefix a "--") "-" in
      if bool_decide (trimmed = a) || bool_decide (a = "-") then extract known args' values (rest ++ [a])
      else
        match IndexFunc (fun c => byte_eqb c "=") trimmed with
        | Some eq =>
            let name := stake eq trimmed in
            let val := sdrop (S eq) trimmed in
            if negb (bool_decide (name ∈ known)) then
              inl (Errorf ("flag provided but not defined: " +:+ a))
            else extract known args' (<[name := val]> values) rest
        | None =>
            if negb (bool_decide (trimmed ∈ known)) then
              inl (Errorf ("flag provided but not defined: " +:+ a))
            else
              match args' with
              | [] => inl (Errorf ("flag needs an argument: " +:+ a))
              | v :: args'' => extract known args'' (<[trimmed := v]> values) rest
              end
        end
  end.

Definition extractFlags (args names : list string) : error + Parsed := extract names args ∅ [].

(** [flag.FlagSet.Parse] of string flags: it stops at the first token that is
    not a flag, and at "--". *)
Fixpoint flag_Parse (known : list string) (args : list string) (values : gmap string string) :
    error + gmap string string :=
  match args with
  | [] => inr values
  | s :: args' =>
      if negb (HasPrefix s "-") || bool_decide (s = "-") then inr values
      else if bool_decide (s = "--") then inr values
      else
        let name := if HasPrefix s "--" then sdrop 2 s else sdrop 1 s in
        if HasPrefix name "-" || HasPrefix name "=" then inl (Errorf ("bad flag syntax: " +:+ s))
        else
          let undefined n :=
            if bool_decide (n = "help") || bool_decide (n = "h") then
              Sentinel "flag.ErrHelp" "flag: help requested"
            else Errorf ("flag provided but not defined: -" +:+ n) in
          match IndexFunc (fun c => byte_eqb c "=") name with
          | Some eq =>
              let n := stake eq name in
              if bool_decide (n ∈ known) then flag_Parse known args' (<[n := sdrop (S eq) name]> values)
              else inl (undefined n)
          | None =>
              if bool_decide (name ∈ known) then
                match args' with
                | [] => inl (Errorf ("flag needs an argument: -" +:+ name))
                | v :: args'' => flag_Parse known args'' (<[name := v]> values)
                end
              else inl (undefined name)
          end
  end.

(** ** Names and numbers *)

Definition slug_byte (c : ascii) : bool := is_lower c || is_digit c.

(** Every maximal run of other bytes becomes one "_". *)
Fixpoint collapse (in_run : bool) (s : string) : string :=
  match s with
  | EmptyString => EmptyString
  | String c r =>
      if slug_byte c then String c (collapse false r)
      else if in_run then collapse true r else String "_" (collapse true r)
  end.

Definition slugify (name : string) : string :=
  TrimFunc (fun c => byte_eqb c "_") (collapse false (ToLower (TrimSpace name))).

Fixpoint zeros (n : nat) : string :=
  match n with 0 => EmptyString | S m => String "0" (zeros m) end.

Definition left_pad (width : nat) (s : string) : string := zeros (width - String.length s) +:+ s.

(** The verb [%0*d]: the sign stays in front of the zeros. *)
Definition zero_padded (width : nat) (n : Z) : string :=
  if (n <? 0)%Z then "-" +:+ left_pad (width - 1) (Itoa (- n)) else left_pad width (Itoa n).

(** The loop over the entries: the highest number so far and its width. *)
Fixpoint next_loop (es : list DirEntry) (number : Z) (width : nat) : Z * nat :=
  match es with
  | [] => (number, width)
  | SubDir _ :: r => next_loop r number width
  | File name _ :: r =>
      match number_prefix name with
      | None => next_loop r number width
      | Some digits =>
          match Atoi digits with
          | None => next_loop r number width
          | Some n => if (number <=? n)%Z then next_loop r n (String.length digits)
                      else next_loop r number width
          end
      end
  end.

Definition next_number (es : list DirEntry) : Z * nat :=
  let '(number, width) := next_loop es 0 4 in (wrap_int64 (number + 1), width).

Definition migration_template (name : string) : string :=
  Join (one newline)
    ["-- " +:+ name;
     "-- Created by " +:+ Quote "maubase migrate new" +:+ ". Add your schema changes under";
     "-- " +:+ Quote "+migrate Up" +:+ " below — it runs once, in a transaction, the next time";
     "-- " +:+ Quote "maubase migrate up" +:+ " runs (or the server boots). The " +:+ Quote "+migrate Down";
     "-- section is optional but lets " +:+ Quote "maubase migrate down" +:+ " undo this";
     "-- migration later; a migration with no Down section simply can't be";
     "-- reverted.";
     EmptyString;
     "-- +migrate Up";
     EmptyString; EmptyString;
     "-- +migrate Down";
     EmptyString; EmptyString].

(** ** Times: [Format(time.RFC3339)] of a UTC time *)

(** Year, month and day of a day counted from 1970-01-01. *)
Definition civil (days : Z) : Z * Z * Z :=
  (let z := days + 719468 in
   let era := z / 146097 in
   let doe := z mod 146097 in
   let yoe := (doe - doe / 1460 + doe / 36524 - doe / 146096) / 365 in
   let doy := doe - (365 * yoe + yoe / 4 - yoe / 100) in
   let mp := (5 * doy + 2) / 153 in
   let d := doy - (153 * mp + 2) / 5 + 1 in
   let m := if mp <? 10 then mp + 3 else mp - 9 in
   (yoe + era * 400 + (if m <=? 2 then 1 else 0), m, d))%Z.

Definition RFC3339 (t : Z) : string :=
  let s := (t / 1000000000)%Z in
  let '(y, m, d) := civil (s / 86400) in
  let r := (s mod 86400)%Z in
  zero_padded 4 y +:+ "-" +:+ zero_padded 2 m +:+ "-" +:+ zero_padded 2 d +:+ "T" +:+
  zero_padded 2 (r / 3600) +:+ ":" +:+ zero_padded 2 (r / 60 mod 60) +:+ ":" +:+ zero_padded 2 (r mod 60) +:+ "Z".

(** ** The host the command runs on *)

(** The file system, the databases by path, the migrations embedded in the
    binary, and the lines printed. *)
Record Host (U : Type) : Type := mkHost {
  fs : Files.FS;
  dbs : gmap Files.Path (SQLDB U);
  embedded : list DirEntry;
  stdout : list string;
  stderr : list string;
}.
Arguments mkHost {U} _ _ _ _ _.
Arguments fs {U} _.
Arguments dbs {U} _.
Arguments embedded {U} _.
Arguments stdout {U} _.
Arguments stderr {U} _.

Definition entries (f : Files.FS) (d : Files.Path) : list DirEntry :=
  omap (fun n => match f !! (d ++ [n]) with
                 | Some (Files.File c) => Some (File n c)
                 | Some Files.Dir => Some (SubDir n)
                 | None => None
                 end) (Files.children f d).

Definition dir_at (f : Files.FS) (dir : string) : option (list DirEntry) :=
  let d := Files.Clean dir in
  if bool_decide (dir = EmptyString) then None
  else if Files.is_dir f d then Some (entries f d) else None.

Section host.
Context {U : Type} `{!SqlEngine U}.
Local Abbreviation MH := (M (Host U)).

Definition on_fs {A} (m : M Files.FS A) : MH A :=
  zoom fs (fun f h => mkHost f (dbs h) (embedded h) (stdout h) (stderr h)) m.

(** [fmt.Println] and the like; a failed write is ignored. *)
Definition say (line : string) : MH unit := fun w =>
  let h := w_db w in
  (Ok tt, mkWorld (w_env w) (mkHost (fs h) (dbs h) (embedded h) (stdout h ++ [line]) (stderr h))).
Definition warn (line : string) : MH unit := fun w =>
  let h := w_db w in
  (Ok tt, mkWorld (w_env w) (mkHost (fs h) (dbs h) (embedded h) (stdout h) (stderr h ++ [line]))).

Definition set_dbs (d : gmap Files.Path (SQLDB U)) (h : Host U) : Host U :=
  mkHost (fs h) d (embedded h) (stdout h) (stderr h).

Definition fresh_db : SQLDB U := mkSQLDB None sql_empty.

(** The database at a path, as an open connection sees it. *)
Definition db_at (h : Host U) (p : Files.Path) : SQLDB U := default fresh_db (dbs h !! p).

(** ** internal/db: opening *)

(** The connection creates the file; an empty file is an empty database. *)
Definition connect (p : Files.Path) : MH unit :=
  exec (fun h =>
    let create := inr (tt, mkHost (<[p := Files.File EmptyString]> (fs h)) (<[p := fresh_db]> (dbs h))
                                  (embedded h) (stdout h) (stderr h)) in
    if Files.is_dir (fs h) p then inl "unable to open database file (14)"
    else match fs h !! p, dbs h !! p with
         | Some _, Some _ => inr (tt, h)
         | Some (Files.File c), None =>
             if bool_decide (c = EmptyString) then create else inl "file is not a database (26)"
         | _, _ => if Files.is_dir (fs h) (removelast p) then create
                   else inl "unable to open database file (14)"
         end).

Definition Open (path : string) : MH unit :=
  let dir := Files.path_Dir path in
  (if bool_decide (Files.show dir = ".") then mret tt
   else wrapping ("create " +:+ Files.show dir) (on_fs (Files.MkdirAll dir))) ;;
  wrapping "ping sqlite" (connect (Files.Clean path)).

(** An operation of [Migrate] on the database at a path and a directory. *)
Definition site (dir db : string) (h : Host U) : Site U :=
  mkSite (dir_at (fs h) dir) (db_at h (Files.Clean db)).
Definition put_site (db : string) (s : Site U) (h : Host U) : Host U :=
  set_dbs (<[Files.Clean db := site_db s]> (dbs h)) h.

Definition on_site {A} (dir db : string) (m : M (Site U) A) : MH A :=
  zoom (site dir db) (put_site db) m.

Definition on_bench {A} (dir db : string) (m : M (Workbench U) A) : MH A :=
  zoom (fun h => mkWorkbench (site dir db h) (embedded h) fresh_db)
       (fun b h => put_site db (wb_live b) h) m.

(** ** migrate new *)

Definition MkdirAll (dir : string) : MH unit :=
  if bool_decide (dir = EmptyString) then exec (fun _ => inl "no such file or directory")
  else on_fs (Files.MkdirAll (Files.Clean dir)).

Definition nextMigrationNumber (dir : string) : MH (Z * nat) :=
  es ← exec (fun h => match dir_at (fs h) dir with
                      | Some es => inr (es, h)
                      | None => inl "no such file or directory"
                      end);
  mret (next_number es).

Definition newMigrationFile (dir name : string) : MH Files.Path :=
  let slug := slugify name in
  if bool_decide (slug = EmptyString) then
    fail (Errorf ("migration name must contain at least one letter or digit, got " +:+ Quote name))
  else
    wrapping ("create migrations dir " +:+ dir) (MkdirAll dir) ;;
    '(number, width) ← wrapping ("determine next migration number in " +:+ dir) (nextMigrationNumber dir);
    let filename := zero_padded width number +:+ "_" +:+ slug +:+ ".sql" in
    let path := Files.Join (Files.Clean dir) filename in
    exists_ ← on_fs (Files.exists_at path);
    if (exists_ : bool) then fail (Errorf (Files.show path +:+ " already exists"))
    else
      wrapping ("write " +:+ Files.show path) (on_fs (Files.WriteFile path (migration_template name))) ;;
      mret path.

Variable Getenv : string -> string.
Let cfg := Config.Load Getenv.

Definition value_or (values : gmap string string) (name fallback : string) : string :=
  default fallback (values !! name).

Definition of_sum {A} (r : error + A) : MH A := match r with inl e => fail e | inr a => mret a end.

Definition runMigrateNew (args : list string) : MH unit :=
  '(values, rest) ← of_sum (extractFlags args ["dir"]);
  let dir := value_or values "dir" (Config.MigrationsDir cfg) in
  let name := Join " " rest in
  if bool_decide (TrimSpace name = EmptyString) then
    fail (Errorf "usage: maubase migrate new <name> [--dir path]")
  else
    path ← newMigrationFile dir name;
    say ("created " +:+ Files.show path).

(** ** The commands on a database *)

Definition migrateUp (dir db : string) : MH unit :=
  mismatches ← on_site dir db (VerifyChecksums dir);
  (if bool_decide (mismatches = []) then mret tt
   else
     warn "warning: these already-applied migrations have been modified since they ran:" ;;
     for_each (fun name => warn ("  " +:+ name)) mismatches ;;
     warn ("if that was intentional, " +:+ Quote "maubase migrate redo" +:+
           " reapplies a migration with its current content")) ;;
  r ← on_site dir db (MigrateDirApplied dir);
  match r with
  | (_, Some e) => fail e
  | ([], None) => say "no pending migrations"
  | (applied, None) => for_each (fun name => say ("applied " +:+ name)) applied
  end.

Definition status_line (s : MigrationStatus) : string :=
  if Applied s then
    "applied  " +:+ Name s +:+ "  (applied " +:+ RFC3339 (AppliedAt s) +:+
    (if ChecksumMismatch s then ", MODIFIED SINCE APPLIED — file content no longer matches what was recorded)"
     else if HasDown s then ")" else ", no down — can't be reverted)")
  else "pending  " +:+ Name s.

Definition migrateStatus (dir db : string) : MH unit :=
  statuses ← on_site dir db (Status dir);
  if bool_decide (length statuses = 0) then say ("no migrations found in " +:+ dir)
  else for_each (fun s => say (status_line s)) statuses.

Definition migrateDown (dir db : string) (n : Z) : MH unit :=
  r ← on_site dir db (MigrateDirDown dir n);
  match r with
  | (_, Some e) => fail e
  | ([], None) => say "nothing to revert"
  | (reverted, None) => for_each (fun name => say ("reverted " +:+ name)) reverted
  end.

Definition migrateRedo (dir db : string) (n : Z) : MH unit :=
  r ← on_site dir db (MigrateDirRedo dir n);
  match r with
  | (_, Some e) => fail e
  | ([], None) => say "nothing to redo"
  | (redone, None) => for_each (fun name => say ("redone " +:+ name)) redone
  end.

Definition verb (d : Direction) : string := match d with DirDown => "reverted" | _ => "applied" end.

Definition migrateTo (dir db target : string) : MH unit :=
  r ← on_site dir db (MigrateDirTo dir target);
  match r with
  | (_, _, Some e) => fail e
  | ([], _, None) => say "already at that version"
  | (touched, d, None) => for_each (fun name => say (verb d +:+ " " +:+ name)) touched
  end.

Definition diff_line (r : DiffResult) : string :=
  match Kind r with
  | Unexplained => "unexplained  " +:+ Table r +:+ "  (exists in the database, not accounted for by any applied migration)"
  | Missing => "missing      " +:+ Table r +:+ "  (an applied migration should have created this table, but it doesn't exist)"
  | Altered => "altered      " +:+ Table r +:+ "  (live definition differs from what its migration(s) produced)"
  end.

Definition migrateDiff (dir db : string) : MH unit :=
  results ← on_bench dir db (Diff dir);
  if bool_decide (results = []) then
    say "no drift: every live table is accounted for by an applied migration"
  else
    for_each (fun r => say (diff_line r)) results ;;
    fail (Errorf ("drift found in " +:+ Itoa (Z.of_nat (length results)) +:+ " table(s), see above")).

(** ** The subcommands *)

(** What the flag package prints on an error, the error itself first unless it
    is the request for help. *)
Definition flag_usage (sub : string) (e : error) : MH unit :=
  let describe n use dflt :=
    warn ("  -" +:+ n +:+ " string") ;;
    warn ("    " +:+ one (ascii_of_nat 9) +:+ use +:+
          if bool_decide (dflt = EmptyString) then EmptyString else " (default " +:+ Quote dflt +:+ ")") in
  (match e with Sentinel _ _ => mret tt | _ => warn (error_text e) end) ;;
  warn ("Usage of maubase migrate " +:+ sub +:+ ":") ;;
  describe "db" "path to the SQLite database file" (Config.DBPath cfg) ;;
  describe "dir" "directory of application migration .sql files" (Config.MigrationsDir cfg).

Definition runMigrateUpStatusOrDiff (sub : string) (args : list string) : MH unit :=
  match flag_Parse ["db"; "dir"] args ∅ with
  | inl e => flag_usage sub e ;; fail e
  | inr values =>
      let dbPath := value_or values "db" (Config.DBPath cfg) in
      let dir := value_or values "dir" (Config.MigrationsDir cfg) in
      Open dbPath ;;
      if bool_decide (sub = "up") then migrateUp dir dbPath
      else if bool_decide (sub = "status") then migrateStatus dir dbPath
      else if bool_decide (sub = "diff") then migrateDiff dir dbPath
      else fail (Errorf ("maubase migrate: unknown subcommand " +:+ Quote sub))
  end.

(** The count, the directory and the database path. *)
Definition parseOptionalCount (sub : string) (args : list string) : error + (Z * string * string) :=
  match extractFlags args ["dir"; "db"] with
  | inl e => inl e
  | inr (values, rest) =>
      let dir := value_or values "dir" (Config.MigrationsDir cfg) in
      let dbPath := value_or values "db" (Config.DBPath cfg) in
      match rest with
      | [] => inr (1%Z, dir, dbPath)
      | [c] =>
          match Atoi c with
          | Some parsed =>
              if (parsed <=? 0)%Z then inl (Errorf ("n must be a positive integer, got " +:+ Quote c))
              else inr (parsed, dir, dbPath)
          | None => inl (Errorf ("n must be a positive integer, got " +:+ Quote c))
          end
      | _ => inl (Errorf ("usage: maubase migrate " +:+ sub +:+ " [n] [--db path] [--dir path]"))
      end
  end.

Definition runMigrateDownOrRedo (sub : string) (args : list string) : MH unit :=
  '(n, dir, dbPath) ← of_sum (parseOptionalCount sub args);
  Open dbPath ;;
  if bool_decide (sub = "down") then migrateDown dir dbPath n
  else if bool_decide (sub = "redo") then migrateRedo dir dbPath n
  else fail (Errorf ("maubase migrate: unknown subcommand " +:+ Quote sub)).

Definition runMigrateTo (args : list string) : MH unit :=
  '(values, rest) ← of_sum (extractFlags args ["dir"; "db"]);
  match rest with
  | [target] =>
      let dir := value_or values "dir" (Config.MigrationsDir cfg) in
      let dbPath := value_or values "db" (Config.DBPath cfg) in
      Open dbPath ;;
      migrateTo dir dbPath target
  | _ => fail (Errorf "usage: maubase migrate to <version> [--db path] [--dir path]")
  end.

Definition runMigrate (args : list string) : MH unit :=
  match args with
  | [] => fail (Errorf "usage: maubase migrate <new|up|down|redo|to|status|diff> [--dir path] [--db path]")
  | sub :: rest =>
      if bool_decide (sub = "new") then runMigrateNew rest
      else if bool_decide (sub = "down") || bool_decide (sub = "redo") then runMigrateDownOrRedo sub rest
      else if bool_decide (sub = "to") then runMigrateTo rest
      else if bool_decide (sub = "up") || bool_decide (sub = "status") || bool_decide (sub = "diff") then
        runMigrateUpStatusOrDiff sub rest
      else fail (Errorf ("maubase migrate: unknown subcommand " +:+ Quote sub +:+ " (want " +:+
                         Join ", " (Quote <$> ["new"; "up"; "down"; "redo"; "to"; "status"]) +:+
                         ", or " +:+ Quote "diff" +:+ ")"))
  end.

End host.

End Cli.
