(* ===== verification/CliFacts.v ===== *)
(** * The command line: theorems

    What the arguments of "maubase migrate" mean, what the file written by
    "migrate new" is, and what the commands do to the host they run on. *)

From S2P Require Import Prelude GoStrings Migrations MigrationsFacts GoFiles Config Cli.

Module CliFacts.

Import Migrate MigrateFacts Cli.

(** ** Decimal digits *)

Lemma zeros_length n : String.length (zeros n) = n.
Proof. induction n; simpl; congruence. Qed.

Lemma zeros_digits n : sall is_digit (zeros n) = true.
Proof. induction n; simpl; done. Qed.

Lemma digits_val_zeros n s : digits_val 0 (zeros n +:+ s) = digits_val 0 s.
Proof. induction n as [|n IH]; [done|]. exact IH. Qed.

Lemma pretty_char_digit x :
  (x < 10)%N -> is_digit (pretty_N_char x) = true /\ digit_val (pretty_N_char x) = Z.of_N x.
Proof.
  intros H. assert (x ∈ [0; 1; 2; 3; 4; 5; 6; 7; 8; 9]%N) as Hx by (rewrite !elem_of_cons; lia).
  rewrite !elem_of_cons, elem_of_nil in Hx. by destruct_or! Hx; subst.
Qed.

Lemma pretty_go_digits x : forall s,
  sall is_digit s = true -> sall is_digit (pretty_N_go x s) = true /\ digits_val 0 (pretty_N_go x s) = digits_val (Z.of_N x) s.
Proof.
  induction (N.lt_wf_0 x) as [x _ IH]; intros s Hs.
  destruct (decide (x = 0)%N) as [->|Hx]; [done|].
  rewrite pretty_N_go_step by lia.
  destruct (pretty_char_digit (x mod 10)) as [Hd Hv]; [by apply N.mod_lt|].
  destruct (IH (x / 10)%N) with (s := String (pretty_N_char (x mod 10)) s) as [H1 H2].
  - apply N.div_lt; lia.
  - simpl. by rewrite Hd.
  - split; [done|]. rewrite H2. simpl. rewrite Hv. f_equal.
    pose proof (N.div_mod x 10 ltac:(done)). lia.
Qed.

Lemma pretty_go_length w : forall x s, (x < 10 ^ N.of_nat w)%N -> String.length (pretty_N_go x s) <= w + String.length s.
Proof.
  induction w as [|w IH]; intros x s Hx.
  - assert (x = 0)%N as -> by (simpl in Hx; lia). done.
  - destruct (decide (x = 0)%N) as [->|H0]; [rewrite pretty_N_go_0; lia|].
    rewrite pretty_N_go_step by lia.
    assert (x / 10 < 10 ^ N.of_nat w)%N as H.
    { apply N.Div0.div_lt_upper_bound. by rewrite <- N.pow_succ_r', <- Nat2N.inj_succ. }
    specialize (IH _ (String (pretty_N_char (x mod 10)) s) H). simpl in IH. lia.
Qed.

Lemma Itoa_digits n :
  (0 <= n)%Z -> sall is_digit (Itoa n) = true /\ digits_val 0 (Itoa n) = n /\ Itoa n <> EmptyString.
Proof.
  intros Hn. destruct n as [|p|p]; [done| |lia].
  assert (Itoa (Z.pos p) = pretty_N_go (N.pos p) EmptyString) as -> by done.
  destruct (pretty_go_digits (N.pos p) EmptyString) as [H1 H2]; [done|].
  split_and!; [done| |].
  - rewrite H2. done.
  - intros E. by rewrite E in H2.
Qed.

Lemma Itoa_length n w :
  (0 <= n < 10 ^ Z.of_nat w)%Z -> 0 < w -> String.length (Itoa n) <= w.
Proof.
  intros Hn Hw. destruct n as [|p|p]; [done| |lia].
  assert (Itoa (Z.pos p) = pretty_N_go (N.pos p) EmptyString) as -> by done.
  etrans; [apply (pretty_go_length w)|simpl; lia].
  apply N2Z.inj_lt. rewrite N2Z.inj_pow. simpl. rewrite nat_N_Z. lia.
Qed.

(** A padded number: its digits, its value and its width. *)
Lemma zero_padded_spec w n :
  (0 <= n)%Z ->
  sall is_digit (zero_padded w n) = true /\ digits_val 0 (zero_padded w n) = n /\
  zero_padded w n <> EmptyString /\
  (0 < w -> (n < 10 ^ Z.of_nat w)%Z -> String.length (zero_padded w n) = w).
Proof.
  intros Hn. destruct (Itoa_digits n Hn) as (H1 & H2 & H3).
  unfold zero_padded. destruct (Z.ltb_spec n 0); [lia|]. unfold left_pad.
  rewrite sall_app, zeros_digits, H1, digits_val_zeros, H2. split_and!; try done.
  - intros E. destruct (w - _); simpl in E; done.
  - intros Hw Hlt. rewrite slength_app, zeros_length.
    pose proof (Itoa_length n w). lia.
Qed.

Lemma span_digits_app d s :
  sall is_digit d = true -> span_digits (d +:+ "_" +:+ s) = (d, "_" +:+ s).
Proof.
  induction d as [|c d IH]; simpl; [done|]. intros [Hc Hd]%andb_true_iff. rewrite Hc.
  simpl in IH. by rewrite IH.
Qed.

Lemma span_digits_inv f d t : span_digits f = (d, t) -> f = d +:+ t /\ sall is_digit d = true.
Proof.
  revert d t. induction f as [|c f IH]; intros d t; simpl; [by intros [= <- <-]|].
  destruct (is_digit c) eqn:Ec; [|by intros [= <- <-]].
  destruct (span_digits f) as [d' t'] eqn:E. intros [= <- <-].
  destruct (IH d' t' eq_refl) as [-> H]. simpl. by rewrite Ec.
Qed.

Lemma number_prefix_app d s :
  sall is_digit d = true -> d <> EmptyString -> number_prefix (d +:+ "_" +:+ s) = Some d.
Proof.
  intros Hd Hne. unfold number_prefix. rewrite span_digits_app by done.
  destruct d; [done|]. done.
Qed.

Lemma number_prefix_inv f d :
  number_prefix f = Some d -> exists s, f = d +:+ "_" +:+ s /\ sall is_digit d = true.
Proof.
  unfold number_prefix. destruct (span_digits f) as [d' t] eqn:E.
  apply span_digits_inv in E as [-> Hd]. destruct d' as [|c d'], t as [|u t]; try done.
  destruct (byte_eqb u "_") eqn:Eu; [|done]. apply byte_eqb_eq in Eu as ->. intros [= <-]. by exists t.
Qed.

Lemma Atoi_digits d n : sall is_digit d = true -> Atoi d = Some n -> digits_val 0 d = n.
Proof.
  intros Hd. unfold Atoi. destruct d as [|c d]; [done|].
  destruct (byte_eqb c "-") eqn:E1; [apply byte_eqb_eq in E1; by subst|].
  destruct (byte_eqb c "+") eqn:E2; [apply byte_eqb_eq in E2; by subst|].
  rewrite bool_decide_eq_false_2 by done. rewrite Hd. cbn [orb negb].
  destruct (_ && _); [|done]. by intros [= <-].
Qed.

Lemma Atoi_of_digits d :
  sall is_digit d = true -> d <> EmptyString -> (0 <= digits_val 0 d <= max_int64)%Z ->
  Atoi d = Some (digits_val 0 d).
Proof.
  intros Hd Hne Hv. unfold Atoi. destruct d as [|c d]; [done|].
  destruct (byte_eqb c "-") eqn:E1; [apply byte_eqb_eq in E1; by subst|].
  destruct (byte_eqb c "+") eqn:E2; [apply byte_eqb_eq in E2; by subst|].
  rewrite bool_decide_eq_false_2 by done. rewrite Hd. cbn [orb negb].
  replace (min_int64 <=? _)%Z with true by (symmetry; apply Z.leb_le; unfold min_int64; lia).
  replace (_ <=? max_int64)%Z with true by (symmetry; apply Z.leb_le; lia). done.
Qed.

(** *** Their order *)

Lemma digit_val_range c : is_digit c = true -> (0 <= digit_val c <= 9)%Z.
Proof. unfold is_digit, in_range, digit_val. intros [H1%N.leb_le H2%N.leb_le]%andb_true_iff. lia. Qed.

Lemma digits_val_lt a : forall b m n,
  sall is_digit a = true -> sall is_digit b = true -> String.length a = String.length b ->
  (m < n)%Z -> (digits_val m a < digits_val n b)%Z.
Proof.
  induction a as [|c a IH]; intros [|d b] m n; try done.
  cbn [sall String.length digits_val]. intros [Hc Ha]%andb_true_iff [Hd Hb]%andb_true_iff [= Hl] Hmn. apply IH; try done.
  apply digit_val_range in Hc, Hd. lia.
Qed.

(** Numbers of one width compare as their digits do. *)
Lemma digits_order a : forall b m x y,
  sall is_digit a = true -> sall is_digit b = true -> String.length a = String.length b ->
  (digits_val m a < digits_val m b)%Z -> str_leb (a +:+ x) (b +:+ y) = true.
Proof.
  induction a as [|c a IH]; intros [|d b] m x y; try done; cbn [sall String.length digits_val].
  - intros _ _ _ H. lia.
  - intros [Hc Ha]%andb_true_iff [Hd Hb]%andb_true_iff [= Hl] Hv.
    change (str_leb (String c (a +:+ x)) (String d (b +:+ y)) = true). apply str_leb_cases.
    destruct (N.lt_trichotomy (byte_n c) (byte_n d)) as [H|[H|H]]; [by left| |].
    + right. split; [done|]. apply byte_n_inj in H. subst. eauto.
    + exfalso. assert (m * 10 + digit_val d < m * 10 + digit_val c)%Z as Hlt by (unfold digit_val; lia).
      pose proof (digits_val_lt b a _ _ Hb Ha (eq_sym Hl) Hlt). lia.
Qed.

(** ** The order of migration files *)

(** A numbered file name, and how many digits it has. *)
Definition numbered (w : nat) (f : string) : Prop :=
  exists d n, number_prefix f = Some d /\ Atoi d = Some n /\ String.length d = w.

Definition files_of (es : list DirEntry) : list string := omap file_name es.

Lemma next_loop_spec es : forall number width,
  let r := next_loop es number width in
  (number <= r.1)%Z /\
  (forall f d n, f ∈ files_of es -> number_prefix f = Some d -> Atoi d = Some n -> (n <= r.1)%Z) /\
  (r = (number, width) \/ exists f d, f ∈ files_of es /\ number_prefix f = Some d /\
     Atoi d = Some r.1 /\ String.length d = r.2).
Proof.
  induction es as [|[f c|sub] es IH]; intros number width; cbn [next_loop files_of omap list_omap file_name].
  - split_and!; [done| |by left]. intros f d n Hf. by apply elem_of_nil in Hf.
  - assert (forall number' width', (number <= number')%Z ->
      (forall d n, number_prefix f = Some d -> Atoi d = Some n -> (n <= number')%Z) ->
      ((number', width') = (number, width) \/
        exists d, number_prefix f = Some d /\ Atoi d = Some number' /\ String.length d = width') ->
      let r := next_loop es number' width' in
      (number <= r.1)%Z /\
      (forall g d n, g ∈ f :: files_of es -> number_prefix g = Some d -> Atoi d = Some n -> (n <= r.1)%Z) /\
      (r = (number, width) \/ exists g d, g ∈ f :: files_of es /\ number_prefix g = Some d /\
         Atoi d = Some r.1 /\ String.length d = r.2)) as step.
    { intros number' width' Hn Hf Hp r. destruct (IH number' width') as (H1 & H2 & H3). fold r in H1, H2, H3.
      split_and!; [lia| |].
      - intros g d n [->|Hg]%elem_of_cons Hd Ha; [specialize (Hf d n Hd Ha); lia|eauto].
      - destruct H3 as [-> |(g & d & Hg & H3)].
        + destruct Hp as [Hp|(d & Hd)]; [by left|]. right. exists f, d. split; [by left|done].
        + right. exists g, d. split; [by right|done]. }
    fold (files_of es) in *.
    destruct (number_prefix f) as [d|] eqn:Ed; [|apply step; [done|done|by left]].
    destruct (Atoi d) as [n|] eqn:En.
    + destruct (Z.leb_spec number n).
      * apply step; [done| |right; by exists d]. intros d' n' [= <-] E. rewrite En in E. injection E as <-. lia.
      * apply step; [done| |by left]. intros d' n' [= <-] E. rewrite En in E. injection E as <-. lia.
    + apply step; [done| |by left]. intros d' n' [= <-] E. congruence.
  - apply IH.
Qed.

Lemma wrap_int64_pos n : (0 <= n <= max_int64)%Z -> (0 < wrap_int64 (n + 1))%Z -> wrap_int64 (n + 1) = (n + 1)%Z.
Proof.
  unfold wrap_int64, max_int64, min_int64. intros Hn. destruct (decide (n = 9223372036854775807)%Z) as [->|Hne].
  - vm_compute. done.
  - intros _. rewrite Z.mod_small; lia.
Qed.

Lemma Atoi_range d n : Atoi d = Some n -> (min_int64 <= n <= max_int64)%Z.
Proof.
  unfold Atoi. destruct (match d with EmptyString => _ | String _ _ => _ end) as [neg body].
  destruct (_ || _); [done|].
  destruct (_ && _) eqn:E; [|done]. apply andb_true_iff in E as [H1%Z.leb_le H2%Z.leb_le].
  intros [= <-]. lia.
Qed.

Lemma next_number_spec es n w f d m :
  next_number es = (n, w) -> (0 < n)%Z -> f ∈ files_of es -> number_prefix f = Some d -> Atoi d = Some m -> (m < n)%Z.
Proof.
  unfold next_number. destruct (next_loop_spec es 0 4) as (H1 & H2 & H3).
  destruct (next_loop es 0 4) as [number width]. simpl in *. intros [= <- <-] Hpos Hf Hd Ha.
  assert (number <= max_int64)%Z as Hmax.
  { destruct H3 as [[= -> ->]|(g & d' & _ & _ & Ha' & _)]; [done|]. apply Atoi_range in Ha'. lia. }
  pose proof (wrap_int64_pos number ltac:(lia) Hpos) as Ew. rewrite Ew in *.
  specialize (H2 f d m Hf Hd Ha). lia.
Qed.

Lemma next_number_max es n w : next_number es = (n, w) -> (n <= max_int64)%Z.
Proof.
  unfold next_number. destruct (next_loop es 0 4) as [number width]. intros [= <- _].
  unfold wrap_int64, min_int64, max_int64.
  pose proof (Z.mod_pos_bound (number + 1 - -9223372036854775808) (2 ^ 64) ltac:(done)). lia.
Qed.

Lemma sorted_snoc (l : list string) x :
  Sorted str_le l -> (forall y, y ∈ l -> str_le y x) -> Sorted str_le (l ++ [x]).
Proof.
  intros Hs. induction Hs as [|y l Hs IH Hy]; intros Hx; simpl; [by repeat constructor|].
  constructor.
  - apply IH. intros z Hz. apply Hx. by right.
  - destruct l as [|z l]; simpl.
    + constructor. apply Hx. by left.
    + inversion Hy; subst. by constructor.
Qed.

Lemma sort_strings_eq l1 l2 : l1 ≡ₚ l2 -> Sorted str_le l2 -> sort_strings l1 = l2.
Proof.
  intros Hp Hs. apply (Sorted_unique str_le); [apply sort_strings_sorted|done|].
  by rewrite sort_strings_perm.
Qed.

Definition new_file_name (n : Z) (w : nat) (slug : string) : string := zero_padded w n +:+ "_" +:+ slug +:+ ".sql".

Lemma new_name_last es n w slug f :
  next_number es = (n, w) -> (0 < n < 10 ^ Z.of_nat w)%Z -> 0 < w -> Forall (numbered w) (files_of es) ->
  f ∈ files_of es -> str_le f (new_file_name n w slug).
Proof.
  intros Hn Hr Hw Hall Hf.
  rewrite Forall_forall in Hall. destruct (Hall f Hf) as (d & m & Hd & Ha & Hl).
  pose proof (next_number_spec es n w f d m Hn (proj1 Hr) Hf Hd Ha) as Hm.
  apply number_prefix_inv in Hd as (s & -> & Hs). apply Atoi_digits in Ha; [|done].
  destruct (zero_padded_spec w n) as (Hz & Hv & _ & Hlen); [lia|].
  unfold new_file_name. apply (digits_order _ _ 0); [done|done| |].
  - rewrite Hlen; [done|done|lia].
  - rewrite Hv, Ha. lia.
Qed.

Lemma new_migration_comes_last es es' n w slug :
  next_number es = (n, w) -> (0 < n < 10 ^ Z.of_nat w)%Z -> 0 < w ->
  Forall (numbered w) (files_of es) ->
  files_of es' ≡ₚ files_of es ++ [new_file_name n w slug] ->
  migration_names es' = migration_names es ++ [new_file_name n w slug].
Proof.
  intros Hn Hr Hw Hall Hp. unfold migration_names at 1. apply sort_strings_eq.
  - rewrite Hp. unfold migration_names. by rewrite sort_strings_perm.
  - unfold migration_names. apply sorted_snoc; [apply sort_strings_sorted|].
    intros y. rewrite elem_of_sort_strings. intros Hy. exact (new_name_last es n w slug y Hn Hr Hw Hall Hy).
Qed.

(** Where the width grows, the new file comes first instead. *)
Example ten_before_nine :
  let es := [File "9_x.sql" EmptyString] in
  let '(n, w) := next_number es in
  new_file_name n w "y" = "10_y.sql" /\
  migration_names (es ++ [File (new_file_name n w "y") EmptyString]) = ["10_y.sql"; "9_x.sql"].
Proof. vm_compute. done. Qed.

(** One past the largest int is the smallest one, whose file has no number. *)
Example number_wraps :
  let '(n, w) := next_number [File "9223372036854775807_x.sql" EmptyString] in
  new_file_name n w "y" = "-9223372036854775808_y.sql" /\ number_prefix (new_file_name n w "y") = None.
Proof. vm_compute. done. Qed.

(** ** Arguments *)

(** A token: a positional one, or a flag with its value, after one, two or three
    dashes, in one argument or in two. *)
Inductive Token : Type :=
| Pos (s : string)
| Flag (dash name value : string) (joined : bool).

Definition render_token (t : Token) : list string :=
  match t with
  | Pos s => [s]
  | Flag dash name value true => [dash +:+ name +:+ "=" +:+ value]
  | Flag dash name value false => [dash +:+ name; value]
  end.

Definition good_token (known : list string) (t : Token) : Prop :=
  match t with
  | Pos s => HasPrefix s "-" = false \/ s = "-"
  | Flag dash name _ _ => dash ∈ ["-"; "--"; "---"] /\ name ∈ known
  end.

Definition flag_values (ts : list Token) (m : gmap string string) : gmap string string :=
  fold_left (fun m t => match t with Pos _ => m | Flag _ n v _ => <[n := v]> m end) ts m.
Definition positionals (ts : list Token) : list string :=
  omap (fun t => match t with Pos s => Some s | Flag _ _ _ _ => None end) ts.

(** A flag's name: not empty, and it holds no "=" and begins with no dash. *)
Definition plain (n : string) : Prop := n <> EmptyString /\ HasPrefix n "-" = false /\ no_byte "=" n = true.

Lemma IndexFunc_none p s : sall (fun c => negb (p c)) s = true -> IndexFunc p s = None.
Proof. induction s as [|c s IH]; simpl; [done|]. intros [->%negb_true_iff H]%andb_true_iff. by rewrite IH. Qed.

Lemma IndexFunc_split p n c v :
  sall (fun c => negb (p c)) n = true -> p c = true ->
  IndexFunc p (n +:+ String c v) = Some (String.length n) /\
  stake (String.length n) (n +:+ String c v) = n /\ sdrop (S (String.length n)) (n +:+ String c v) = v.
Proof.
  intros Hn Hc. induction n as [|d n IH]; simpl.
  - by rewrite Hc.
  - simpl in Hn. apply andb_true_iff in Hn as [->%negb_true_iff Hn]. destruct (IH Hn) as (-> & -> & E). done.
Qed.

Lemma IndexFunc_inv p s i :
  IndexFunc p s = Some i -> exists c, p c = true /\ s = stake i s +:+ String c (sdrop (S i) s) /\
    sall (fun c => negb (p c)) (stake i s) = true.
Proof.
  revert i. induction s as [|c s IH]; intros i; simpl; [done|]. destruct (p c) eqn:E.
  - intros [= <-]. exists c. split_and!; try done.
  - destruct (IndexFunc p s) as [j|]; [|done]. intros [= <-].
    destruct (IH j eq_refl) as (d & Hd & Hs & Ha). exists d. simpl. rewrite E, Ha. split_and!; try done.
    by f_equal.
Qed.

Lemma HasPrefix_byte a c s : HasPrefix (String c s) (one a) = byte_eqb a c.
Proof. unfold HasPrefix, one. cbn [CutPrefix]. by destruct (byte_eqb a c). Qed.

Lemma TrimPrefix_no s p : HasPrefix s p = false -> TrimPrefix s p = s.
Proof. unfold HasPrefix, TrimPrefix. by destruct (CutPrefix s p). Qed.

Lemma no_double_dash r : HasPrefix r "-" = false -> HasPrefix (String "-" r) "--" = false.
Proof.
  intros H. destruct (HasPrefix (String "-" r) "--") eqn:E; [|done].
  apply HasPrefix_true in E as [t [= ->]]. simpl in H. done.
Qed.

(** What the two trims leave of a token. *)
Definition trim_dashes (a : string) : string := TrimPrefix (TrimPrefix a "--") "-".

Lemma trim_dashes_no a : HasPrefix a "-" = false -> trim_dashes a = a.
Proof.
  intros H. unfold trim_dashes.
  assert (HasPrefix a "--" = false) as H2.
  { destruct (HasPrefix a "--") eqn:E; [|done]. apply HasPrefix_true in E as [t ->]. done. }
  by rewrite (TrimPrefix_no a "--"), TrimPrefix_no.
Qed.

Lemma trim_dashes_flag dash n :
  dash ∈ ["-"; "--"; "---"] -> HasPrefix n "-" = false -> trim_dashes (dash +:+ n) = n.
Proof.
  rewrite !elem_of_cons, elem_of_nil. intros Hd Hn. unfold trim_dashes.
  destruct Hd as [->|[->|[->|[]]]].
  - change ("-" +:+ n) with (String "-" n). rewrite (TrimPrefix_no _ "--") by by apply no_double_dash.
    exact (TrimPrefix_app "-" n).
  - rewrite TrimPrefix_app. by apply TrimPrefix_no.
  - change ("---" +:+ n) with ("--" +:+ ("-" +:+ n)). by rewrite !TrimPrefix_app.
Qed.

Lemma trim_dashes_inv a :
  trim_dashes a <> a -> exists dash, dash ∈ ["-"; "--"; "---"] /\ a = dash +:+ trim_dashes a.
Proof.
  unfold trim_dashes. intros H. destruct (HasPrefix a "--") eqn:E2.
  - apply HasPrefix_true in E2 as [t ->]. rewrite TrimPrefix_app in *.
    destruct (HasPrefix t "-") eqn:E1.
    + apply HasPrefix_true in E1 as [u ->]. rewrite TrimPrefix_app. exists "---". split; [by repeat constructor|done].
    + rewrite (TrimPrefix_no t) by done. exists "--". split; [by repeat constructor|done].
  - rewrite (TrimPrefix_no a "--") in * by done. destruct (HasPrefix a "-") eqn:E1; [|by rewrite TrimPrefix_no in H].
    apply HasPrefix_true in E1 as [u ->]. rewrite TrimPrefix_app. exists "-". split; [by repeat constructor|done].
Qed.

Section extract.
Variable known : list string.
Hypothesis known_plain : Forall plain known.

Lemma known_name n : n ∈ known -> plain n.
Proof. rewrite Forall_forall in known_plain. auto. Qed.

Lemma dash_shape dash n : dash ∈ ["-"; "--"; "---"] -> plain n -> dash +:+ n <> "-" /\ dash +:+ n <> n.
Proof.
  rewrite !elem_of_cons, elem_of_nil. intros Hd (Hne & Hp & _). destruct n as [|c n]; [done|].
  split; [by destruct_or! Hd; subst|]. intros E.
  assert (HasPrefix (dash +:+ String c n) "-" = true) as H; [|rewrite E in H; congruence].
  destruct_or! Hd; by subst.
Qed.

Lemma extract_flag dash n v j args values rest :
  good_token known (Flag dash n v j) ->
  extract known (render_token (Flag dash n v j) ++ args) values rest =
    extract known args (<[n := v]> values) rest.
Proof.
  intros [Hd Hn]. pose proof (known_name n Hn) as (Hne & Hp & Hb).
  destruct (dash_shape dash n Hd (known_name n Hn)) as [Hs1 Hs2].
  destruct j; cbn [render_token app extract].
  - fold (trim_dashes (dash +:+ n +:+ "=" +:+ v)).
    assert (HasPrefix (n +:+ "=" +:+ v) "-" = false) as Hp2.
    { destruct n as [|c n]; [done|]. 
      change (HasPrefix (String c n) (one "-") = false) in Hp.
      change (HasPrefix (String c (n +:+ "=" +:+ v)) (one "-") = false). by rewrite HasPrefix_byte in *. }
    rewrite trim_dashes_flag by done.
    assert (n +:+ "=" +:+ v <> dash +:+ n +:+ "=" +:+ v /\ dash +:+ n +:+ "=" +:+ v <> "-") as [Hj1 Hj2].
    { rewrite !elem_of_cons, elem_of_nil in Hd.
      split; intros E; apply (f_equal String.length) in E; rewrite !slength_app in E; destruct_or! Hd; subst; simpl in E; lia. }
    rewrite (bool_decide_eq_false_2 _ Hj1), (bool_decide_eq_false_2 _ Hj2).
    cbn [orb]. change ("=" +:+ v) with (String "=" v). destruct (IndexFunc_split (fun c => byte_eqb c "=") n "=" v) as (-> & -> & ->); [done|done|].
    by rewrite bool_decide_eq_true_2.
  - fold (trim_dashes (dash +:+ n)). rewrite trim_dashes_flag by done.
    rewrite (bool_decide_eq_false_2 (n = _)), (bool_decide_eq_false_2 _ Hs1) by congruence. cbn [orb].
    rewrite IndexFunc_none by done. by rewrite bool_decide_eq_true_2.
Qed.

Lemma extract_render ts : Forall (good_token known) ts -> forall values rest,
  extract known (concat (render_token <$> ts)) values rest = inr (flag_values ts values, rest ++ positionals ts).
Proof.
  induction 1 as [|t ts Ht Hts IH]; intros values rest; [by rewrite app_nil_r|].
  rewrite fmap_cons. cbn [concat]. destruct t as [s|dash n v j].
  - cbn [render_token app extract]. fold (trim_dashes s).
    assert (bool_decide (trim_dashes s = s) || bool_decide (s = "-") = true) as ->.
    { destruct Ht as [Ht| ->]; [by rewrite bool_decide_eq_true_2 by by apply trim_dashes_no|done]. }
    rewrite IH. by rewrite <- app_assoc.
  - rewrite extract_flag by done. apply IH.
Qed.

Lemma extract_sound : forall k args, length args <= k -> forall values rest v r,
  extract known args values rest = inr (v, r) ->
  exists ts, Forall (good_token known) ts /\ args = concat (render_token <$> ts) /\
    v = flag_values ts values /\ r = rest ++ positionals ts.
Proof.
  assert (forall (t : Token) args' (values : gmap string string) (rest : list string) v r,
    good_token known t ->
    (exists ts, Forall (good_token known) ts /\ args' = concat (render_token <$> ts) /\
      v = flag_values ts (flag_values [t] values) /\ r = (rest ++ positionals [t]) ++ positionals ts) ->
    exists ts, Forall (good_token known) ts /\ render_token t ++ args' = concat (render_token <$> ts) /\
      v = flag_values ts values /\ r = rest ++ positionals ts) as grow.
  { intros t args' values rest v r Ht (ts & H1 & -> & -> & ->). exists (t :: ts). split_and!; [by constructor|done|done|].
    rewrite <- app_assoc. by destruct t. }
  induction k as [|k IH]; intros [|a args'] Hl values rest v r; simpl in Hl; try lia.
  1,2: intros [= <- <-]; exists []; split_and!; try done; by rewrite app_nil_r.
  cbn [extract]. fold (trim_dashes a). destruct (_ || _) eqn:Epos.
  { intros (ts & Hts)%IH; [|lia]. apply (grow (Pos a)); [|simpl; eauto].
    apply orb_true_iff in Epos as [E%bool_decide_eq_true|E%bool_decide_eq_true]; [left|by right].
    destruct (HasPrefix a "-") eqn:Ea; [|done]. exfalso.
    apply HasPrefix_true in Ea as [u ->]. apply (f_equal String.length) in E.
    unfold trim_dashes in E. destruct (HasPrefix ("-" +:+ u) "--") eqn:E2.
    - apply HasPrefix_true in E2 as [x E2]. rewrite E2, TrimPrefix_app in E.
      assert (String.length (TrimPrefix x "-") <= String.length x); [|rewrite slength_app in E; simpl in E; lia].
      destruct (HasPrefix x "-") eqn:E3; [|by rewrite TrimPrefix_no].
      apply HasPrefix_true in E3 as [y ->]. rewrite TrimPrefix_app, slength_app. lia.
    - rewrite (TrimPrefix_no _ "--"), TrimPrefix_app, slength_app in E by done. simpl in E. lia. }
  apply orb_false_iff in Epos as [E1%bool_decide_eq_false E2%bool_decide_eq_false].
  destruct (trim_dashes_inv a E1) as (dash & Hd & Ha).
  destruct (IndexFunc _ _) as [i|] eqn:Ei; case_bool_decide as Hk; try done; cbn [negb].
  - apply IndexFunc_inv in Ei as (c & ->%byte_eqb_eq & Hs & _).
    intros (ts & Hts)%IH; [|lia].
    replace (a :: args') with (render_token (Flag dash (stake i (trim_dashes a)) (sdrop (S i) (trim_dashes a)) true) ++ args').
    { apply grow; [done|]. simpl. rewrite app_nil_r. eauto. }
    simpl. f_equal. rewrite Ha at 3. f_equal. exact (eq_sym Hs).
  - destruct args' as [|w args'']; [done|]. intros (ts & Hts)%IH; [|simpl in Hl; lia].
    replace (a :: w :: args'') with (render_token (Flag dash (trim_dashes a) w false) ++ args'').
    { apply grow; [done|]. simpl. rewrite app_nil_r. eauto. }
    simpl. by rewrite <- Ha.
Qed.

End extract.

(** [extractFlags] succeeds exactly on the sequences of positional tokens and
    of known flags, in any order; each flag may have one, two or three dashes and
    its value in the same argument or the next.  It answers the flags' values, the
    last one for a repeated flag, and the positional tokens in order. *)
Theorem extractFlags_exact known args values rest :
  Forall plain known ->
  extractFlags args known = inr (values, rest) <->
  exists ts, Forall (good_token known) ts /\ args = concat (render_token <$> ts) /\
    values = flag_values ts ∅ /\ rest = positionals ts.
Proof.
  intros Hk. unfold extractFlags. split.
  - intros H. by apply (extract_sound known (length args)) in H.
  - intros (ts & Hts & -> & -> & ->). by rewrite extract_render.
Qed.

Lemma extractFlags_exact_witness :
  extractFlags ["2"; "---db"; "--dir"; "-dir=m"; "-"] ["dir"; "db"] =
    inr (<["dir" := "m"]> (<["db" := "--dir"]> ∅), ["2"; "-"]).
Proof.
  apply (extractFlags_exact ["dir"; "db"]); [repeat constructor; done|].
  exists [Pos "2"; Flag "---" "db" "--dir" false; Flag "-" "dir" "m" true; Pos "-"].
  split_and!; [|reflexivity..].
  repeat apply Forall_cons_2; [by left|split; set_solver|split; set_solver|by right|constructor].
Defined.

(** A token that begins with one or two dashes and then a name. *)
Lemma flag_Parse_dashed known dash c body args values :
  dash ∈ ["-"; "--"] -> byte_eqb "-" c = false -> byte_eqb "=" c = false ->
  flag_Parse known ((dash +:+ String c body) :: args) values =
    let name := String c body in
    let undefined n :=
      if bool_decide (n = "help") || bool_decide (n = "h") then Sentinel "flag.ErrHelp" "flag: help requested"
      else Errorf ("flag provided but not defined: -" +:+ n) in
    match IndexFunc (fun c => byte_eqb c "=") name with
    | Some eq =>
        let n := stake eq name in
        if bool_decide (n ∈ known) then flag_Parse known args (<[n := sdrop (S eq) name]> values)
        else inl (undefined n)
    | None =>
        if bool_decide (name ∈ known) then
          match args with
          | [] => inl (Errorf ("flag needs an argument: -" +:+ name))
          | v :: args'' => flag_Parse known args'' (<[name := v]> values)
          end
        else inl (undefined name)
    end.
Proof.
  rewrite !elem_of_cons, elem_of_nil. intros Hd Hc He.
  assert (HasPrefix (String c body) "-" = false) as E1 by (etrans; [apply (HasPrefix_byte "-")|done]).
  assert (HasPrefix (String c body) "=" = false) as E2 by (etrans; [apply (HasPrefix_byte "=")|done]).
  cbn [flag_Parse]. destruct Hd as [->|[->|[]]].
  - change ("-" +:+ String c body) with (String "-" (String c body)).
    rewrite no_double_dash by done. cbn [sdrop]. rewrite E1, E2. cbn [orb].
    replace (HasPrefix (String "-" (String c body)) "-") with true by (symmetry; apply HasPrefix_true; by exists (String c body)).
    rewrite (bool_decide_eq_false_2 (_ = "-")) by congruence.
    rewrite (bool_decide_eq_false_2 (_ = "--")) by (intros [= -> _]; done). done.
  - change ("--" +:+ String c body) with (String "-" (String "-" (String c body))).
    replace (HasPrefix (String "-" (String "-" (String c body))) "--") with true
      by (symmetry; apply HasPrefix_true; by exists (String c body)).
    replace (HasPrefix (String "-" (String "-" (String c body))) "-") with true
      by (symmetry; apply HasPrefix_true; by exists (String "-" (String c body))).
    cbn [sdrop]. rewrite E1, E2. cbn [orb].
    rewrite (bool_decide_eq_false_2 (_ = "-")) by congruence.
    by rewrite (bool_decide_eq_false_2 (_ = "--")) by congruence.
Qed.

(** the flag package stops at the first token that is not a flag: for "up",
    "status" and "diff" every argument from a stray positional one on is ignored
    without an error. *)
Theorem flag_Parse_stops known flags p more values :
  Forall plain known -> Forall (good_token known) flags ->
  Forall (fun t => match t with Flag dash _ _ _ => dash <> "---" | Pos _ => False end) flags ->
  HasPrefix p "-" = false ->
  flag_Parse known (concat (render_token <$> flags) ++ p :: more) values = inr (flag_values flags values).
Proof.
  intros Hk Hg Hd Hp. revert values. induction flags as [|t flags IH]; intros values.
  { cbn [fmap list_fmap concat app flag_Parse]. by rewrite Hp. }
  apply Forall_cons in Hg as [Ht Hg]. apply Forall_cons in Hd as [Hd Hds].
  destruct t as [|dash n v j]; [done|]. destruct Ht as [Hdash Hn].
  assert (plain n) as (Hne & Hpn & Hb) by (by rewrite Forall_forall in Hk; apply Hk).
  rewrite fmap_cons. cbn [concat flag_values fold_left]. rewrite <- (IH Hg Hds).
  destruct n as [|c n]; [done|]. change (HasPrefix (String c n) (one "-") = false) in Hpn.
  rewrite HasPrefix_byte in Hpn.
  assert (byte_eqb "=" c = false) as Hc.
  { apply andb_true_iff in Hb as [Hb _]. apply negb_true_iff, byte_eqb_neq in Hb. apply byte_eqb_neq. congruence. }
  assert (dash ∈ ["-"; "--"]) as Hdash' by (rewrite !elem_of_cons in *; naive_solver).
  destruct j; cbn [render_token app].
  - change (dash +:+ String c n +:+ "=" +:+ v) with (dash +:+ String c (n +:+ "=" +:+ v)).
    rewrite flag_Parse_dashed by done. cbv zeta.
    destruct (IndexFunc_split (fun c => byte_eqb c "=") (String c n) "=" v) as (E1 & E2 & E3); [done|done|].
    change (String c (n +:+ "=" +:+ v)) with (String c n +:+ String "=" v). rewrite E1, E2, E3.
    by rewrite bool_decide_eq_true_2.
  - rewrite flag_Parse_dashed by done. cbv zeta. rewrite IndexFunc_none by done.
    by rewrite bool_decide_eq_true_2.
Qed.

Lemma flag_Parse_stops_witness :
  flag_Parse ["db"; "dir"] ["--db=a"; "up"; "--dir"; "prod"; "--bogus"] ∅ = inr (<["db" := "a"]> ∅).
Proof.
  apply (flag_Parse_stops ["db"; "dir"] [Flag "--" "db" "a" true] "up").
  - repeat constructor; done.
  - repeat apply Forall_cons_2; [split; set_solver|constructor].
  - by repeat constructor.
  - reflexivity.
Defined.

(** the count of "down" and "redo" that is accepted is a positive int, 1 when
    none is given. *)
Theorem parseOptionalCount_bounds Getenv sub args n dir db :
  parseOptionalCount Getenv sub args = inr (n, dir, db) ->
  (1 <= n <= max_int64)%Z /\
  exists values rest, extractFlags args ["dir"; "db"] = inr (values, rest) /\
    dir = value_or values "dir" (Config.MigrationsDir (Config.Load Getenv)) /\
    db = value_or values "db" (Config.DBPath (Config.Load Getenv)) /\
    ((rest = [] /\ n = 1%Z) \/ exists c, rest = [c] /\ Atoi c = Some n).
Proof.
  unfold parseOptionalCount. destruct (extractFlags _ _) as [e|[values rest]]; [done|].
  destruct rest as [|c [|c' rest]]; [| |done].
  - intros [= <- <- <-]. split; [done|]. exists values, []. split_and!; [done..|by left].
  - destruct (Atoi c) as [m|] eqn:E; [|done]. destruct (Z.leb_spec m 0); [done|]. intros [= <- <- <-].
    split; [apply Atoi_range in E; lia|]. exists values, [c]. split_and!; [done..|]. right. by exists c.
Qed.

Lemma parseOptionalCount_bounds_witness :
  (1 <= 2 <= max_int64)%Z.
Proof.
  apply (parseOptionalCount_bounds (fun _ => EmptyString) "down" ["--db"; "x.db"; "+2"] 2 "migrations" "x.db").
  vm_compute. reflexivity.
Defined.

(** ** The file "migrate new" writes *)

(** The template below its first line. *)
Definition template_rest : string :=
  match migration_template EmptyString with String _ (String _ (String _ (String _ r))) => r | _ => EmptyString end.
Definition rest_lines : list string := Eval vm_compute in Split newline template_rest.

Lemma template_lines name : Split newline (migration_template name) = Split newline ("-- " +:+ name) ++ rest_lines.
Proof.
  assert (migration_template name = ("-- " +:+ name) +:+ String newline template_rest) as ->.
  { unfold migration_template. cbn [Join]. rewrite <- sapp_assoc. reflexivity. }
  rewrite Split_app_line. f_equal.
Qed.

Lemma scan_markers_cons i line l u d :
  scan_markers i (line :: l) u d =
    let '(u', d') := scan_markers i [line] u d in scan_markers (i + 1) l u' d'.
Proof. exact (scan_markers_app i [line] l u d). Qed.

Lemma scan_other i line u d : ~ marker line -> scan_markers i [line] u d = (u, d).
Proof. intros H. apply scan_markers_none. by constructor. Qed.

Lemma scan_rest i u d : scan_markers i rest_lines u d = (i + 8, i + 10)%Z.
Proof.
  assert (forall line, bool_decide (TrimSpace line = migrateUpMarker) = false ->
    bool_decide (TrimSpace line = migrateDownMarker) = false -> ~ marker line) as Ho.
  { intros line H1%bool_decide_eq_false H2%bool_decide_eq_false [?|?]; done. }
  unfold rest_lines.
  do 7 (rewrite scan_markers_cons, scan_other by (apply Ho; reflexivity)).
  rewrite scan_markers_cons. change (scan_markers ?j ["-- +migrate Up"] u d) with ((j + 1)%Z, d). cbn beta iota.
  do 2 (rewrite scan_markers_cons, scan_other by (apply Ho; reflexivity)).
  rewrite scan_markers_cons. change (scan_markers ?j ["-- +migrate Down"] ?v d) with (v, j). cbn beta iota.
  do 2 (rewrite scan_markers_cons, scan_other by (apply Ho; reflexivity)).
  cbn [scan_markers]. f_equal; lia.
Qed.

(** whatever name it is given, markers in it included, the file that
    [newMigrationFile] writes reads back as a blank up half and a blank down half. *)
Theorem template_is_blank name : splitMigrationSQL (migration_template name) = (one newline, one newline, true).
Proof.
  unfold splitMigrationSQL. rewrite template_lines, scan_markers_app.
  set (head := Split newline ("-- " +:+ name)).
  destruct (scan_markers 0 head (-1) (-1)) as [u d]. rewrite scan_rest.
  destruct (Z.ltb_spec (0 + Z.of_nat (length head) + 8) 0); [lia|].
  destruct (Z.ltb_spec (0 + Z.of_nat (length head) + 10) 0); [lia|].
  destruct (Z.ltb_spec (0 + Z.of_nat (length head) + 10) (0 + Z.of_nat (length head) + 8)); [lia|]. cbn [orb].
  unfold slice, slice_from.
  replace (Z.to_nat (0 + Z.of_nat (length head) + 8)) with (length head + 8) by lia.
  replace (Z.to_nat (0 + Z.of_nat (length head) + 10 + 1)) with (length head + 11) by lia.
  replace (Z.to_nat _) with 2 by lia.
  by rewrite !drop_app_add.
Qed.

(** ** Creating it *)

Lemma sall_TrimFunc p q s : sall q s = true -> sall q (TrimFunc p s) = true.
Proof.
  intros H. unfold TrimFunc. assert (sall q (TrimLeftFunc p s) = true) as H1.
  { induction s as [|c s IH]; simpl; [done|]. destruct (p c); [|done].
    simpl in H. apply andb_true_iff in H as [_ H]. auto. }
  revert H1. generalize (TrimLeftFunc p s) as t. clear.
  induction t as [|c t IH]; simpl; [done|]. intros [Hc Ht]%andb_true_iff. specialize (IH Ht).
  destruct (TrimRightFunc p t); [by destruct (p c); simpl; rewrite ?Hc|]. simpl in *. by rewrite Hc.
Qed.

Lemma collapse_bytes s : forall b, sall (fun c => slug_byte c || byte_eqb c "_") (collapse b s) = true.
Proof.
  induction s as [|c s IH]; intros b; cbn [collapse sall]; [done|].
  destruct (slug_byte c) eqn:E; [|destruct b]; cbn [sall]; rewrite ?E, ?IH; done.
Qed.

(** A slug holds lower-case letters, digits and "_". *)
Lemma slugify_bytes name : sall (fun c => slug_byte c || byte_eqb c "_") (slugify name) = true.
Proof. apply sall_TrimFunc, collapse_bytes. Qed.

Lemma sall_impl (p q : ascii -> bool) s :
  (forall c, p c = true -> q c = true) -> sall p s = true -> sall q s = true.
Proof. intros H. induction s as [|c s IH]; simpl; [done|]. intros [Hc%H Hs]%andb_true_iff. by rewrite Hc, IH. Qed.

Lemma digit_no_slash c : is_digit c = true -> negb (byte_eqb c "/") = true.
Proof. by destruct c as [[] [] [] [] [] [] [] []]. Qed.

Lemma slug_no_slash c : slug_byte c || byte_eqb c "_" = true -> negb (byte_eqb c "/") = true.
Proof. by destruct c as [[] [] [] [] [] [] [] []]. Qed.

Lemma new_file_component d n w name :
  (0 <= n)%Z -> Files.Join d (new_file_name n w (slugify name)) = d ++ [new_file_name n w (slugify name)].
Proof.
  intros Hn. destruct (zero_padded_spec w n Hn) as (Hd & _). unfold new_file_name. apply Files.Join_file.
  - unfold no_byte. rewrite !sall_app. rewrite (sall_impl _ _ _ digit_no_slash Hd).
    by rewrite (sall_impl _ _ _ slug_no_slash (slugify_bytes name)).
  - rewrite !slength_app. simpl. lia.
Qed.

(** *** The entries of a directory *)

Lemma files_of_entries f d :
  files_of (entries f d) =
    omap (fun n => match f !! (d ++ [n]) with Some (Files.File _) => Some n | _ => None end) (Files.children f d).
Proof.
  unfold files_of, entries. induction (Files.children f d) as [|n l IH]; cbn [omap list_omap]; [done|].
  destruct (f !! (d ++ [n])) as [[c|]|]; cbn [omap list_omap file_name]; [by f_equal|done..].
Qed.

Lemma elem_of_files f d n : n ∈ files_of (entries f d) <-> exists c, f !! (d ++ [n]) = Some (Files.File c).
Proof.
  rewrite files_of_entries, list_elem_of_omap. split.
  - intros (m & _ & Hm). destruct (f !! (d ++ [m])) as [[c|]|] eqn:E; try done. injection Hm as ->. eauto.
  - intros [c E]. exists n. rewrite E. split; [|done]. apply Files.elem_of_children. by rewrite E.
Qed.

Lemma files_nodup f d : NoDup (files_of (entries f d)).
Proof.
  rewrite files_of_entries. apply Files.NoDup_omap_inj; [|apply Files.children_nodup].
  intros x y b. destruct (f !! (d ++ [x])) as [[]|], (f !! (d ++ [y])) as [[]|]; congruence.
Qed.

Lemma entries_ext f f' d : (forall n, f !! (d ++ [n]) = f' !! (d ++ [n])) -> entries f d = entries f' d.
Proof.
  intros H. unfold entries. rewrite (Files.children_ext f f') by (intros n; by rewrite H).
  generalize (Files.children f' d) as l. induction l as [|n l IH]; [done|]. cbn [omap list_omap]. by rewrite H, IH.
Qed.

Lemma files_of_insert f d n c :
  f !! (d ++ [n]) = None -> files_of (entries (<[d ++ [n] := Files.File c]> f) d) ≡ₚ files_of (entries f d) ++ [n].
Proof.
  intros Hn. apply NoDup_Permutation; [apply files_nodup| |].
  - apply NoDup_app. split_and!; [apply files_nodup| |apply NoDup_singleton].
    intros x [c' Hx]%elem_of_files. rewrite list_elem_of_singleton. congruence.
  - intros x. rewrite elem_of_app, list_elem_of_singleton, !elem_of_files.
    destruct (decide (x = n)) as [->|Hne].
    + rewrite lookup_insert_eq. split; [auto|intros _; eauto].
    + rewrite lookup_insert_ne by (intros E; by apply app_inv_head in E as [= ?]). naive_solver.
Qed.

(** *** The runs *)

Section host.
Context {U : Type} `{!SqlEngine U}.

Lemma on_fs_ok {A} (m : M Files.FS A) (w : World (Host U)) a w' :
  on_fs m w = (Ok a, w') ->
  exists v, m (mkWorld (w_env w) (fs (w_db w))) = (Ok a, mkWorld (w_env w') v) /\
    w_db w' = mkHost v (dbs (w_db w)) (embedded (w_db w)) (stdout (w_db w)) (stderr (w_db w)).
Proof.
  unfold on_fs, zoom. destruct (m _) as [r [e v]] eqn:E. intros [= -> <-]. simpl. eauto.
Qed.

(** What one run of [newMigrationFile] that reports no error did. *)
Lemma newMigrationFile_ok dir name (w : World (Host U)) p w' n wd :
  newMigrationFile dir name w = (Ok p, w') ->
  let d := Files.Clean dir in
  next_number (entries (fs (w_db w)) d) = (n, wd) ->
  p = Files.Join d (new_file_name n wd (slugify name)) /\
  exists f1,
    (forall q c, fs (w_db w) !! q = Some (Files.File c) -> f1 !! q = Some (Files.File c)) /\
    (forall q, length d < length q -> f1 !! q = fs (w_db w) !! q) /\
    Files.is_dir f1 p = false /\
    w_db w' = mkHost (<[p := Files.File (migration_template name)]> f1) (dbs (w_db w))
                (embedded (w_db w)) (stdout (w_db w)) (stderr (w_db w)).
Proof.
  intros H. cbv zeta. intros Hn. unfold newMigrationFile in H. case_bool_decide as Hs; [done|].
  run_inv. destruct r. unfold MkdirAll in Hrun. case_bool_decide; [by apply exec_ok in Hrun|].
  apply on_fs_ok in Hrun as (f1 & Hmk & E0). apply Files.MkdirAll_ok in Hmk as (Hf1 & Hf2 & _). simpl in Hf1, Hf2.
  unfold nextMigrationNumber in Hrun0. run_inv. unfold dir_at in Hrun.
  rewrite bool_decide_eq_false_2, E0 in Hrun by done. simpl in Hrun.
  destruct (Files.is_dir f1 _); [|done]. injection Hrun as <- E1.
  rewrite (entries_ext f1 (fs (w_db w))), Hn in H by (intros m; apply Hf2; rewrite length_app; simpl; lia).
  fold (new_file_name n wd (slugify name)) in H. run_inv.
  destruct r; [done|]. run_inv. split; [done|]. exists f1.
  apply on_fs_ok in Hrun as (f2 & Hex & E2). apply Files.exists_at_ok in Hex. simpl in Hex. subst f2.
  destruct r. apply on_fs_ok in Hrun0 as (f3 & Hwr & E3). apply Files.WriteFile_ok in Hwr as [Hwr Hdir].
  simpl in *. rewrite E2, <- E1 in Hwr, Hdir, E3. simpl in *. rewrite E3, Hwr. done.
Qed.


(** ** What the commands print *)

Definition printed (lines : list string) (h : Host U) : Host U :=
  mkHost (fs h) (dbs h) (embedded h) (stdout h ++ lines) (stderr h).

Lemma say_run line (w : World (Host U)) : say line w = (Ok tt, mkWorld (w_env w) (printed [line] (w_db w))).
Proof. done. Qed.

Lemma say_all {A} (f : A -> string) (l : list A) : forall w : World (Host U),
  for_each (fun x => say (f x)) l w = (Ok tt, mkWorld (w_env w) (printed (f <$> l) (w_db w))).
Proof.
  induction l as [|x l IH]; intros w; cbn [for_each].
  - destruct w as [e [f' d m o r]]. unfold printed. simpl. by rewrite app_nil_r.
  - unfold mbind, M_bind. rewrite say_run, IH. unfold printed. simpl. by rewrite <- app_assoc.
Qed.

Definition warned (h h' : Host U) : Prop :=
  fs h' = fs h /\ dbs h' = dbs h /\ embedded h' = embedded h /\ stdout h' = stdout h.

#[global] Instance warned_preorder : PreOrder warned.
Proof. split; [done|]. unfold warned. intros h1 h2 h3 (?&?&?&?) (?&?&?&?). split_and!; congruence. Qed.

Lemma warn_warned line : within warned (warn line).
Proof. intros w. done. Qed.

#[local] Hint Resolve warn_warned : within.

Lemma warn_ok line (w : World (Host U)) : exists w', warn line w = (Ok tt, w').
Proof. unfold warn. eauto. Qed.

(** Running an operation of [Migrate] on the host. *)
Lemma on_site_run {A} dir db (m : M (Site U) A) (w : World (Host U)) r w' :
  on_site dir db m w = (r, w') ->
  exists w1, m (mkWorld (w_env w) (site dir db (w_db w))) = (r, w1) /\
    w_env w' = w_env w1 /\ fs (w_db w') = fs (w_db w) /\ stdout (w_db w') = stdout (w_db w) /\
    db_at (w_db w') (Files.Clean db) = site_db (w_db w1).
Proof.
  unfold on_site, zoom. destruct (m _) as [r1 [e s]] eqn:E. intros [= <- <-].
  exists (mkWorld e s). split_and!; try done. unfold db_at, put_site, set_dbs. simpl. by rewrite lookup_insert_eq.
Qed.

Lemma dir_files_nodup f dir es : dir_at f dir = Some es -> NoDup (omap file_name es).
Proof.
  unfold dir_at. case_bool_decide; [done|]. destruct (Files.is_dir _ _); [|done]. intros [= <-]. apply files_nodup.
Qed.

Definition same_records (d d' : SQLDB U) : Prop :=
  rows_of d' = rows_of d /\ user_schema d' = user_schema d.

(** Every run of "migrate up" on an existing directory, whatever fails on the
    way: it applies the first pending files in name order; when it succeeds these are
    all of them and their names are what it prints, or the line that nothing is
    pending; when it fails it prints nothing, the files it did apply included. *)
Theorem migrateUp_exact dir db (w : World (Host U)) es r w' :
  dir_at (fs (w_db w)) dir = Some es ->
  migrateUp dir db w = (r, w') ->
  let d := db_at (w_db w) (Files.Clean db) in
  exists applied rest d0,
    pending app_prefix d es = applied ++ rest /\ same_records d d0 /\
    steps d0 (up_label app_prefix es <$> applied) (db_at (w_db w') (Files.Clean db)) /\
    stdout (w_db w') = stdout (w_db w) ++
      match r with
      | Err _ => []
      | Ok _ => match applied with [] => ["no pending migrations"] | _ => (fun n => "applied " +:+ n) <$> applied end
      end /\
    (is_ok r = true -> rest = []).
Proof.
  intros Hes H d. unfold migrateUp in H. pose proof (dir_files_nodup _ _ _ Hes) as Hnd.
  unfold mbind in H at 1. unfold M_bind in H at 1.
  destruct (on_site dir db (VerifyChecksums dir) w) as [r1 w1] eqn:E1.
  apply on_site_run in E1 as (v1 & E1 & _ & Hf1 & Ho1 & Hd1).
  assert (same_records d (db_at (w_db w1) (Files.Clean db))) as Hsame.
  { assert (within unchanged (VerifyChecksums (U := U) dir)) as Hv
      by (unfold VerifyChecksums; within_solve; apply Status_unchanged).
    specialize (Hv (mkWorld (w_env w) (site dir db (w_db w)))). rewrite E1 in Hv. destruct Hv as (Hv1 & Hv2 & _).
    rewrite Hd1. split; [exact Hv1|exact Hv2]. }
  destruct r1 as [mm|e]; [|].
  2: { injection H as <- <-. exists [], (pending app_prefix d es), (db_at (w_db w1) (Files.Clean db)).
       rewrite app_nil_r. split_and!; try done. constructor. }
  match type of H with (?m ≫= _) _ = _ => set (warning := m) in H end.
  assert (within warned warning) as Hw.
  { subst warning. within_solve. }
  specialize (Hw w1). unfold mbind in H at 1. unfold M_bind in H at 1.
  destruct (warning w1) as [[[]|e] w2] eqn:E2; simpl in Hw; destruct Hw as (Hw1 & Hw2 & _ & Hw4).
  2: { injection H as <- <-. exists [], (pending app_prefix d es), (db_at (w_db w1) (Files.Clean db)).
       unfold db_at in *. rewrite Hw2, app_nil_r. split_and!; try done; [constructor|congruence]. }
  assert (dir_at (fs (w_db w2)) dir = Some es) as Hes2 by congruence.
  destruct (MigrateDirApplied_run dir (mkWorld (w_env w2) (site dir db (w_db w2))) es) as
    (applied & rest & err & v3 & d0 & E3 & Hp & Hr & Hrows & Hus & Hst & _); [done|done|].
  assert (db_at (w_db w2) (Files.Clean db) = db_at (w_db w1) (Files.Clean db)) as Hdb by (unfold db_at; by rewrite Hw2).
  cbn [w_db site site_db] in Hp, Hrows, Hus. rewrite Hdb in Hp, Hrows, Hus. destruct Hsame as [Hs1 Hs2].
  unfold mbind in H. unfold M_bind in H.
  destruct (on_site dir db (MigrateDirApplied dir) w2) as [r3 w3] eqn:E4.
  apply on_site_run in E4 as (v3' & E4 & _ & _ & Ho3 & Hd3). rewrite E3 in E4. injection E4 as <- <-.
  assert (stdout (w_db w3) = stdout (w_db w)) as Hout by congruence.
  exists applied, rest, d0. split; [|split].
  - rewrite <- Hp. unfold pending, recorded. by rewrite Hs1.
  - split; congruence.
  - rewrite <- Hd3 in Hst. destruct err as [e|].
    + assert (r = Err e /\ w' = w3) as [-> ->] by (unfold fail in H; destruct applied; by injection H as <- <-).
      rewrite app_nil_r. done.
    + specialize (Hr eq_refl). destruct applied as [|a applied].
      * injection H as <- <-. unfold printed. simpl. by rewrite Hout.
      * rewrite say_all in H. injection H as <- <-. unfold printed. simpl. by rewrite Hout.
Qed.

(** "migrate diff" fails exactly when it finds drift, after one line for each
    table it reports. *)
Theorem migrateDiff_fails_on_drift dir db (w : World (Host U)) results w1 :
  on_bench dir db (Diff dir) w = (Ok results, w1) ->
  is_ok (migrateDiff dir db w).1 = bool_decide (results = []) /\
  stdout (w_db (migrateDiff dir db w).2) =
    stdout (w_db w) ++ match results with
                       | [] => ["no drift: every live table is accounted for by an applied migration"]
                       | _ => diff_line <$> results
                       end.
Proof.
  intros H. assert (stdout (w_db w1) = stdout (w_db w)) as Ho.
  { unfold on_bench, zoom in H. destruct (Diff dir _) as [r [e b]]. by injection H as _ <-. }
  unfold migrateDiff, mbind. unfold M_bind at 1 3. rewrite H. case_bool_decide as E.
  - subst. unfold say. simpl. by rewrite Ho.
  - unfold M_bind. rewrite (say_all diff_line). destruct results; [done|]. unfold fail, printed. simpl. by rewrite Ho.
Qed.

(** ** The subcommands *)

Definition same_dbs (h h' : Host U) : Prop := dbs h' = dbs h /\ embedded h' = embedded h.

#[global] Instance same_dbs_preorder : PreOrder same_dbs.
Proof. split; [done|]. unfold same_dbs. intros h1 h2 h3 (?&?) (?&?). split; congruence. Qed.

Lemma on_fs_same_dbs {A} (m : M Files.FS A) : within same_dbs (on_fs m).
Proof. intros w. unfold on_fs, zoom. by destruct (m _). Qed.

Lemma say_same_dbs line : within same_dbs (say line).
Proof. intros w. done. Qed.

#[local] Hint Resolve on_fs_same_dbs say_same_dbs : within.

Lemma newMigrationFile_same_dbs dir name : within same_dbs (newMigrationFile dir name).
Proof.
  unfold newMigrationFile, MkdirAll, nextMigrationNumber. within_solve; try done.
  destruct (dir_at _ _); [|done]. by injection H as _ <-.
Qed.

#[local] Hint Resolve newMigrationFile_same_dbs : within.

(** "migrate new" never opens, creates or changes a database, whatever its
    arguments and whatever fails. *)
Theorem runMigrate_new_no_database Getenv args (w : World (Host U)) :
  dbs (w_db (runMigrate Getenv ("new" :: args) w).2) = dbs (w_db w).
Proof.
  assert (within same_dbs (runMigrateNew (U := U) Getenv args)) as H; [|exact (proj1 (H w))].
  unfold runMigrateNew, of_sum. within_solve.
Qed.

Definition subcommands : list string := ["new"; "up"; "down"; "redo"; "to"; "status"; "diff"].

(** a subcommand that does not exist, and a command line whose flags, count or
    target cannot be read, fail with nothing done at all: no file, no database and
    not even time passes; "up", "status" and "diff" print the usage. *)
Theorem runMigrate_rejects Getenv sub args (w : World (Host U)) :
  (sub ∉ subcommands \/
   (sub = "new" /\ exists e, extractFlags args ["dir"] = inl e) \/
   (sub ∈ ["down"; "redo"] /\ exists e, parseOptionalCount Getenv sub args = inl e) \/
   (sub = "to" /\ match extractFlags args ["dir"; "db"] with inl _ => True | inr (_, rest) => length rest <> 1 end) \/
   (sub ∈ ["up"; "status"; "diff"] /\ exists e, flag_Parse ["db"; "dir"] args ∅ = inl e)) ->
  is_ok (runMigrate Getenv (sub :: args) w).1 = false /\
  w_env (runMigrate Getenv (sub :: args) w).2 = w_env w /\
  let h := w_db (runMigrate Getenv (sub :: args) w).2 in
  fs h = fs (w_db w) /\ dbs h = dbs (w_db w) /\ stdout h = stdout (w_db w) /\
  (sub ∉ ["up"; "status"; "diff"] -> h = w_db w).
Proof.
  unfold subcommands. rewrite !elem_of_cons, elem_of_nil. intros [H|[[-> [e E]]|[[H [e E]]|[[-> H]|[H [e E]]]]]].
  - unfold runMigrate. repeat (rewrite (bool_decide_eq_false_2 (sub = _)) by tauto). cbn [orb]. done.
  - cbn. unfold runMigrateNew. rewrite E. done.
  - destruct H as [->|[->|[]]]; cbn; unfold runMigrateDownOrRedo; rewrite E; done.
  - cbn. unfold runMigrateTo. destruct (extractFlags _ _) as [e|[v [|t [|]]]]; try done.
  - destruct H as [->|[->|[->|[]]]]; cbn; unfold runMigrateUpStatusOrDiff; rewrite E; destruct e; cbn;
      repeat split; tauto.
Qed.

End host.

(** ** Witnesses *)

#[local] Existing Instance toy_engine.

Definition empty_host : Host (gmap string string) := mkHost ∅ ∅ [] [] [].
Definition no_env : string -> string := fun _ => EmptyString.

(** A directory with two files, on an empty database. *)
Definition toy_fs : Files.FS :=
  <[["m"] := Files.Dir]> (<[["m"; "0001_posts.sql"] := Files.File (render "create posts" "drop posts")]>
  (<[["m"; "0002_tags.sql"] := Files.File (render "create tags" "drop tags")]> ∅)).
Definition toy_host : Host (gmap string string) := mkHost toy_fs ∅ [] [] [].
Definition host_world (h : Host (gmap string string)) : World (Host (gmap string string)) := sample_world 0 h.

(** The whole of a first session: a new file in a new directory, filled in, then
    applied on a new database. *)
Example first_session :
  let w1 := (runMigrate no_env ["new"; "Create"; "Posts!"] (host_world empty_host)).2 in
  let w2 := (runMigrate no_env ["up"] w1).2 in
  stdout (w_db w2) = ["created migrations/0001_create_posts.sql"; "applied 0001_create_posts.sql"] /\
  bool_decide (dbs (w_db w1) = ∅) = true /\
  recorded (db_at (w_db w2) ["data"; "maubase.db"]) = ["app:0001_create_posts.sql"].
Proof. vm_compute. done. Qed.


Lemma migrateUp_exact_witness :
  let w' := (migrateUp "m" "a.db" (host_world toy_host)).2 in
  exists applied rest d0,
    pending app_prefix fresh_db (entries toy_fs ["m"]) = applied ++ rest /\ same_records fresh_db d0 /\
    steps d0 (up_label app_prefix (entries toy_fs ["m"]) <$> applied) (db_at (w_db w') ["a.db"]) /\
    stdout (w_db w') = match applied with [] => ["no pending migrations"] | _ => (fun n => "applied " +:+ n) <$> applied end /\
    (true = true -> rest = []).
Proof.
  intros w'. apply (migrateUp_exact "m" "a.db" (host_world toy_host) (entries toy_fs ["m"]) (Ok tt) w').
  - reflexivity.
  - vm_compute. reflexivity.
Defined.

Lemma migrateDiff_fails_on_drift_witness :
  is_ok (migrateDiff "m" "a.db" (host_world toy_host)).1 = true.
Proof.
  apply (migrateDiff_fails_on_drift "m" "a.db" (host_world toy_host) []
           (on_bench "m" "a.db" (Diff "m") (host_world toy_host)).2).
  vm_compute. reflexivity.
Defined.

Lemma runMigrate_rejects_witness :
  is_ok (runMigrate no_env ["down"; "two"] (host_world toy_host)).1 = false.
Proof.
  apply (runMigrate_rejects no_env "down" ["two"] (host_world toy_host)).
  right. right. left. split; [by left|]. eexists. vm_compute. reflexivity.
Defined.

(** A run that fails on the second file says nothing about the first. *)
Example failed_up_prints_nothing :
  let h := mkHost (<[["m"; "0002_tags.sql"] := Files.File "no such statement"]> toy_fs) ∅ [] [] [] in
  let '(r, w') := migrateUp "m" "a.db" (host_world h) in
  is_ok r = false /\ stdout (w_db w') = [] /\ recorded (db_at (w_db w') ["a.db"]) = ["app:0001_posts.sql"].
Proof. vm_compute. done. Qed.

End CliFacts.
