(* ===== verification/Scaffold.v ===== *)
(** * The command line: maubase init, and the version

    Models src/cmd/maubase/init.go, skill.go, jsclient.go, updateagentdocs.go and
    version.go: the files a new deployment starts with, the managed block that
    "--update-agent-docs" brings up to date, and the version they name.  The build
    information comes from the Go toolchain and the client's files from the
    embedded build of sdk/js: both are parameters.

    In the texts below a tilde stands for a double quote. *)

From S2P Require Import Prelude GoStrings GoFiles.

Module Scaffold.

(** ** Text *)

Definition text (lines : list string) : string :=
  ReplaceByte "~" (one dquote) (Join (one newline) lines).

(** [strings.ReplaceAll] and [regexp.ReplaceAllLiteralString]: [matched s] is the
    length of the match at the start of [s], never 0; [skip] bytes of the last
    match are still to be passed over. *)
Fixpoint replace_matches (matched : string -> option nat) (by_ : string) (skip : nat) (s : string) : string :=
  match s with
  | EmptyString => EmptyString
  | String c r =>
      match skip with
      | S k => replace_matches matched by_ k r
      | 0 => match matched s with
             | Some n => by_ +:+ replace_matches matched by_ (n - 1) r
             | None => String c (replace_matches matched by_ 0 r)
             end
      end
  end.

Definition literal (old s : string) : option nat := if HasPrefix s old then Some (String.length old) else None.
Definition ReplaceAll (s old by_ : string) : string := replace_matches (literal old) by_ 0 s.

(** [strings.Replace(s, old, by, 1)]. *)
Definition ReplaceFirst (s old by_ : string) : string :=
  match Index s old with
  | Some i => stake i s +:+ by_ +:+ sdrop (i + String.length old) s
  | None => s
  end.

(** ** version.go *)

Record BuildInfo : Type := mkBuildInfo {
  MainVersion : string; GoVersion : string; Settings : list (string * string);
}.

Definition devel : string := "(devel)".

(** The loop over the settings: the commit, and whether the tree was modified. *)
Definition vcs (settings : list (string * string)) : string * bool :=
  fold_left (fun '(commit, modified) '(k, v) =>
    if bool_decide (k = "vcs.revision") then (v, modified)
    else if bool_decide (k = "vcs.modified") then (commit, bool_decide (v = "true"))
    else (commit, modified)) settings (EmptyString, false).

Definition moduleVersion (info : BuildInfo) : string :=
  let version := if bool_decide (MainVersion info = EmptyString) then devel else MainVersion info in
  if bool_decide (version = devel) then
    let '(commit, modified) := vcs (Settings info) in
    if bool_decide (commit = EmptyString) then version
    else "(devel), commit " +:+ (stake 12 commit +:+ (if (modified : bool) then ", modified" else EmptyString))
  else version.

Definition digits_re : re := RPlus (RChr is_digit).
Definition cleanTagPattern : re :=
  RSeq (RByte "v") (RSeq digits_re (RSeq (RByte ".") (RSeq digits_re (RSeq (RByte ".") digits_re)))).

Section build.
Variable build_info : option BuildInfo.

Definition versionString : string :=
  match build_info with
  | None => "maubase: unknown version (no build info embedded)"
  | Some info => "maubase " +:+ moduleVersion info +:+ " (" +:+ GoVersion info +:+ ")"
  end.

Definition currentModuleVersion : string :=
  match build_info with None => "(unknown)" | Some info => moduleVersion info end.

Definition currentDocRef : string :=
  match build_info with
  | None => "main"
  | Some info =>
      if re_match cleanTagPattern (MainVersion info) then MainVersion info
      else match find_row (fun kv => kv.1 = "vcs.revision" /\ kv.2 <> EmptyString) (Settings info) with
           | Some (_, v) => v
           | None => "main"
           end
  end.

(** ** skill.go *)

Definition skillRelPath : string := ".claude/skills/maubase/SKILL.md".
Definition agentsRelPath : string := ".maubase/AGENTS.md".
Definition maubaseRepo : string := "Ucok23/maubase".

Definition specURL (ref file : string) : string :=
  "https://raw.githubusercontent.com/" +:+ maubaseRepo +:+ "/" +:+ ref +:+ "/spec/" +:+ file.

(** The placeholder the links are written with. *)
Definition docref : string := "{{DOCREF}}".

Definition agentDocBody : string :=
  text [
    "<!-- maubase:begin {{VERSION}} -->";
    "# maubase";
    EmptyString;
    "This project's backend is maubase — self-hosted auth, a database with";
    "an automatic REST API, file storage, realtime, and OAuth 2.1, on one";
    "SQLite file. One `maubase serve` process serves exactly this project.";
    EmptyString;
    "Generated by `maubase init` for **{{VERSION}}**. Below is either a live";
    "command (this project's actual current state) or a spec link pinned to";
    "the exact commit that generated this file — not prose written from";
    "memory. Prefer both of those over training data or anything you might";
    "otherwise recall about maubase's own source: neither is this project's";
    "actual version, and both can simply be wrong for it.";
    EmptyString;
    "## What actually exists in this project right now";
    EmptyString;
    "Tables, columns, and access rules are created by a migration, the admin";
    "UI's create-table form, or SQL Studio — all *after* this file was";
    "generated, so nothing below describes them; ask the running server";
    "instead:";
    EmptyString;
    "- `GET /api/schema` — every collection `/api/data/*` exposes right";
    "  now (columns, types, owner scoping, resolved read/write rules).";
    "  Requires a `records:read` access token, and only exists at all when";
    "  this project's `.env` sets `MAUBASE_ENV=development` — 404s";
    "  otherwise. (" +:+ specURL docref "schema-introspection.md" +:+ ")";
    "- Not in development mode, or need history rather than current state:";
    "  `maubase migrate status` plus `migrations/*.sql`. Keep in mind the";
    "  admin UI/SQL Studio can change the live schema without a matching";
    "  migration file — `maubase migrate diff` catches that drift; run it";
    "  before trusting migrations/ as a complete picture.";
    "{{JSCLIENT}}";
    "## What this backend's fixed API surface is — spec, not summary";
    EmptyString;
    "- Auth (signup/login/session): " +:+ specURL docref "identity.md";
    "- Auto-REST (`/api/data/{table}`): " +:+ specURL docref "auto-rest.md";
    "- Access rules beyond owner_id (`_policies`): " +:+ specURL docref "access-rules.md";
    "- Storage: " +:+ specURL docref "storage.md";
    "- Realtime: " +:+ specURL docref "realtime.md";
    "- OAuth 2.1 (where access tokens come from): " +:+ specURL docref "oauth-token.md";
    "- Admin UI (`/admin/ui/*`, operating this deployment): " +:+ specURL docref "admin-ui.md";
    "- Full index: " +:+ specURL docref "README.md";
    EmptyString;
    "## Commands";
    EmptyString;
    "`maubase serve`, `maubase migrate new/up/down/redo/to/status/diff`, `maubase version`,";
    "`maubase init --update-agent-docs` (refreshes this file after a";
    "`maubase` upgrade — see below)";
    EmptyString;
    "## The one rule with no exception";
    EmptyString;
    "Never edit the live schema (raw SQL, admin UI create-table, SQL Studio)";
    "without also writing a migration for it. Run `maubase migrate diff`";
    "before considering schema work done. Full migration workflow (new/up/";
    "down/redo/to/status/diff, the Up/Down marker format, checksums):";
    specURL docref "migrations-cli.md";
    EmptyString;
    "## Keeping this file current";
    EmptyString;
    "This file is pinned to **{{VERSION}}** — every link above resolves to";
    "that exact commit/tag's spec, not whatever a newer maubase might say.";
    "After upgrading the `maubase` binary this project runs, re-run";
    "`maubase init --update-agent-docs` to refresh the version marker and";
    "every link above to match; it only replaces the content between this";
    "comment and the matching `<!-- maubase:end -->` below, so anything";
    "you've added elsewhere in this file (including below that line) is left";
    "alone.";
    "<!-- maubase:end -->";
    EmptyString].

Definition skillTemplate : string :=
  text [
    "---";
    "name: maubase";
    "description: Use when working on a project backed by maubase (a self-hosted auth/database/storage/realtime backend) — adding endpoints, changing schema, or touching auth/migrations/access rules in this project.";
    "---";
    EmptyString;
    agentDocBody].

Definition agentsTemplate : string := agentDocBody.

Definition jsClientSection : string :=
  text [
    EmptyString;
    "## Client library";
    EmptyString;
    "This project has maubase's TypeScript client vendored at";
    "`maubase-client/` (`maubase init --js-client`, generated for";
    "{{VERSION}}) — prefer it over raw fetch calls for auth (`client.auth`)";
    "and auto-REST (`client.data`). It does not cover storage or realtime;";
    "see `maubase-client/README.md`, or the spec links below, for those.";
    EmptyString].

Definition renderAgentDoc (tmpl : string) (jsClient : bool) : string :=
  let section := if jsClient then jsClientSection else EmptyString in
  let out := ReplaceFirst tmpl "{{JSCLIENT}}" section in
  let out := ReplaceAll out "{{VERSION}}" currentModuleVersion in
  ReplaceAll out docref currentDocRef.

Definition renderSkill (jsClient : bool) : string := renderAgentDoc skillTemplate jsClient.
Definition renderAgentsDoc (jsClient : bool) : string := renderAgentDoc agentsTemplate jsClient.

(** ** The project directory *)

(** The file system and the lines printed. *)
Record Desk : Type := mkDesk { tree : Files.FS; lines : list string }.

Abbreviation MP := (M Desk).

Definition on_tree {A} (m : M Files.FS A) : MP A := zoom tree (fun f d => mkDesk f (lines d)) m.

Definition say (line : string) : MP unit := fun w =>
  (Ok tt, mkWorld (w_env w) (mkDesk (tree (w_db w)) (lines (w_db w) ++ [line]))).

Definition in_dir (dir rel : string) : Files.Path := Files.Join (Files.Clean dir) rel.

(** ** jsclient.go *)

Definition jsClientRelDir : string := "maubase-client".

Definition hasJSClient (dir : string) : MP bool := on_tree (Files.exists_at (in_dir dir jsClientRelDir)).

Definition jsClientReadmeTemplate : string :=
  text [
    "# @maubase/client (vendored)";
    EmptyString;
    "This is maubase's own TypeScript client (auth + auto-REST), vendored";
    "here by `maubase init --js-client` from **{{VERSION}}**'s";
    "`sdk/js/dist` — not a separate package, not npm-installed, just";
    "copied in so it's exactly what this maubase binary shipped. Import it";
    "with a relative path:";
    EmptyString;
    "```ts";
    "import { createClient } from ~./maubase-client/index.js~;";
    "```";
    EmptyString;
    "## What this does not cover yet";
    EmptyString;
    "Only auth (`client.auth`) and auto-REST (`client.data`) —";
    "carried over directly from the source SDK's own limits, not something";
    "specific to vendoring it here:";
    EmptyString;
    "- **Storage** — no wrapper; call `/api/storage/*` directly, see";
    "  " +:+ specURL docref "storage.md";
    "- **Realtime** — no wrapper; use the WebSocket broker directly, see";
    "  " +:+ specURL docref "realtime.md";
    EmptyString;
    "## Getting a newer client";
    EmptyString;
    "This directory is a snapshot, not something `maubase init` updates in";
    "place. To pick up a client matching a newer maubase binary: delete";
    "`maubase-client/` and re-run `maubase init --js-client`.";
    EmptyString].

Definition renderJSClientReadme : string :=
  ReplaceAll (ReplaceAll jsClientReadmeTemplate "{{VERSION}}" currentModuleVersion) docref currentDocRef.

(** The files of sdk/js/dist below their root, in walk order. *)
Variable dist : list (Files.Path * Files.Node).

Definition copy_entry (root : Files.Path) (e : Files.Path * Files.Node) : MP unit :=
  match e.2 with
  | Files.Dir => on_tree (Files.MkdirAll (root ++ e.1))
  | Files.File data => on_tree (Files.WriteFile (root ++ e.1) data)
  end.

Definition dist_files : nat := length (filter (fun e => e.2 <> Files.Dir) dist).

Definition writeJSClient (dir : string) : MP nat :=
  let root := in_dir dir jsClientRelDir in
  wrapping "vendor js client" (for_each (copy_entry root) (([], Files.Dir) :: dist)) ;;
  let readmePath := root ++ ["README.md"] in
  wrapping ("write " +:+ Files.show readmePath) (on_tree (Files.WriteFile readmePath renderJSClientReadme)) ;;
  mret (S dist_files).

(** ** updateagentdocs.go *)

Definition begin_marker : string := "<!-- maubase:begin".
Definition end_marker : string := "<!-- maubase:end -->".

(** [managedBlockPattern] at the start of [s]: up to the first end marker. *)
Definition managed_block (s : string) : option nat :=
  match CutPrefix s begin_marker with
  | None => None
  | Some rest =>
      match Index rest end_marker with
      | None => None
      | Some j => Some (String.length begin_marker + j + String.length end_marker)
      end
  end.

(** [FindString] and [MatchString]. *)
Fixpoint find_block (s : string) : option string :=
  match managed_block s with
  | Some n => Some (stake n s)
  | None => match s with EmptyString => None | String _ r => find_block r end
  end.

Definition replace_blocks (by_ s : string) : string := replace_matches managed_block by_ 0 s.

Definition updateManagedBlock (path : Files.Path) (rendered : string) : MP string :=
  match find_block rendered with
  | None => fail (Errorf ("internal error: rendered template for " +:+ Files.show path +:+ " has no managed block"))
  | Some newBlock =>
      existing ← wrapping ("read " +:+ Files.show path) (on_tree (Files.ReadFile path));
      match existing with
      | None =>
          wrapping ("create " +:+ Files.show (removelast path)) (on_tree (Files.MkdirAll (removelast path))) ;;
          wrapping ("write " +:+ Files.show path) (on_tree (Files.WriteFile path rendered)) ;;
          mret "created"
      | Some existing =>
          match find_block existing with
          | None => fail (Errorf (Files.show path +:+ " has no maubase:begin/maubase:end managed block — not touching it; restore the block by hand, or delete the file and re-run to scaffold it fresh"))
          | Some _ =>
              let updated := replace_blocks newBlock existing in
              if bool_decide (updated = existing) then mret "unchanged"
              else
                wrapping ("write " +:+ Files.show path) (on_tree (Files.WriteFile path updated)) ;;
                mret "updated"
          end
      end
  end.

Definition runUpdateAgentDocs (dir : string) : MP unit :=
  jsClient ← hasJSClient dir;
  let skillPath := in_dir dir skillRelPath in
  skillStatus ← updateManagedBlock skillPath (renderSkill jsClient);
  say (skillStatus +:+ " " +:+ Files.show skillPath) ;;
  let agentsPath := in_dir dir agentsRelPath in
  agentsStatus ← updateManagedBlock agentsPath (renderAgentsDoc jsClient);
  say (agentsStatus +:+ " " +:+ Files.show agentsPath).

(** ** init.go *)

Definition initMigrationTemplate : string :=
  text [
    "-- Your first application migration. maubase's own embedded schema";
    "-- (users, sessions, oauth clients, etc.) is separate and applied";
    "-- automatically — this file, and every one after it, is entirely";
    "-- yours: add your own CREATE TABLE statements under ~+migrate Up~ below";
    "-- (or just leave this one empty and run ~maubase migrate new <name>~";
    "-- to scaffold your first real one instead).";
    EmptyString;
    "-- +migrate Up";
    EmptyString;
    EmptyString;
    "-- +migrate Down";
    EmptyString;
    EmptyString].

Definition envExampleTemplate : string :=
  text [
    "# Config for maubase. Copy to .env and fill in what you need — every";
    "# line below shows its default, so anything you don't set just falls";
    "# back to that. See internal/config/config.go and README.md's ~Running";
    "# it~ section for the full explanation of each.";
    EmptyString;
    "MAUBASE_ADDR=:8080";
    "MAUBASE_DB_PATH=data/maubase.db";
    "# This server's own public base URL — must be what clients actually use";
    "# to reach it, since it's baked into JWT ~iss~ claims and discovery";
    "# metadata.";
    "MAUBASE_ISSUER=http://localhost:8080";
    EmptyString;
    "# Set both to create the first owner-plane account on first run; a";
    "# no-op on every run after.";
    "MAUBASE_BOOTSTRAP_OWNER_EMAIL=";
    "MAUBASE_BOOTSTRAP_OWNER_PASSWORD=";
    EmptyString;
    "# Where this deployment's own application-schema .sql files live.";
    "MAUBASE_MIGRATIONS_DIR=migrations";
    EmptyString;
    "# At most this many login attempts per client IP per window.";
    "MAUBASE_LOGIN_RATE_LIMIT=10";
    "MAUBASE_LOGIN_RATE_WINDOW_SECONDS=60";
    EmptyString;
    "# How often the background janitor purges expired session rows.";
    "MAUBASE_SESSION_CLEANUP_INTERVAL_SECONDS=3600";
    EmptyString;
    "# Where uploaded file bytes are written, one file per upload.";
    "MAUBASE_STORAGE_DIR=data/storage";
    "MAUBASE_MAX_UPLOAD_MB=25";
    "MAUBASE_MAX_REQUEST_BODY_KB=1024";
    EmptyString;
    "# Password reset email. All three unset is fine if you don't use it —";
    "# you'll just get a clear error the first time something tries to send.";
    "MAUBASE_RESEND_API_KEY=";
    "MAUBASE_EMAIL_FROM=";
    "MAUBASE_PASSWORD_RESET_URL=";
    EmptyString;
    "# ~Continue with Google/GitHub.~ Each pair is independently optional —";
    "# leaving one unset just 404s that provider, not a startup error.";
    "MAUBASE_GOOGLE_CLIENT_ID=";
    "MAUBASE_GOOGLE_CLIENT_SECRET=";
    "MAUBASE_GITHUB_CLIENT_ID=";
    "MAUBASE_GITHUB_CLIENT_SECRET=";
    "MAUBASE_SOCIAL_LOGIN_REDIRECT_URL=";
    EmptyString;
    "# Set to a redis:// URL shared by every instance to upgrade realtime";
    "# fan-out from single-process to cross-process. Leave unset for a";
    "# single-instance deployment.";
    "MAUBASE_REDIS_URL=";
    EmptyString;
    "# Set to ~development~ to enable GET /api/schema (live collection/column/";
    "# access-rule introspection, useful for local tooling) — 404s outright";
    "# when this isn't ~development~. Never set this in production.";
    "MAUBASE_ENV=production";
    EmptyString].

Definition gitignore_entry : string := "data/".

(** A line that already covers the data directory. *)
Definition covers (line : string) : bool :=
  let t := TrimSpace line in
  bool_decide (t = gitignore_entry) || bool_decide (t = "/data") || bool_decide (t = "/data/").

Definition gitignored (content : string) : bool := existsb covers (Split newline content).

Definition ensureGitignoreHasDataDir (path : Files.Path) : MP unit :=
  content ← wrapping ("read " +:+ Files.show path) (on_tree (Files.ReadFile path));
  match content with
  | None =>
      wrapping ("write " +:+ Files.show path) (on_tree (Files.WriteFile path (gitignore_entry +:+ one newline))) ;;
      say ("created " +:+ Files.show path)
  | Some content =>
      if gitignored content then mret tt
      else
        let updated := if HasSuffixByte newline content then content else content +:+ one newline in
        let updated := updated +:+ gitignore_entry +:+ one newline in
        wrapping ("update " +:+ Files.show path) (on_tree (Files.WriteFile path updated)) ;;
        say ("updated " +:+ Files.show path +:+ " (added " +:+ Quote gitignore_entry +:+ ")")
  end.

(** What the arguments ask for: the two flags and the positional tokens. *)
Record InitArgs : Type := mkInitArgs { ia_update : bool; ia_js : bool; ia_pos : list string }.

Definition init_usage : error :=
  Errorf "usage: maubase init [--js-client] [dir], or maubase init --update-agent-docs [dir]".

Fixpoint init_args (args : list string) (a : InitArgs) : error + InitArgs :=
  match args with
  | [] => inr a
  | x :: rest =>
      if bool_decide (x = "--update-agent-docs") then init_args rest (mkInitArgs true (ia_js a) (ia_pos a))
      else if bool_decide (x = "--js-client") then init_args rest (mkInitArgs (ia_update a) true (ia_pos a))
      else if HasPrefix x "-" then inl init_usage
      else init_args rest (mkInitArgs (ia_update a) (ia_js a) (ia_pos a ++ [x]))
  end.

(** The paths that are taken already, in the order they are looked at. *)
Fixpoint conflicts (paths : list Files.Path) : MP (list Files.Path) :=
  match paths with
  | [] => mret []
  | p :: rest =>
      taken ← on_tree (Files.exists_at p);
      more ← conflicts rest;
      mret (if (taken : bool) then p :: more else more)
  end.

Definition scaffold_paths (dir : string) (jsClient : bool) : list Files.Path :=
  [in_dir dir "migrations"; in_dir dir ".env.example"; in_dir dir skillRelPath; in_dir dir agentsRelPath] ++
  (if jsClient then [in_dir dir jsClientRelDir] else []).

(** Make the parent directory, then write the file. *)
Definition write_doc (path : Files.Path) (content : string) : MP unit :=
  wrapping ("create " +:+ Files.show (removelast path)) (on_tree (Files.MkdirAll (removelast path))) ;;
  wrapping ("write " +:+ Files.show path) (on_tree (Files.WriteFile path content)) ;;
  say ("created " +:+ Files.show path).

Definition scaffold (dir : string) (jsClient : bool) : MP unit :=
  let migrationsDir := in_dir dir "migrations" in
  let envExamplePath := in_dir dir ".env.example" in
  wrapping ("create " +:+ Files.show migrationsDir) (on_tree (Files.MkdirAll migrationsDir)) ;;
  let firstMigrationPath := migrationsDir ++ ["0001_init.sql"] in
  wrapping ("write " +:+ Files.show firstMigrationPath)
    (on_tree (Files.WriteFile firstMigrationPath initMigrationTemplate)) ;;
  say ("created " +:+ Files.show migrationsDir) ;;
  say ("created " +:+ Files.show firstMigrationPath) ;;
  wrapping ("write " +:+ Files.show envExamplePath) (on_tree (Files.WriteFile envExamplePath envExampleTemplate)) ;;
  say ("created " +:+ Files.show envExamplePath) ;;
  (if jsClient then
     let jsClientDir := in_dir dir jsClientRelDir in
     wrapping ("create " +:+ Files.show jsClientDir) (on_tree (Files.MkdirAll jsClientDir)) ;;
     n ← writeJSClient dir;
     say ("created " +:+ Files.show jsClientDir +:+ " (" +:+ Itoa (Z.of_nat n) +:+ " files vendored from sdk/js/dist)")
   else mret tt) ;;
  write_doc (in_dir dir skillRelPath) (renderSkill jsClient) ;;
  write_doc (in_dir dir agentsRelPath) (renderAgentsDoc jsClient) ;;
  ensureGitignoreHasDataDir (in_dir dir ".gitignore") ;;
  for_each say
    [EmptyString; "Next steps:";
     "  cp .env.example .env          # fill in the values you need, or set them however you deploy";
     "  maubase migrate new <name>    # scaffold your first real migration";
     "  maubase migrate up            # or just start the server — it applies pending migrations on boot"].

Definition runInit (args : list string) : MP unit :=
  match init_args args (mkInitArgs false false []) with
  | inl e => fail e
  | inr a =>
      match ia_pos a with
      | _ :: _ :: _ => fail init_usage
      | pos =>
          let dir := default "." (head pos) in
          if ia_update a && ia_js a then
            fail (Errorf "--js-client can't be combined with --update-agent-docs — run maubase init --js-client on its own to vendor the client into an already-initialized project")
          else if ia_update a then runUpdateAgentDocs dir
          else
            taken ← conflicts (scaffold_paths dir (ia_js a));
            if bool_decide (taken = []) then scaffold dir (ia_js a)
            else fail (Errorf ("already initialized: " +:+ GoStrings.Join ", " (Files.show <$> taken) +:+ " already exist(s)"))
      end
  end.

End build.

End Scaffold.
