(* ===== verification/ScaffoldFacts.v ===== *)
(** * The command line, init: theorems

    What a refresh of a managed block keeps, that initialising never overwrites
    anything, that the scaffolded configuration shows the real defaults. *)

From S2P Require Import Prelude GoStrings GoFiles Config Scaffold.

Module ScaffoldFacts.

Import Scaffold.

(** ** Matches *)

Lemma replace_skip m by_ n : forall s, n <= String.length s -> replace_matches m by_ n s = replace_matches m by_ 0 (sdrop n s).
Proof.
  induction n as [|n IH]; intros s Hn; [by destruct s|].
  destruct s as [|c s]; simpl in Hn; [lia|]. cbn [replace_matches sdrop]. apply IH. lia.
Qed.

Lemma stake_sdrop n s : stake n s +:+ sdrop n s = s.
Proof. revert s. induction n as [|n IH]; intros [|c s]; cbn; try done. f_equal. apply IH. Qed.

Lemma stake_sdrop_app n a b : String.length a = n -> stake n (a +:+ b) = a /\ sdrop n (a +:+ b) = b.
Proof.
  intros <-. induction a as [|c a IH]; cbn; [by destruct b|]. destruct IH as [E1 E2]. split; [by f_equal|done].
Qed.

(** ** Managed blocks *)

Lemma HasPrefix_short sub x t : String.length sub <= String.length x -> HasPrefix (x +:+ t) sub = HasPrefix x sub.
Proof.
  unfold HasPrefix. revert x. induction sub as [|a sub IH]; intros [|c x] Hl; cbn in *; try done; [lia|].
  destruct (byte_eqb a c); [|done]. apply IH. lia.
Qed.

(** A first occurrence depends on nothing behind its end. *)
Lemma Index_prefix sub t : forall s n,
  n + String.length sub <= String.length s -> Index (s +:+ t) sub = Some n <-> Index s sub = Some n.
Proof.
  induction s as [|c s IH]; intros n Hl.
  - assert (n = 0 /\ sub = EmptyString) as [-> ->] by (destruct sub; simpl in Hl; [split; [lia|done]|lia]). by destruct t.
  - change (String c s +:+ t) with (String c (s +:+ t)). cbn [Index].
    change (String c (s +:+ t)) with (String c s +:+ t). rewrite HasPrefix_short by lia.
    destruct (HasPrefix (String c s) sub); [done|]. destruct n as [|n].
    + destruct (Index (s +:+ t) sub), (Index s sub); done.
    + specialize (IH n ltac:(simpl in Hl; lia)).
      destruct (Index (s +:+ t) sub) as [x|], (Index s sub) as [y|]; simpl in *.
      * destruct IH as [H1 H2]. split; intros [= ->]; [injection (H1 eq_refl)|injection (H2 eq_refl)]; by intros ->.
      * destruct IH as [H1 H2]. split; [|done]. intros [= ->]. by specialize (H1 eq_refl).
      * destruct IH as [H1 H2]. split; [done|]. intros [= ->]. by specialize (H2 eq_refl).
      * done.
Qed.

Lemma begin_length : String.length begin_marker = 18.
Proof. done. Qed.

#[local] Opaque begin_marker end_marker.

Lemma Index_bound s sub n : Index s sub = Some n -> n + String.length sub <= String.length s.
Proof. intros (a & b & -> & <-)%Index_Some. rewrite !slength_app. lia. Qed.

(** A string that is one managed block. *)
Definition is_block (b : string) : Prop := managed_block b = Some (String.length b).

Lemma managed_block_app s n t : managed_block s = Some n -> managed_block (s +:+ t) = Some n.
Proof.
  unfold managed_block. destruct (CutPrefix s begin_marker) as [rest|] eqn:E; [|done].
  apply CutPrefix_Some in E as ->. destruct (Index rest end_marker) as [j|] eqn:Ej; [|done]. intros [= <-].
  rewrite <- sapp_assoc, (proj2 (CutPrefix_Some _ _ _) eq_refl).
  pose proof (Index_bound _ _ _ Ej) as Hb. apply (Index_prefix end_marker t _ j Hb) in Ej. by rewrite Ej.
Qed.

Lemma managed_block_inv s n :
  managed_block s = Some n -> exists b t, s = b +:+ t /\ String.length b = n /\ is_block b /\ 0 < n.
Proof.
  unfold managed_block, is_block. destruct (CutPrefix s begin_marker) as [rest|] eqn:E; [|done].
  apply CutPrefix_Some in E as ->. destruct (Index rest end_marker) as [j|] eqn:Ej; [|done]. intros [= <-].
  pose proof Ej as (a & t & -> & Hj)%Index_Some. exists (begin_marker +:+ a +:+ end_marker), t.
  split_and!; [by rewrite <- !sapp_assoc|rewrite !slength_app; lia| |rewrite begin_length; lia].
  unfold managed_block. rewrite (proj2 (CutPrefix_Some _ _ _) eq_refl).
  rewrite sapp_assoc in Ej. apply Index_prefix in Ej; [|rewrite slength_app; lia]. rewrite Ej.
  f_equal. rewrite !slength_app. lia.
Qed.

(** The text before the first block, the block, and the text behind it. *)
Inductive parts : string -> string -> string -> string -> Prop :=
| parts_here b t : is_block b -> parts (b +:+ t) EmptyString b t
| parts_later c s pre b t :
    managed_block (String c s) = None -> parts s pre b t -> parts (String c s) (String c pre) b t.

Lemma parts_app s pre b t : parts s pre b t -> s = pre +:+ b +:+ t /\ is_block b.
Proof. induction 1 as [b t Hb|c s pre b t Hc Hp [-> Hb]]; done. Qed.

Lemma find_block_parts s b : find_block s = Some b <-> exists pre t, parts s pre b t.
Proof.
  split.
  - revert b. induction s as [|c s IH]; intros b; cbn [find_block]; destruct (managed_block _) as [n|] eqn:E; try done.
    + intros [= <-]. apply managed_block_inv in E as (b & t & Hs & Hl & Hb & _).
      rewrite Hs. rewrite (proj1 (stake_sdrop_app n b t Hl)). exists EmptyString, t. by constructor.
    + intros (pre & t & H)%IH. exists (String c pre), t. by constructor.
  - intros (pre & t & H). induction H as [b t Hb|c s pre b t Hc Hp IH].
    + pose proof (managed_block_app b _ t Hb) as E. destruct (b +:+ t) as [|c s] eqn:Es; cbn [find_block]; rewrite E, <- Es;
        by rewrite (proj1 (stake_sdrop_app _ b t eq_refl)).
    + cbn [find_block]. by rewrite Hc.
Qed.

Lemma replace_no_block by_ s : find_block s = None -> replace_blocks by_ s = s.
Proof.
  unfold replace_blocks. induction s as [|c s IH]; cbn [find_block replace_matches]; [done|].
  destruct (managed_block _); [done|]. intros H. f_equal. auto.
Qed.

Lemma replace_parts by_ s pre b t : parts s pre b t -> replace_blocks by_ s = pre +:+ by_ +:+ replace_blocks by_ t.
Proof.
  unfold replace_blocks. induction 1 as [b t Hb|c s pre b t Hc Hp IH].
  - pose proof (managed_block_app b _ t Hb) as E.
    assert (0 < String.length b) as Hl by (apply managed_block_inv in Hb as (?&?&?&?&?&?); lia).
    destruct b as [|c b]; [simpl in Hl; lia|]. change (String c b +:+ t) with (String c (b +:+ t)) in *.
    cbn [replace_matches]. rewrite E. simpl. f_equal. rewrite Nat.sub_0_r.
    rewrite replace_skip by (rewrite slength_app; lia). by rewrite (proj2 (stake_sdrop_app _ b t eq_refl)).
  - cbn [replace_matches]. rewrite Hc, IH. done.
Qed.

Lemma sapp_split a b c d :
  a +:+ b = c +:+ d -> String.length c <= String.length a -> exists x, a = c +:+ x /\ d = x +:+ b.
Proof.
  revert a. induction c as [|k c IH]; intros a H Hl; [by exists a|].
  destruct a as [|k' a]; [simpl in Hl; lia|]. injection H as -> H.
  destruct (IH a H ltac:(simpl in Hl; lia)) as (x & -> & ->). by exists x.
Qed.

Lemma sapp_inj_r a b c : a +:+ c = b +:+ c -> a = b.
Proof.
  revert b. induction a as [|x a IH]; intros [|y b] H; [done|..].
  - apply (f_equal String.length) in H. simpl in H. rewrite slength_app in H. lia.
  - apply (f_equal String.length) in H. simpl in H. rewrite slength_app in H. lia.
  - injection H as -> H. f_equal. auto.
Qed.

Lemma is_block_shape b : is_block b -> exists body, b = begin_marker +:+ body +:+ end_marker.
Proof.
  unfold is_block, managed_block. destruct (CutPrefix b begin_marker) as [rest|] eqn:E; [|done].
  apply CutPrefix_Some in E as ->. destruct (Index rest end_marker) as [j|] eqn:Ej; [|done]. intros Hl. apply (inj Some) in Hl.
  apply Index_Some in Ej as (a & t & -> & <-). rewrite !slength_app in Hl.
  assert (String.length t = 0) as Ht by lia. destruct t; [|done]. exists a. by rewrite sapp_nil_r.
Qed.

Lemma no_begin_before c pre b t :
  is_block b -> managed_block (String c (pre +:+ b +:+ t)) = None -> HasPrefix (String c pre +:+ begin_marker) begin_marker = false.
Proof.
  intros (body & ->)%is_block_shape H. destruct (HasPrefix _ _) eqn:E; [|done].
  apply HasPrefix_true in E as [x E]. unfold managed_block in H.
  assert (String c (pre +:+ (begin_marker +:+ body +:+ end_marker) +:+ t) = begin_marker +:+ x +:+ body +:+ end_marker +:+ t) as Es.
  { transitivity ((String c pre +:+ begin_marker) +:+ (body +:+ end_marker +:+ t)).
    - change (String c (pre +:+ (begin_marker +:+ body +:+ end_marker) +:+ t))
        with (String c pre +:+ (begin_marker +:+ body +:+ end_marker) +:+ t). by rewrite <- !sapp_assoc.
    - rewrite E. by rewrite <- !sapp_assoc. }
  rewrite Es, (proj2 (CutPrefix_Some _ _ _) eq_refl) in H.
  assert (Contains (x +:+ body +:+ end_marker +:+ t) end_marker = true) as Hc.
  { apply Contains_true. exists (x +:+ body), t. by rewrite <- sapp_assoc. }
  unfold Contains in Hc. by destruct (Index _ end_marker).
Qed.

(** Put another block in the place of the first one: it is the first one then. *)
Lemma parts_swap s pre b t nb t' : parts s pre b t -> is_block nb -> parts (pre +:+ nb +:+ t') pre nb t'.
Proof.
  intros H Hn. induction H as [b t Hb|c s pre b t Hc Hp IH]; [exact (parts_here nb t' Hn)|].
  apply parts_app in Hp as [-> Hb]. apply no_begin_before in Hc; [|done].
  change (String c pre +:+ nb +:+ t') with (String c (pre +:+ nb +:+ t')). apply parts_later; [|done].
  apply is_block_shape in Hn as (body & ->). unfold managed_block.
  destruct (CutPrefix _ begin_marker) eqn:E; [|done]. exfalso.
  assert (HasPrefix (String c (pre +:+ (begin_marker +:+ body +:+ end_marker) +:+ t')) begin_marker = true) as Ht by (unfold HasPrefix; by rewrite E).
  replace (String c (pre +:+ (begin_marker +:+ body +:+ end_marker) +:+ t')) with
    ((String c pre +:+ begin_marker) +:+ (body +:+ end_marker +:+ t')) in Ht
    by (rewrite <- !sapp_assoc; done).
  rewrite HasPrefix_short in Ht by (rewrite slength_app; lia). congruence.
Qed.

(** ** Refreshing *)

Lemma on_tree_ok {A} (m : M Files.FS A) (w : World Desk) a w' :
  on_tree m w = (Ok a, w') ->
  exists v, m (mkWorld (w_env w) (tree (w_db w))) = (Ok a, mkWorld (w_env w') v) /\
    w_db w' = mkDesk v (lines (w_db w)).
Proof. unfold on_tree, zoom. destruct (m _) as [r [e v]] eqn:E. intros [= -> <-]. simpl. eauto. Qed.

Lemma read_tree_ok (p : Files.Path) (w : World Files.FS) c w' :
  Files.ReadFile p w = (Ok c, w') ->
  w_db w' = w_db w /\ w_db w !! p = (Files.File <$> c).
Proof.
  unfold Files.ReadFile. intros H%exec_ok. destruct (w_db w !! p) as [[c'|]|]; [by injection H as <- <-|done|].
  destruct (Files.is_root p); [done|]. by injection H as <- <-.
Qed.

Lemma updateManagedBlock_run path rendered (w : World Desk) status w' :
  updateManagedBlock path rendered w = (Ok status, w') ->
  let f := tree (w_db w) in let f' := tree (w_db w') in
  (forall q c, q <> path -> f !! q = Some (Files.File c) -> f' !! q = Some (Files.File c)) /\
  exists new, find_block rendered = Some new /\
  match f !! path with
  | None => status = "created" /\ f' !! path = Some (Files.File rendered)
  | Some (Files.File old) =>
      forall pre b post, parts old pre b post -> find_block post = None ->
        f' !! path = Some (Files.File (pre +:+ new +:+ post)) /\
        status = (if bool_decide (b = new) then "unchanged" else "updated") /\
        (b = new -> f' = f)
  | Some Files.Dir => False
  end.
Proof.
  intros H. cbv zeta. unfold updateManagedBlock in H. destruct (find_block rendered) as [new|] eqn:En; [|done].
  run_inv. apply on_tree_ok in Hrun as (f0 & Hr & E0). apply read_tree_ok in Hr as [Ef Hp]. simpl in Ef, Hp. subst f0.
  rewrite Hp. destruct r as [old|]; simpl.
  - destruct (find_block old) as [b0|] eqn:Eb; [|done]. set (updated := replace_blocks new old) in H.
    assert (forall pre b post, parts old pre b post -> find_block post = None -> updated = pre +:+ new +:+ post) as Hu.
    { intros pre b post Hpt Hno. unfold updated. by rewrite (replace_parts _ _ _ _ _ Hpt), (replace_no_block _ _ Hno). }
    assert (forall pre b post, parts old pre b post -> find_block post = None -> updated = old <-> b = new) as Hsame.
    { intros pre b post Hpt Hno. rewrite (Hu _ _ _ Hpt Hno). apply parts_app in Hpt as [-> _]. split; [|congruence].
      intros Heq%sapp_inj_l. symmetry. eapply sapp_inj_r, Heq. }
    case_bool_decide as Heq.
    + apply mret_ok in H as [-> ->]. rewrite E0. simpl. split; [done|]. exists new. split; [done|].
      intros pre b post Hpt Hno. rewrite <- (Hu _ _ _ Hpt Hno), Heq. apply (Hsame _ _ _ Hpt Hno) in Heq.
      by rewrite bool_decide_eq_true_2.
    + apply bind_ok in H as ([] & w1 & Hrun & H). apply map_err_ok in Hrun. apply mret_ok in H as [-> ->].
      apply on_tree_ok in Hrun as (f1 & Hw & E1). apply Files.WriteFile_ok in Hw as [Hw _]. simpl in Hw.
      rewrite E1, Hw, E0. simpl. split; [intros q c Hq Hf; by rewrite lookup_insert_ne|]. exists new. split; [done|].
      intros pre b post Hpt Hno. rewrite <- (Hu _ _ _ Hpt Hno), lookup_insert_eq.
      assert (b <> new) as Hne by (intros Hb; apply Heq; by apply (Hsame _ _ _ Hpt Hno)).
      by rewrite bool_decide_eq_false_2.
  - run_inv. destruct r, r0. apply on_tree_ok in Hrun as (f1 & Hm & E1). apply Files.MkdirAll_ok in Hm as (Hm & _).
    apply on_tree_ok in Hrun0 as (f2 & Hw & E2). apply Files.WriteFile_ok in Hw as [Hw _]. simpl in Hm, Hw.
    rewrite E0 in Hm. simpl in Hm. rewrite E2, Hw, E1. simpl. split; [|exists new; split; [done|]; split; [done|]; by rewrite lookup_insert_eq].
    intros q c Hq Hf. rewrite lookup_insert_ne by done. auto.
Qed.

(** [updateManagedBlock] that reports no error: a file that was not there is
    written whole; in a file that has one managed block, that block becomes the
    rendered one and every byte before and behind it stays; the file is written
    only when that changes it, and no other file changes. *)
Theorem updateManagedBlock_exact path rendered (w : World Desk) status w' :
  updateManagedBlock path rendered w = (Ok status, w') ->
  let f := tree (w_db w) in let f' := tree (w_db w') in
  (forall q c, q <> path -> f !! q = Some (Files.File c) -> f' !! q = Some (Files.File c)) /\
  exists new, find_block rendered = Some new /\
  match f !! path with
  | None => status = "created" /\ f' !! path = Some (Files.File rendered)
  | Some (Files.File old) =>
      forall pre b post, parts old pre b post -> find_block post = None ->
        f' !! path = Some (Files.File (pre +:+ new +:+ post)) /\
        status = (if bool_decide (b = new) then "unchanged" else "updated") /\
        (b = new -> f' = f)
  | Some Files.Dir => False
  end.
Proof. apply updateManagedBlock_run. Qed.

Lemma on_tree_quiet {A} (stmt : Files.FS -> string + (A * Files.FS)) (w : World Desk) :
  quiet w ->
  on_tree (exec stmt) w = match stmt (tree (w_db w)) with
                          | inl msg => (Err (Driver msg), w)
                          | inr (a, f) => (Ok a, mkWorld (w_env w) (mkDesk f (lines (w_db w))))
                          end.
Proof.
  intros Hq. unfold on_tree, zoom. rewrite exec_quiet by done. simpl.
  destruct (stmt _) as [|[]]; [|done]. by destruct w as [? []].
Qed.

Lemma read_file_quiet path c (w : World Desk) :
  quiet w -> tree (w_db w) !! path = Some (Files.File c) -> on_tree (Files.ReadFile path) w = (Ok (Some c), w).
Proof.
  intros Hq Hc. unfold Files.ReadFile. rewrite on_tree_quiet, Hc by done. by destruct w as [? []].
Qed.

Lemma update_unchanged path rendered (w : World Desk) content pre new post :
  quiet w -> tree (w_db w) !! path = Some (Files.File content) -> find_block rendered = Some new ->
  parts content pre new post -> find_block post = None ->
  updateManagedBlock path rendered w = (Ok "unchanged", w).
Proof.
  intros Hq Hc Hr Hp Hno. unfold updateManagedBlock. rewrite Hr. unfold mbind. unfold M_bind, wrapping, map_err.
  rewrite (read_file_quiet _ _ _ Hq Hc). cbn beta iota.
  rewrite (proj2 (find_block_parts content new)) by eauto.
  rewrite (replace_parts _ _ _ _ _ Hp), (replace_no_block _ _ Hno).
  apply parts_app in Hp as [-> _]. by rewrite bool_decide_eq_true_2.
Qed.

Definition one_block (s : string) : Prop := exists pre b post, parts s pre b post /\ find_block post = None.

(** A refresh right after another one with the same rendered text finds nothing to
    do and writes nothing, whether the first one created the file, rewrote the block
    or left it. *)
Theorem refresh_idempotent path rendered (w : World Desk) status w' :
  updateManagedBlock path rendered w = (Ok status, w') -> quiet w' ->
  one_block rendered ->
  (forall old, tree (w_db w) !! path = Some (Files.File old) -> one_block old) ->
  updateManagedBlock path rendered w' = (Ok "unchanged", w').
Proof.
  intros H Hq (rpre & new & rpost & Hr & Hrno) Hold.
  destruct (updateManagedBlock_run _ _ _ _ _ H) as (_ & new' & En & Hcase).
  assert (find_block rendered = Some new) as En' by (apply find_block_parts; eauto).
  rewrite En' in En. injection En as <-.
  destruct (tree (w_db w) !! path) as [[old|]|] eqn:E; [|done|].
  - destruct (Hold old eq_refl) as (pre & b & post & Hp & Hno). destruct (Hcase _ _ _ Hp Hno) as (Hf & _).
    eapply update_unchanged; [done|exact Hf|done| |exact Hno].
    apply parts_swap with (s := old) (b := b) (t := post); [done|]. by apply parts_app in Hr as [_ Hr].
  - destruct Hcase as [_ Hf]. by eapply update_unchanged.
Qed.

(** ** .gitignore *)

Lemma gitignored_app a b : gitignored (a +:+ String newline b) = gitignored a || gitignored b.
Proof. unfold gitignored. by rewrite Split_app_line, existsb_app. Qed.

(** [ensureGitignoreHasDataDir] that reports no error leaves a file in which the
    data directory is ignored and whose old content is kept as a prefix; one that
    covered it already is left as it is. *)
Theorem gitignore_covers path (w : World Desk) w' :
  ensureGitignoreHasDataDir path w = (Ok tt, w') ->
  exists content added, tree (w_db w') !! path = Some (Files.File (content +:+ added)) /\
    gitignored (content +:+ added) = true /\
    match tree (w_db w) !! path with
    | Some (Files.File old) => content = old /\ (gitignored old = true -> added = EmptyString)
    | None => content = EmptyString
    | Some Files.Dir => False
    end.
Proof.
  unfold ensureGitignoreHasDataDir. intros H. apply bind_ok in H as (c & w1 & Hr & H). apply map_err_ok in Hr.
  apply on_tree_ok in Hr as (f0 & Hr & E0). apply read_tree_ok in Hr as [Ef Hp]. simpl in Ef, Hp. subst f0.
  rewrite Hp. destruct c as [old|]; simpl.
  - destruct (gitignored old) eqn:Eg.
    + apply mret_ok in H as [_ ->]. exists old, EmptyString. rewrite E0, sapp_nil_r. simpl. rewrite Hp. done.
    + apply bind_ok in H as ([] & w2 & Hw & H). apply map_err_ok in Hw.
      apply on_tree_ok in Hw as (f1 & Hw & E1). apply Files.WriteFile_ok in Hw as [Hw _]. cbn [w_db] in Hw.
      injection H as <-. cbn [w_db tree]. rewrite E1. cbn [tree]. rewrite Hw, E0. cbn [tree].
      set (nl := if HasSuffixByte newline old then EmptyString else one newline).
      exists old, (nl +:+ gitignore_entry +:+ one newline). rewrite lookup_insert_eq.
      assert ((if HasSuffixByte newline old then old else old +:+ one newline) +:+ gitignore_entry +:+ one newline =
        old +:+ nl +:+ gitignore_entry +:+ one newline) as ->.
      { unfold nl. destruct (HasSuffixByte newline old); [done|]. by rewrite <- sapp_assoc. }
      split; [done|]. split; [|done]. unfold nl. destruct (HasSuffixByte newline old) eqn:Es.
      * assert (exists o, old = o +:+ one newline) as [o ->].
        { clear -Es. induction old as [|x old IH]; [done|]. destruct old as [|y old].
          - simpl in Es. apply byte_eqb_eq in Es as ->. by exists EmptyString.
          - destruct (IH Es) as [o Ho]. exists (String x o). by rewrite Ho. }
        rewrite <- sapp_assoc. change (one newline +:+ _) with (String newline (gitignore_entry +:+ one newline)).
        rewrite gitignored_app. by rewrite orb_true_r.
      * change (one newline +:+ gitignore_entry +:+ one newline) with (String newline (gitignore_entry +:+ one newline)).
        rewrite gitignored_app. by rewrite orb_true_r.
  - apply bind_ok in H as ([] & w2 & Hw & H). apply map_err_ok in Hw.
    apply on_tree_ok in Hw as (f1 & Hw & E1). apply Files.WriteFile_ok in Hw as [Hw _]. simpl in Hw.
    injection H as <-. cbn [w_db tree]. rewrite E1. cbn [tree]. rewrite Hw, E0. cbn [tree].
    exists EmptyString, (gitignore_entry +:+ one newline). by rewrite lookup_insert_eq.
Qed.

(** ** maubase init *)

Section init.
Variable build_info : option BuildInfo.
Variable dist : list (Files.Path * Files.Node).

(** The files that are not in [P] are kept. *)
Definition keeps_files (P : Files.Path -> Prop) (d d' : Desk) : Prop :=
  forall q c, ~ P q -> tree d !! q = Some (Files.File c) -> tree d' !! q = Some (Files.File c).

#[global] Instance keeps_files_preorder P : PreOrder (keeps_files P).
Proof. split; [by intros d q c|]. intros d1 d2 d3 H1 H2 q c Hq Hc. eauto. Qed.

Lemma say_keeps (P : Files.Path -> Prop) line : within (keeps_files P) (say line).
Proof. by intros w q c. Qed.

Lemma on_tree_same (P : Files.Path -> Prop) {A} (m : M Files.FS A) : within eq m -> within (keeps_files P) (on_tree m).
Proof.
  intros Hm w q c _ Hc. unfold on_tree, zoom. specialize (Hm (mkWorld (w_env w) (tree (w_db w)))).
  destruct (m _) as [r [e v]]. simpl in *. by subst v.
Qed.

Lemma exists_keeps (P : Files.Path -> Prop) p : within (keeps_files P) (on_tree (Files.exists_at p)).
Proof.
  apply on_tree_same. unfold Files.exists_at. within_solve. destruct (_ || _); [|done]. by injection H.
Qed.

Lemma read_keeps (P : Files.Path -> Prop) p : within (keeps_files P) (on_tree (Files.ReadFile p)).
Proof.
  apply on_tree_same. unfold Files.ReadFile. within_solve.
  destruct (d !! p) as [[]|]; [by injection H|done|]. destruct (Files.is_root p); [done|]. by injection H.
Qed.

Lemma mkdir_keeps (P : Files.Path -> Prop) p : within (keeps_files P) (on_tree (Files.MkdirAll p)).
Proof.
  intros w q c _ Hc. destruct (on_tree (Files.MkdirAll p) w) as [[[]|e] w'] eqn:E.
  - apply on_tree_ok in E as (v & Hm & E). apply Files.MkdirAll_ok in Hm as (Hm & _).
    simpl. rewrite E. by apply Hm.
  - unfold on_tree, zoom in E. destruct (Files.MkdirAll p _) as [r [e' v]] eqn:Em. injection E as -> <-.
    apply exec_err in Em. simpl in *. by subst v.
Qed.

Lemma write_keeps (P : Files.Path -> Prop) p c0 : P p -> within (keeps_files P) (on_tree (Files.WriteFile p c0)).
Proof.
  intros Hp w q c Hq Hc. destruct (on_tree (Files.WriteFile p c0) w) as [[[]|e] w'] eqn:E.
  - apply on_tree_ok in E as (v & Hm & E). apply Files.WriteFile_ok in Hm as [Hm _]. cbn [w_db] in *.
    simpl. rewrite E, Hm. cbn [tree]. rewrite lookup_insert_ne by congruence. done.
  - unfold on_tree, zoom in E. destruct (Files.WriteFile p c0 _) as [r [e' v]] eqn:Em. injection E as -> <-.
    apply exec_err in Em. simpl in *. by subst v.
Qed.

#[local] Hint Resolve say_keeps exists_keeps read_keeps mkdir_keeps : within.

(** Every path that [scaffold] writes a file to. *)
Definition scaffold_writes (dir : string) (jsClient : bool) (q : Files.Path) : Prop :=
  q = in_dir dir "migrations" ++ ["0001_init.sql"] \/ q = in_dir dir ".env.example" \/
  q = in_dir dir skillRelPath \/ q = in_dir dir agentsRelPath \/ q = in_dir dir ".gitignore" \/
  (jsClient = true /\ exists r, q = in_dir dir jsClientRelDir ++ r).

#[local] Opaque in_dir renderSkill renderAgentsDoc renderJSClientReadme initMigrationTemplate envExampleTemplate.

Ltac written :=
  apply write_keeps; unfold scaffold_writes;
  first [left; reflexivity | right; left; reflexivity | do 2 right; left; reflexivity | do 3 right; left; reflexivity
        |do 4 right; left; reflexivity | do 5 right; split; [reflexivity | eexists; reflexivity]].

Lemma scaffold_keeps dir jsClient :
  within (keeps_files (scaffold_writes dir jsClient)) (scaffold build_info dist dir jsClient).
Proof.
  unfold scaffold, write_doc, writeJSClient, copy_entry, ensureGitignoreHasDataDir.
  destruct jsClient; within_solve; written.
Qed.

Lemma conflicts_quiet paths (w : World Desk) :
  quiet w ->
  conflicts paths w =
    (Ok (filter (fun p => Files.is_root p || bool_decide (is_Some (tree (w_db w) !! p)) = true) paths), w).
Proof.
  intros Hq. induction paths as [|p paths IH]; [done|]. cbn [conflicts].
  assert (on_tree (Files.exists_at p) w = (Ok (Files.is_root p || bool_decide (is_Some (tree (w_db w) !! p))), w)) as Hp.
  { unfold on_tree, zoom, Files.exists_at. rewrite attempt_bind, exec_quiet by done. cbn [w_db].
    destruct (_ || _); simpl; by destruct w as [? []]. }
  unfold mbind. unfold M_bind. rewrite Hp, IH. cbn beta iota. rewrite filter_cons.
  case_decide as E; [by rewrite E|]. apply not_true_iff_false in E. by rewrite E.
Qed.

(** Directories contain what is below them. *)
Definition well_rooted (f : Files.FS) : Prop :=
  forall p n nd, f !! (p ++ [n]) = Some nd -> Files.is_dir f p = true.

Lemma absent_below f p :
  well_rooted f -> Files.is_root p = false -> f !! p = None -> forall q, f !! (p ++ q) = None.
Proof.
  intros Hw Hp Hn q. induction q as [|n q IH] using rev_ind; [by rewrite app_nil_r|].
  destruct (f !! (p ++ q ++ [n])) as [nd|] eqn:E; [|done]. rewrite app_assoc in E. apply Hw in E.
  exfalso. apply orb_true_iff in E as [E|E%bool_decide_eq_true]; [|by discriminate (eq_trans (eq_sym IH) E)].
  unfold Files.is_root in *. apply orb_false_iff in Hp as [H1%bool_decide_eq_false H2].
  rewrite forallb_app, H2 in E. simpl in E. rewrite orb_false_r in E. apply bool_decide_eq_true in E.
  destruct p as [|x p]; [done|]. destruct p; [|done]. by destruct q; simplify_eq.
Qed.

Lemma runInit_one_dir args a :
  init_args args (mkInitArgs false false []) = inr a -> ia_update a = false -> length (ia_pos a) <= 1 ->
  runInit build_info dist args =
    (taken ← conflicts (scaffold_paths (default "." (head (ia_pos a))) (ia_js a));
     if bool_decide (taken = []) then scaffold build_info dist (default "." (head (ia_pos a))) (ia_js a)
     else fail (Errorf ("already initialized: " +:+ GoStrings.Join ", " (Files.show <$> taken) +:+ " already exist(s)"))).
Proof.
  intros Ha Hup Hl. unfold runInit. rewrite Ha, Hup. destruct (ia_pos a) as [|x [|y pos]]; [reflexivity|reflexivity|simpl in Hl; lia].
Qed.

Lemma scaffold_write_absent f dir jsClient q :
  well_rooted f ->
  (forall p, p ∈ scaffold_paths dir jsClient -> Files.is_root p = false /\ f !! p = None) ->
  scaffold_writes dir jsClient q -> q <> in_dir dir ".gitignore" -> f !! q = None.
Proof.
  unfold scaffold_paths. intros Hw Hp Hq Hg.
  assert (forall p r, p ∈ scaffold_paths dir jsClient -> f !! (p ++ r) = None) as Hb.
  { intros p r Hin. destruct (Hp p Hin) as [H1 H2]. by apply absent_below. }
  unfold scaffold_paths in Hb. destruct Hq as [->|[->|[->|[->|[->|[-> [r ->]]]]]]]; try done.
  - apply Hb. by left.
  - apply Hp. right. by left.
  - apply Hp. do 2 right. by left.
  - apply Hp. do 3 right. by left.
  - apply Hb. do 4 right. by left.
Qed.

(** "maubase init" refuses, with nothing touched, when any of the things it
    would create is there already; and it never overwrites a file: every file but
    .gitignore keeps its content, whatever the arguments. *)
Theorem runInit_never_overwrites args a (w : World Desk) :
  init_args args (mkInitArgs false false []) = inr a -> ia_update a = false -> length (ia_pos a) <= 1 ->
  quiet w -> well_rooted (tree (w_db w)) ->
  let dir := default "." (head (ia_pos a)) in
  let '(r, w') := runInit build_info dist args w in
  (forall q c, q <> in_dir dir ".gitignore" -> tree (w_db w) !! q = Some (Files.File c) ->
     tree (w_db w') !! q = Some (Files.File c)) /\
  ((exists p, p ∈ scaffold_paths dir (ia_js a) /\ is_Some (tree (w_db w) !! p)) -> is_ok r = false /\ w' = w).
Proof.
  intros Ha Hup Hl Hq Hw dir. rewrite (runInit_one_dir _ _ Ha Hup Hl). fold dir.
  unfold mbind. unfold M_bind. rewrite conflicts_quiet by done. cbn beta iota.
  set (taken := fun p => Files.is_root p || bool_decide (is_Some (tree (w_db w) !! p))).
  case_bool_decide as Hc; [|simpl; split; [auto|done]].
  assert (forall p, p ∈ scaffold_paths dir (ia_js a) -> taken p = false) as Hfree.
  { intros p Hp. destruct (taken p) eqn:E; [|done].
    assert (p ∈ @nil Files.Path) as Hin by (rewrite <- Hc; by apply list_elem_of_filter). by apply elem_of_nil in Hin. }
  assert (forall p, p ∈ scaffold_paths dir (ia_js a) -> Files.is_root p = false /\ tree (w_db w) !! p = None) as Habs.
  { intros p [E1 E2%bool_decide_eq_false]%Hfree%orb_false_iff. split; [done|by apply eq_None_not_Some]. }
  pose proof (scaffold_keeps dir (ia_js a) w) as Hk. destruct (scaffold _ _ _ _ w) as [r w']. simpl in Hk. split.
  - intros q c Hg Hc'. apply Hk; [|done]. intros Hwr. pose proof (scaffold_write_absent _ _ _ _ Hw Habs Hwr Hg). congruence.
  - intros (p & Hp & Hs). destruct (Habs p Hp) as [_ Hn]. rewrite Hn in Hs. by destruct Hs.
Qed.

End init.

(** ** Witnesses and runs *)

(** ** Runs *)

(** The value of a variable in the lines of an environment file. *)
Fixpoint env_value (name : string) (ls : list string) : string :=
  match ls with
  | [] => EmptyString
  | l :: rest => match CutPrefix l (name +:+ "=") with Some v => v | None => env_value name rest end
  end.

(** .env.example shows the defaults: the configuration loaded with its lines as
    the environment is the one loaded with nothing set. *)
Theorem env_example_shows_defaults :
  Config.Load (fun name => env_value name (Split newline envExampleTemplate)) = Config.Load (fun _ => EmptyString).
Proof. vm_compute. reflexivity. Qed.

Definition release : option BuildInfo := Some (mkBuildInfo "v1.2.3" "go1.24.0" []).
Definition checkout : option BuildInfo :=
  Some (mkBuildInfo EmptyString "go1.24.0"
    [("vcs", "git"); ("vcs.revision", "0123456789abcdef0123"); ("vcs.modified", "true")]).

Example versions :
  versionString release = "maubase v1.2.3 (go1.24.0)" /\ currentDocRef release = "v1.2.3" /\
  versionString checkout = "maubase (devel), commit 0123456789ab, modified (go1.24.0)" /\
  currentDocRef checkout = "0123456789abcdef0123" /\ currentDocRef None = "main".
Proof. vm_compute. done. Qed.

Definition desk (f : Files.FS) : World Desk := sample_world 0 (mkDesk f []).
Definition toy_dist : list (Files.Path * Files.Node) := [(["index.js"], Files.File "export {}")].

(** A new deployment, then a refresh by the same binary, then one by another. *)
Example init_then_refresh :
  let w1 := (runInit checkout toy_dist ["--js-client"; "app"] (desk ∅)).2 in
  let w2 := (runInit checkout toy_dist ["app"; "--update-agent-docs"] w1).2 in
  let w3 := (runInit release toy_dist ["--update-agent-docs"; "app"] w2).2 in
  take 4 (lines (w_db w1)) =
    ["created app/migrations"; "created app/migrations/0001_init.sql"; "created app/.env.example";
     "created app/maubase-client (2 files vendored from sdk/js/dist)"] /\
  drop 12 (lines (w_db w3)) =
    ["unchanged app/.claude/skills/maubase/SKILL.md"; "unchanged app/.maubase/AGENTS.md";
     "updated app/.claude/skills/maubase/SKILL.md"; "updated app/.maubase/AGENTS.md"] /\
  tree (w_db w3) !! ["app"; ".gitignore"] = Some (Files.File ("data/" +:+ one newline)).
Proof. vm_compute. done. Qed.

(** The text of the block names its own end marker, so the block a refresh works on
    ends there, in the middle of the last paragraph. *)
Example block_ends_early :
  match find_block (renderAgentsDoc release false) with
  | Some b => TrimFunc (fun c => negb (byte_eqb c newline)) b <> EmptyString /\
      HasPrefix (sdrop (String.length b) (renderAgentsDoc release false)) "` below, so anything" = true
  | None => False
  end.
Proof. vm_compute. done. Qed.

(** A rendered text with one block, and a file with an older one and notes around it. *)
Definition block (v : string) : string := begin_marker +:+ " " +:+ v +:+ " " +:+ end_marker.
Definition noted (v : string) : string := "mine" +:+ block v +:+ "also mine".
Definition noted_desk : World Desk := desk (<[["a.md"] := Files.File (noted "v1")]> ∅).

Lemma noted_parts v post : is_block (block v) -> managed_block (noted v) = None -> find_block post = None ->
  parts ("mine" +:+ block v +:+ post) "mine" (block v) post.
Proof.
  intros Hb _ _. do 4 (apply parts_later; [reflexivity|]). exact (parts_here _ _ Hb).
Qed.

Lemma updateManagedBlock_exact_witness :
  tree (w_db (updateManagedBlock ["a.md"] (block "v2") noted_desk).2) !! ["a.md"] = Some (Files.File (noted "v2")).
Proof.
  destruct (updateManagedBlock_exact ["a.md"] (block "v2") noted_desk "updated"
              (updateManagedBlock ["a.md"] (block "v2") noted_desk).2) as (_ & new & Hn & H).
  { vm_compute. reflexivity. }
  assert (find_block (block "v2") = Some (block "v2")) as E by (vm_compute; reflexivity).
  rewrite E in Hn. injection Hn as <-.
  exact (proj1 (H "mine" (block "v1") "also mine"
    (noted_parts "v1" "also mine" eq_refl eq_refl eq_refl) eq_refl)).
Defined.

Lemma refresh_idempotent_witness :
  let w' := (updateManagedBlock ["a.md"] (block "v2") noted_desk).2 in
  updateManagedBlock ["a.md"] (block "v2") w' = (Ok "unchanged", w').
Proof.
  apply (refresh_idempotent ["a.md"] (block "v2") noted_desk "updated").
  - vm_compute. reflexivity.
  - reflexivity.
  - exists EmptyString, (block "v2"), EmptyString. split; [exact (parts_here (block "v2") EmptyString eq_refl)|reflexivity].
  - intros old E. assert (old = noted "v1") as -> by (vm_compute in E; injection E as <-; vm_compute; reflexivity).
    exists "mine", (block "v1"), "also mine". split; [exact (noted_parts "v1" "also mine" eq_refl eq_refl eq_refl)|reflexivity].
Defined.

Lemma gitignore_covers_witness :
  let w' := (ensureGitignoreHasDataDir [".gitignore"] (desk (<[[".gitignore"] := Files.File "node_modules/"]> ∅))).2 in
  exists content added, tree (w_db w') !! [".gitignore"] = Some (Files.File (content +:+ added)) /\
    gitignored (content +:+ added) = true /\ content = "node_modules/".
Proof.
  intros w'. destruct (gitignore_covers [".gitignore"] (desk (<[[".gitignore"] := Files.File "node_modules/"]> ∅)) w')
    as (content & added & H1 & H2 & H3); [vm_compute; reflexivity|].
  exists content, added. split; [exact H1|]. split; [exact H2|exact (proj1 H3)].
Defined.

Lemma runInit_never_overwrites_witness :
  tree (w_db (runInit release [] ["."] (desk (<[["README.md"] := Files.File "hello"]> ∅))).2) !! ["README.md"] =
    Some (Files.File "hello").
Proof.
  pose proof (runInit_never_overwrites release [] ["."] (mkInitArgs false false ["."])
    (desk (<[["README.md"] := Files.File "hello"]> ∅)) eq_refl eq_refl ltac:(simpl; lia) eq_refl) as H.
  cbv zeta in H. destruct (runInit release [] ["."] _) as [r w'].
  apply H; [|vm_compute; discriminate|reflexivity].
  intros p n nd Hp. destruct p as [|x p]; [reflexivity|].
  change ((<[["README.md"] := Files.File "hello"]> (∅ : Files.FS)) !! ((x :: p) ++ [n]) = Some nd) in Hp.
  rewrite lookup_insert_ne in Hp by (destruct p; discriminate). rewrite lookup_empty in Hp. discriminate Hp.
Defined.

End ScaffoldFacts.
