(* ===== verification/Auth.v ===== *)
(** * The identity layer

    Models src/internal/auth: sign-up, login, sessions, password reset, social
    sign-in and the janitor's purges, each function a program over the identity
    tables.  bcrypt is a third-party package: [Bcrypt] is its interface. *)

From S2P Require Import Prelude GoStrings Encoding Schema.

(** [golang.org/x/crypto/bcrypt]: the hash of a password under a salt (or the
    error it reports, for instance on more than 72 bytes), and the check. *)
Class Bcrypt := {
  GenerateFromPassword : string -> string -> string + string;
  CompareHashAndPassword : string -> string -> bool;
}.

(** What the documentation promises: a hash accepts its own password. *)
Class BcryptLaws `{!Bcrypt} := {
  bcrypt_accepts salt pw h : GenerateFromPassword salt pw = inr h -> CompareHashAndPassword h pw = true;
}.

Module Auth.

Definition SessionTTL : Z := 30 * day.
Definition ResetTokenTTL : Z := hour.

Definition ErrEmailTaken : error := Sentinel "ErrEmailTaken" "email already registered".
Definition ErrInvalidCredentials : error := Sentinel "ErrInvalidCredentials" "invalid email or password".
Definition ErrSessionNotFound : error := Sentinel "ErrSessionNotFound" "session not found or expired".
Definition ErrWeakPassword : error := Sentinel "ErrWeakPassword" "password must be at least 8 characters".
Definition ErrInvalidEmail : error := Sentinel "ErrInvalidEmail" "invalid email address".
Definition ErrResetTokenInvalid : error := Sentinel "ErrResetTokenInvalid" "invalid or expired reset token".
Definition ErrSocialIdentityLinkedElsewhere : error :=
  Sentinel "ErrSocialIdentityLinkedElsewhere" "this provider account is already linked to a different account".
(** [sql.ErrNoRows], of database/sql. *)
Definition ErrNoRows : error := Sentinel "sql.ErrNoRows" "sql: no rows in result set".

Record User : Type := mkUser { ID : string; Email : string; CreatedAt : Z; UpdatedAt : Z }.
Record Session : Type := mkSession { SessionID : string; UserID : string; Token : string; ExpiresAt : Z }.
Record SocialIdentity : Type := mkSocialIdentity {
  Provider : string; SocialEmail : string; SocialCreatedAt : Z;
}.

Definition user_of (r : UserRow) : User := mkUser (u_id r) (u_email r) (u_created_at r) (u_updated_at r).

(** [^[^\s@]+@[^\s@]+\.[^\s@]+$] *)
Definition email_byte (c : ascii) : bool := negb (re_space c) && negb (byte_eqb c "@").
Definition emailRe : re :=
  RSeq (RPlus (RChr email_byte)) (RSeq (RByte "@") (RSeq (RPlus (RChr email_byte))
    (RSeq (RByte ".") (RPlus (RChr email_byte))))).

Definition normalizeEmail (email : string) : string := ToLower (TrimSpace email).

Definition hashToken (token : string) : string := sha256_hex token.

Definition isUniqueConstraintErr (err : error) : bool :=
  Contains (error_text err) "UNIQUE constraint failed".

(** [randomToken(32)]: the reader delivers the 32 bytes. *)
Definition randomToken {D} : M D string := b ← rand_read; mret (RawURLEncode b).

Section passwords.
Context {bcrypt : Bcrypt}.

(** The salt is drawn inside the bcrypt package. *)
Definition hashPassword {D} (plain : string) : M D string :=
  salt ← rand_read;
  match GenerateFromPassword salt plain with
  | inl e => fail (Driver e)
  | inr h => mret h
  end.

Definition verifyPassword (hash plain : string) : bool := CompareHashAndPassword hash plain.
End passwords.

(** ** The statements *)

Abbreviation MI := (M IdentityDb).

Definition insert_user (id email hash : string) : MI unit :=
  exec_at (fun clk d =>
    if bool_decide (id ∈ u_id <$> users d) then inl (unique_failed "users.id")
    else if bool_decide (ToLower email ∈ (fun r => ToLower (u_email r)) <$> users d) then
      inl (unique_failed "users.email")
    else let t := current_timestamp clk in
         inr (tt, set_users (fun l => l ++ [mkUserRow id email hash t t]) d)).

(** SELECT ... WHERE email = ?, and [Scan]'s ErrNoRows as [None]. *)
Definition select_user_by_email (email : string) : MI (option UserRow) :=
  query (fun d => find_row (fun r => u_email r = email) (users d)).
Definition select_user_by_id (id : string) : MI (option UserRow) :=
  query (fun d => find_row (fun r => u_id r = id) (users d)).

Definition insert_session (id user_id hash : string) (expires : Z) : MI unit :=
  exec_at (fun clk d =>
    if bool_decide (id ∈ s_id <$> sessions d) then inl (unique_failed "sessions.id")
    else if bool_decide (hash ∈ s_token_hash <$> sessions d) then inl (unique_failed "sessions.token_hash")
    else if bool_decide (user_id ∉ u_id <$> users d) then inl foreign_key_failed
    else inr (tt, set_sessions (fun l => l ++ [mkSessionRow id user_id hash (current_timestamp clk) expires]) d)).

Definition session_join (hash : string) (d : IdentityDb) : option (SessionRow * UserRow) :=
  s ← find_row (fun r => s_token_hash r = hash) (sessions d);
  u ← find_row (fun r => u_id r = s_user_id s) (users d);
  Some (s, u).

Definition delete_sessions (P : SessionRow -> Prop) `{!forall r, Decision (P r)} : MI Z :=
  update (fun d => (Z.of_nat (length (filter P (sessions d))),
                    set_sessions (filter (fun r => ~ P r)) d)).

Definition insert_reset (id user_id hash : string) (expires : Z) : MI unit :=
  exec_at (fun clk d =>
    if bool_decide (id ∈ r_id <$> reset_tokens d) then inl (unique_failed "password_reset_tokens.id")
    else if bool_decide (hash ∈ r_token_hash <$> reset_tokens d) then
      inl (unique_failed "password_reset_tokens.token_hash")
    else if bool_decide (user_id ∉ u_id <$> users d) then inl foreign_key_failed
    else inr (tt, set_reset_tokens (fun l => l ++ [mkResetRow id user_id hash (current_timestamp clk) expires None]) d)).

Definition insert_social (id user_id provider puid email : string) : MI unit :=
  exec_at (fun clk d =>
    if bool_decide (id ∈ si_id <$> social_identities d) then inl (unique_failed "social_identities.id")
    else if bool_decide ((provider, puid) ∈ (fun r => (si_provider r, si_provider_user_id r)) <$> social_identities d) then
      inl (unique_failed "social_identities.provider, social_identities.provider_user_id")
    else if bool_decide (user_id ∉ u_id <$> users d) then inl foreign_key_failed
    else inr (tt, set_social (fun l => l ++ [mkSocialRow id user_id provider puid email (current_timestamp clk)]) d)).

Definition set_password (hash : string) (t : Z) (id : string) (r : UserRow) : UserRow :=
  if bool_decide (u_id r = id) then mkUserRow (u_id r) (u_email r) hash (u_created_at r) t else r.

Definition mark_used (t : Z) (user_id : string) (r : ResetRow) : ResetRow :=
  if bool_decide (r_user_id r = user_id) && bool_decide (r_used_at r = None) then
    mkResetRow (r_id r) (r_user_id r) (r_token_hash r) (r_created_at r) (r_expires_at r) (Some t)
  else r.

(** ** The operations *)

Section service.
Context {bcrypt : Bcrypt}.

Definition getUserByID (id : string) : MI User :=
  row ← wrapping "lookup user" (select_user_by_id id);
  match row with
  | None => fail (Wrap "lookup user" ErrNoRows)
  | Some r => mret (user_of r)
  end.

Definition createSession (userID : string) : MI Session :=
  rawToken ← wrapping "generate token" randomToken;
  id ← new_uuid;
  t ← now;
  let expiresAt := (t + SessionTTL)%Z in
  wrapping "insert session" (insert_session id userID (hashToken rawToken) expiresAt) ;;
  mret (mkSession id userID rawToken expiresAt).

Definition SignUp (email0 password : string) : MI User :=
  let email := normalizeEmail email0 in
  if negb (re_match emailRe email) then fail ErrInvalidEmail
  else if bool_decide (String.length password < 8) then fail ErrWeakPassword
  else
    hash ← wrapping "hash password" (hashPassword password);
    id ← new_uuid;
    map_err (fun err => if isUniqueConstraintErr err then ErrEmailTaken else Wrap "insert user" err)
      (insert_user id email hash) ;;
    getUserByID id.

Definition Login (email0 password : string) : MI Session :=
  let email := normalizeEmail email0 in
  row ← wrapping "lookup user" (select_user_by_email email);
  match row with
  | None => fail ErrInvalidCredentials
  | Some u =>
      if negb (verifyPassword (u_password_hash u) password) then fail ErrInvalidCredentials
      else createSession (u_id u)
  end.

Definition ValidateSession (rawToken : string) : MI User :=
  row ← wrapping "lookup session" (query (session_join (hashToken rawToken)));
  match row with
  | None => fail ErrSessionNotFound
  | Some (s, u) =>
      t ← now;
      if bool_decide (s_expires_at s < t)%Z then fail ErrSessionNotFound
      else mret (user_of u)
  end.

Definition Logout (rawToken : string) : MI unit :=
  wrapping "delete session" (delete_sessions (fun r => s_token_hash r = hashToken rawToken)) ;;
  mret tt.

(** [DeleteUser] runs on the whole database: the row's dependents go with it. *)
Definition DeleteUser (id : string) : M Database unit :=
  wrapping "delete user" (update (fun d => (tt, delete_user_cascade id d))).

(** ORDER BY created_at DESC, id DESC. *)
Definition user_newer (a b : UserRow) : Prop :=
  (u_created_at b < u_created_at a)%Z \/ (u_created_at a = u_created_at b /\ str_le (u_id b) (u_id a)).
#[local] Instance user_newer_dec : RelDecision user_newer.
Proof. intros a b. unfold user_newer. apply _. Defined.

(** LIMIT and OFFSET: a negative limit is none, a negative offset is zero. *)
Definition sql_page {A} (limit offset : Z) (l : list A) : list A :=
  let rest := drop (Z.to_nat offset) l in
  if (limit <? 0)%Z then rest else take (Z.to_nat limit) rest.

Definition ListUsers (limit offset : Z) : MI (list User) :=
  wrapping "list users"
    (query (fun d => user_of <$> sql_page limit offset (merge_sort user_newer (users d)))).

Definition CountUsers : MI Z := wrapping "count users" (query (fun d => Z.of_nat (length (users d)))).

Definition GetUser (id : string) : MI User := getUserByID id.

Definition CountActiveSessions (userID : string) : MI Z :=
  t ← now;
  wrapping "count active sessions"
    (query (fun d => Z.of_nat (length (filter (fun r => s_user_id r = userID /\ (t < s_expires_at r)%Z) (sessions d))))).

Definition social_newer (a b : SocialRow) : Prop := (si_created_at b <= si_created_at a)%Z.
#[local] Instance social_newer_dec : RelDecision social_newer.
Proof. intros a b. unfold social_newer. apply _. Defined.

Definition ListSocialIdentities (userID : string) : MI (list SocialIdentity) :=
  wrapping "list social identities"
    (query (fun d => (fun r => mkSocialIdentity (si_provider r) (si_email r) (si_created_at r)) <$>
       merge_sort social_newer (filter (fun r => si_user_id r = userID) (social_identities d)))).

Definition CountPendingResetTokens (userID : string) : MI Z :=
  t ← now;
  wrapping "count pending reset tokens"
    (query (fun d => Z.of_nat (length (filter (fun r => r_user_id r = userID /\ r_used_at r = None /\ (t < r_expires_at r)%Z)
                                              (reset_tokens d))))).

Definition RevokeAllSessions (userID : string) : MI Z :=
  wrapping "revoke sessions" (delete_sessions (fun r => s_user_id r = userID)).

Definition PurgeExpiredSessions : MI Z :=
  t ← now;
  wrapping "purge expired sessions" (delete_sessions (fun r => (s_expires_at r <= t)%Z)).

Definition PurgeExpiredResetTokens : MI Z :=
  t ← now;
  wrapping "purge expired reset tokens"
    (update (fun d =>
       let dead r := (r_expires_at r <= t)%Z \/ r_used_at r <> None in
       (Z.of_nat (length (filter dead (reset_tokens d))), set_reset_tokens (filter (fun r => ~ dead r)) d))).

(** The raw token and the account, when the address is registered. *)
Definition CreateResetToken (email0 : string) : MI (option (string * string)) :=
  let email := normalizeEmail email0 in
  row ← wrapping "lookup user" (select_user_by_email email);
  match row with
  | None => mret None
  | Some u =>
      raw ← wrapping "generate token" randomToken;
      id ← new_uuid;
      t ← now;
      wrapping "insert reset token" (insert_reset id (u_id u) (hashToken raw) (t + ResetTokenTTL)%Z) ;;
      mret (Some (raw, u_id u))
  end.

Definition redeem (tokenHash hash : string) : MI string :=
  row ← wrapping "lookup reset token" (query (fun d => find_row (fun r => r_token_hash r = tokenHash) (reset_tokens d)));
  match row with
  | None => fail ErrResetTokenInvalid
  | Some r =>
      t ← now;
      if bool_decide (r_used_at r <> None) || bool_decide (r_expires_at r < t)%Z then fail ErrResetTokenInvalid
      else
        let userID := r_user_id r in
        wrapping "update password"
          (exec_at (fun clk d => inr (tt, set_users (fmap (set_password hash (current_timestamp clk) userID)) d))) ;;
        wrapping "mark reset tokens used"
          (exec_at (fun clk d => inr (tt, set_reset_tokens (fmap (mark_used (current_timestamp clk) userID)) d))) ;;
        wrapping "revoke sessions" (delete_sessions (fun s => s_user_id s = userID)) ;;
        mret userID
  end.

Definition ResetPassword (rawToken newPassword : string) : MI string :=
  if bool_decide (String.length newPassword < 8) then fail ErrWeakPassword
  else
    let tokenHash := hashToken rawToken in
    hash ← wrapping "hash password" (hashPassword newPassword);
    transaction (Wrap "begin tx") (Wrap "commit") (redeem tokenHash hash).

Definition placeholder_email (provider providerUserID : string) : string :=
  provider +:+ "-" +:+ providerUserID +:+ "@users.noreply." +:+ provider +:+ ".invalid".

Definition createUserForSocialSignIn (provider providerUserID email0 : string) : MI (string * string) :=
  let email := if bool_decide (email0 = EmptyString) then placeholder_email provider providerUserID else email0 in
  randPassword ← wrapping "generate placeholder password" randomToken;
  hash ← wrapping "hash placeholder password" (hashPassword randPassword);
  userID ← new_uuid;
  r ← attempt (insert_user userID email hash);
  match r with
  | Ok _ => mret (userID, email)
  | Err err =>
      if negb (isUniqueConstraintErr err) then fail (Wrap "insert user" err)
      else
        row ← wrapping "lookup user after insert race" (select_user_by_email email);
        match row with
        | None => fail (Wrap "lookup user after insert race" ErrNoRows)
        | Some u => mret (u_id u, email)
        end
  end.

(** The account an unlinked identity goes to, the address recorded with it, and
    whether the account is new. *)
Definition social_account (provider providerUserID email currentUserID : string) : MI (string * string * bool) :=
  if negb (bool_decide (currentUserID = EmptyString)) then mret (currentUserID, email, false)
  else
    row ← (if bool_decide (email = EmptyString) then mret None
           else wrapping "lookup user by email" (select_user_by_email email));
    match row with
    | Some u => mret (u_id u, email, false)
    | None =>
        p ← createUserForSocialSignIn provider providerUserID email;
        mret (p, true)
    end.

Definition LoginOrCreateViaSocial (provider providerUserID email0 currentUserID : string) : MI (Session * bool) :=
  row ← wrapping "lookup social identity"
    (query (fun d => find_row (fun r => si_provider r = provider /\ si_provider_user_id r = providerUserID)
                              (social_identities d)));
  match row with
  | Some link =>
      if negb (bool_decide (currentUserID = EmptyString)) && negb (bool_decide (si_user_id link = currentUserID)) then
        fail ErrSocialIdentityLinkedElsewhere
      else session ← createSession (si_user_id link); mret (session, false)
  | None =>
      let email := normalizeEmail email0 in
      '(userID, email, newAccount) ← social_account provider providerUserID email currentUserID;
      id ← new_uuid;
      wrapping "link social identity" (insert_social id userID provider providerUserID email) ;;
      session ← createSession userID;
      mret (session, newAccount)
  end.

End service.

End Auth.
