(* ===== verification/AuthFacts.v ===== *)
(** * The identity layer: theorems

    The integrity of the identity tables under every operation and every fault;
    what sign-up, login, sessions, password reset and social sign-in promise. *)

From S2P Require Import Prelude GoStrings Encoding Schema Auth.

Module AuthFacts.
Import Auth.

(** ** Statements keep the tables well formed *)

Lemma insert_user_keeps id email hash : within (keeps identity_ok) (insert_user id email hash).
Proof.
  unfold insert_user. within_solve. case_bool_decide as Hid; [done|].
  case_bool_decide as He; [done|]. injection H as _ <-. intros [].
  assert (forall x, x ∈ u_id <$> users d ->
    x ∈ u_id <$> users d ++ [mkUserRow id email hash (current_timestamp t) (current_timestamp t)]) as Hsub.
  { intros x Hx. rewrite fmap_app. apply elem_of_app. by left. }
  split; simpl; try done; try by (eapply Forall_key_mono; [exact Hsub|]).
  - by apply unique_on_insert.
  - by apply unique_on_insert.
Qed.

Lemma insert_session_keeps id uid hash t : within (keeps identity_ok) (insert_session id uid hash t).
Proof.
  unfold insert_session. within_solve. case_bool_decide; [done|].
  case_bool_decide as Hh; [done|]. case_bool_decide as Hu; [done|]. injection H as _ <-. intros [].
  split; simpl; try done.
  - by apply unique_on_insert.
  - apply Forall_app. split; [done|]. by constructor.
Qed.

Lemma delete_sessions_keeps P `{!forall r, Decision (P r)} : within (keeps identity_ok) (delete_sessions P).
Proof.
  unfold delete_sessions. within_solve. intros []. split; simpl; try done.
  - by apply unique_on_filter.
  - by apply Forall_filter_sub.
Qed.

Lemma insert_reset_keeps id uid hash t : within (keeps identity_ok) (insert_reset id uid hash t).
Proof.
  unfold insert_reset. within_solve. case_bool_decide; [done|].
  case_bool_decide as Hh; [done|]. case_bool_decide as Hu; [done|]. injection H as _ <-. intros [].
  split; simpl; try done.
  - by apply unique_on_insert.
  - apply Forall_app. split; [done|]. by constructor.
Qed.

Lemma insert_social_keeps id uid p puid email :
  within (keeps identity_ok) (insert_social id uid p puid email).
Proof.
  unfold insert_social. within_solve. case_bool_decide; [done|].
  case_bool_decide as Hh; [done|]. case_bool_decide as Hu; [done|]. injection H as _ <-. intros [].
  split; simpl; try done.
  - by apply unique_on_insert.
  - apply Forall_app. split; [done|]. by constructor.
Qed.

Lemma set_password_id hash t id r : u_id (set_password hash t id r) = u_id r.
Proof. unfold set_password. by case_bool_decide. Qed.
Lemma set_password_email hash t id r : u_email (set_password hash t id r) = u_email r.
Proof. unfold set_password. by case_bool_decide. Qed.
Lemma mark_used_hash t uid r : r_token_hash (mark_used t uid r) = r_token_hash r.
Proof. unfold mark_used. by destruct (_ && _). Qed.
Lemma mark_used_user t uid r : r_user_id (mark_used t uid r) = r_user_id r.
Proof. unfold mark_used. by destruct (_ && _). Qed.

Lemma redeem_keeps th hash : within (keeps identity_ok) (redeem th hash).
Proof.
  unfold redeem. within_solve; try apply delete_sessions_keeps.
  - injection H as _ <-. intros [].
    split; simpl; rewrite ?(fmap_same u_id) by (intros; apply set_password_id); try done.
    + apply unique_on_map; [intros; apply set_password_id|done].
    + apply unique_on_map; [intros; by rewrite set_password_email|done].
  - injection H as _ <-. intros []. split; simpl; try done.
    + apply unique_on_map; [intros; apply mark_used_hash|done].
    + apply Forall_fmap. eapply Forall_impl; [exact iok_reset_user|]. intros r' Hr. simpl. by rewrite mark_used_user.
Qed.

#[export] Hint Resolve insert_user_keeps insert_session_keeps insert_reset_keeps
  insert_social_keeps redeem_keeps : within.
#[export] Hint Extern 1 (within _ (delete_sessions _)) => apply delete_sessions_keeps : within.
#[export] Hint Extern 0 (PreOrder _) => apply keeps_preorder : within.

(** ** The operations as one system *)

Inductive op : Type :=
| OSignUp (email password : string)
| OLogin (email password : string)
| OValidateSession (token : string)
| OLogout (token : string)
| OCreateResetToken (email : string)
| OResetPassword (token password : string)
| OSocial (provider puid email current : string)
| ORevokeAllSessions (user : string)
| OPurgeExpiredSessions
| OPurgeExpiredResetTokens.

Section facts.
Context {bcrypt : Bcrypt}.

Definition ignoring {D A} (m : M D A) : M D unit := attempt m ;; mret tt.

Definition run_op (o : op) : M IdentityDb unit :=
  match o with
  | OSignUp e p => ignoring (SignUp e p)
  | OLogin e p => ignoring (Login e p)
  | OValidateSession t => ignoring (ValidateSession t)
  | OLogout t => ignoring (Logout t)
  | OCreateResetToken e => ignoring (CreateResetToken e)
  | OResetPassword t p => ignoring (ResetPassword t p)
  | OSocial p i e c => ignoring (LoginOrCreateViaSocial p i e c)
  | ORevokeAllSessions u => ignoring (RevokeAllSessions u)
  | OPurgeExpiredSessions => ignoring PurgeExpiredSessions
  | OPurgeExpiredResetTokens => ignoring PurgeExpiredResetTokens
  end.

Lemma createSession_keeps uid : within (keeps identity_ok) (createSession uid).
Proof. unfold createSession, randomToken. within_solve. Qed.

Lemma run_op_keeps o : within (keeps identity_ok) (run_op o).
Proof.
  destruct o; unfold run_op, ignoring, SignUp, Login, ValidateSession, Logout, CreateResetToken,
    ResetPassword, LoginOrCreateViaSocial, social_account, createUserForSocialSignIn, RevokeAllSessions,
    PurgeExpiredSessions, PurgeExpiredResetTokens, getUserByID, hashPassword, randomToken,
    select_user_by_email, select_user_by_id; within_solve; try apply createSession_keeps.
  intros []. split; simpl; try done.
  - by apply unique_on_filter.
  - by apply Forall_filter_sub.
Qed.


(** ** Passwords *)

Lemma hashPassword_ok p (w : World IdentityDb) h w' :
  hashPassword p w = (Ok h, w') ->
  w_db w' = w_db w /\ env_le (w_env w) (w_env w') /\ exists salt, GenerateFromPassword salt p = inr h.
Proof.
  intros H. pose proof (forward_run (hashPassword p) w (Ok h) w') as Hf.
  pose proof (within_rand_read (D := IdentityDb) eq w) as Hw.
  unfold hashPassword in *. run_inv. rewrite Hrun in Hw. simpl in Hw.
  destruct (GenerateFromPassword r p) eqn:E; run_inv. split; [done|]. split; [|eauto].
  apply Hf; [forward_solve|]. unfold mbind, M_bind. by rewrite Hrun, E.
Qed.

Lemma hashPassword_err p (w : World IdentityDb) e w' : hashPassword p w = (Err e, w') -> w_db w' = w_db w.
Proof.
  intros H. assert (within eq (hashPassword (D := IdentityDb) p)) as Hw
    by (unfold hashPassword; within_solve). specialize (Hw w). by rewrite H in Hw.
Qed.

(** ** Password reset *)

(** What one redemption does to the tables. *)
Definition reset_effect (uid hash : string) (d d' : IdentityDb) : Prop :=
  (exists t, users d' = set_password hash t uid <$> users d) /\
  (exists t, reset_tokens d' = mark_used t uid <$> reset_tokens d) /\
  sessions d' = filter (fun r => s_user_id r <> uid) (sessions d) /\
  social_identities d' = social_identities d.

Lemma redeem_ok th hash w uid w' :
  redeem th hash w = (Ok uid, w') ->
  exists row, row ∈ reset_tokens (w_db w) /\ r_token_hash row = th /\ r_user_id row = uid /\
    r_used_at row = None /\ (clock w <= r_expires_at row)%Z /\ reset_effect uid hash (w_db w) (w_db w').
Proof.
  intros H. unfold redeem in H. apply bind_ok in H as (row & w1 & Hrun & H). apply map_err_ok in Hrun.
  pose proof (forward_run _ _ _ _ (forward_exec_at _) Hrun) as [Hc _ _ _].
  run_inv. destruct (find_row _ _) as [row|] eqn:E; [|run_inv].
 
  apply find_row_Some in E as [Hin Hh]. run_inv.
  destruct (_ || _) eqn:Eb; [run_inv|]. apply orb_false_iff in Eb as [Hu He].
  apply bool_decide_eq_false in He. run_inv.
  exists row. split_and!; try done.
  - apply bool_decide_eq_false in Hu. destruct (r_used_at row); [|done]. by destruct Hu.
  - unfold clock in *. lia.
  - unfold delete_sessions in Hrun1. apply update_ok in Hrun1. injection Hrun1 as _ Hd.
    unfold reset_effect. rewrite <- Hd, <- H, <- H0, Hdb. simpl. split_and!; eauto.
Qed.

Lemma within_eq_run {D A} (m : M D A) w r w' : within eq m -> m w = (r, w') -> w_db w' = w_db w.
Proof. intros Hm H. specialize (Hm w). by rewrite H in Hm. Qed.

(** A redemption is all or nothing: an error leaves every table as it was; a
    success needs an unexpired token never redeemed before, sets the password of
    its account, redeems every token of the account and ends all its sessions,
    and touches nothing of another account. *)
Theorem ResetPassword_atomic token password w :
  match ResetPassword token password w with
  | (Err _, w') => w_db w' = w_db w
  | (Ok uid, w') =>
      8 <= String.length password /\
      exists row salt hash,
        row ∈ reset_tokens (w_db w) /\ r_token_hash row = hashToken token /\
        r_user_id row = uid /\ r_used_at row = None /\ (clock w <= r_expires_at row)%Z /\
        GenerateFromPassword salt password = inr hash /\
        reset_effect uid hash (w_db w) (w_db w')
  end.
Proof.
  destruct (ResetPassword token password w) as [[uid|e] w'] eqn:H; unfold ResetPassword in H.
  - case_bool_decide as Hl; [run_inv|]. split; [lia|]. run_inv.
    apply hashPassword_ok in Hrun as (E0 & [Hc _ _ _] & salt & Hs).
    unfold transaction in H.
    destruct (map_err _ _ w0) as [[[]|?] w1] eqn:E1; [|done]. apply map_err_ok in E1.
    pose proof (forward_run _ _ _ _ (forward_exec_at _) E1) as [Hc1 _ _ _].
    apply query_ok in E1 as [_ E1].
    destruct (redeem _ _ w1) as [[x|?] w2] eqn:E2; [|done].
    destruct (map_err _ _ w2) as [[[]|?] w3] eqn:E3; [|done].
    injection H as <- <-. apply map_err_ok, query_ok in E3 as [_ E3].
    apply redeem_ok in E2 as (row & F1 & F2 & F3 & F4 & F5 & F6).
    rewrite E3. rewrite E1, E0 in F1, F6. exists row, salt, r.
    split_and!; try done. unfold clock in *. lia.
  - case_bool_decide as Hl; [by injection H as _ <-|].
    apply bind_err in H as [H|(h & w1 & H1 & H)].
    + unfold wrapping, map_err in H. destruct (hashPassword _ w) as [[?|?] ?] eqn:E; [done|].
      injection H as _ <-. by apply hashPassword_err in E.
    + run_inv. apply hashPassword_ok in H1 as (E1 & _). apply transaction_err in H. congruence.
Qed.

(** A redeemed token stays redeemed. *)
Definition spent (h : string) (d : IdentityDb) : Prop :=
  forall r, r ∈ reset_tokens d -> r_token_hash r = h -> r_used_at r <> None.

(** The random supply does not deliver the token of this hash again. *)
Definition never_again (e : Env) (h : string) : Prop :=
  forall n, (env_draws e <= n)%N -> hashToken (RawURLEncode (env_bytes e n)) <> h.

Lemma never_again_le e e' h : env_le e e' -> never_again e h -> never_again e' h.
Proof. intros [_ Hd _ Hb] Hn n Hle. rewrite Hb. apply Hn. lia. Qed.

Lemma insert_reset_spent h id uid hash t :
  hash <> h -> within (keeps (spent h)) (insert_reset id uid hash t).
Proof.
  intros Hne. unfold insert_reset. within_solve. case_bool_decide; [done|].
  case_bool_decide; [done|]. case_bool_decide; [done|]. injection H as _ <-. intros Hs r' Hr Hh.
  simpl in Hr. apply elem_of_app in Hr as [Hr|Hr%list_elem_of_singleton]; [by apply Hs|]. by subst.
Qed.

Lemma same_resets_spent h : subrelation (fun d d' => reset_tokens d' = reset_tokens d) (keeps (spent h)).
Proof. intros d d' Heq Hs r. rewrite Heq. apply Hs. Qed.

Lemma mark_used_spent t uid r : r_used_at r <> None -> r_used_at (mark_used t uid r) <> None.
Proof. unfold mark_used. destruct (_ && _); done. Qed.

Lemma redeem_spent h th hash : within (keeps (spent h)) (redeem th hash).
Proof.
  unfold redeem, delete_sessions. within_solve; try (apply same_resets_spent; done).
  - injection H as _ <-. by apply same_resets_spent.
  - injection H as _ <-. intros Hs r' Hr Hh. simpl in Hr.
    apply list_elem_of_fmap in Hr as (r0 & -> & Hr). rewrite mark_used_hash in Hh.
    by apply mark_used_spent, Hs.
Qed.

Lemma insert_user_spent h id email hash : within (keeps (spent h)) (insert_user id email hash).
Proof.
  unfold insert_user. within_solve. case_bool_decide; [done|]. case_bool_decide; [done|].
  injection H as _ <-. by apply same_resets_spent.
Qed.
Lemma insert_session_spent h id uid hash t : within (keeps (spent h)) (insert_session id uid hash t).
Proof.
  unfold insert_session. within_solve. repeat (case_bool_decide; [done|]).
  injection H as _ <-. by apply same_resets_spent.
Qed.
Lemma insert_social_spent h id uid p i e : within (keeps (spent h)) (insert_social id uid p i e).
Proof.
  unfold insert_social. within_solve. repeat (case_bool_decide; [done|]).
  injection H as _ <-. by apply same_resets_spent.
Qed.

Lemma randomToken_ok (w : World IdentityDb) raw w' :
  randomToken w = (Ok raw, w') ->
  w_db w' = w_db w /\
  exists n, (env_draws (w_env w) <= n)%N /\ raw = RawURLEncode (env_bytes (w_env w) n).
Proof.
  intros H. unfold randomToken in H. run_inv. unfold rand_read in Hrun.
  pose proof (env_step_le (w_env w)) as [_ Hd _ Hb].
  destruct (env_step (w_env w)) as [[?|] e]; [done|]. simpl in *. injection Hrun as <- <-.
  split; [done|]. exists (env_draws e). by rewrite Hb.
Qed.

Lemma CreateResetToken_spent h e w :
  never_again (w_env w) h -> keeps (spent h) (w_db w) (w_db (CreateResetToken e w).2).
Proof.
  intros Hn. unfold CreateResetToken, mbind, M_bind, wrapping, map_err.
  destruct (select_user_by_email _ w) as [[row|?] w1] eqn:E1.
  2:{ apply exec_at_err in E1. simpl. by rewrite E1. }
  pose proof (forward_run _ _ _ _ (forward_exec_at _) E1) as He.
  apply query_ok in E1 as [_ E1]. destruct row as [u|]; [|by rewrite <- E1].
  destruct (randomToken w1) as [[raw|?] w2] eqn:E2.
  2:{ assert (within eq (randomToken (D := IdentityDb))) as Hw by (unfold randomToken; within_solve).
      specialize (Hw w1). rewrite E2 in Hw. simpl in *. by rewrite <- Hw, E1. }
  apply randomToken_ok in E2 as (E2 & n & Hle & ->). rewrite <- E1, <- E2.
  apply (never_again_le _ _ _ He) in Hn. specialize (Hn n Hle).
  set (m := id ← new_uuid; t ← now;
    map_err (Wrap "insert reset token")
      (insert_reset id (u_id u) (hashToken (RawURLEncode (env_bytes (w_env w1) n))) (t + ResetTokenTTL)%Z) ;;
    mret (Some (RawURLEncode (env_bytes (w_env w1) n), u_id u))).
  change (keeps (spent h) (w_db w2) (w_db (m w2).2)).
  revert w2 E2. intros w2 _. revert w2. change (within (keeps (spent h)) m). subst m.
  within_solve. by apply insert_reset_spent.
Qed.

Lemma other_op_spent h o :
  match o with OCreateResetToken _ => False | _ => True end ->
  within (keeps (spent h)) (run_op o).
Proof.
  destruct o; try done; intros _;
    unfold run_op, ignoring, SignUp, Login, ValidateSession, Logout,
    ResetPassword, LoginOrCreateViaSocial, social_account, createUserForSocialSignIn, RevokeAllSessions,
    PurgeExpiredSessions, PurgeExpiredResetTokens, getUserByID, hashPassword, createSession, randomToken,
    select_user_by_email, select_user_by_id, delete_sessions; within_solve;
    try (apply same_resets_spent; done);
    try first [apply insert_user_spent | apply insert_session_spent | apply insert_social_spent | apply redeem_spent].
  intros Hs r Hr. simpl in Hr. apply list_elem_of_filter in Hr as [_ Hr]. by apply Hs.
Qed.

Lemma run_op_spent h o w :
  never_again (w_env w) h -> keeps (spent h) (w_db w) (w_db (run_op o w).2).
Proof.
  intros Hn. destruct o; try by apply (other_op_spent h).
  unfold run_op, ignoring. pose proof (CreateResetToken_spent h email w Hn) as Hc.
  rewrite attempt_bind. exact Hc.
Qed.

Lemma run_op_forward o : forward (run_op o).
Proof.
  destruct o; unfold run_op, ignoring, SignUp, Login, ValidateSession, Logout, CreateResetToken,
    ResetPassword, redeem, LoginOrCreateViaSocial, social_account, createUserForSocialSignIn, RevokeAllSessions,
    PurgeExpiredSessions, PurgeExpiredResetTokens, getUserByID, hashPassword, createSession, randomToken,
    select_user_by_email, select_user_by_id, delete_sessions, insert_user, insert_session, insert_social,
    insert_reset; forward_solve.
Qed.

Lemma run_ops_spent h ops : forall w,
  never_again (w_env w) h -> spent h (w_db w) -> spent h (w_db (for_each run_op ops w).2).
Proof.
  induction ops as [|o ops IH]; intros w Hn Hs; [done|]. simpl. unfold mbind, M_bind.
  pose proof (run_op_spent h o w Hn Hs) as H1. pose proof (run_op_forward o w) as H2.
  destruct (run_op o w) as [[[]|e] w1]; [|done]. apply IH; [|done]. by eapply never_again_le.
Qed.

(** A reset token redeems at most once: after a redemption, whatever operations
    run and whatever fails, the same token is never accepted again. *)
Theorem ResetPassword_single_use token p w uid w1 ops p' uid' w2 :
  identity_ok (w_db w) ->
  ResetPassword token p w = (Ok uid, w1) ->
  never_again (w_env w1) (hashToken token) ->
  ResetPassword token p' (for_each run_op ops w1).2 <> (Ok uid', w2).
Proof.
  intros Hok H1 Hn H2.
  pose proof (ResetPassword_atomic token p w) as A1. rewrite H1 in A1.
  destruct A1 as (_ & row & salt & hash & F1 & F2 & F3 & F4 & _ & _ & (_ & (t & Hr) & _)).
  pose proof (ResetPassword_atomic token p' (for_each run_op ops w1).2) as A2. rewrite H2 in A2.
  destruct A2 as (_ & row' & _ & _ & G1 & G2 & _ & G4 & _).
  assert (spent (hashToken token) (w_db w1)) as Hs.
  { intros r Hin Hh. rewrite Hr in Hin. apply list_elem_of_fmap in Hin as (r0 & -> & Hin).
    rewrite mark_used_hash in Hh.
    assert (r0 = row) as -> by (eapply (unique_on_eq r_token_hash); [apply Hok|..]; congruence).
    unfold mark_used. rewrite F3, F4, !bool_decide_true by done. done. }
  eapply run_ops_spent in Hs; [|done]. by apply (Hs row').
Qed.

(** ** Sessions *)

Lemma insert_session_ok id uid hash t (w : World IdentityDb) w' :
  insert_session id uid hash t w = (Ok tt, w') ->
  (hash ∉ s_token_hash <$> sessions (w_db w)) /\ uid ∈ u_id <$> users (w_db w) /\
  exists c, w_db w' = set_sessions (fun l => l ++ [mkSessionRow id uid hash c t]) (w_db w).
Proof.
  intros H%exec_at_ok. case_bool_decide; [done|]. case_bool_decide; [done|].
  case_bool_decide; [done|]. injection H as H. eauto.
Qed.

Lemma createSession_ok uid w s w' :
  createSession uid w = (Ok s, w') ->
  UserID s = uid /\ uid ∈ u_id <$> users (w_db w) /\
  (hashToken (Token s) ∉ s_token_hash <$> sessions (w_db w)) /\
  (clock w + SessionTTL <= ExpiresAt s)%Z /\
  exists id c, w_db w' =
    set_sessions (fun l => l ++ [mkSessionRow id uid (hashToken (Token s)) c (ExpiresAt s)]) (w_db w).
Proof.
  intros H. unfold createSession in H.
  apply bind_ok in H as (raw & w1 & H1%map_err_ok & H). apply bind_ok in H as (id & w2 & H2 & H).
  apply bind_ok in H as (t & w3 & [= <- <-] & H). apply bind_ok in H as ([] & w4 & H3%map_err_ok & H).
  apply mret_ok in H as [-> ->].
  pose proof (forward_run randomToken _ _ _ ltac:(unfold randomToken; forward_solve) H1) as [Hc1 _ _ _].
  pose proof (forward_run new_uuid _ _ _ forward_new_uuid H2) as [Hc2 _ _ _].
  apply randomToken_ok in H1 as [E1 _].
  apply (within_eq_run new_uuid) in H2; [|apply within_new_uuid, _]. rewrite <- E1, <- H2.
  apply insert_session_ok in H3 as (F1 & F2 & c & F3). simpl. split_and!; try done.
  - unfold clock in *. lia.
  - eauto.
Qed.

(** Under a quiet environment the outcome of a validation is a function of the
    row of the token. *)
Lemma ValidateSession_quiet token (w : World IdentityDb) s u :
  quiet w -> identity_ok (w_db w) ->
  s ∈ sessions (w_db w) -> s_token_hash s = hashToken token ->
  u ∈ users (w_db w) -> u_id u = s_user_id s ->
  (ValidateSession token w).1 =
    if bool_decide (s_expires_at s < clock w)%Z then Err ErrSessionNotFound else Ok (user_of u).
Proof.
  intros Hq Hok Hs Hh Hu Hid. unfold ValidateSession, wrapping, mbind, M_bind, map_err.
  rewrite query_quiet by done. unfold session_join.
  destruct (find_row_is_Some (fun r => s_token_hash r = hashToken token) _ s Hs Hh) as [s' E].
  pose proof (find_row_Some _ _ _ E) as [Hs' Hh']. rewrite E. simpl.
  assert (s' = s) as -> by (eapply (unique_on_eq s_token_hash); [apply Hok|..]; congruence).
  destruct (find_row_is_Some (fun r => u_id r = s_user_id s) _ u Hu Hid) as [u' E'].
  pose proof (find_row_Some _ _ _ E') as [Hu' Hid']. rewrite E'.
  assert (u' = u) as -> by (eapply (unique_on_eq u_id); [apply Hok|..]; congruence).
  unfold now. simpl. by case_bool_decide.
Qed.

(** No row has the token: no validation succeeds. *)
Lemma ValidateSession_absent token (w : World IdentityDb) :
  quiet w -> hashToken token ∉ s_token_hash <$> sessions (w_db w) ->
  (ValidateSession token w).1 = Err ErrSessionNotFound.
Proof.
  intros Hq Hh. unfold ValidateSession, wrapping, mbind, M_bind, map_err.
  rewrite query_quiet by done. unfold session_join.
  destruct (find_row _ (sessions (w_db w))) as [s|] eqn:E; [|done].
  apply find_row_Some in E as [Hs Hhs]. destruct Hh. rewrite <- Hhs. by apply list_elem_of_fmap_2.
Qed.

(** A login that succeeds, whatever the environment does, has checked the
    password of the account with that address; the token it hands out resolves
    to that account until it expires, 30 days later at the earliest, and to
    nothing after a logout. *)
Theorem Login_session email password w s w1 :
  identity_ok (w_db w) ->
  Login email password w = (Ok s, w1) ->
  exists u, u ∈ users (w_db w) /\ u_email u = normalizeEmail email /\
    verifyPassword (u_password_hash u) password = true /\ UserID s = u_id u /\
    (clock w + SessionTTL <= ExpiresAt s)%Z /\
    forall w2, quiet w2 -> w_db w2 = w_db w1 ->
      (ValidateSession (Token s) w2).1 =
        (if bool_decide (ExpiresAt s < clock w2)%Z then Err ErrSessionNotFound else Ok (user_of u)) /\
      (ValidateSession (Token s) (Logout (Token s) w2).2).1 = Err ErrSessionNotFound.
Proof.
  intros Hok H.
  assert (identity_ok (w_db w1)) as Hok1.
  { pose proof (run_op_keeps (OLogin email password) w) as Hk. unfold run_op, ignoring in Hk.
    rewrite attempt_bind, H in Hk. by apply Hk. }
  unfold Login in H. apply bind_ok in H as (row & w0 & Hq%map_err_ok & H).
  pose proof (forward_run _ _ _ _ (forward_exec_at _) Hq) as [Hc _ _ _].
  apply query_ok in Hq as [-> Hw0]. destruct (find_row _ _) as [u|] eqn:E; [|by run_inv].
  apply find_row_Some in E as [Hu He]. destruct (verifyPassword _ _) eqn:Hv; [|by run_inv]. simpl in H.
  apply createSession_ok in H as (F1 & F2 & F3 & F4 & id & c & F5). rewrite Hw0 in *.
  exists u. split_and!; try done; [unfold clock in *; lia|]. intros w2 Hq2 Hw2.
  rewrite <- Hw2 in Hok1. split.
  - apply (ValidateSession_quiet (Token s) w2 (mkSessionRow id (u_id u) (hashToken (Token s)) c (ExpiresAt s)) u);
      try done; rewrite Hw2, F5; simpl; [|done]. apply elem_of_app. right. by left.
  - assert (quiet (Logout (Token s) w2).2 /\
      sessions (w_db (Logout (Token s) w2).2) = filter (fun r => ~ s_token_hash r = hashToken (Token s)) (sessions (w_db w2)))
      as [Hq3 Hs3].
    { unfold Logout, delete_sessions, wrapping, mbind, M_bind, map_err. by rewrite update_quiet. }
    apply ValidateSession_absent; [done|]. rewrite Hs3. intros (r & Hr & [Hn _]%list_elem_of_filter)%list_elem_of_fmap.
    congruence.
Qed.

(** ** Purges *)

(** Deleting expired sessions changes the outcome of no validation, except for
    a session that expires at this very nanosecond. *)
Theorem PurgeExpiredSessions_invisible token w :
  quiet w -> identity_ok (w_db w) ->
  Forall (fun s => s_expires_at s <> clock w) (sessions (w_db w)) ->
  (ValidateSession token (PurgeExpiredSessions w).2).1 = (ValidateSession token w).1.
Proof.
  intros Hq Hok Hne.
  assert (PurgeExpiredSessions w =
    (Ok (Z.of_nat (length (filter (fun r => (s_expires_at r <= clock w)%Z) (sessions (w_db w))))),
     mkWorld (w_env w) (set_sessions (filter (fun r => ~ (s_expires_at r <= clock w)%Z)) (w_db w)))) as Hp.
  { unfold PurgeExpiredSessions, delete_sessions, wrapping, mbind, M_bind, map_err, now. by rewrite update_quiet. }
  rewrite Hp. simpl. set (w' := mkWorld _ _).
  destruct (decide (hashToken token ∈ s_token_hash <$> sessions (w_db w))) as [Hin|Hout].
  - apply list_elem_of_fmap in Hin as (s & Hh & Hs). symmetry in Hh.
    rewrite Forall_forall in Hne. specialize (Hne s Hs).
    pose proof (iok_session_user _ Hok) as Hus. rewrite Forall_forall in Hus.
    specialize (Hus s Hs). apply list_elem_of_fmap in Hus as (u & Hu & Hin). symmetry in Hu.
    rewrite (ValidateSession_quiet token w s u) by done. case_bool_decide as Hexp.
    + apply ValidateSession_absent; [done|]. simpl.
      intros (r & Hr & [Hlive Hrin]%list_elem_of_filter)%list_elem_of_fmap.
      assert (r = s) as -> by (eapply (unique_on_eq s_token_hash); [apply Hok|..]; congruence). lia.
    + rewrite (ValidateSession_quiet token w' s u); try done.
      * rewrite bool_decide_false; [done|]. exact Hexp.
      * pose proof (delete_sessions_keeps (fun r => (s_expires_at r <= clock w)%Z) w) as Hk.
        unfold delete_sessions in Hk. rewrite update_quiet in Hk by done. by apply Hk.
      * simpl. apply list_elem_of_filter. split; [lia|done].
  - rewrite (ValidateSession_absent token w) by done. apply ValidateSession_absent; [done|].
    simpl. intros (r & Hr & [_ Hrin]%list_elem_of_filter)%list_elem_of_fmap. apply Hout. rewrite Hr.
    by apply list_elem_of_fmap_2.
Qed.

(** ** Sign-up *)

Lemma select_by_id_ok id (w : World IdentityDb) row w' :
  select_user_by_id id w = (Ok row, w') -> row = find_row (fun r => u_id r = id) (users (w_db w)) /\ w_db w' = w_db w.
Proof. by intros [-> ?]%query_ok. Qed.

Lemma getUserByID_ok id w u w' :
  getUserByID id w = (Ok u, w') ->
  w_db w' = w_db w /\ exists r, r ∈ users (w_db w) /\ u_id r = id /\ u = user_of r.
Proof.
  intros H. unfold getUserByID in H. apply bind_ok in H as (row & w0 & Hq%map_err_ok & H).
  apply select_by_id_ok in Hq as [-> E]. destruct (find_row _ _) as [r|] eqn:F; [|by run_inv].
  apply find_row_Some in F as [Hin Hid]. apply mret_ok in H as [-> ->]. eauto.
Qed.

Lemma insert_user_ok id email hash (w : World IdentityDb) w' :
  insert_user id email hash w = (Ok tt, w') ->
  (id ∉ u_id <$> users (w_db w)) /\ (ToLower email ∉ (fun r => ToLower (u_email r)) <$> users (w_db w)) /\
  exists t, w_db w' = set_users (fun l => l ++ [mkUserRow id email hash t t]) (w_db w).
Proof.
  intros H%exec_at_ok. case_bool_decide; [done|]. case_bool_decide; [done|]. injection H as H. eauto.
Qed.

Lemma normalizeEmail_lower email : ToLower (normalizeEmail email) = normalizeEmail email.
Proof. apply ToLower_idemp. Qed.

(** Spaces around an address and the case of its letters never matter. *)
Lemma normalizeEmail_idemp email : normalizeEmail (normalizeEmail email) = normalizeEmail email.
Proof.
  unfold normalizeEmail, TrimSpace, ToLower, TrimFunc.
  rewrite (TrimLeftFunc_smap is_space lower_byte), (TrimRightFunc_smap is_space lower_byte) by apply lower_byte_space.
  change (ToLower (ToLower (TrimFunc is_space (TrimFunc is_space email))) = ToLower (TrimFunc is_space email)).
  by rewrite TrimFunc_idemp, ToLower_idemp.
Qed.

(** A sign-up that succeeds adds exactly one account, under the normalised
    address, which matched the pattern and no account had in any case. *)
Theorem SignUp_spec email password w u w' :
  SignUp email password w = (Ok u, w') ->
  Email u = normalizeEmail email /\ re_match emailRe (Email u) = true /\
  8 <= String.length password /\
  Forall (fun r => ToLower (u_email r) <> Email u) (users (w_db w)) /\
  exists salt hash t,
    GenerateFromPassword salt password = inr hash /\
    w_db w' = set_users (fun l => l ++ [mkUserRow (ID u) (Email u) hash t t]) (w_db w).
Proof.
  intros H. unfold SignUp in H. destruct (re_match emailRe _) eqn:Hre; [|by run_inv]. simpl in H.
  case_bool_decide as Hl; [by run_inv|].
  apply bind_ok in H as (hash & w1 & H1%map_err_ok & H). apply hashPassword_ok in H1 as (E1 & _ & salt & Hs).
  apply bind_ok in H as (id & w2 & H2 & H).
  apply (within_eq_run new_uuid) in H2; [|apply within_new_uuid, _].
  apply bind_ok in H as ([] & w3 & H3%map_err_ok & H).
  apply insert_user_ok in H3 as (F1 & F2 & t & F3). rewrite H2, E1 in *.
  apply getUserByID_ok in H as (E4 & r & Hr & Hid & ->). rewrite F3 in Hr. simpl in Hr.
  assert (r = mkUserRow id (normalizeEmail email) hash t t) as ->.
  { apply elem_of_app in Hr as [Hr|Hr%list_elem_of_singleton]; [|done]. destruct F1. rewrite <- Hid.
    by apply list_elem_of_fmap_2. }
  simpl. split_and!; try done; [lia| |].
  - apply Forall_forall. intros r Hin Heq. apply F2. rewrite normalizeEmail_lower, <- Heq.
    by apply (list_elem_of_fmap_2 (fun x => ToLower (u_email x))).
  - exists salt, hash, t. by rewrite E4.
Qed.

(** Having signed up, one can sign in, writing the address in any case and with
    any spaces around it, unless the supplies repeat a token or an identifier. *)
Theorem SignUp_then_Login {laws : BcryptLaws} email email' password w u w1 :
  identity_ok (w_db w) ->
  SignUp email password w = (Ok u, w1) -> quiet w1 ->
  normalizeEmail email' = normalizeEmail email ->
  let e := w_env w1 in
  (env_uuid e (N.succ (env_draws e)) ∉ s_id <$> sessions (w_db w1)) ->
  (hashToken (RawURLEncode (env_bytes e (env_draws e))) ∉ s_token_hash <$> sessions (w_db w1)) ->
  exists s w2, Login email' password w1 = (Ok s, w2) /\ UserID s = ID u.
Proof.
  intros Hok H Hq Hne e Hid Hh.
  assert (identity_ok (w_db w1)) as Hok1.
  { pose proof (run_op_keeps (OSignUp email password) w) as Hk. unfold run_op, ignoring in Hk.
    rewrite attempt_bind, H in Hk. by apply Hk. }
  apply SignUp_spec in H as (E1 & _ & _ & _ & salt & hash & t & Hg & E2).
  set (row := mkUserRow (ID u) (Email u) hash t t).
  assert (row ∈ users (w_db w1)) as Hin by (rewrite E2; apply elem_of_app; right; by left).
  unfold Login, wrapping, mbind, M_bind, map_err, select_user_by_email. rewrite query_quiet by done.
  destruct (find_row_is_Some (fun r => u_email r = normalizeEmail email') _ row Hin) as [row' F]; [simpl; congruence|].
  rewrite F. apply find_row_Some in F as [Hin' He'].
  assert (row' = row) as ->.
  { eapply (unique_on_eq (fun r => ToLower (u_email r))); [apply Hok1|done|done|]. simpl.
    rewrite He', Hne. by rewrite E1. }
  simpl. unfold verifyPassword. rewrite (bcrypt_accepts _ _ _ Hg). simpl.
  unfold createSession, randomToken, rand_read, wrapping, mbind, M_bind, map_err, env_step.
  unfold quiet in Hq. rewrite Hq. unfold new_uuid, env_draw, now. simpl.
  unfold insert_session, exec_at, env_step. simpl. rewrite Hq. simpl.
  rewrite !bool_decide_false; try done; [by eexists _, _|].
  intros Hn. apply Hn. by apply (list_elem_of_fmap_2 u_id) in Hin.
Qed.

(** ** Social sign-in *)

Lemma insert_social_ok id uid p i e (w : World IdentityDb) w' :
  insert_social id uid p i e w = (Ok tt, w') ->
  ((p, i) ∉ (fun r => (si_provider r, si_provider_user_id r)) <$> social_identities (w_db w)) /\
  exists t, w_db w' = set_social (fun l => l ++ [mkSocialRow id uid p i e t]) (w_db w).
Proof.
  intros H%exec_at_ok. case_bool_decide; [done|]. case_bool_decide; [done|].
  case_bool_decide; [done|]. injection H as H. eauto.
Qed.

Definition same_social : relation IdentityDb :=
  fun d d' => social_identities d' = social_identities d.
#[local] Instance same_social_preorder : PreOrder same_social.
Proof. split; [done|]. unfold same_social. intros ???. congruence. Qed.

Lemma social_account_same p i e c : within same_social (social_account p i e c).
Proof.
  unfold social_account, createUserForSocialSignIn, select_user_by_email, randomToken, hashPassword, insert_user.
  within_solve. case_bool_decide; [done|]. case_bool_decide; [done|]. by injection H as _ <-.
Qed.

Lemma social_account_current p i e c w r w' :
  c <> EmptyString -> social_account p i e c w = (Ok r, w') -> r = (c, e, false).
Proof. intros Hc. unfold social_account. rewrite bool_decide_false by done. by intros [= <- _]. Qed.

(** A social sign-in that succeeds leaves the identity linked to the account it
    signed in to; the account an identity was linked to before never changes;
    and somebody already signed in stays in their own account. *)
Theorem LoginOrCreateViaSocial_no_switch provider puid email current w s new w' :
  LoginOrCreateViaSocial provider puid email current w = (Ok (s, new), w') ->
  (exists r, r ∈ social_identities (w_db w') /\ si_provider r = provider /\
             si_provider_user_id r = puid /\ si_user_id r = UserID s) /\
  (forall r, r ∈ social_identities (w_db w) -> r ∈ social_identities (w_db w')) /\
  (current <> EmptyString -> UserID s = current /\ new = false).
Proof.
  intros H. unfold LoginOrCreateViaSocial in H.
  apply bind_ok in H as (row & w1 & [-> E1]%map_err_ok%query_ok & H).
  destruct (find_row _ _) as [link|] eqn:F.
  - apply find_row_Some in F as (Hin & Hp & Hi).
    destruct (negb _ && negb _) eqn:Hg; [by run_inv|].
    apply bind_ok in H as (s' & w2 & H2 & H). apply mret_ok in H as [[= -> ->] ->].
    apply createSession_ok in H2 as (E2 & _ & _ & _ & id & c & E3). rewrite E3, E1. simpl.
    split; [by exists link|]. split; [done|]. intros Hc.
    rewrite bool_decide_false in Hg by done. simpl in Hg. apply negb_false_iff, bool_decide_eq_true in Hg.
    split; congruence.
  - apply bind_ok in H as ([[uid e'] new'] & w2 & H2 & H).
    pose proof (social_account_same provider puid (normalizeEmail email) current w1) as Hsame.
    rewrite H2 in Hsame. unfold same_social in Hsame. simpl in Hsame.
    apply bind_ok in H as (id & w3 & H3 & H). apply (within_eq_run new_uuid) in H3; [|apply within_new_uuid, _].
    apply bind_ok in H as ([] & w4 & H4%map_err_ok & H). apply insert_social_ok in H4 as (_ & t & E4).
    apply bind_ok in H as (s' & w5 & H5 & H). apply mret_ok in H as [[= -> ->] ->].
    apply createSession_ok in H5 as (E5 & _ & _ & _ & id5 & c & E6). rewrite E6, E4, H3. simpl. rewrite Hsame, E1.
    split; [|split].
    + exists (mkSocialRow id uid provider puid e' t). split; [apply elem_of_app; right; by left|done].
    + intros r Hr. apply elem_of_app. by left.
    + intros Hc. apply social_account_current in H2; [|done]. by injection H2 as -> _ ->.
Qed.

End facts.
(** ** Witnesses *)

(** A stand-in for bcrypt that keeps its laws. *)
Definition toy_bcrypt : Bcrypt := {|
  GenerateFromPassword _ pw :=
    if bool_decide (72 < String.length pw) then inl "bcrypt: password length exceeds 72 bytes"
    else inr ("h:" +:+ pw);
  CompareHashAndPassword h pw := bool_decide (h = "h:" +:+ pw);
|}.
#[local] Existing Instance toy_bcrypt.

Lemma toy_bcrypt_laws : BcryptLaws.
Proof.
  split. intros salt pw h. simpl. case_bool_decide; [done|]. intros [= <-]. by apply bool_decide_true.
Qed.

Definition empty_identity : IdentityDb := mkIdentity [] [] [] [].

(** One account, signed in, with a pending reset token. *)
Definition sample_identity : IdentityDb :=
  mkIdentity [mkUserRow "u1" "ann@example.com" "h:password" 0 0]
             [mkSessionRow "s1" "u1" (hashToken "cookie") 0 (30 * day)]
             [mkResetRow "r1" "u1" (hashToken "tok") 0 hour None]
             [mkSocialRow "si1" "u1" "github" "7" "ann@example.com" 0].

Lemma sample_identity_ok : identity_ok sample_identity.
Proof. split; evaluate. Qed.


Lemma ResetPassword_single_use_witness :
  let w1 := (ResetPassword "tok" "new-password" (sample_world 0 sample_identity)).2 in
  let w2 := ResetPassword "tok" "other-password" (for_each run_op [OPurgeExpiredSessions] w1).2 in
  w2 <> (Ok "u1", w2.2).
Proof.
  apply (ResetPassword_single_use "tok" "new-password" (sample_world 0 sample_identity) "u1").
  - apply sample_identity_ok.
  - vm_compute. reflexivity.
  - intros n _. evaluate.
Defined.

Lemma Login_session_witness :
  exists u, u ∈ users sample_identity /\ u_email u = "ann@example.com".
Proof.
  destruct (Login_session " Ann@Example.com" "password" (sample_world 0 sample_identity)
    (mkSession "id-1" "u1" (RawURLEncode "0123456789abcdef0123456789abcdef") (30 * day))
    (Login " Ann@Example.com" "password" (sample_world 0 sample_identity)).2) as (u & H1 & H2 & _).
  - apply sample_identity_ok.
  - vm_compute. reflexivity.
  - by exists u.
Defined.

Lemma PurgeExpiredSessions_invisible_witness :
  let w := sample_world (31 * day) sample_identity in
  (ValidateSession "cookie" (PurgeExpiredSessions w).2).1 = (ValidateSession "cookie" w).1.
Proof. apply PurgeExpiredSessions_invisible; [done|apply sample_identity_ok|evaluate]. Defined.

(** At the very nanosecond of its expiry a session still validates, and a purge
    ends it. *)
Example purge_at_expiry :
  let w := sample_world (30 * day) sample_identity in
  is_ok (ValidateSession "cookie" w).1 = true /\
  is_ok (ValidateSession "cookie" (PurgeExpiredSessions w).2).1 = false.
Proof. vm_compute. done. Qed.

Lemma SignUp_spec_witness :
  let r := SignUp "  Bob@Example.COM " "password" (sample_world 0 sample_identity) in
  exists u, r.1 = Ok u /\ Email u = "bob@example.com".
Proof.
  set (w := sample_world 0 sample_identity). intros r.
  destruct (SignUp_spec "  Bob@Example.COM " "password" w
    (mkUser "id-1" "bob@example.com" 0 0) r.2) as (H1 & _).
  - vm_compute. reflexivity.
  - exists (mkUser "id-1" "bob@example.com" 0 0). split; [vm_compute; reflexivity|]. exact H1.
Defined.

Lemma SignUp_then_Login_witness :
  let w1 := (SignUp "bob@example.com" "password" (sample_world 0 sample_identity)).2 in
  exists s w2, Login "BOB@example.com " "password" w1 = (Ok s, w2) /\ UserID s = "id-1".
Proof.
  apply (SignUp_then_Login (laws := toy_bcrypt_laws) "bob@example.com" "BOB@example.com " "password"
    (sample_world 0 sample_identity) (mkUser "id-1" "bob@example.com" 0 0)).
  - apply sample_identity_ok.
  - vm_compute. reflexivity.
  - reflexivity.
  - reflexivity.
  - evaluate.
  - evaluate.
Defined.

Lemma LoginOrCreateViaSocial_no_switch_witness :
  let r := LoginOrCreateViaSocial "google" "42" "x@example.com" "u1" (sample_world 0 sample_identity) in
  exists s, r.1 = Ok (s, false) /\ UserID s = "u1".
Proof.
  set (w := sample_world 0 sample_identity). intros r.
  set (s := mkSession "id-2" "u1" (RawURLEncode "0123456789abcdef0123456789abcdef") (30 * day)).
  destruct (LoginOrCreateViaSocial_no_switch "google" "42" "x@example.com" "u1" w s false r.2) as (_ & _ & H).
  - vm_compute. reflexivity.
  - exists s. split; [vm_compute; reflexivity|]. by apply H.
Defined.

End AuthFacts.
