(* ===== verification/OwnerAuth.v ===== *)
(** * The owner plane

    Models src/internal/ownerauth: the accounts of the team running a
    deployment, their ranked roles and sessions.  The code keeps its own copies
    of the helpers of the identity layer, and so does this file. *)

From S2P Require Import Prelude GoStrings Encoding Schema Auth.

Module OwnerAuth.

Definition SessionTTL : Z := 7 * day.

(** ** Roles *)

Definition Role : Type := string.
Definition RoleOwner : Role := "owner".
Definition RoleAdmin : Role := "admin".
Definition RoleDeveloper : Role := "developer".
Definition RoleViewer : Role := "viewer".

Definition rank (r : Role) : option Z :=
  if bool_decide (r = RoleViewer) then Some 1%Z
  else if bool_decide (r = RoleDeveloper) then Some 2%Z
  else if bool_decide (r = RoleAdmin) then Some 3%Z
  else if bool_decide (r = RoleOwner) then Some 4%Z
  else None.

Definition IsValid (r : Role) : bool := bool_decide (is_Some (rank r)).

Definition AtLeast (r min : Role) : bool :=
  match rank r with
  | None => false
  | Some rr => match rank min with
               | None => false
               | Some mr => (mr <=? rr)%Z
               end
  end.

(** ** Errors and records *)

Definition ErrEmailTaken : error := Sentinel "owner.ErrEmailTaken" "email already registered".
Definition ErrInvalidCredentials : error := Sentinel "owner.ErrInvalidCredentials" "invalid email or password".
Definition ErrSessionNotFound : error := Sentinel "owner.ErrSessionNotFound" "session not found or expired".
Definition ErrWeakPassword : error := Sentinel "owner.ErrWeakPassword" "password must be at least 8 characters".
Definition ErrInvalidEmail : error := Sentinel "owner.ErrInvalidEmail" "invalid email address".
Definition ErrInvalidRole : error := Sentinel "owner.ErrInvalidRole" "invalid role".
Definition ErrLastOwner : error := Sentinel "owner.ErrLastOwner" "cannot remove or demote the last remaining owner".
Definition ErrAlreadyBootstrapped : error :=
  Sentinel "owner.ErrAlreadyBootstrapped" "an owner already exists; bootstrap is a no-op".
Definition ErrOwnerNotFound : error := Sentinel "owner.ErrOwnerNotFound" "owner not found".

Record Owner : Type := mkOwner {
  OID : string; OEmail : string; ORole : Role; OCreatedAt : Z; OUpdatedAt : Z;
}.
Record Session : Type := mkSession { SessionID : string; OwnerID : string; Token : string; ExpiresAt : Z }.

Definition owner_of (r : OwnerRow) : Owner :=
  mkOwner (o_id r) (o_email r) (o_role r) (o_created_at r) (o_updated_at r).

Definition normalizeEmail (email : string) : string := ToLower (TrimSpace email).
Definition emailRe : re := Auth.emailRe.
Definition randomToken {D} : M D string := b ← rand_read; mret (RawURLEncode b).
Definition hashToken (token : string) : string := sha256_hex token.

Section passwords.
Context {bcrypt : Bcrypt}.
Definition hashPassword {D} (plain : string) : M D string :=
  salt ← rand_read;
  match GenerateFromPassword salt plain with
  | inl e => fail (Driver e)
  | inr h => mret h
  end.
Definition verifyPassword (hash plain : string) : bool := CompareHashAndPassword hash plain.
End passwords.

(** ** Statements *)

Abbreviation MO := (M OwnerDb).

Definition insert_owner (id email hash : string) (role : Role) : MO unit :=
  exec_at (fun clk d =>
    if bool_decide (id ∈ o_id <$> owner_users d) then inl (unique_failed "owner_users.id")
    else if bool_decide (ToLower email ∈ (fun r => ToLower (o_email r)) <$> owner_users d) then
      inl (unique_failed "owner_users.email")
    else let t := current_timestamp clk in
         inr (tt, set_owner_users (fun l => l ++ [mkOwnerRow id email hash role t t]) d)).

Definition insert_session (id owner_id hash : string) (expires : Z) : MO unit :=
  exec_at (fun clk d =>
    if bool_decide (id ∈ os_id <$> owner_sessions d) then inl (unique_failed "owner_sessions.id")
    else if bool_decide (hash ∈ os_token_hash <$> owner_sessions d) then
      inl (unique_failed "owner_sessions.token_hash")
    else if bool_decide (owner_id ∉ o_id <$> owner_users d) then inl foreign_key_failed
    else inr (tt, set_owner_sessions (fun l => l ++ [mkOwnerSessionRow id owner_id hash (current_timestamp clk) expires]) d)).

Definition session_join (hash : string) (d : OwnerDb) : option (OwnerSessionRow * OwnerRow) :=
  s ← find_row (fun r => os_token_hash r = hash) (owner_sessions d);
  o ← find_row (fun r => o_id r = os_owner_id s) (owner_users d);
  Some (s, o).

Definition delete_sessions (P : OwnerSessionRow -> Prop) `{!forall r, Decision (P r)} : MO Z :=
  update (fun d => (Z.of_nat (length (filter P (owner_sessions d))),
                    set_owner_sessions (filter (fun r => ~ P r)) d)).

Definition select_owner (id : string) : MO (option OwnerRow) :=
  query (fun d => find_row (fun r => o_id r = id) (owner_users d)).

Definition count_owners (d : OwnerDb) : nat :=
  length (filter (fun r => o_role r = RoleOwner) (owner_users d)).

(** ** Operations *)

Section service.
Context {bcrypt : Bcrypt}.

Definition GetOwner (id : string) : MO Owner :=
  row ← wrapping "lookup owner" (select_owner id);
  match row with
  | None => fail ErrOwnerNotFound
  | Some r => mret (owner_of r)
  end.

Definition createOwner (email0 password : string) (role : Role) : MO Owner :=
  let email := normalizeEmail email0 in
  if negb (re_match emailRe email) then fail ErrInvalidEmail
  else if bool_decide (String.length password < 8) then fail ErrWeakPassword
  else
    hash ← wrapping "hash password" (hashPassword password);
    id ← new_uuid;
    map_err (fun err => if Contains (error_text err) "UNIQUE constraint failed" then ErrEmailTaken
                        else Wrap "insert owner" err)
      (insert_owner id email hash role) ;;
    GetOwner id.

Definition CreateOwner (email password : string) (role : Role) : MO Owner :=
  if negb (IsValid role) then fail ErrInvalidRole else createOwner email password role.

Definition Bootstrap (email password : string) : MO Owner :=
  count ← wrapping "count owners" (query (fun d => length (owner_users d)));
  if bool_decide (0 < count) then fail ErrAlreadyBootstrapped
  else createOwner email password RoleOwner.

Definition createSession (ownerID : string) : MO Session :=
  rawToken ← wrapping "generate token" randomToken;
  id ← new_uuid;
  t ← now;
  let expiresAt := (t + SessionTTL)%Z in
  wrapping "insert session" (insert_session id ownerID (hashToken rawToken) expiresAt) ;;
  mret (mkSession id ownerID rawToken expiresAt).

Definition Login (email0 password : string) : MO Session :=
  let email := normalizeEmail email0 in
  row ← wrapping "lookup owner" (query (fun d => find_row (fun r => o_email r = email) (owner_users d)));
  match row with
  | None => fail ErrInvalidCredentials
  | Some o =>
      if negb (verifyPassword (o_password_hash o) password) then fail ErrInvalidCredentials
      else createSession (o_id o)
  end.

Definition ValidateSession (rawToken : string) : MO Owner :=
  row ← wrapping "lookup session" (query (session_join (hashToken rawToken)));
  match row with
  | None => fail ErrSessionNotFound
  | Some (s, o) =>
      t ← now;
      if bool_decide (os_expires_at s < t)%Z then fail ErrSessionNotFound
      else mret (owner_of o)
  end.

Definition Logout (rawToken : string) : MO unit :=
  wrapping "delete session" (delete_sessions (fun r => os_token_hash r = hashToken rawToken)) ;;
  mret tt.

Definition PurgeExpiredSessions : MO Z :=
  t ← now;
  wrapping "purge expired owner sessions" (delete_sessions (fun r => (os_expires_at r <= t)%Z)).

Definition created_before (a b : OwnerRow) : Prop := (o_created_at a <= o_created_at b)%Z.
#[local] Instance created_before_dec : RelDecision created_before.
Proof. intros a b. unfold created_before. apply _. Defined.

Definition ListOwners : MO (list Owner) :=
  wrapping "list owners" (query (fun d => owner_of <$> merge_sort created_before (owner_users d))).

(** The body of the transaction: look up, guard the last owner, delete. *)
Definition delete_owner_body (id : string) : MO Owner :=
  row ← wrapping "lookup owner" (select_owner id);
  match row with
  | None => fail ErrOwnerNotFound
  | Some r =>
      let target := owner_of r in
      (if bool_decide (ORole target = RoleOwner) then
         ownerCount ← wrapping "count owners" (query count_owners);
         if bool_decide (ownerCount <= 1) then fail ErrLastOwner else mret tt
       else mret tt) ;;
      wrapping "delete owner" (update (fun d => (tt, delete_owner_cascade id d))) ;;
      mret target
  end.

Definition DeleteOwner (id : string) : MO Owner :=
  transaction (Wrap "begin tx") (Wrap "commit") (delete_owner_body id).

End service.

End OwnerAuth.
