(* ===== verification/OwnerAuthFacts.v ===== *)
(** * The owner plane: theorems

    The owner tables stay well formed, at least one account with the owner role
    always remains, and an account can only be created without one being signed
    in while there is none. *)

From S2P Require Import Prelude GoStrings Encoding Schema Auth OwnerAuth.

Module OwnerAuthFacts.
Import OwnerAuth.

(** The tables are well formed and somebody can administer the deployment. *)
Definition administered (d : OwnerDb) : Prop := owners_ok d /\ 0 < count_owners d.

Lemma insert_owner_keeps id email hash role : within (keeps administered) (insert_owner id email hash role).
Proof.
  unfold insert_owner. within_solve. case_bool_decide as Hid; [done|].
  case_bool_decide as He; [done|]. injection H as _ <-. intros [[] Hc]. split.
  - split; simpl; try done; [by apply unique_on_insert..|].
    eapply Forall_key_mono; [|done]. intros k Hk. rewrite fmap_app. apply elem_of_app. by left.
  - unfold count_owners in *. simpl. rewrite filter_app, length_app. lia.
Qed.

Lemma owner_insert_session_keeps id oid hash t : within (keeps administered) (insert_session id oid hash t).
Proof.
  unfold insert_session. within_solve. case_bool_decide; [done|].
  case_bool_decide as Hh; [done|]. case_bool_decide as Hu; [done|]. injection H as _ <-. intros [[] Hc].
  split; [|done]. split; simpl; try done; [by apply unique_on_insert|].
  apply Forall_app. split; [done|]. by constructor.
Qed.

Lemma owner_delete_sessions_keeps P `{!forall r, Decision (P r)} : within (keeps administered) (delete_sessions P).
Proof.
  unfold delete_sessions. within_solve. intros [[] Hc]. split; [|done]. split; simpl; try done.
  - by apply unique_on_filter.
  - by apply Forall_filter_sub.
Qed.

Section facts.
Context {bcrypt : Bcrypt}.

Lemma delete_owner_body_ok id w o w' :
  delete_owner_body id w = (Ok o, w') ->
  exists r, r ∈ owner_users (w_db w) /\ o_id r = id /\ o = owner_of r /\
    (o_role r = RoleOwner -> 1 < count_owners (w_db w)) /\
    w_db w' = delete_owner_cascade id (w_db w).
Proof.
  intros H. unfold delete_owner_body, select_owner in H.
  apply bind_ok in H as (row & w1 & [-> E1]%map_err_ok%query_ok & H).
  destruct (find_row _ _) as [r|] eqn:F; [|by run_inv]. apply find_row_Some in F as [Hin Hid].
  apply bind_ok in H as ([] & w2 & H2 & H).
  assert (w_db w2 = w_db w1 /\ (o_role r = RoleOwner -> 1 < count_owners (w_db w))) as [E2 Hc].
  { simpl in H2. case_bool_decide as Hr.
    - apply bind_ok in H2 as (n & w3 & [-> E3]%map_err_ok%query_ok & H2).
      case_bool_decide as Hn; [by run_inv|]. apply mret_ok in H2 as [_ ->]. split; [done|].
      rewrite <- E1. lia.
    - by apply mret_ok in H2 as [_ ->]. }
  apply bind_ok in H as ([] & w4 & H4%map_err_ok%update_ok & H). apply mret_ok in H as [-> ->].
  injection H4 as H4. exists r. split_and!; try done. by rewrite <- H4, E2, E1.
Qed.

(** Deleting an owner is refused for the last one and for an unknown account,
    then leaving every row as it was; otherwise the account and its sessions go
    and nothing else does. *)
Theorem DeleteOwner_spec id w :
  match DeleteOwner id w with
  | (Err _, w') => w_db w' = w_db w
  | (Ok o, w') =>
      exists r, r ∈ owner_users (w_db w) /\ o_id r = id /\ o = owner_of r /\
        (o_role r = RoleOwner -> 1 < count_owners (w_db w)) /\
        owner_users (w_db w') = filter (fun x => o_id x <> id) (owner_users (w_db w)) /\
        owner_sessions (w_db w') = filter (fun x => os_owner_id x <> id) (owner_sessions (w_db w))
  end.
Proof.
  destruct (DeleteOwner id w) as [[o|e] w'] eqn:H.
  - apply transaction_ok in H as (w1 & w2 & E1 & H & E2).
    apply delete_owner_body_ok in H as (r & F1 & F2 & F3 & F4 & F5).
    exists r. rewrite E2, F5, E1 in *. done.
  - by apply transaction_err in H.
Qed.

Lemma delete_cascade_ok id d : owners_ok d -> owners_ok (delete_owner_cascade id d).
Proof.
  intros []. split; simpl; try by apply unique_on_filter.
  apply Forall_forall. intros s [Hs Hin]%list_elem_of_filter.
  rewrite Forall_forall in ook_session_owner. specialize (ook_session_owner s Hin).
  apply list_elem_of_fmap in ook_session_owner as (r & Hr & Hrin). rewrite Hr in *.
  apply list_elem_of_fmap_2, list_elem_of_filter. done.
Qed.

Lemma delete_keeps_owner id d r :
  owners_ok d -> r ∈ owner_users d -> o_id r = id ->
  (o_role r = RoleOwner -> 1 < count_owners d) -> 0 < count_owners d ->
  0 < count_owners (delete_owner_cascade id d).
Proof.
  intros Hok Hin Hid Hlast Hc. unfold count_owners in *. simpl.
  pose proof (filter_delete_length o_id (fun x => o_role x = RoleOwner) (owner_users d) id (ook_id _ Hok)) as Hlen.
  destruct (decide (o_role r = RoleOwner)) as [Hr|Hr]; [specialize (Hlast Hr); lia|].
  rewrite (list_filter_filter (fun x => o_role x = RoleOwner)).
  rewrite (filter_ext_in _ (fun x => o_role x = RoleOwner)); [done|].
  intros x Hx. split; [tauto|]. intros Hxr. split; [done|]. intros Hxid.
  apply Hr. by rewrite <- (unique_on_eq o_id _ x r (ook_id _ Hok) Hx Hin) by congruence.
Qed.

Inductive op : Type :=
| OBootstrap (email password : string)
| OCreate (email password role : string)
| OLogin (email password : string)
| OValidate (token : string)
| OLogout (token : string)
| OPurge
| OGet (id : string)
| OList
| ODelete (id : string).

Definition run_op (o : op) : M OwnerDb unit :=
  match o with
  | OBootstrap e p => attempt (Bootstrap e p) ;; mret tt
  | OCreate e p r => attempt (CreateOwner e p r) ;; mret tt
  | OLogin e p => attempt (Login e p) ;; mret tt
  | OValidate t => attempt (ValidateSession t) ;; mret tt
  | OLogout t => attempt (Logout t) ;; mret tt
  | OPurge => attempt PurgeExpiredSessions ;; mret tt
  | OGet i => attempt (GetOwner i) ;; mret tt
  | OList => attempt ListOwners ;; mret tt
  | ODelete i => attempt (DeleteOwner i) ;; mret tt
  end.

Lemma DeleteOwner_keeps id : within (keeps administered) (DeleteOwner id).
Proof.
  intros w [Hok Hc]. pose proof (DeleteOwner_spec id w) as H.
  destruct (DeleteOwner id w) as [[o|e] w']; simpl; [|by rewrite H].
  destruct H as (r & H1 & H2 & _ & H3 & H4 & H5).
  assert (w_db w' = delete_owner_cascade id (w_db w)) as ->.
  { destruct (w_db w'). simpl in *. subst. done. }
  split; [by apply delete_cascade_ok|by eapply delete_keeps_owner].
Qed.

Lemma owner_run_op_keeps o : within (keeps administered) (run_op o).
Proof.
  destruct o; unfold run_op, Bootstrap, CreateOwner, createOwner, Login, ValidateSession, Logout,
    PurgeExpiredSessions, GetOwner, ListOwners, createSession, select_owner, hashPassword, randomToken;
    within_solve; auto using insert_owner_keeps, owner_insert_session_keeps, owner_delete_sessions_keeps, DeleteOwner_keeps.
Qed.

(** The team can never lock itself out: from a state with an account of the
    owner role, whatever operations are run and whatever fails, one remains. *)
Theorem owners_never_locked_out ops (w : World OwnerDb) :
  administered (w_db w) -> administered (w_db (for_each run_op ops w).2).
Proof. apply (within_for_each (keeps administered)). intros o _. apply owner_run_op_keeps. Qed.

(** Bootstrapping does nothing once there is an account; when it succeeds it
    makes the first one, with the owner role. *)
Theorem Bootstrap_once email password w :
  match Bootstrap email password w with
  | (Ok o, w') => owner_users (w_db w) = [] /\ ORole o = RoleOwner /\ count_owners (w_db w') = 1
  | (Err e, w') => owner_users (w_db w) <> [] -> w_db w' = w_db w
  end.
Proof.
  destruct (Bootstrap email password w) as [[o|e] w'] eqn:H; unfold Bootstrap in H.
  - apply bind_ok in H as (n & w1 & [-> E1]%map_err_ok%query_ok & H).
    case_bool_decide as Hn; [by run_inv|].
    destruct (owner_users (w_db w)) as [|r l] eqn:E; [|simpl in Hn; lia]. split; [done|].
    unfold createOwner in H. destruct (negb _); [by run_inv|]. case_bool_decide; [by run_inv|].
    apply bind_ok in H as (hash & w2 & H2%map_err_ok & H).
    assert (w_db w2 = w_db w1) as E2.
    { assert (within eq (hashPassword (D := OwnerDb) password)) as Hw by (unfold hashPassword; within_solve).
      specialize (Hw w1). by rewrite H2 in Hw. }
    apply bind_ok in H as (id & w3 & H3 & H).
    assert (w_db w3 = w_db w2) as E3.
    { pose proof (within_new_uuid (D := OwnerDb) eq w2) as Hw. by rewrite H3 in Hw. }
    apply bind_ok in H as ([] & w4 & H4%map_err_ok%exec_at_ok & H).
    rewrite E3, E2, E1, E in H4. rewrite !bool_decide_false in H4 by apply not_elem_of_nil.
    injection H4 as H4. unfold GetOwner, select_owner in H.
    apply bind_ok in H as (row & w5 & [-> E5]%map_err_ok%query_ok & H).
    rewrite <- H4 in H. simpl in H. rewrite E in H. simpl in H.
    unfold find_row in H. rewrite filter_cons_True in H by done. simpl in H.
    apply mret_ok in H as [-> ->]. rewrite E5, <- H4. unfold count_owners. simpl. rewrite E. done.
  - intros Hne. apply bind_err in H as [H|(n & w1 & [-> E1]%map_err_ok%query_ok & H)].
    { unfold wrapping, map_err in H. destruct (query _ w) as [[?|?] ?] eqn:E; [done|].
      injection H as _ <-. by apply exec_at_err in E. }
    rewrite bool_decide_true in H; [by injection H as _ <-|].
    destruct (owner_users (w_db w)); [done|simpl; lia].
Qed.

End facts.

(** ** Witnesses *)

#[local] Instance toy_bcrypt : Bcrypt := {|
  GenerateFromPassword _ pw := inr ("h:" +:+ pw);
  CompareHashAndPassword h pw := bool_decide (h = "h:" +:+ pw);
|}.

Definition sample_owners : OwnerDb :=
  mkOwnerDb [mkOwnerRow "o1" "root@example.com" "h:password" RoleOwner 0 0;
             mkOwnerRow "o2" "dev@example.com" "h:password" RoleDeveloper 0 0]
            [mkOwnerSessionRow "os1" "o2" (hashToken "cookie") 0 (7 * day)].

Lemma owners_never_locked_out_witness :
  administered (w_db (for_each run_op [ODelete "o1"; ODelete "o2"; OCreate "x@example.com" "password" "admin"]
                       (sample_world 0 sample_owners)).2).
Proof. apply owners_never_locked_out. split; [split; evaluate|vm_compute; lia]. Defined.

Example last_owner_refused :
  (DeleteOwner "o1" (sample_world 0 sample_owners)).1 = Err ErrLastOwner.
Proof. vm_compute. reflexivity. Qed.

End OwnerAuthFacts.
