(* ===== verification/OAuth.v ===== *)
(** * The authorization server

    Models src/internal/oauth: the storage behind the token endpoints, the consent
    records, the browser-facing authorize endpoint and the key store.  The
    protocol itself is Fosite's, a third-party library: [Provider] is what the
    handlers call of it.  Serialization to JSON columns is left implicit. *)

From S2P Require Import Prelude GoStrings Encoding Schema Auth.

Module OAuth.

Abbreviation MD := (M Database).

(** Errors of Fosite that the storage reports. *)
Definition ErrNotFound : error := Sentinel "fosite.ErrNotFound" "not_found".
Definition ErrInactiveToken : error := Sentinel "fosite.ErrInactiveToken" "token_inactive".
Definition ErrInvalidatedAuthorizeCode : error :=
  Sentinel "fosite.ErrInvalidatedAuthorizeCode" "Authorization code has ben invalidated".
Definition ErrJTIKnown : error := Sentinel "fosite.ErrJTIKnown" "jti_known".

(** ** Clients *)

Record dbClient : Type := mkDbClient {
  ID : string; Secret : option string; Public : bool; RedirectURIs : list string;
  GrantTypes : list string; ResponseTypes : list string; Scopes : list string;
}.

Definition AllowedScopes : list string :=
  ["profile"; "records:read"; "records:write"; "files:read"; "files:write"; "offline_access"].

Definition isAllowedScope (scope : string) : bool := existsb (fun s => bool_decide (s = scope)) AllowedScopes.

Definition client_of (r : ClientRow) : dbClient :=
  mkDbClient (c_id r) (c_secret_hash r) (c_public r) (c_redirect_uris r) (c_grant_types r)
    (c_response_types r) (c_scopes r).

Definition GetClient (id : string) : MD dbClient :=
  row ← wrapping ("lookup oauth client " +:+ id)
          (query (fun d => find_row (fun r => c_id r = id) (oauth_clients (oauth d))));
  match row with
  | None => fail ErrNotFound
  | Some r => mret (client_of r)
  end.

Definition insertClient (id : string) (secretHash : option string) (isPublic : bool) (authMethod name : string)
    (redirectURIs grantTypes responseTypes scopes : list string) : MD unit :=
  exec_at (fun clk d =>
    if bool_decide (id ∈ c_id <$> oauth_clients (oauth d)) then inl (unique_failed "oauth_clients.id")
    else inr (tt, put_oauth (set_clients (fun l => l ++ [mkClientRow id secretHash name redirectURIs grantTypes
                    responseTypes scopes authMethod isPublic (current_timestamp clk)]) (oauth d)) d)).

(** ** Assertions *)

Definition ClientAssertionJWTValid (jti : string) : MD unit :=
  row ← query (fun d => find_row (fun r => jti_id r = jti) (oauth_client_jti (oauth d)));
  match row with
  | None => mret tt
  | Some r =>
      t ← now;
      if bool_decide (jti_expires_at r < t)%Z then mret tt else fail ErrJTIKnown
  end.

Definition SetClientAssertionJWT (jti : string) (exp : Z) : MD unit :=
  t ← now;
  update (fun d => (tt, put_oauth (set_jti (filter (fun r => ~ (jti_expires_at r < t)%Z)) (oauth d)) d)) ;;
  exec (fun d =>
    if bool_decide (jti ∈ jti_id <$> oauth_client_jti (oauth d)) then inl (unique_failed "oauth_client_jti.jti")
    else inr (tt, put_oauth (set_jti (fun l => l ++ [mkJtiRow jti exp]) (oauth d)) d)).

(** ** Codes and tokens *)

(** What Fosite hands over and gets back. *)
Record Requester : Type := mkRequester {
  RequestID : string; RequestedAt : Z; ClientID : string;
  RequestedScope : list string; GrantedScope : list string; Form : list (string * string);
  RequestedAudience : list string; GrantedAudience : list string; Session : JWTSession;
}.

Record Hydrated : Type := mkHydrated { request : Requester; client : dbClient }.

Definition table_name (t : GrantTable) : string :=
  match t with
  | AuthorizeCodes => "oauth_authorize_codes"
  | AccessTokens => "oauth_access_tokens"
  | RefreshTokens => "oauth_refresh_tokens"
  | PKCERequests => "oauth_pkce_requests"
  end.

Definition grants (t : GrantTable) (d : Database) : list GrantRow := oauth_grants (oauth d) t.
Definition on_grants (t : GrantTable) (f : list GrantRow -> list GrantRow) (d : Database) : Database :=
  put_oauth (set_grants t f (oauth d)) d.

Definition storedRequest (r : Requester) : StoredRequest :=
  mkStoredRequest (RequestID r) (RequestedAt r) (RequestedScope r) (GrantedScope r) (Form r)
    (RequestedAudience r) (GrantedAudience r).

Definition insert (t : GrantTable) (signature : string) (r : Requester) : MD unit :=
  wrapping ("insert into " +:+ table_name t)
    (exec_at (fun clk d =>
      if bool_decide (signature ∈ g_signature <$> grants t d) then inl (unique_failed (table_name t +:+ ".signature"))
      else if bool_decide (ClientID r ∉ c_id <$> oauth_clients (oauth d)) then inl foreign_key_failed
      else inr (tt, on_grants t (fun l => l ++ [mkGrantRow signature (RequestID r) (ClientID r) (storedRequest r)
                      (Session r) true (current_timestamp clk)]) d))).

Definition select_grant (t : GrantTable) (signature : string) : MD (option GrantRow) :=
  query (fun d => find_row (fun r => g_signature r = signature) (grants t d)).

Definition hydrate (row : GrantRow) : MD Hydrated :=
  c ← GetClient (g_client_id row);
  let sr := g_requester row in
  mret (mkHydrated (mkRequester (sr_ID sr) (sr_RequestedAt sr) (ID c) (sr_RequestedScope sr) (sr_GrantedScope sr)
          (sr_Form sr) (sr_RequestedAudience sr) (sr_GrantedAudience sr) (g_session row)) c).

Definition getByTable (t : GrantTable) (signature : string) : MD Hydrated :=
  row ← select_grant t signature;
  match row with
  | None => fail ErrNotFound
  | Some r => hydrate r
  end.

(** The requester, next to the error when it is no longer active. *)
Definition get_active (t : GrantTable) (inactive : error) (signature : string) : MD (Hydrated * option error) :=
  row ← select_grant t signature;
  match row with
  | None => fail ErrNotFound
  | Some r =>
      h ← hydrate r;
      mret (h, if g_active r then None else Some inactive)
  end.

Definition delete_grants (t : GrantTable) (P : GrantRow -> Prop) `{!forall r, Decision (P r)} : MD unit :=
  update (fun d => (tt, on_grants t (filter (fun r => ~ P r)) d)).

Definition deactivate (P : GrantRow -> Prop) `{!forall r, Decision (P r)} (r : GrantRow) : GrantRow :=
  if decide (P r) then
    mkGrantRow (g_signature r) (g_request_id r) (g_client_id r) (g_requester r) (g_session r) false (g_created_at r)
  else r.

(** UPDATE t SET active = 0 WHERE P: the number of rows. *)
Definition update_inactive (t : GrantTable) (P : GrantRow -> Prop) `{!forall r, Decision (P r)} : MD nat :=
  update (fun d => (length (filter P (grants t d)), on_grants t (fmap (deactivate P)) d)).

Definition CreateAuthorizeCodeSession (code : string) (r : Requester) : MD unit := insert AuthorizeCodes code r.
Definition GetAuthorizeCodeSession (code : string) : MD (Hydrated * option error) :=
  get_active AuthorizeCodes ErrInvalidatedAuthorizeCode code.
Definition InvalidateAuthorizeCodeSession (code : string) : MD unit :=
  update_inactive AuthorizeCodes (fun r => g_signature r = code) ;; mret tt.

Definition CreateAccessTokenSession (signature : string) (r : Requester) : MD unit := insert AccessTokens signature r.
Definition GetAccessTokenSession (signature : string) : MD Hydrated := getByTable AccessTokens signature.
Definition DeleteAccessTokenSession (signature : string) : MD unit :=
  delete_grants AccessTokens (fun r => g_signature r = signature).

Definition CreateRefreshTokenSession (signature : string) (r : Requester) : MD unit := insert RefreshTokens signature r.
Definition GetRefreshTokenSession (signature : string) : MD (Hydrated * option error) :=
  get_active RefreshTokens ErrInactiveToken signature.
Definition DeleteRefreshTokenSession (signature : string) : MD unit :=
  delete_grants RefreshTokens (fun r => g_signature r = signature).

Definition RotateRefreshToken (requestID refreshTokenSignature : string) : MD unit :=
  n ← update_inactive RefreshTokens
        (fun r => g_signature r = refreshTokenSignature /\ g_request_id r = requestID /\ g_active r = true);
  if bool_decide (n = 0) then fail ErrInactiveToken else mret tt.

Definition RevokeRefreshToken (requestID : string) : MD unit :=
  delete_grants RefreshTokens (fun r => g_request_id r = requestID).
Definition RevokeAccessToken (requestID : string) : MD unit :=
  delete_grants AccessTokens (fun r => g_request_id r = requestID).

Definition CreatePKCERequestSession (signature : string) (r : Requester) : MD unit := insert PKCERequests signature r.
Definition GetPKCERequestSession (signature : string) : MD Hydrated := getByTable PKCERequests signature.
Definition DeletePKCERequestSession (signature : string) : MD unit :=
  delete_grants PKCERequests (fun r => g_signature r = signature).

Definition oauthGrantTables : list GrantTable := [AuthorizeCodes; AccessTokens; RefreshTokens; PKCERequests].

Definition RevokeForSubject (subject : string) : MD unit :=
  for_each (fun t => wrapping ("revoke " +:+ table_name t +:+ " for subject")
    (delete_grants t (fun r => js_Subject (g_session r) = subject))) oauthGrantTables.

Definition RevokeForSubjectAndClient (subject clientID : string) : MD unit :=
  for_each (fun t => wrapping ("revoke " +:+ table_name t +:+ " for subject/client")
    (delete_grants t (fun r => js_Subject (g_session r) = subject /\ g_client_id r = clientID))) oauthGrantTables.

Definition RevokeAllForSubject (subject : string) : MD unit := RevokeForSubject subject.

(** ** Consent *)

Record ConsentGrant : Type := mkConsentGrant { GClientID : string; GClientName : string; GScopes : list string }.

Definition consent_of (userID clientID : string) (r : ConsentRow) : Prop :=
  k_user_id r = userID /\ k_client_id r = clientID.
#[global] Instance consent_of_dec u c r : Decision (consent_of u c r).
Proof. unfold consent_of. apply _. Defined.

Definition getConsent (userID clientID : string) : MD (list string) :=
  row ← query (fun d => find_row (consent_of userID clientID) (oauth_consents (oauth d)));
  match row with
  | None => fail Auth.ErrNoRows
  | Some r => mret (k_scopes r)
  end.

(** Replaces the record, or makes one; the order of the set is unspecified. *)
Definition saveConsent (userID clientID : string) (scopes : list string) : MD unit :=
  exec_at (fun clk d =>
    let out := remove_dups scopes in
    let cs := oauth_consents (oauth d) in
    if bool_decide (Exists (consent_of userID clientID) cs) then
      inr (tt, put_oauth (set_consents (fmap (fun r =>
             if decide (consent_of userID clientID r)
             then mkConsentRow (k_user_id r) (k_client_id r) out (k_created_at r) else r)) (oauth d)) d)
    else if bool_decide (userID ∉ user_ids d) || bool_decide (clientID ∉ c_id <$> oauth_clients (oauth d)) then
      inl foreign_key_failed
    else inr (tt, put_oauth (set_consents (fun l => l ++ [mkConsentRow userID clientID out (current_timestamp clk)])
                               (oauth d)) d)).

(** ORDER BY client_name, client_id. *)
Definition consent_before (a b : ConsentGrant) : Prop :=
  if decide (GClientName a = GClientName b) then str_le (GClientID a) (GClientID b)
  else str_le (GClientName a) (GClientName b).
#[global] Instance consent_before_dec : RelDecision consent_before.
Proof. intros a b. unfold consent_before. destruct (decide _); apply _. Defined.

Definition ListConsents (subject : string) : MD (list ConsentGrant) :=
  wrapping "list consents" (query (fun d =>
    merge_sort consent_before
      (omap (fun k =>
         c ← find_row (fun c => c_id c = k_client_id k) (oauth_clients (oauth d));
         Some (mkConsentGrant (k_client_id k) (c_name c) (k_scopes k)))
       (filter (fun k => k_user_id k = subject) (oauth_consents (oauth d)))))).

Definition RevokeConsent (subject clientID : string) : MD unit :=
  wrapping "delete consent"
    (update (fun d => (tt, put_oauth (set_consents (filter (fun r => ~ consent_of subject clientID r)) (oauth d)) d))) ;;
  RevokeForSubjectAndClient subject clientID.

Definition scopesNotIn (have exclude : list string) : list string := filter (fun sc => sc ∉ exclude) have.

Definition grantedScopes (checked requested : list string) : list string :=
  filter (fun sc => isAllowedScope sc = true /\ sc ∈ requested) checked.

Definition scopeSetContainsAll (have want : list string) : bool :=
  forallb (fun w => bool_decide (w ∈ have)) want.

(** ** Keys *)

(** A key pair is named by its private half; DER round-trips. *)
Definition currentKey : MD (string * string) :=
  row ← query (fun d => find_row (fun r => key_is_current r = true) (oauth_signing_keys (oauth d)));
  match row with
  | None => fail Auth.ErrNoRows
  | Some r => mret (key_kid r, key_private_der r)
  end.

Definition retire (r : KeyRow) : KeyRow := mkKeyRow (key_kid r) (key_private_der r) false (key_created_at r).

(** The statements of its transaction. *)
Definition rotate_tx (kid key : string) : MD unit :=
  update (fun d => (tt, put_oauth (set_keys (fmap retire) (oauth d)) d)) ;;
  exec_at (fun clk d =>
    if bool_decide (kid ∈ key_kid <$> oauth_signing_keys (oauth d)) then inl (unique_failed "oauth_signing_keys.kid")
    else inr (tt, put_oauth (set_keys (fun l => l ++ [mkKeyRow kid key true (current_timestamp clk)]) (oauth d)) d)).

Definition rotate : MD (string * string) :=
  key ← wrapping "generate rsa key" rand_read;
  kid ← new_uuid;
  transaction id id (rotate_tx kid key) ;;
  mret (kid, key).

Definition EnsureKey : MD (string * string) :=
  r ← attempt currentKey;
  match r with
  | Ok k => mret k
  | Err e => if negb (errors_Is e Auth.ErrNoRows) then fail e else rotate
  end.

Definition KeyGetter : MD string := k ← EnsureKey; mret k.2.

Definition EnsureHMACSecret : MD string :=
  row ← query (fun d => oauth_hmac_secret (oauth d));
  match row with
  | Some secret => mret secret
  | None =>
      secret ← wrapping "generate hmac secret" rand_read;
      wrapping "persist hmac secret"
        (exec (fun d => match oauth_hmac_secret (oauth d) with
                        | Some _ => inl (unique_failed "oauth_hmac_secret.id")
                        | None => inr (tt, put_oauth (set_hmac (Some secret) (oauth d)) d)
                        end)) ;;
      mret secret
  end.

(** The published keys: identifier and key pair, of which the public half goes out. *)
Definition JWKS : MD (list (string * string)) :=
  query (fun d => (fun r => (key_kid r, key_private_der r)) <$> oauth_signing_keys (oauth d)).

(** ** The authorize endpoint *)

Record AuthorizeRequest : Type := mkAuthorizeRequest {
  AClient : string; ARequestedScopes : list string; AGrantedScopes : list string;
}.

(** Fosite: parsing and validating an authorization request, and issuing its code. *)
Class Provider := {
  NewAuthorizeRequest : string -> M Database AuthorizeRequest;
  NewAuthorizeResponse : AuthorizeRequest -> JWTSession -> M Database string;
}.

(** What the browser gets. *)
Inductive Page : Type :=
| LoginPage (rawQuery errMsg : string)
| ConsentPage (rawQuery mail : string) (requested previouslyGranted : list string)
| AuthorizeError (e : error)
| Redirected (ar : AuthorizeRequest) (session : JWTSession) (response : string)
| Status (code : Z) (msg : string).

Definition internal_error : Page := Status 500 "internal error".

Record AuthorizeForm : Type := mkAuthorizeForm {
  oauth_request : string; step : string; email : string; password : string;
  decision : string; granted : list string; keep : list string;
}.

(** Fosite: the bearer token of a request, and its introspection against the
    stored tokens, for a scope. *)
Class Introspection := {
  AccessTokenFromRequest : string -> string;
  IntrospectToken : string -> string -> M Database JWTSession;
}.

(** The subject the access token was issued for. *)
Definition Authenticate {introspection : Introspection} (token scope : string) : MD string :=
  session ← wrapping "invalid or insufficient token" (IntrospectToken token scope);
  mret (js_Subject session).

Section authorize.
Context {bcrypt : Bcrypt} {provider : Provider}.
Variable Issuer : string.

(** The value of the session cookie, if any. *)
Definition currentUser (cookie : option string) : MD (option Auth.User) :=
  match cookie with
  | None => mret None
  | Some token =>
      r ← attempt (zoom identity put_identity (Auth.ValidateSession token));
      mret (match r with Ok u => Some u | Err _ => None end)
  end.

Definition GrantScope (ar : AuthorizeRequest) (sc : string) : AuthorizeRequest :=
  mkAuthorizeRequest (AClient ar) (ARequestedScopes ar)
    (if bool_decide (sc ∈ AGrantedScopes ar) then AGrantedScopes ar else AGrantedScopes ar ++ [sc]).

Definition newSession (t : Z) (kid issuer userID mail : string) : JWTSession :=
  mkJWTSession userID mail issuer t mail kid.

Definition finishAuthorize (ar0 : AuthorizeRequest) (user : Auth.User) (scopes : list string) : MD Page :=
  let ar := foldl GrantScope ar0 scopes in
  try_or (fun _ => internal_error) EnsureKey (fun k =>
    t ← now;
    let session := newSession t k.1 Issuer (Auth.ID user) (Auth.Email user) in
    try_or AuthorizeError (NewAuthorizeResponse ar session) (fun resp => mret (Redirected ar session resp))).

(** [urlQuery] is [r.URL.RawQuery]. *)
Definition continueAuthorize (urlQuery : string) (ar : AuthorizeRequest) (user : Auth.User) : MD Page :=
  let requested := ARequestedScopes ar in
  r ← attempt (getConsent (Auth.ID user) (AClient ar));
  match r with
  | Ok existing =>
      if scopeSetContainsAll existing requested then finishAuthorize ar user requested
      else mret (ConsentPage urlQuery (Auth.Email user) requested (scopesNotIn existing requested))
  | Err _ => mret (ConsentPage urlQuery (Auth.Email user) requested (scopesNotIn [] requested))
  end.

Definition handleAuthorizeGET (rawQuery : string) (cookie : option string) : MD Page :=
  try_or AuthorizeError (NewAuthorizeRequest rawQuery) (fun ar =>
    user ← currentUser cookie;
    match user with
    | None => mret (LoginPage rawQuery EmptyString)
    | Some u => continueAuthorize rawQuery ar u
    end).

Definition login_step (urlQuery : string) (ar : AuthorizeRequest) (form : AuthorizeForm) : MD Page :=
  try_or (fun _ => LoginPage (oauth_request form) "invalid email or password")
    (zoom identity put_identity (Auth.Login (email form) (password form))) (fun sess =>
  try_or (fun _ => LoginPage (oauth_request form) "please try again")
    (zoom identity put_identity (Auth.ValidateSession (Auth.Token sess))) (fun user =>
  continueAuthorize urlQuery ar user)).

Definition consent_step (ar : AuthorizeRequest) (form : AuthorizeForm) (cookie : option string) : MD Page :=
  user ← currentUser cookie;
  match user with
  | None => mret (LoginPage (oauth_request form) "your session expired, please sign in again")
  | Some u =>
      if negb (bool_decide (decision form = "allow")) then
        mret (AuthorizeError (Sentinel "fosite.ErrAccessDenied" "access_denied"))
      else
        let granted_now := grantedScopes (granted form) (ARequestedScopes ar) in
        r ← attempt (getConsent (Auth.ID u) (AClient ar));
        let existing := match r with Ok l => l | Err _ => [] end in
        let keepable := scopesNotIn existing (ARequestedScopes ar) in
        let kept := grantedScopes (keep form) keepable in
        try_or (fun _ => internal_error) (saveConsent (Auth.ID u) (AClient ar) (granted_now ++ kept)) (fun _ =>
          finishAuthorize ar u granted_now)
  end.

Definition handleAuthorizePOST (urlQuery : string) (form : AuthorizeForm) (cookie : option string) : MD Page :=
  try_or AuthorizeError (NewAuthorizeRequest (oauth_request form)) (fun ar =>
    if bool_decide (step form = "login") then login_step urlQuery ar form
    else if bool_decide (step form = "consent") then consent_step ar form cookie
    else mret (Status 400 "invalid step")).

End authorize.

End OAuth.
