(* ===== verification/OAuthFacts.v ===== *)
(** * The authorization server: theorems

    Refresh tokens are redeemed at most once, revocation is complete, the tables
    stay consistent, and the authorize endpoint grants nothing but what the
    signed-in user consented to. *)

From S2P Require Import Prelude GoStrings Encoding Schema Auth AuthFacts OAuth.

Module OAuthFacts.
Import OAuth.

(** ** The storage operations, as data *)

Inductive op : Type :=
| OpCreate (t : GrantTable) (signature : string) (r : Requester)
| OpRead (t : GrantTable) (signature : string)
| OpInvalidateCode (code : string)
| OpDelete (t : GrantTable) (signature : string)
| OpRotate (requestID signature : string)
| OpRevokeRefresh (requestID : string)
| OpRevokeAccess (requestID : string)
| OpRevokeSubject (subject : string)
| OpRevokeConsent (subject clientID : string)
| OpSaveConsent (userID clientID : string) (scopes : list string)
| OpRegister (id : string) (secret : option string) (public : bool) (method name : string)
             (uris gtypes rtypes scopes : list string)
| OpEnsureKey
| OpEnsureHMAC
| OpSetJTI (jti : string) (exp : Z)
| OpDeleteUser (id : string).

Definition ignore {A} (m : M Database A) : M Database unit := r ← attempt m; mret tt.

(** Every operation runs to its end; its error is the caller's business. *)
Definition run_op (o : op) : M Database unit :=
  match o with
  | OpCreate t sig r =>
      ignore (match t with
              | AuthorizeCodes => CreateAuthorizeCodeSession sig r
              | AccessTokens => CreateAccessTokenSession sig r
              | RefreshTokens => CreateRefreshTokenSession sig r
              | PKCERequests => CreatePKCERequestSession sig r
              end)
  | OpRead t sig =>
      match t with
      | AuthorizeCodes => ignore (GetAuthorizeCodeSession sig)
      | AccessTokens => ignore (GetAccessTokenSession sig)
      | RefreshTokens => ignore (GetRefreshTokenSession sig)
      | PKCERequests => ignore (GetPKCERequestSession sig)
      end
  | OpInvalidateCode code => ignore (InvalidateAuthorizeCodeSession code)
  | OpDelete t sig =>
      ignore (match t with
              | AuthorizeCodes => InvalidateAuthorizeCodeSession sig
              | AccessTokens => DeleteAccessTokenSession sig
              | RefreshTokens => DeleteRefreshTokenSession sig
              | PKCERequests => DeletePKCERequestSession sig
              end)
  | OpRotate req sig => ignore (RotateRefreshToken req sig)
  | OpRevokeRefresh req => ignore (RevokeRefreshToken req)
  | OpRevokeAccess req => ignore (RevokeAccessToken req)
  | OpRevokeSubject subject => ignore (RevokeAllForSubject subject)
  | OpRevokeConsent subject clientID => ignore (RevokeConsent subject clientID)
  | OpSaveConsent u c scopes => ignore (saveConsent u c scopes)
  | OpRegister id secret public method name uris gtypes rtypes scopes =>
      ignore (insertClient id secret public method name uris gtypes rtypes scopes)
  | OpEnsureKey => ignore EnsureKey
  | OpEnsureHMAC => ignore EnsureHMACSecret
  | OpSetJTI jti exp => ignore (SetClientAssertionJWT jti exp)
  | OpDeleteUser id => ignore (update (fun d => (tt, delete_user_cascade id d)))
  end.

Definition run_ops (ops : list op) : M Database unit := for_each run_op ops.

Lemma within_ignore {A} (R : relation Database) `{!PreOrder R} (m : MD A) : within R m -> within R (ignore m).
Proof. intros Hm. unfold ignore. within_solve. Qed.

(** ** The statements, as steps of the database

    [db_step allow] is one statement of the component taking effect; [allow t sig]
    says which rows an insertion may create.  An operation is a sequence of
    steps, wherever it stops ([run_op_steps]), so an invariant is proved by
    looking at each kind of step once. *)

Definition fresh_row (t : GrantTable) (allow : GrantTable -> string -> Prop) (r : GrantRow) (d : Database) : Prop :=
  allow t (g_signature r) /\ (g_signature r ∉ g_signature <$> grants t d) /\
  g_client_id r ∈ c_id <$> oauth_clients (oauth d).

Definition rotated (kid key : string) (t : Z) (l : list KeyRow) : list KeyRow :=
  (retire <$> l) ++ [mkKeyRow kid key true t].

Inductive db_step (allow : GrantTable -> string -> Prop) (d : Database) : Database -> Prop :=
| step_client r :
    c_id r ∉ c_id <$> oauth_clients (oauth d) ->
    db_step allow d (put_oauth (set_clients (fun l => l ++ [r]) (oauth d)) d)
| step_jti_expire t :
    db_step allow d (put_oauth (set_jti (filter (fun r => ~ (jti_expires_at r < t)%Z)) (oauth d)) d)
| step_jti r :
    jti_id r ∉ jti_id <$> oauth_client_jti (oauth d) ->
    db_step allow d (put_oauth (set_jti (fun l => l ++ [r]) (oauth d)) d)
| step_insert t r :
    fresh_row t allow r d -> db_step allow d (on_grants t (fun l => l ++ [r]) d)
| step_delete t P `{!forall r, Decision (P r)} :
    db_step allow d (on_grants t (filter (fun r => ~ P r)) d)
| step_deactivate t P `{!forall r, Decision (P r)} :
    db_step allow d (on_grants t (fmap (deactivate P)) d)
| step_reconsent f :
    (forall r, k_user_id (f r) = k_user_id r /\ k_client_id (f r) = k_client_id r) ->
    db_step allow d (put_oauth (set_consents (fmap f) (oauth d)) d)
| step_consent r :
    Forall (fun r' => ~ consent_of (k_user_id r) (k_client_id r) r') (oauth_consents (oauth d)) ->
    k_user_id r ∈ user_ids d -> k_client_id r ∈ c_id <$> oauth_clients (oauth d) ->
    db_step allow d (put_oauth (set_consents (fun l => l ++ [r]) (oauth d)) d)
| step_unconsent u c :
    db_step allow d (put_oauth (set_consents (filter (fun r => ~ consent_of u c r)) (oauth d)) d)
| step_rotate kid key t :
    kid ∉ key_kid <$> oauth_signing_keys (oauth d) ->
    db_step allow d (put_oauth (set_keys (rotated kid key t) (oauth d)) d)
| step_hmac secret :
    oauth_hmac_secret (oauth d) = None ->
    db_step allow d (put_oauth (set_hmac (Some secret) (oauth d)) d)
| step_delete_user id :
    db_step allow d (delete_user_cascade id d).

Lemma rotate_tx_ok kid key w u w' :
  rotate_tx kid key w = (Ok u, w') ->
  exists t, (kid ∉ key_kid <$> oauth_signing_keys (oauth (w_db w))) /\
    w_db w' = put_oauth (set_keys (rotated kid key t) (oauth (w_db w))) (w_db w).
Proof.
  unfold rotate_tx. intros H. run_inv. rewrite <- H1 in H.
  cbn [oauth put_oauth oauth_signing_keys set_keys] in H. rewrite (fmap_same key_kid retire) in H by done.
  destruct (decide (kid ∈ key_kid <$> oauth_signing_keys (oauth (w_db w)))) as [|Hn];
    [by rewrite bool_decide_eq_true_2 in H|].
  rewrite bool_decide_eq_false_2 in H by done. injection H as _ <-. eauto.
Qed.

Section steps.
Variable allow : GrantTable -> string -> Prop.
Abbreviation steps := (rtc (db_step allow)).

Lemma insert_steps t sig r : allow t sig -> within steps (insert t sig r).
Proof.
  intros Ha. apply within_map_err; [apply _|]. apply within_exec_at; [apply _|]. intros clk d a d' H.
  destruct (decide (sig ∈ g_signature <$> grants t d)) as [|Hs]; [by rewrite bool_decide_eq_true_2 in H|].
  rewrite bool_decide_eq_false_2 in H by done.
  destruct (decide (ClientID r ∈ c_id <$> oauth_clients (oauth d))) as [Hc|]; [|by rewrite bool_decide_eq_true_2 in H].
  rewrite bool_decide_eq_false_2 in H by tauto. injection H as _ <-. apply rtc_once.
  constructor. done.
Qed.

Lemma delete_grants_steps t P `{!forall r, Decision (P r)} : within steps (delete_grants t P).
Proof. apply within_update; [apply _|]. intros d. apply rtc_once. simpl. by constructor. Qed.

Lemma update_inactive_steps t P `{!forall r, Decision (P r)} : within steps (update_inactive t P).
Proof. apply within_update; [apply _|]. intros d. apply rtc_once. simpl. by constructor. Qed.

Lemma insertClient_steps id secret public method name uris gtypes rtypes scopes :
  within steps (insertClient id secret public method name uris gtypes rtypes scopes).
Proof.
  apply within_exec_at; [apply _|]. intros clk d a d' H.
  destruct (decide (id ∈ c_id <$> oauth_clients (oauth d))) as [|Hn]; [by rewrite bool_decide_eq_true_2 in H|].
  rewrite bool_decide_eq_false_2 in H by done. injection H as _ <-. apply rtc_once. by constructor.
Qed.

Lemma saveConsent_steps u c scopes : within steps (saveConsent u c scopes).
Proof.
  apply within_exec_at; [apply _|]. intros clk d a d' H. cbv zeta in H.
  destruct (decide (Exists (consent_of u c) (oauth_consents (oauth d)))) as [Hx|Hx].
  - rewrite bool_decide_eq_true_2 in H by done. injection H as _ <-. apply rtc_once.
    apply step_reconsent. intros r. by destruct (decide _).
  - rewrite bool_decide_eq_false_2 in H by done.
    destruct (decide (u ∈ user_ids d)) as [Hu|]; [|by rewrite bool_decide_eq_true_2 in H].
    destruct (decide (c ∈ c_id <$> oauth_clients (oauth d))) as [Hc|];
      [|by rewrite (bool_decide_eq_true_2 (c ∉ _)), orb_true_r in H].
    rewrite !bool_decide_eq_false_2 in H by tauto. injection H as _ <-. apply rtc_once.
    apply step_consent; [|done|done]. by apply not_Exists_Forall in Hx; [|apply _].
Qed.

Lemma rotate_steps : within steps rotate.
Proof.
  unfold rotate. apply within_bind; [apply _|within_solve|intros key].
  apply within_bind; [apply _|within_solve|intros kid].
  apply within_bind; [apply _| |within_solve].
  apply within_transaction_body; [apply _|]. intros w [] w' H.
  apply rotate_tx_ok in H as (t & Hn & ->). by apply rtc_once, step_rotate.
Qed.
End steps.
#[local] Hint Resolve delete_grants_steps update_inactive_steps insertClient_steps saveConsent_steps rotate_steps : within.

(** What an operation creates. *)
Definition allows (allow : GrantTable -> string -> Prop) (o : op) : Prop :=
  match o with OpCreate t sig _ => allow t sig | _ => True end.

Create HintDb oauth_ops.
#[local] Hint Unfold CreateAuthorizeCodeSession CreateAccessTokenSession CreateRefreshTokenSession
  CreatePKCERequestSession GetAuthorizeCodeSession GetAccessTokenSession GetRefreshTokenSession GetPKCERequestSession
  InvalidateAuthorizeCodeSession DeleteAccessTokenSession DeleteRefreshTokenSession DeletePKCERequestSession
  RotateRefreshToken RevokeRefreshToken RevokeAccessToken RevokeAllForSubject RevokeForSubject RevokeConsent
  RevokeForSubjectAndClient get_active getByTable select_grant hydrate GetClient EnsureKey currentKey
  EnsureHMACSecret SetClientAssertionJWT : oauth_ops.

Lemma run_op_steps allow o : allows allow o -> within (rtc (db_step allow)) (run_op o).
Proof.
  intros Ha. destruct o as [t sig' r|[]| |[]| | | | | | | | | | |]; cbn [run_op];
    try (apply within_ignore; [apply _|]); try (destruct t; apply insert_steps; exact Ha).
  all: autounfold with oauth_ops; within_solve.
  all: try (apply rtc_once; simpl; by constructor).
  - destruct (oauth_hmac_secret (oauth d)) eqn:E; [discriminate|]. injection H as _ <-. apply rtc_once. by constructor.
  - destruct (decide (jti ∈ jti_id <$> oauth_client_jti (oauth d))) as [|Hn]; [by rewrite bool_decide_eq_true_2 in H|].
    rewrite bool_decide_eq_false_2 in H by done. injection H as _ <-. apply rtc_once. by apply step_jti.
Qed.

Lemma run_ops_steps allow ops : Forall (allows allow) ops -> within (rtc (db_step allow)) (run_ops ops).
Proof.
  rewrite Forall_forall. intros Ha. apply within_for_each; [apply _|]. intros o Ho.
  by apply run_op_steps, Ha.
Qed.

(** ** Integrity of the tables *)

Record oauth_ok (d : Database) : Prop := {
  ok_client_id : unique_on c_id (oauth_clients (oauth d));
  ok_jti : unique_on jti_id (oauth_client_jti (oauth d));
  ok_signature : forall t, unique_on g_signature (grants t d);
  ok_grant_client : forall t, Forall (fun r => g_client_id r ∈ c_id <$> oauth_clients (oauth d)) (grants t d);
  ok_consent : unique_on (fun r => (k_user_id r, k_client_id r)) (oauth_consents (oauth d));
  ok_consent_user : Forall (fun r => k_user_id r ∈ user_ids d) (oauth_consents (oauth d));
  ok_consent_client : Forall (fun r => k_client_id r ∈ c_id <$> oauth_clients (oauth d)) (oauth_consents (oauth d));
  ok_kid : unique_on key_kid (oauth_signing_keys (oauth d));
  ok_current : length (filter (fun r => key_is_current r = true) (oauth_signing_keys (oauth d))) <= 1;
}.

Lemma update_inactive_ok t P `{HP : forall r, Decision (P r)} w n w' :
  update_inactive t P w = (Ok n, w') ->
  n = length (filter P (grants t (w_db w))) /\ w_db w' = on_grants t (fmap (deactivate P)) (w_db w).
Proof. intros H%update_ok. by injection H as <- <-. Qed.

Lemma delete_grants_ok t P `{HP : forall r, Decision (P r)} w u w' :
  delete_grants t P w = (Ok u, w') -> w_db w' = on_grants t (filter (fun r => ~ P r)) (w_db w).
Proof. intros H%update_ok. by injection H as _ <-. Qed.

Lemma grants_on_grants t f t' d :
  grants t' (on_grants t f d) = if decide (t' = t) then f (grants t' d) else grants t' d.
Proof. done. Qed.

Lemma deactivate_signature P `{!forall r, Decision (P r)} r : g_signature (deactivate P r) = g_signature r.
Proof. unfold deactivate. by destruct (decide _). Qed.

Lemma deactivate_client P `{!forall r, Decision (P r)} r : g_client_id (deactivate P r) = g_client_id r.
Proof. unfold deactivate. by destruct (decide _). Qed.

(** A property of every grant table survives a change of one of them. *)
Lemma all_grants_on (Q : list GrantRow -> Prop) t f d :
  (forall t', Q (grants t' d)) -> Q (f (grants t d)) -> forall t', Q (grants t' (on_grants t f d)).
Proof. intros Hq Hf t'. rewrite grants_on_grants. by destruct (decide _) as [->|]. Qed.

Lemma grants_ok t f d :
  oauth_ok d -> unique_on g_signature (f (grants t d)) ->
  Forall (fun r => g_client_id r ∈ c_id <$> oauth_clients (oauth d)) (f (grants t d)) ->
  oauth_ok (on_grants t f d).
Proof.
  intros [] Hu Hc. split; try done.
  - by apply (all_grants_on (unique_on g_signature)).
  - by apply (all_grants_on (Forall (fun r => g_client_id r ∈ c_id <$> oauth_clients (oauth d)))).
Qed.

Lemma consents_ok f d :
  oauth_ok d -> unique_on (fun r => (k_user_id r, k_client_id r)) (f (oauth_consents (oauth d))) ->
  Forall (fun r => k_user_id r ∈ user_ids d) (f (oauth_consents (oauth d))) ->
  Forall (fun r => k_client_id r ∈ c_id <$> oauth_clients (oauth d)) (f (oauth_consents (oauth d))) ->
  oauth_ok (put_oauth (set_consents f (oauth d)) d).
Proof. by intros [] Hu Hs Hc. Qed.

Lemma rotated_current kid key t l :
  length (filter (fun r => key_is_current r = true) (rotated kid key t l)) = 1.
Proof.
  unfold rotated. rewrite filter_app, (filter_none _ (retire <$> l)); [done|].
  apply Forall_fmap, Forall_true. done.
Qed.

Lemma rotated_kids kid key t l : key_kid <$> rotated kid key t l = (key_kid <$> l) ++ [kid].
Proof. unfold rotated. rewrite fmap_app. by rewrite (fmap_same key_kid retire). Qed.

Lemma db_step_ok allow d d' : db_step allow d d' -> oauth_ok d -> oauth_ok d'.
Proof.
  intros Hs Hok. pose proof Hok as [Hid Hjti Hsig Hgc Hcon Hcu Hcc Hkid Hcur]. destruct Hs as [r Hn|t|r Hn|t r (_ & Hn & Hc)|t P HP|t P HP|f Hf|r Hn Hu Hc|u c|kid key t Hn|secret Hn|id].
  - split; try done; cbn [put_oauth oauth set_clients oauth_clients].
    + by apply unique_on_insert.
    + intros t. eapply Forall_key_mono, Hgc. set_solver.
    + eapply Forall_key_mono, Hcc. set_solver.
  - split; try done. by apply unique_on_filter.
  - split; try done. by apply unique_on_insert.
  - apply grants_ok; [done|by apply unique_on_insert|]. apply Forall_app. by repeat constructor.
  - apply grants_ok; [done|by apply unique_on_filter|by apply Forall_filter_sub].
  - apply grants_ok; [done|by apply unique_on_map; [intros; apply deactivate_signature|]|].
    apply Forall_fmap. eapply Forall_impl; [apply Hgc|]. intros x Hx. simpl. by rewrite deactivate_client.
  - apply consents_ok; [done| | |].
    + apply unique_on_map; [|done]. intros x. by destruct (Hf x) as [-> ->].
    + apply Forall_fmap. eapply Forall_impl; [exact Hcu|]. intros x Hx. simpl. by rewrite (proj1 (Hf x)).
    + apply Forall_fmap. eapply Forall_impl; [exact Hcc|]. intros x Hx. simpl. by rewrite (proj2 (Hf x)).
  - apply consents_ok; [done| |apply Forall_app; by repeat constructor|apply Forall_app; by repeat constructor].
    apply unique_on_snoc; [done|]. intros y Hy [=]. rewrite Forall_forall in Hn. by apply (Hn y).
  - apply consents_ok; [done|by apply unique_on_filter|by apply Forall_filter_sub|by apply Forall_filter_sub].
  - split; try done; cbn [put_oauth oauth set_keys oauth_signing_keys].
    + unfold unique_on. rewrite rotated_kids. apply NoDup_app. split_and!; [done|set_solver|apply NoDup_singleton].
    + by rewrite rotated_current.
  - by split.
  - split; try done; cbn [delete_user_cascade put_oauth put_files put_identity oauth set_consents oauth_consents].
    + by apply unique_on_filter.
    + apply Forall_forall. intros r [Hr Hin]%list_elem_of_filter. rewrite Forall_forall in Hcu.
      apply (elem_of_key_filter u_id (fun k => k <> id)). split; [done|]. by apply Hcu.
    + by apply Forall_filter_sub.
Qed.

(** C18: whatever sequence of storage operations runs, and wherever each of them
    is stopped by a fault, signatures, client ids, key ids and assertion ids stay
    unique, a user has at most one consent record per client, every grant and
    consent belongs to a client (and user) that exists, and at most one signing
    key is current. *)
Theorem oauth_integrity ops w r w' :
  run_ops ops w = (r, w') -> oauth_ok (w_db w) -> oauth_ok (w_db w').
Proof.
  intros Hrun Hok. assert (Forall (allows (fun _ _ => True)) ops) as Ha.
  { apply Forall_true. by intros []. }
  pose proof (run_ops_steps _ _ Ha w) as Hs. rewrite Hrun in Hs. simpl in Hs.
  induction Hs as [|d d1 d2 H1 _ IH]; [done|]. apply IH. by eapply db_step_ok.
Qed.

(** ** Refresh tokens *)

(** No refresh token of this signature is active. *)
Definition spent (sig : string) (d : Database) : Prop :=
  Forall (fun r => g_signature r = sig -> g_active r = false) (grants RefreshTokens d).

(** No operation creates a refresh token of this signature. *)
Definition spares (sig : string) : GrantTable -> string -> Prop := fun t s => t = RefreshTokens -> s <> sig.

Lemma spent_on sig t f d :
  spent sig d ->
  (t = RefreshTokens -> Forall (fun r => g_signature r = sig -> g_active r = false) (f (grants t d))) ->
  spent sig (on_grants t f d).
Proof. intros Hs Hf. unfold spent. rewrite grants_on_grants. destruct (decide _) as [<-|]; auto. Qed.

Lemma db_step_spent sig d d' : db_step (spares sig) d d' -> spent sig d -> spent sig d'.
Proof.
  intros Hs Hsp. destruct Hs as [| | |t r (Ha & _)|t P HP|t P HP| | | | | |]; try exact Hsp;
    apply spent_on; try exact Hsp; intros ->.
  - apply Forall_app. split; [done|]. constructor; [|done]. intros Heq. by destruct (Ha eq_refl).
  - by apply Forall_filter_sub.
  - apply Forall_fmap. eapply Forall_impl; [exact Hsp|]. intros r Hr. simpl. rewrite deactivate_signature.
    intros Hsig. unfold deactivate. destruct (decide _); [done|auto].
Qed.

Lemma token_stays_spent sig ops w :
  Forall (allows (spares sig)) ops -> spent sig (w_db w) -> spent sig (w_db (run_ops ops w).2).
Proof.
  intros Ha. generalize (run_ops_steps _ _ Ha w).
  induction 1 as [|d d1 d2 H1 _ IH]; [done|]. intros Hs. apply IH. by eapply db_step_spent.
Qed.

Lemma spent_rotate sig req w : spent sig (w_db w) -> is_ok (RotateRefreshToken req sig w).1 = false.
Proof.
  intros Hs. destruct (RotateRefreshToken req sig w) as [[[]|e] w'] eqn:E; [|done]. exfalso.
  unfold RotateRefreshToken in E. run_inv. apply update_inactive_ok in Hrun as [Hn _]. rewrite filter_none in Hn; [by subst|].
  eapply Forall_impl; [exact Hs|]. simpl. intros r0 Hr (Hsig & _ & Hact). by rewrite Hr in Hact.
Qed.

Lemma rotate_spends sig req w w' :
  unique_on g_signature (grants RefreshTokens (w_db w)) ->
  RotateRefreshToken req sig w = (Ok tt, w') -> spent sig (w_db w').
Proof.
  intros Hu H. unfold RotateRefreshToken in H. run_inv. apply update_inactive_ok in Hrun as [Hn Hd].
  destruct (decide (r = 0)) as [Hz|Hz]; [by rewrite bool_decide_eq_true_2 in H|].
  rewrite bool_decide_eq_false_2 in H by done. run_inv.
  unfold spent. rewrite Hd, grants_on_grants, decide_True by done. apply Forall_fmap, Forall_forall.
  intros x Hx. simpl. rewrite deactivate_signature. intros Hsig.
  destruct (filter _ _) as [|y l] eqn:E in Hz; [done|].
  assert (y ∈ y :: l) as Hy by left. rewrite <- E in Hy. apply list_elem_of_filter in Hy as [Py Hy].
  assert (x = y) as ->.
  { apply (unique_on_eq g_signature (grants RefreshTokens (w_db w))); [done..|]. by rewrite Hsig, (proj1 Py). }
  unfold deactivate. by rewrite decide_True.
Qed.

(** a refresh token is redeemed at most once: after a rotation of it has
    succeeded, and as long as no refresh token of the same signature is created,
    every later rotation of it fails and looking it up never reports it active,
    whatever operations come in between and wherever faults stop them. *)
Theorem RotateRefreshToken_once req sig w w1 ops r w2 :
  RotateRefreshToken req sig w = (Ok tt, w1) ->
  unique_on g_signature (grants RefreshTokens (w_db w)) ->
  Forall (allows (spares sig)) ops -> run_ops ops w1 = (r, w2) ->
  (forall req', is_ok (RotateRefreshToken req' sig w2).1 = false) /\
  (forall h w3, GetRefreshTokenSession sig w2 <> (Ok (h, None), w3)).
Proof.
  intros Hrot Hu Ha Hrun.
  assert (spent sig (w_db w2)) as Hs.
  { pose proof (token_stays_spent sig ops w1 Ha) as Hsp. rewrite Hrun in Hsp. apply Hsp. by eapply rotate_spends. }
  split; [intros req'; by apply spent_rotate|]. intros h w3 H.
  unfold GetRefreshTokenSession, get_active, select_grant in H. run_inv.
  destruct (find_row _ _) as [row|] eqn:E; [|discriminate].
  apply find_row_Some in E as [Hin Hsig]. unfold spent in Hs. rewrite Forall_forall in Hs.
  rewrite (Hs row Hin Hsig) in H. by run_inv.
Qed.

(** ** Keys and secrets *)

Definition published (d : Database) : list (string * string) :=
  (fun r => (key_kid r, key_private_der r)) <$> oauth_signing_keys (oauth d).

Lemma published_rotated kid key t l :
  (fun r => (key_kid r, key_private_der r)) <$> rotated kid key t l =
  ((fun r => (key_kid r, key_private_der r)) <$> l) ++ [(kid, key)].
Proof. unfold rotated. rewrite fmap_app. f_equal. by apply fmap_same. Qed.

(** Keys are only ever added, and the HMAC secret never changes once set. *)
Definition secrets_kept (d d' : Database) : Prop :=
  published d `prefix_of` published d' /\
  (forall s, oauth_hmac_secret (oauth d) = Some s -> oauth_hmac_secret (oauth d') = Some s).

#[local] Instance secrets_kept_preorder : PreOrder secrets_kept.
Proof.
  split; unfold secrets_kept; [by intros d|].
  intros d1 d2 d3 [H1 H2] [H3 H4]. split; [by etrans|auto].
Qed.

Lemma db_step_secrets allow d d' : db_step allow d d' -> secrets_kept d d'.
Proof.
  intros Hs. destruct Hs; try done; split; try done.
  - unfold published. cbn [put_oauth oauth set_keys oauth_signing_keys]. rewrite published_rotated.
    by apply prefix_app_r.
  - cbn. congruence.
Qed.

Lemma run_ops_secrets ops w : secrets_kept (w_db w) (w_db (run_ops ops w).2).
Proof.
  assert (Forall (allows (fun _ _ => True)) ops) as Ha by (apply Forall_true; by intros []).
  generalize (run_ops_steps _ _ Ha w). induction 1 as [|d d1 d2 H1 _ IH]; [done|].
  etrans; [by eapply db_step_secrets|exact IH].
Qed.

Lemma rotate_published w k w' : rotate w = (Ok k, w') -> k ∈ published (w_db w').
Proof.
  unfold rotate. intros H. run_inv. apply transaction_ok in Hrun1 as (w5 & w6 & _ & Hb & Hd).
  apply rotate_tx_ok in Hb as (t & _ & Hb). rewrite Hd, Hb. unfold published.
  cbn [put_oauth oauth set_keys oauth_signing_keys]. rewrite published_rotated. set_solver.
Qed.

Lemma EnsureKey_published w k w' : EnsureKey w = (Ok k, w') -> k ∈ published (w_db w').
Proof.
  unfold EnsureKey. intros H. rewrite attempt_bind in H. destruct (currentKey w) as [[k1|e] w1] eqn:E; cbn [fst snd] in H.
  - run_inv. unfold currentKey in E. run_inv. destruct (find_row _ _) as [row|] eqn:Hf; [|discriminate]. run_inv.
    apply find_row_Some in Hf as [Hin _]. unfold published. rewrite Hdb. apply list_elem_of_fmap. eauto.
  - destruct (negb _); [discriminate|]. by apply rotate_published in H.
Qed.

Lemma EnsureKey_secrets : within secrets_kept EnsureKey.
Proof.
  intros w. pose proof (run_ops_secrets [OpEnsureKey] w) as H.
  change (run_ops [OpEnsureKey] w) with ((ignore EnsureKey ;; mret tt) w) in H.
  unfold ignore, attempt, mbind, M_bind in H. by destruct (EnsureKey w).
Qed.

(** a token signed under the key [EnsureKey] hands out stays verifiable: that
    key is in the published set from then on, and no operation of the component
    removes any key from it or changes the HMAC secret. *)
Theorem signing_key_stays_published ops w k w1 r w2 ks w3 :
  EnsureKey w = (Ok k, w1) -> run_ops ops w1 = (r, w2) -> JWKS w2 = (Ok ks, w3) ->
  k ∈ ks /\ published (w_db w1) `prefix_of` ks /\
  (forall s, oauth_hmac_secret (oauth (w_db w1)) = Some s -> oauth_hmac_secret (oauth (w_db w2)) = Some s).
Proof.
  intros Hk%EnsureKey_published Hrun [Hks _]%query_ok.
  destruct (run_ops_secrets ops w1) as [[l Hp] Hh]. rewrite Hrun in Hp, Hh. simpl in Hp, Hh.
  change (ks = published (w_db w2)) in Hks. subst ks. split_and!; [|by exists l|done]. rewrite Hp. set_solver.
Qed.

(** ** Revocation *)

(** The first [k] tables lost the rows [P] holds of; the others are as they were. *)
Definition cleared (P : GrantRow -> Prop) `{HP : forall r, Decision (P r)} (k : nat) (d d' : Database) : Prop :=
  forall t, grants t d' = if decide (t ∈ take k oauthGrantTables) then filter (fun r => ~ P r) (grants t d) else grants t d.

Lemma for_each_delete P `{HP : forall r, Decision (P r)} name ts w r w' :
  for_each (fun t => wrapping (name t) (delete_grants t P)) ts w = (r, w') ->
  exists k, k <= length ts /\ (is_ok r = true -> k = length ts) /\
    w_db w' = foldl (fun d t => on_grants t (filter (fun r => ~ P r)) d) (w_db w) (take k ts).
Proof.
  revert w. induction ts as [|t ts IH]; intros w H; cbn [for_each] in H.
  - injection H as <- <-. by exists 0.
  - unfold mbind, M_bind in H.
    destruct (wrapping (name t) (delete_grants t P) w) as [[u|e] w1] eqn:E.
    + apply map_err_ok, delete_grants_ok in E. apply IH in H as (k & Hk & Hok & Hd).
      exists (S k). cbn [length take foldl]. split_and!; [lia|intros Hr; by rewrite Hok|]. by rewrite Hd, E.
    + injection H as <- <-. exists 0. split_and!; [lia|done|]. cbn [take foldl].
      unfold wrapping, map_err in E. destruct (delete_grants t P w) as [[|e1] w2] eqn:E2; [done|].
      injection E as _ <-. by eapply exec_err.
Qed.

(** The tables [ts] lost the rows [P] holds of. *)
Lemma grants_deleted P `{HP : forall r, Decision (P r)} t ts d :
  NoDup ts ->
  grants t (foldl (fun d t => on_grants t (filter (fun r => ~ P r)) d) d ts) =
  if decide (t ∈ ts) then filter (fun r => ~ P r) (grants t d) else grants t d.
Proof.
  revert d. induction ts as [|t' ts IH]; intros d Hnd; [by rewrite decide_False by apply not_elem_of_nil|].
  apply NoDup_cons in Hnd as [Hn Hnd]. cbn [foldl]. rewrite IH, grants_on_grants by done.
  destruct (decide (t = t')) as [->|Hne].
  - rewrite decide_False by done. by rewrite decide_True by left.
  - destruct (decide (t ∈ ts)); [by rewrite decide_True by (by right)|].
    by rewrite decide_False by set_solver.
Qed.

Lemma deleted_keeps P `{HP : forall r, Decision (P r)} ts d :
  exists f, foldl (fun d t => on_grants t (filter (fun r => ~ P r)) d) d ts =
    put_oauth (mkOAuthDb (oauth_clients (oauth d)) (oauth_client_jti (oauth d)) f (oauth_consents (oauth d))
                 (oauth_signing_keys (oauth d)) (oauth_hmac_secret (oauth d))) d.
Proof.
  revert d. induction ts as [|t ts IH]; intros d; cbn [foldl].
  - exists (oauth_grants (oauth d)). by destruct d as [? ? ? ? []].
  - destruct (IH (on_grants t (filter (fun r => ~ P r)) d)) as [f ->]. by exists f.
Qed.

Lemma oauthGrantTables_all t : t ∈ oauthGrantTables.
Proof. destruct t; unfold oauthGrantTables; set_solver. Qed.

Lemma take_oauthGrantTables k : NoDup (take k oauthGrantTables).
Proof. eapply sublist_NoDup; [|apply sublist_take]. by apply (bool_decide_unpack _). Qed.

(** The outcome of the statements that clear the four tables one after the other. *)
Lemma clear_tables P `{HP : forall r, Decision (P r)} name w r w' :
  for_each (fun t => wrapping (name t) (delete_grants t P)) oauthGrantTables w = (r, w') ->
  exists k, (is_ok r = true -> k = 4) /\ cleared P k (w_db w) (w_db w') /\
    oauth_consents (oauth (w_db w')) = oauth_consents (oauth (w_db w)) /\
    identity (w_db w') = identity (w_db w) /\ files (w_db w') = files (w_db w).
Proof.
  intros (k & _ & Hok & Hd)%for_each_delete. exists k.
  destruct (deleted_keeps P (take k oauthGrantTables) (w_db w)) as [f Hf].
  split_and!; [done| |by rewrite Hd, Hf..]. intros t. rewrite Hd. apply grants_deleted, take_oauthGrantTables.
Qed.

Lemma cleared_all P `{HP : forall r, Decision (P r)} d d' t :
  cleared P 4 d d' -> grants t d' = filter (fun r => ~ P r) (grants t d).
Proof. intros Hc. rewrite Hc. rewrite decide_True; [done|]. apply oauthGrantTables_all. Qed.

Definition of_subject (subject : string) (r : GrantRow) : Prop := js_Subject (g_session r) = subject.
Definition of_subject_client (subject clientID : string) (r : GrantRow) : Prop :=
  js_Subject (g_session r) = subject /\ g_client_id r = clientID.
#[global] Instance of_subject_dec subject r : Decision (of_subject subject r).
Proof. unfold of_subject. apply _. Defined.
#[global] Instance of_subject_client_dec subject clientID r : Decision (of_subject_client subject clientID r).
Proof. unfold of_subject_client. apply _. Defined.

(** revoking a user's consent for a client, when it succeeds, removes the
    consent record and exactly the codes and tokens of that user and client from
    all four tables; when a statement fails, the tables handled before it are
    cleared, the later ones untouched, and nothing else was deleted. *)
Theorem RevokeConsent_exact subject clientID w r w' :
  RevokeConsent subject clientID w = (r, w') ->
  let P := of_subject_client subject clientID in
  (is_ok r = true ->
     oauth_consents (oauth (w_db w')) =
       filter (fun k => ~ consent_of subject clientID k) (oauth_consents (oauth (w_db w))) /\
     forall t, grants t (w_db w') = filter (fun g => ~ P g) (grants t (w_db w))) /\
  (is_ok r = false ->
     w_db w' = w_db w \/
     exists k, cleared P k (w_db w) (w_db w') /\
       oauth_consents (oauth (w_db w')) =
         filter (fun c => ~ consent_of subject clientID c) (oauth_consents (oauth (w_db w)))).
Proof.
  intros H P. unfold RevokeConsent, mbind, M_bind in H.
  destruct (wrapping _ _ w) as [[u|e] w1] eqn:E.
  - apply map_err_ok, update_ok in E. injection E as _ E.
    change (RevokeForSubjectAndClient subject clientID) with
      (for_each (fun t => wrapping ("revoke " +:+ table_name t +:+ " for subject/client") (delete_grants t P))
         oauthGrantTables) in H.
    apply clear_tables in H as (k & Hok & Hc & Hcs & _). rewrite <- E in Hcs, Hc.
    split; [intros Hr|intros _; right; by exists k]. split; [exact Hcs|]. intros t.
    rewrite (Hok Hr) in Hc. exact (cleared_all P _ _ t Hc).
  - injection H as <- <-. split; [done|]. intros _. left.
    unfold wrapping, map_err in E. destruct (update _ w) as [[|e1] w2] eqn:E2; [done|].
    injection E as _ <-. by eapply exec_err.
Qed.

(** ** Consent *)

Lemma consent_of_key u c r : consent_of u c r <-> (k_user_id r, k_client_id r) = (u, c).
Proof. unfold consent_of. split; [by intros [-> ->]|by intros [= -> ->]]. Qed.

Lemma saveConsent_row u c scopes w x w' :
  saveConsent u c scopes w = (Ok x, w') ->
  exists row, row ∈ oauth_consents (oauth (w_db w')) /\ consent_of u c row /\ k_scopes row = remove_dups scopes.
Proof.
  unfold saveConsent. intros H. run_inv. cbv zeta in H.
  destruct (decide (Exists (consent_of u c) (oauth_consents (oauth (w_db w))))) as [Hx|Hx].
  - rewrite bool_decide_eq_true_2 in H by done. injection H as _ <-.
    apply Exists_exists in Hx as (row & Hin & Hrow). cbn [put_oauth oauth set_consents oauth_consents].
    eexists. split; [by apply list_elem_of_fmap_2|]. rewrite decide_True by done. done.
  - rewrite bool_decide_eq_false_2 in H by done. destruct (_ || _); [discriminate|]. injection H as _ <-.
    cbn [put_oauth oauth set_consents oauth_consents]. eexists. split; [apply elem_of_app; right; left|done].
Qed.

(** what the user agreed to is what is remembered: after the consent record
    is saved, looking it up gives exactly the saved scopes, without repetition. *)
Theorem saveConsent_getConsent u c scopes w x w1 :
  oauth_ok (w_db w) -> saveConsent u c scopes w = (Ok x, w1) -> quiet w1 ->
  exists l, getConsent u c w1 = (Ok l, w1) /\ NoDup l /\ forall sc, sc ∈ l <-> sc ∈ scopes.
Proof.
  intros Hok Hsave Hq. apply saveConsent_row in Hsave as Hrow. destruct Hrow as (row & Hin & Hrow & Hsc).
  assert (oauth_ok (w_db w1)) as Hok1.
  { pose proof (saveConsent_steps (fun _ _ => True) u c scopes w) as Hs. rewrite Hsave in Hs. simpl in Hs.
    revert Hok. clear -Hs. induction Hs as [|d d1 d2 H1 _ IH]; [done|]. intros Hok. apply IH. by eapply db_step_ok. }
  exists (remove_dups scopes). split_and!; [|apply NoDup_remove_dups|intros; apply elem_of_remove_dups].
  unfold getConsent, mbind, M_bind. rewrite query_quiet by done.
  rewrite (find_row_unique (fun r => (k_user_id r, k_client_id r)) (consent_of u c) (u, c)
             (oauth_consents (oauth (w_db w1))) row); [by rewrite <- Hsc|by apply ok_consent|apply consent_of_key|done..].
Qed.

(** ** The authorize endpoint *)

Section authorize.
Context {bcrypt : Bcrypt} {provider : Provider}.
Variable Issuer : string.

(** [u] is the account the session cookie stands for. *)
Definition signed_in_by_cookie (cookie : option string) (u : Auth.User) (d : Database) : Prop :=
  exists token e w1, cookie = Some token /\
    Auth.ValidateSession token (mkWorld e (identity d)) = (Ok u, w1).

(** [u] is the account of the address and password on the form. *)
Definition signed_in_by_form (form : AuthorizeForm) (u : Auth.User) (d : Database) : Prop :=
  exists e sess w1 w2, Auth.Login (email form) (password form) (mkWorld e (identity d)) = (Ok sess, w1) /\
    Auth.ValidateSession (Auth.Token sess) w1 = (Ok u, w2).

Definition remembered (u c sc : string) (d : Database) : Prop :=
  exists row, row ∈ oauth_consents (oauth d) /\ consent_of u c row /\ sc ∈ k_scopes row.

Lemma AGrantedScopes_GrantScope sc scopes ar :
  sc ∈ AGrantedScopes (foldl GrantScope ar scopes) <-> sc ∈ AGrantedScopes ar \/ sc ∈ scopes.
Proof.
  revert ar. induction scopes as [|s l IH]; intros ar; cbn [foldl]; [set_solver|]. rewrite IH.
  cbn [AGrantedScopes GrantScope]. destruct (decide (s ∈ AGrantedScopes ar)).
  - rewrite bool_decide_eq_true_2 by done. set_solver.
  - rewrite bool_decide_eq_false_2 by done. set_solver.
Qed.

Lemma foldl_GrantScope_same scopes ar :
  AClient (foldl GrantScope ar scopes) = AClient ar /\ ARequestedScopes (foldl GrantScope ar scopes) = ARequestedScopes ar.
Proof. revert ar. induction scopes as [|s l IH]; intros ar; [done|]. cbn [foldl]. by destruct (IH (GrantScope ar s)) as [-> ->]. Qed.

Lemma finishAuthorize_ok ar0 user scopes w ar s resp w' :
  finishAuthorize Issuer ar0 user scopes w = (Ok (Redirected ar s resp), w') ->
  ar = foldl GrantScope ar0 scopes /\ js_Subject s = Auth.ID user.
Proof.
  unfold finishAuthorize. intros [(e & _ & He)|(k & w1 & _ & H)]%try_or_ok; [discriminate|]. run_inv.
  apply try_or_ok in H as [(e & _ & He)|(x & w2 & _ & H)]; [discriminate|]. run_inv. injection H as -> -> ->. done.
Qed.

Lemma getConsent_ok u c w l w' :
  getConsent u c w = (Ok l, w') -> w_db w' = w_db w /\ forall sc, sc ∈ l -> remembered u c sc (w_db w).
Proof.
  unfold getConsent. intros H. run_inv. destruct (find_row _ _) as [row|] eqn:E; [|discriminate]. run_inv.
  split; [done|]. apply find_row_Some in E as [Hin Hrow]. intros sc Hsc. by exists row.
Qed.

Lemma scopeSetContainsAll_spec have want : scopeSetContainsAll have want = true <-> want ⊆ have.
Proof.
  unfold scopeSetContainsAll. rewrite forallb_forall. split.
  - intros H x Hx. apply (bool_decide_eq_true_1 (x ∈ have)), H. by apply list_elem_of_In.
  - intros H x Hx. apply bool_decide_eq_true_2, H. by apply list_elem_of_In.
Qed.

Lemma continueAuthorize_ok q ar0 user w ar s resp w' :
  continueAuthorize Issuer q ar0 user w = (Ok (Redirected ar s resp), w') ->
  ar = foldl GrantScope ar0 (ARequestedScopes ar0) /\ js_Subject s = Auth.ID user /\
  forall sc, sc ∈ ARequestedScopes ar0 -> remembered (Auth.ID user) (AClient ar0) sc (w_db w).
Proof.
  unfold continueAuthorize. rewrite attempt_bind. intros H.
  destruct (getConsent _ _ w) as [[l|e] w1] eqn:E; cbn [fst snd] in H; [|by run_inv].
  destruct (scopeSetContainsAll l _) eqn:Hall; [|by run_inv].
  apply finishAuthorize_ok in H as [-> ->]. apply scopeSetContainsAll_spec in Hall.
  apply getConsent_ok in E as [_ E]. auto.
Qed.

Lemma currentUser_ok cookie w u w' :
  currentUser cookie w = (Ok (Some u), w') -> signed_in_by_cookie cookie u (w_db w) /\ oauth (w_db w') = oauth (w_db w).
Proof.
  unfold currentUser. destruct cookie as [token|]; [|by intros [=]]. rewrite attempt_bind. unfold zoom.
  destruct (Auth.ValidateSession token _) as [[u1|e] w1] eqn:E; cbn [fst snd]; intros [= <- <-].
  split; [|done]. by exists token, (w_env w), w1.
Qed.
(** Reading the request writes nothing. *)
Hypothesis NewAuthorizeRequest_reads : forall q, within eq (NewAuthorizeRequest q).

Lemma NewAuthorizeRequest_same q w r w' : NewAuthorizeRequest q w = (r, w') -> w_db w' = w_db w.
Proof using NewAuthorizeRequest_reads. intros H. pose proof (NewAuthorizeRequest_reads q w) as Hs. by rewrite H in Hs. Qed.

(** opening the authorize page issues a code without asking only to a
    signed-in user who has already agreed to every scope the request names, and
    the code carries no other scope and no other subject. *)
Theorem authorize_GET_remembered q cookie w ar s resp w' :
  handleAuthorizeGET Issuer q cookie w = (Ok (Redirected ar s resp), w') ->
  exists ar0 w1 u, NewAuthorizeRequest q w = (Ok ar0, w1) /\ AClient ar = AClient ar0 /\
    signed_in_by_cookie cookie u (w_db w) /\ js_Subject s = Auth.ID u /\
    (forall sc, sc ∈ ARequestedScopes ar0 -> remembered (Auth.ID u) (AClient ar0) sc (w_db w)) /\
    (forall sc, sc ∈ AGrantedScopes ar <-> sc ∈ AGrantedScopes ar0 \/ sc ∈ ARequestedScopes ar0).
Proof using NewAuthorizeRequest_reads.
  unfold handleAuthorizeGET. intros [(e & _ & He)|(ar0 & w1 & Hreq & H)]%try_or_ok; [discriminate|].
  apply NewAuthorizeRequest_same in Hreq as Hdb.
  apply bind_ok in H as ([u|] & w2 & Hu & H); [|by run_inv].
  apply currentUser_ok in Hu as [Hu Hsame]. apply continueAuthorize_ok in H as (-> & Hs & Hrem).
  exists ar0, w1, u. rewrite Hdb in Hu. split_and!; try done.
  - apply foldl_GrantScope_same.
  - intros sc Hsc. unfold remembered in *. rewrite <- Hdb, <- Hsame. by apply Hrem.
  - intros sc. apply AGrantedScopes_GrantScope.
Qed.

Lemma grantedScopes_spec sc checked requested :
  sc ∈ grantedScopes checked requested <-> sc ∈ checked /\ isAllowedScope sc = true /\ sc ∈ requested.
Proof. unfold grantedScopes. rewrite list_elem_of_filter. tauto. Qed.

Lemma consent_step_ok ar0 form cookie w ar s resp w' :
  consent_step Issuer ar0 form cookie w = (Ok (Redirected ar s resp), w') ->
  exists u, decision form = "allow" /\ signed_in_by_cookie cookie u (w_db w) /\ js_Subject s = Auth.ID u /\
    ar = foldl GrantScope ar0 (grantedScopes (granted form) (ARequestedScopes ar0)).
Proof using.
  unfold consent_step. intros H. apply bind_ok in H as ([u|] & w1 & Hu & H); [|by run_inv].
  destruct (decide (decision form = "allow")) as [Hd|]; [|rewrite bool_decide_eq_false_2 in H by done; by run_inv].
  rewrite bool_decide_eq_true_2 in H by done. cbn [negb] in H. cbv zeta in H. rewrite attempt_bind in H.
  apply try_or_ok in H as [(e & _ & He)|(x & w2 & _ & H)]; [discriminate|].
  apply currentUser_ok in Hu as [Hu _]. apply finishAuthorize_ok in H as [-> Hs]. eauto.
Qed.

Lemma login_step_ok q ar0 form w ar s resp w' :
  login_step Issuer q ar0 form w = (Ok (Redirected ar s resp), w') ->
  exists u, signed_in_by_form form u (w_db w) /\ js_Subject s = Auth.ID u /\
    ar = foldl GrantScope ar0 (ARequestedScopes ar0) /\
    forall sc, sc ∈ ARequestedScopes ar0 -> remembered (Auth.ID u) (AClient ar0) sc (w_db w).
Proof using.
  unfold login_step. intros [(e & _ & He)|(sess & w1 & Hlogin & H)]%try_or_ok; [discriminate|].
  apply try_or_ok in H as [(e & _ & He)|(u & w2 & Hval & H)]; [discriminate|].
  unfold zoom in Hlogin, Hval.
  destruct (Auth.Login _ _ _) as [rl wl] eqn:El. injection Hlogin as -> <-. cbn [w_env w_db] in Hval.
  change (identity (put_identity (w_db wl) (w_db w))) with (w_db wl) in Hval.
  destruct (Auth.ValidateSession _ _) as [rv wv] eqn:Ev. injection Hval as -> <-.
  apply continueAuthorize_ok in H as (-> & Hs & Hrem). exists u. split_and!; try done.
  exists (w_env w), sess, wl, wv. split; [done|]. by destruct wl.
Qed.

(** C6: a submitted authorize form issues a code only for scopes the request
    named and the user agreed to: on the consent step those ticked on the form,
    each one a scope the server knows, for the account of the session cookie and
    with the decision "allow"; on the login step those remembered for the account
    whose password the form carries. *)
Theorem authorize_POST_consented q form cookie w ar s resp w' :
  handleAuthorizePOST Issuer q form cookie w = (Ok (Redirected ar s resp), w') ->
  exists ar0 w1 u, NewAuthorizeRequest (oauth_request form) w = (Ok ar0, w1) /\ AClient ar = AClient ar0 /\
    js_Subject s = Auth.ID u /\
    forall sc, sc ∈ AGrantedScopes ar -> (sc ∉ AGrantedScopes ar0) ->
      sc ∈ ARequestedScopes ar0 /\
      (step form = "consent" /\ decision form = "allow" /\ signed_in_by_cookie cookie u (w_db w) /\
         sc ∈ granted form /\ isAllowedScope sc = true \/
       step form = "login" /\ signed_in_by_form form u (w_db w) /\
         remembered (Auth.ID u) (AClient ar0) sc (w_db w)).
Proof using NewAuthorizeRequest_reads.
  unfold handleAuthorizePOST. intros [(e & _ & He)|(ar0 & w1 & Hreq & H)]%try_or_ok; [discriminate|].
  apply NewAuthorizeRequest_same in Hreq as Hdb. exists ar0, w1.
  destruct (decide (step form = "login")) as [Hstep|Hl]; [rewrite bool_decide_eq_true_2 in H by done|
    rewrite bool_decide_eq_false_2 in H by done;
    destruct (decide (step form = "consent")) as [Hstep|]; [rewrite bool_decide_eq_true_2 in H by done|
      rewrite bool_decide_eq_false_2 in H by done; by run_inv]].
  - apply login_step_ok in H as (u & Hu & Hs & -> & Hrem). rewrite Hdb in Hu, Hrem. exists u.
    split_and!; [done|apply foldl_GrantScope_same|done|]. intros sc [|Hsc]%AGrantedScopes_GrantScope; [done|]. auto 6.
  - apply consent_step_ok in H as (u & Hd & Hu & Hs & ->). rewrite Hdb in Hu. exists u.
    split_and!; [done|apply foldl_GrantScope_same|done|].
    intros sc [|(Hsc & Ha & Hr)%grantedScopes_spec]%AGrantedScopes_GrantScope; [done|]. auto 8.
Qed.

(** the consent page that follows a sign-in on the authorize page carries the
    query string of the form's own address, not the authorization request the
    form brought along: posted to the bare address, the page it leads to has an
    empty request, and submitting it cannot be read back. *)
Theorem consent_page_after_login_loses_request form cookie w q mail requested previous w' :
  step form = "login" ->
  handleAuthorizePOST Issuer EmptyString form cookie w = (Ok (ConsentPage q mail requested previous), w') ->
  q = EmptyString.
Proof using.
  intros Hstep. unfold handleAuthorizePOST. intros [(e & _ & He)|(ar0 & w1 & _ & H)]%try_or_ok; [discriminate|].
  rewrite bool_decide_eq_true_2 in H by done. unfold login_step in H.
  apply try_or_ok in H as [(e & _ & He)|(sess & w2 & _ & H)]; [discriminate|].
  apply try_or_ok in H as [(e & _ & He)|(u & w3 & _ & H)]; [discriminate|].
  unfold continueAuthorize in H. rewrite attempt_bind in H.
  destruct (getConsent _ _ w3) as [[l|e] w4]; cbn [fst snd] in H; [|by injection H as <-].
  destruct (scopeSetContainsAll _ _); [|by injection H as <-].
  unfold finishAuthorize in H. apply try_or_ok in H as [(e & _ & He)|(k & w5 & _ & H)]; [discriminate|]. run_inv.
  apply try_or_ok in H as [(e & _ & He)|(x & w6 & _ & H)]; [discriminate|]. by run_inv.
Qed.
End authorize.

(** ** What the component leaves alone *)

Definition other_tables (d d' : Database) : Prop := audit_log d' = audit_log d /\ owners d' = owners d.

#[global] Instance other_tables_preorder : PreOrder other_tables.
Proof. split; unfold other_tables; [done|]. intros d1 d2 d3 [-> ->] [-> ->]. done. Qed.

Lemma db_step_other allow d d' : db_step allow d d' -> other_tables d d'.
Proof. by intros []. Qed.

Lemma within_steps_other {A} (m : MD A) :
  within (rtc (db_step (fun _ _ => True))) m -> within other_tables m.
Proof.
  intros Hm w. specialize (Hm w). induction Hm as [|d1 d2 d3 H _ IH]; [done|].
  etrans; [by eapply db_step_other|exact IH].
Qed.

Lemma steps_of_ignored {A} R (m : MD A) : within R (ignore m) -> within R m.
Proof. intros H w. specialize (H w). unfold ignore in H. by rewrite attempt_bind in H. Qed.

Lemma RevokeAllForSubject_other subject : within other_tables (RevokeAllForSubject subject).
Proof. apply within_steps_other, steps_of_ignored. by apply (run_op_steps _ (OpRevokeSubject subject)). Qed.
Lemma RevokeConsent_other u c : within other_tables (RevokeConsent u c).
Proof. apply within_steps_other, steps_of_ignored. by apply (run_op_steps _ (OpRevokeConsent u c)). Qed.
Lemma EnsureKey_other : within other_tables EnsureKey.
Proof. apply within_steps_other, steps_of_ignored. by apply (run_op_steps _ OpEnsureKey). Qed.
Lemma saveConsent_other u c l : within other_tables (saveConsent u c l).
Proof. apply within_steps_other, saveConsent_steps. Qed.

(** Whatever happens to the identity tables. *)
Lemma identity_other {A} (m : M IdentityDb A) : within other_tables (zoom identity put_identity m).
Proof. intros w. unfold zoom. by destruct (m _). Qed.

#[local] Hint Resolve EnsureKey_other saveConsent_other identity_other : within.

Section authorize_frame.
Context {bcrypt : Bcrypt} {provider : Provider}.
Hypothesis NewAuthorizeRequest_other : forall q, within other_tables (NewAuthorizeRequest q).
Hypothesis NewAuthorizeResponse_other : forall ar s, within other_tables (NewAuthorizeResponse ar s).

Lemma currentUser_other cookie : within other_tables (currentUser cookie).
Proof using. unfold currentUser. within_solve. Qed.

Lemma continueAuthorize_other Issuer q ar u : within other_tables (continueAuthorize Issuer q ar u).
Proof using NewAuthorizeResponse_other.
  unfold continueAuthorize, finishAuthorize, getConsent. within_solve; apply NewAuthorizeResponse_other.
Qed.

Lemma handleAuthorizeGET_other Issuer q cookie : within other_tables (handleAuthorizeGET Issuer q cookie).
Proof using NewAuthorizeRequest_other NewAuthorizeResponse_other.
  unfold handleAuthorizeGET. apply within_try_or; [apply _|apply NewAuthorizeRequest_other|intros ar].
  apply within_bind; [apply _|apply currentUser_other|intros [u|]]; [apply continueAuthorize_other|within_solve].
Qed.

Lemma handleAuthorizePOST_other Issuer q form cookie : within other_tables (handleAuthorizePOST Issuer q form cookie).
Proof using NewAuthorizeRequest_other NewAuthorizeResponse_other.
  unfold handleAuthorizePOST. apply within_try_or; [apply _|apply NewAuthorizeRequest_other|intros ar].
  destruct (bool_decide _); [|destruct (bool_decide _); [|within_solve]].
  - unfold login_step. apply within_try_or; [apply _|apply identity_other|intros sess].
    apply within_try_or; [apply _|apply identity_other|intros u]. apply continueAuthorize_other.
  - unfold consent_step. apply within_bind; [apply _|apply currentUser_other|intros [u|]]; [|within_solve].
    unfold finishAuthorize, getConsent. within_solve; apply NewAuthorizeResponse_other.
Qed.
End authorize_frame.

(** ** Witnesses *)

Definition sample_requester (request_id : string) : Requester :=
  mkRequester request_id 0 "c1" ["profile"; "records:read"] ["profile"] [] [] []
    (mkJWTSession "u1" "ann@example.com" "https://issuer" 0 "ann@example.com" "k1").

Definition sample_grant (signature request_id : string) : GrantRow :=
  mkGrantRow signature request_id "c1" (storedRequest (sample_requester request_id))
    (Session (sample_requester request_id)) true 0.

(** One account, one registered client it has agreed with, one token of each kind. *)
Definition sample_db : Database :=
  mkDatabase AuthFacts.sample_identity (mkOwnerDb [] []) [] []
    (mkOAuthDb [mkClientRow "c1" None "Notes" ["https://app/cb"] ["authorization_code"] ["code"] AllowedScopes "none" true 0]
       [] (fun t => [sample_grant (table_name t +:+ "-sig") "req1"])
       [mkConsentRow "u1" "c1" ["profile"; "records:read"] 0] [mkKeyRow "k1" "der" true 0] (Some "hmac")).

Lemma sample_db_ok : oauth_ok sample_db.
Proof. split; try (intros []); evaluate. Qed.

#[local] Existing Instance AuthFacts.toy_bcrypt.

(** A provider that takes every request for the sample client and two scopes. *)
#[local] Instance toy_provider : Provider := {|
  NewAuthorizeRequest q := if bool_decide (q = EmptyString) then fail (Errorf "invalid_request")
                           else mret (mkAuthorizeRequest "c1" ["profile"; "records:read"] []);
  NewAuthorizeResponse ar s := mret ("code");
|}.

Lemma toy_provider_reads q : within eq (NewAuthorizeRequest q).
Proof. unfold NewAuthorizeRequest. simpl. by destruct (bool_decide _); intros w. Qed.

Definition sample_form (st mail pw q : string) : AuthorizeForm :=
  mkAuthorizeForm q st mail pw "allow" ["profile"; "files:read"] [].

Lemma oauth_integrity_witness :
  let ops := [OpRegister "c2" None true "none" "App" [] [] [] []; OpCreate AccessTokens "a2" (sample_requester "req2");
              OpEnsureKey; OpSaveConsent "u1" "c2" ["profile"]; OpRotate "req1" "oauth_refresh_tokens-sig"; OpDeleteUser "u1"] in
  oauth_ok (w_db (run_ops ops (sample_world 5 sample_db)).2).
Proof. intros ops. eapply (oauth_integrity ops); [apply surjective_pairing|apply sample_db_ok]. Defined.

Lemma RotateRefreshToken_once_witness :
  let w1 := (RotateRefreshToken "req1" "oauth_refresh_tokens-sig" (sample_world 5 sample_db)).2 in
  let ops := [OpCreate RefreshTokens "fresh" (sample_requester "req1"); OpRevokeAccess "req1"] in
  is_ok (RotateRefreshToken "req1" "oauth_refresh_tokens-sig" (run_ops ops w1).2).1 = false.
Proof.
  intros w1 ops.
  apply (RotateRefreshToken_once "req1" "oauth_refresh_tokens-sig" (sample_world 5 sample_db) w1 ops
           (run_ops ops w1).1 (run_ops ops w1).2).
  - vm_compute. reflexivity.
  - apply (ok_signature _ sample_db_ok).
  - repeat constructor. discriminate.
  - apply surjective_pairing.
Defined.

Lemma signing_key_stays_published_witness :
  ("k1", "der") ∈ [("k1", "der")].
Proof.
  apply (signing_key_stays_published [OpSetJTI "j" 9; OpEnsureKey] (sample_world 5 sample_db) ("k1", "der")
    (EnsureKey (sample_world 5 sample_db)).2 (Ok tt)
    (run_ops [OpSetJTI "j" 9; OpEnsureKey] (EnsureKey (sample_world 5 sample_db)).2).2 _
    (JWKS (run_ops [OpSetJTI "j" 9; OpEnsureKey] (EnsureKey (sample_world 5 sample_db)).2).2).2);
    vm_compute; reflexivity.
Defined.

Lemma RevokeConsent_exact_witness :
  let w' := (RevokeConsent "u1" "c1" (sample_world 5 sample_db)).2 in
  grants RefreshTokens (w_db w') = [] /\ oauth_consents (oauth (w_db w')) = [].
Proof.
  destruct (RevokeConsent_exact "u1" "c1" (sample_world 5 sample_db) (Ok tt)
    (RevokeConsent "u1" "c1" (sample_world 5 sample_db)).2) as [[Hc Hg] _].
  - vm_compute. reflexivity.
  - reflexivity.
  - split; [rewrite Hg|rewrite Hc]; vm_compute; reflexivity.
Defined.

Lemma saveConsent_getConsent_witness :
  let w1 := (saveConsent "u1" "c1" ["profile"; "profile"; "files:read"] (sample_world 5 sample_db)).2 in
  exists l, getConsent "u1" "c1" w1 = (Ok l, w1) /\ NoDup l /\
    forall sc, sc ∈ l <-> sc ∈ ["profile"; "profile"; "files:read"].
Proof.
  apply (saveConsent_getConsent "u1" "c1" ["profile"; "profile"; "files:read"] (sample_world 5 sample_db) tt
    (saveConsent "u1" "c1" ["profile"; "profile"; "files:read"] (sample_world 5 sample_db)).2).
  - apply sample_db_ok.
  - vm_compute. reflexivity.
  - vm_compute. reflexivity.
Defined.

Lemma authorize_GET_remembered_witness :
  exists u, js_Subject (newSession 5 "k1" "https://issuer" "u1" "ann@example.com") = Auth.ID u.
Proof.
  destruct (authorize_GET_remembered "https://issuer" toy_provider_reads "client_id=c1" (Some "cookie") (sample_world 5 sample_db)
    (mkAuthorizeRequest "c1" ["profile"; "records:read"] ["profile"; "records:read"])
    (newSession 5 "k1" "https://issuer" "u1" "ann@example.com") "code"
    (handleAuthorizeGET "https://issuer" "client_id=c1" (Some "cookie") (sample_world 5 sample_db)).2)
    as (ar0 & w1 & u & _ & _ & _ & Hs & _).
  - vm_compute. reflexivity.
  - by exists u.
Defined.

Lemma authorize_POST_consented_witness :
  exists u, js_Subject (newSession 5 "k1" "https://issuer" "u1" "ann@example.com") = Auth.ID u.
Proof.
  destruct (authorize_POST_consented "https://issuer" toy_provider_reads EmptyString
    (sample_form "consent" EmptyString EmptyString "client_id=c1") (Some "cookie") (sample_world 5 sample_db)
    (mkAuthorizeRequest "c1" ["profile"; "records:read"] ["profile"])
    (newSession 5 "k1" "https://issuer" "u1" "ann@example.com") "code"
    (handleAuthorizePOST "https://issuer" EmptyString (sample_form "consent" EmptyString EmptyString "client_id=c1")
       (Some "cookie") (sample_world 5 sample_db)).2)
    as (ar0 & w1 & u & _ & _ & Hs & _).
  - vm_compute. reflexivity.
  - by exists u.
Defined.

(** The client has no consent record yet: the page after the login has lost the request. *)
Definition unconsented_db : Database := put_oauth (set_consents (fun _ => []) (oauth sample_db)) sample_db.

Lemma consent_page_after_login_loses_request_witness :
  let w := sample_world 5 unconsented_db in
  let form := sample_form "login" "ann@example.com" "password" "client_id=c1" in
  step form = "login" /\ (handleAuthorizePOST "https://issuer" EmptyString form None w).1 =
    Ok (ConsentPage EmptyString "ann@example.com" ["profile"; "records:read"] []) /\ EmptyString = EmptyString.
Proof.
  split; [reflexivity|]. split; [vm_compute; reflexivity|].
  apply (consent_page_after_login_loses_request "https://issuer" (sample_form "login" "ann@example.com" "password" "client_id=c1")
    None (sample_world 5 unconsented_db) EmptyString "ann@example.com" ["profile"; "records:read"] []
    (handleAuthorizePOST "https://issuer" EmptyString (sample_form "login" "ann@example.com" "password" "client_id=c1") None
       (sample_world 5 unconsented_db)).2); vm_compute; reflexivity.
Defined.

End OAuthFacts.
