(* ===== verification/ConcurrencyFacts.v ===== *)
(** * Requests at the same time: theorems

    The operations of the identity layer, the owner plane and the token storage as
    goroutines over one database connection ([Pool]): what the specifications in
    src/spec ask of concurrent requests (IDNT-16, PWRESET-10, OWNR-18, TOK-08), in
    every interleaving: at most one contender wins, whatever fails; exactly one, and
    the others are told why, when nothing does.  And two schedules the code does not
    stand up to. *)

From S2P Require Import Prelude GoStrings Encoding Schema Auth AuthFacts OwnerAuth OwnerAuthFacts OAuth OAuthFacts Pool PoolFacts.

Module ConcurrencyFacts.
Import Pool PoolFacts.

(** ** Identity *)
Section identity.
Context {bcrypt : Bcrypt}.
Import Auth AuthFacts.

Definition call (o : op) : MI unit :=
  match o with
  | OSignUp e p => SignUp e p ;; mret tt
  | OLogin e p => Login e p ;; mret tt
  | OValidateSession t => ValidateSession t ;; mret tt
  | OLogout t => Logout t
  | OCreateResetToken e => CreateResetToken e ;; mret tt
  | OResetPassword t p => ResetPassword t p ;; mret tt
  | OSocial p i e c => LoginOrCreateViaSocial p i e c ;; mret tt
  | ORevokeAllSessions u => RevokeAllSessions u ;; mret tt
  | OPurgeExpiredSessions => PurgeExpiredSessions ;; mret tt
  | OPurgeExpiredResetTokens => PurgeExpiredResetTokens ;; mret tt
  end.

#[export] Instance reified_redeem th hash : Reified (redeem th hash).
Proof. unfold redeem, delete_sessions. reify. Defined.
#[export] Instance reified_call o : Reified (call o).
Proof.
  destruct o; unfold call, SignUp, Login, ValidateSession, Logout, CreateResetToken, ResetPassword,
    LoginOrCreateViaSocial, social_account, createUserForSocialSignIn, RevokeAllSessions, PurgeExpiredSessions,
    PurgeExpiredResetTokens, getUserByID, createSession, hashPassword, randomToken, select_user_by_email, select_user_by_id,
    delete_sessions, insert_user, insert_session, insert_social, insert_reset; reify.
Defined.

Ltac follow := explore ltac:(cbn [reified_call]).

Lemma call_flat o : flat (code (call o)).
Proof. destruct o; explore ltac:(cbn [reified_call]; try unfold reified_redeem). Qed.

Lemma call_keeps supply o : inside supply (keeps identity_ok) (code (call o)).
Proof.
  destruct o; follow.
  all: first
    [ apply insert_user_keeps | apply insert_session_keeps | apply insert_social_keeps | apply insert_reset_keeps
    | apply within_query; apply _ | apply delete_sessions_keeps
    | apply within_body, within_transaction; [apply _|apply redeem_keeps]
    | apply within_update; [apply _|]; intros d []; split; simpl; try done; [by apply unique_on_filter|by apply Forall_filter_sub] ].
Qed.

(** *** Reset tokens *)

(** Nothing drawn makes the token of this hash again. *)
Definition other_than (h : string) (x : string) : Prop := hashToken (RawURLEncode x) <> h.

Lemma call_spent h o : inside (other_than h) (keeps (spent h)) (code (call o)).
Proof.
  destruct o; follow.
  all: first
    [ apply insert_user_spent | apply insert_session_spent | apply insert_social_spent
    | apply insert_reset_spent; match goal with H : forall x, Ok _ = Ok x -> _ |- _ => by apply H end
    | apply within_query; apply _ | apply within_update; [apply _|]; intros d; by apply same_resets_spent
    | apply within_body, within_transaction; [apply _|apply redeem_spent]
    | apply within_update; [apply _|]; intros d Hs r Hr; simpl in Hr; apply list_elem_of_filter in Hr as [_ Hr]; by apply Hs ].
Qed.

Definition redeems (h : string) (d d' : IdentityDb) : Prop := identity_ok d -> ~ spent h d /\ spent h d'.

Lemma transaction_redeems f g h hash w uid w' :
  transaction f g (redeem h hash) w = (Ok uid, w') -> redeems h (w_db w) (w_db w').
Proof.
  intros (w1 & w2 & E1 & H & E2)%transaction_ok Hok.
  apply redeem_ok in H as (row & F1 & F2 & F3 & F4 & _ & (_ & (t & Hr) & _)). rewrite E1 in *. split.
  - intros Hs. by apply (Hs row).
  - intros r Hin Hh. rewrite E2, Hr in Hin. apply list_elem_of_fmap in Hin as (r0 & -> & Hin). rewrite mark_used_hash in Hh.
    assert (r0 = row) as -> by (eapply (unique_on_eq r_token_hash); [apply Hok|..]; congruence).
    unfold mark_used. by rewrite F3, F4, !bool_decide_true.
Qed.

Lemma reset_commits token p : commits (redeems (hashToken token)) (code (call (OResetPassword token p))).
Proof.
  follow; [left|by right]. eapply transaction_redeems. rewrite <- H. by apply transaction_body.
Qed.

(** *** Sign-ups *)

Definition taken (e : string) (d : IdentityDb) : Prop := e ∈ (fun r => ToLower (u_email r)) <$> users d.

Lemma insert_user_taken e id email hash : within (keeps (taken e)) (insert_user id email hash).
Proof.
  unfold insert_user. within_solve. case_bool_decide; [done|]. case_bool_decide; [done|]. injection H as _ <-.
  unfold keeps, taken. simpl. rewrite fmap_app, elem_of_app. auto.
Qed.

Lemma same_users_taken e : subrelation (fun d d' => users d' = users d) (keeps (taken e)).
Proof. intros d d' Heq. unfold keeps, taken. by rewrite Heq. Qed.

Lemma insert_session_taken e id uid hash t : within (keeps (taken e)) (insert_session id uid hash t).
Proof. unfold insert_session. within_solve. repeat (case_bool_decide; [done|]). injection H as _ <-. by apply same_users_taken. Qed.
Lemma insert_social_taken h id uid p i e : within (keeps (taken h)) (insert_social id uid p i e).
Proof. unfold insert_social. within_solve. repeat (case_bool_decide; [done|]). injection H as _ <-. by apply same_users_taken. Qed.
Lemma insert_reset_taken e id uid hash t : within (keeps (taken e)) (insert_reset id uid hash t).
Proof. unfold insert_reset. within_solve. repeat (case_bool_decide; [done|]). injection H as _ <-. by apply same_users_taken. Qed.
Lemma redeem_taken e th hash : within (keeps (taken e)) (redeem th hash).
Proof.
  unfold redeem, delete_sessions. within_solve; try (by apply same_users_taken); injection H as _ <-; [|by apply same_users_taken].
  unfold keeps, taken. simpl. by rewrite (fmap_same (fun r => ToLower (u_email r))) by (intros; by rewrite set_password_email).
Qed.

Lemma call_taken supply e o : inside supply (keeps (taken e)) (code (call o)).
Proof.
  destruct o; follow.
  all: first
    [ apply insert_user_taken | apply insert_session_taken | apply insert_social_taken | apply insert_reset_taken
    | apply within_query; apply _ | apply within_update; [apply _|]; intros d; by apply same_users_taken
    | apply within_body, within_transaction; [apply _|apply redeem_taken] ].
Qed.

Definition registers (e : string) (d d' : IdentityDb) : Prop := ~ taken e d /\ taken e d'.

Lemma insert_user_registers id email hash w w' :
  insert_user id email hash w = (Ok tt, w') -> registers (ToLower email) (w_db w) (w_db w').
Proof.
  intros H%exec_at_ok. case_bool_decide; [done|]. case_bool_decide as He; [done|]. injection H as H. split; [exact He|].
  rewrite <- H. unfold taken. simpl. rewrite fmap_app, elem_of_app. right. by left.
Qed.

Lemma signup_commits e p : commits (registers (ToLower (normalizeEmail e))) (code (call (OSignUp e p))).
Proof.
  follow. all: match goal with
    | H : exec_at _ _ = (Ok ?u, _) |- _ \/ _ => left; destruct u; by eapply insert_user_registers
    | H : exec_at _ _ = (Err _, _) |- _ \/ _ => right; follow
    end.
Qed.

(** *** Together *)

Definition clients (ops : list op) : list (prog IdentityDb unit) := (fun o => code (call o)) <$> ops.

Lemma clients_inside supply (R : relation IdentityDb) ops :
  (forall o, inside supply R (code (call o))) -> Forall (inside supply R) (clients ops).
Proof. intros H. apply Forall_fmap, Forall_true. exact H. Qed.

Lemma clients_lookup ops i p : clients ops !! i = Some p -> exists o, ops !! i = Some o /\ p = code (call o).
Proof. intros (o & -> & Ho)%list_lookup_fmap_Some. eauto. Qed.

(** However requests to the identity layer interleave and whatever fails, what is
    committed keeps its integrity at every moment. *)
Theorem concurrent_identity_integrity d t ops cs s :
  identity_ok d -> steps (start d t (clients ops)) cs = Some s -> identity_ok (committed s).
Proof.
  intros Hok Hst. destruct (pool_runs _ _ _ _ _ Hst) as (ps & Hrun & _).
  destruct (serial_inside _ _ (keeps identity_ok) _ _ _ _ Hrun) as [Hk _]; [|by apply Hk].
  apply clients_inside, call_keeps.
Qed.

(** C12: A reset token that any number of requests redeem at the same time, among any
    others, is good for at most one of them. *)
Theorem concurrent_redemptions d t ops cs s token :
  identity_ok d -> steps (start d t (clients ops)) cs = Some s ->
  Forall (fun c => other_than (hashToken token) (drawn c)) cs ->
  forall i j p p' a b, ops !! i = Some (OResetPassword token p) -> ops !! j = Some (OResetPassword token p') ->
    i <> j -> returned s i = Some (Ok a) -> returned s j <> Some (Ok b).
Proof.
  intros Hok Hst Hcs i j p p' a b Hi Hj Hne Ha Hb. apply Hne.
  destruct (serializable_run (other_than (hashToken token)) False _ _ _ _ _ Hst (allowed_supply _ _ Hcs)) as (ps & Hrun & _ & Hret).
  set (W := fun i => Exists (fun o => match o with OResetPassword t _ => t = token | _ => False end) (option_list (ops !! i))).
  assert (forall i, Decision (W i)) as HW by (intros k; unfold W; apply Exists_dec; intros []; apply _).
  eapply (at_most_one _ _ (redeems (hashToken token)) identity_ok (spent (hashToken token)) (fun d d' HI HP => HP HI) W
            _ _ _ _ Hrun Hok); [apply clients_inside, call_keeps|apply clients_inside, call_spent| | | | |]; eauto.
  - intros k q Hk (o & Ho & ->)%clients_lookup. unfold W in Hk. rewrite Ho in Hk. cbn in Hk.
    apply Exists_cons in Hk as [Hk|Hk%Exists_nil]; [|done]. destruct o; try done. subst. apply reset_commits.
  - unfold W. rewrite Hi. by left.
  - unfold W. rewrite Hj. by left.
Qed.

Lemma one_signup supply calm d ops d' ps email :
  rtc (serial_step supply calm) (d, clients ops) (d', ps) ->
  forall i j e e' p p' a b, ops !! i = Some (OSignUp e p) -> ops !! j = Some (OSignUp e' p') ->
    normalizeEmail e = email -> normalizeEmail e' = email ->
    ps !! i = Some (Done (Ok a)) -> ps !! j = Some (Done (Ok b)) -> i = j.
Proof.
  intros Hrun i j e e' p p' a b Hi Hj He He' Ha Hb.
  set (W := fun i => Exists (fun o => match o with OSignUp e _ => normalizeEmail e = email | _ => False end) (option_list (ops !! i))).
  assert (forall i, Decision (W i)) as HW by (intros k; unfold W; apply Exists_dec; intros []; apply _).
  eapply (at_most_one _ _ (registers (ToLower email)) (fun _ => True) (taken (ToLower email)) (fun d d' _ HP => HP) W
            _ _ _ _ Hrun I); [| apply clients_inside, call_taken | | | | |]; eauto.
  - apply Forall_true, inside_true.
  - intros k q Hk (o & Ho & ->)%clients_lookup. unfold W in Hk. rewrite Ho in Hk. cbn in Hk.
    apply Exists_cons in Hk as [Hk|Hk%Exists_nil]; [|done]. destruct o; try done. rewrite <- Hk. apply signup_commits.
  - unfold W. rewrite Hi. by left.
  - unfold W. rewrite Hj. by left.
Qed.

(** Of any number of sign-ups with the same address at the same time, however it
    is spelled, at most one succeeds. *)
Theorem concurrent_signups d t ops cs s email :
  steps (start d t (clients ops)) cs = Some s ->
  forall i j e e' p p' a b, ops !! i = Some (OSignUp e p) -> ops !! j = Some (OSignUp e' p') ->
    normalizeEmail e = email -> normalizeEmail e' = email ->
    i <> j -> returned s i = Some (Ok a) -> returned s j <> Some (Ok b).
Proof.
  intros Hst i j e e' p p' a b Hi Hj He He' Hne Ha Hb. apply Hne.
  destruct (pool_runs _ _ _ _ _ Hst) as (ps & Hrun & Hret). by eapply one_signup; eauto.
Qed.

(** *** Exactly one sign-up *)

(** No account goes. *)
Definition more_users (d d' : IdentityDb) : Prop := forall id, id ∈ u_id <$> users d -> id ∈ u_id <$> users d'.
#[local] Instance more_users_preorder : PreOrder more_users.
Proof. split; [by intros d id|]. intros d1 d2 d3 H1 H2 id Hid. by apply H2, H1. Qed.

Lemma same_ids_more d d' : u_id <$> users d' = u_id <$> users d -> more_users d d'.
Proof. intros H id. by rewrite H. Qed.

Lemma signup_more supply e p : inside supply more_users (code (call (OSignUp e p))).
Proof.
  follow.
  all: first
    [ apply within_query; apply _
    | apply within_exec_at; [apply _|]; intros clk d b d' H1; case_bool_decide; [done|]; case_bool_decide; [done|];
      injection H1 as _ <-; intros id Hid; simpl; rewrite fmap_app, elem_of_app; by left ].
Qed.

Definition signs_up (email : string) (o : op) : Prop :=
  exists e p, o = OSignUp e p /\ normalizeEmail e = email /\ 8 <= String.length p /\
    forall salt, exists h, GenerateFromPassword salt p = inr h.

Lemma inserted id email hash u w w' : insert_user id email hash w = (Ok u, w') -> id ∈ u_id <$> users (w_db w').
Proof.
  intros H%exec_at_ok. case_bool_decide; [done|]. case_bool_decide; [done|]. injection H as _ <-.
  simpl. rewrite fmap_app, elem_of_app. right. by left.
Qed.

Lemma not_inserted id email hash err w w' :
  unfaulty (w_env w) -> insert_user id email hash w = (Err err, w') ->
  isUniqueConstraintErr err = true /\ (id ∈ u_id <$> users (w_db w) \/ taken (ToLower email) (w_db w)).
Proof.
  intros Hc (clk & H)%exec_at_calm; [|done]. unfold taken.
  case_bool_decide; [|case_bool_decide; [|by destruct H]]; destruct H as [[= ->] _]; (split; [reflexivity|auto]).
Qed.

Lemma user_found id w w' :
  exec_at (fun _ d => inr (find_row (fun r => u_id r = id) (users d), d)) w = (Ok None, w') -> id ∉ u_id <$> users (w_db w).
Proof.
  intros H%exec_at_ok (r & -> & Hr)%list_elem_of_fmap. injection H as H _.
  destruct (find_row_is_Some (fun r0 => u_id r0 = u_id r) (users (w_db w)) r) as [u Hu]; [done..|]. congruence.
Qed.

Abbreviation fresh_for d := (fun x => x ∉ u_id <$> users d).


Section signup.
Variables (e p : string).
Hypothesis He : re_match emailRe (normalizeEmail e) = true.
Hypothesis Hl : 8 <= String.length p.
Hypothesis Hb : forall salt, exists h, GenerateFromPassword salt p = inr h.

(** The branches such a sign-up does not take. *)
Ltac good_input :=
  try match goal with
  | H : negb (re_match _ _) = true |- _ => by rewrite He in H
  | H : bool_decide (_ < 8) = true |- _ => apply bool_decide_eq_true in H; lia
  | H : GenerateFromPassword ?a p = inl _ |- _ => destruct (Hb a); congruence
  | H : turns_out _ _ (Err _) |- _ => by destruct H as [_ H]; specialize (H I)
  | H : exec_at (fun _ _ => inr _) _ = (Err _, _) |- _ => by apply exec_at_calm in H as (? & ? & _); [|auto]
  end.

(** The account it has made is there to be read. *)
Ltac account_stays :=
  match goal with
  | Hi : exec_at _ _ = (Ok _, _), Hq : exec_at _ _ = (Ok None, _) |- _ =>
      exfalso; apply user_found in Hq; apply Hq; apply inserted in Hi; subst; auto
  end.

Lemma signup_wp d0 d :
  wp (fresh_for d0) True more_users (fun r _ => r = Ok tt \/ r = Err ErrEmailTaken) (code (call (OSignUp e p))) d.
Proof using He Hl Hb.
  follow. all: good_input.
  - by left.
  - account_stays.
  - right. match goal with H : exec_at _ _ = _ |- _ => apply not_inserted in H as [-> _]; auto end.
Qed.

Lemma signup_ahead d :
  ~ taken (ToLower (normalizeEmail e)) d ->
  ahead (fresh_for d) True (fun d1 => users d1 = users d) (wp (fresh_for d) True more_users (fun r _ => r = Ok tt)) (code (call (OSignUp e p))).
Proof using He Hl Hb.
  intros Hn. follow. all: good_input. all: next_call.
  - right. follow. all: good_input. all: try done. account_stays.
  - exfalso. match goal with H : exec_at _ _ = _ |- _ => apply not_inserted in H as [_ Hno]; [|auto] end.
    unfold taken in *. match goal with H : users _ = users _ |- _ => rewrite H in Hno end. by destruct Hno.
Qed.
End signup.

(** C13: Of sign-ups with one new address at the same time, when nothing fails and all
    have come as far as they can, exactly one has succeeded, and every other has the
    answer that the address is taken. *)
Theorem signups_exactly_one d t ops cs s email :
  ops <> [] -> re_match emailRe email = true -> Forall (signs_up email) ops -> ~ taken (ToLower email) d ->
  Forall (fun c => drawn c ∉ u_id <$> users d) cs -> Forall (fun c => fault c = None) cs ->
  steps (start d t (clients ops)) cs = Some s -> (forall c, step s c = None) ->
  exists i, returned s i = Some (Ok tt) /\
    forall j, j < length ops -> j <> i -> returned s j = Some (Err ErrEmailTaken).
Proof.
  intros Hne He Hops Hn Hdrawn Hcalm Hst Hstuck. rewrite <- (length_fmap (fun o => code (call o)) ops).
  assert (forall (P : prog IdentityDb unit -> Prop),
    (forall e p, normalizeEmail e = email -> 8 <= String.length p -> (forall salt, exists h, GenerateFromPassword salt p = inr h) ->
      P (code (call (OSignUp e p)))) -> Forall P (clients ops)) as Hall.
  { intros P HP. apply Forall_fmap. eapply Forall_impl; [exact Hops|]. intros o (e & p & -> & Hem & Hl & Hb). by apply HP. }
  eapply (exactly_one (fresh_for d) more_users (fun d1 => users d1 = users d)); [..|exact Hst|exact Hstuck]; try done.
  - by destruct ops.
  - apply Hall. intros. apply call_flat.
  - apply Hall. intros. apply signup_more.
  - apply Hall. intros e p <- Hl Hb. by apply signup_ahead.
  - apply Hall. intros e p <- Hl Hb. by apply signup_wp.
  - intros d' ps' Hrun i j Hi Hj.
    assert (forall k p, ps' !! k = Some p -> exists e p, ops !! k = Some (OSignUp e p) /\ normalizeEmail e = email) as Hop.
    { intros k p Hk. apply serial_length in Hrun. unfold clients in Hrun. cbn in Hrun. rewrite length_fmap in Hrun.
      destruct (lookup_lt_is_Some_2 ops k) as [o Ho]; [rewrite <- Hrun; by eapply lookup_lt_Some|].
      rewrite Forall_lookup in Hops. destruct (Hops _ _ Ho) as (e & p1 & -> & He' & _). eauto. }
    destruct (Hop _ _ Hi) as (? & ? & ? & ?), (Hop _ _ Hj) as (? & ? & ? & ?). by eapply one_signup.
Qed.

(** C15: Requests to the identity layer return, whatever the others do and whatever
    fails: no schedule goes on forever, and where none can go on all have returned. *)
Theorem concurrent_requests_return d t ops :
  Acc (fun s' s => exists c, step s c = Some s') (start d t (clients ops)) /\
  forall cs s, steps (start d t (clients ops)) cs = Some s -> (forall c, step s c = None) ->
    forall i, i < length ops -> is_Some (returned s i).
Proof.
  destruct (everybody_returns d t (clients ops)) as [Hacc Hret].
  { apply Forall_fmap, Forall_true. apply call_flat. }
  split; [exact Hacc|]. intros cs s Hst Hstuck i Hi. apply (Hret cs s Hst Hstuck). unfold clients. by rewrite length_fmap.
Qed.

End identity.

(** ** The owner plane *)

Section owners.
Context {bcrypt : Bcrypt}.
Import OwnerAuth OwnerAuthFacts.

Definition owner_call (o : op) : MO unit :=
  match o with
  | OBootstrap e p => Bootstrap e p ;; mret tt
  | OCreate e p r => CreateOwner e p r ;; mret tt
  | OLogin e p => Login e p ;; mret tt
  | OValidate t => ValidateSession t ;; mret tt
  | OLogout t => Logout t
  | OPurge => PurgeExpiredSessions ;; mret tt
  | OGet i => GetOwner i ;; mret tt
  | OList => ListOwners ;; mret tt
  | ODelete i => DeleteOwner i ;; mret tt
  end.

#[export] Instance reified_delete_owner_body id : Reified (delete_owner_body id).
Proof. unfold delete_owner_body, select_owner. reify. Defined.
#[export] Instance reified_owner_call o : Reified (owner_call o).
Proof.
  destruct o; unfold owner_call, Bootstrap, CreateOwner, createOwner, Login, ValidateSession, Logout, PurgeExpiredSessions,
    GetOwner, ListOwners, DeleteOwner, createSession, hashPassword, randomToken, select_owner, delete_sessions,
    insert_owner, insert_session; reify.
Defined.

Ltac follow := explore ltac:(cbn [reified_owner_call]).

Lemma owner_call_flat o : flat (code (owner_call o)).
Proof. destruct o; explore ltac:(cbn [reified_owner_call]; try unfold reified_delete_owner_body). Qed.

Lemma owner_call_keeps supply o : inside supply (keeps administered) (code (owner_call o)).
Proof.
  destruct o; follow.
  all: first
    [ apply insert_owner_keeps | apply owner_insert_session_keeps | apply within_query; apply _
    | apply owner_delete_sessions_keeps | apply within_body, DeleteOwner_keeps ].
Qed.

Definition administrators (ops : list op) : list (prog OwnerDb unit) := (fun o => code (owner_call o)) <$> ops.

(** C19: However many owners are deleted at the same time, among any other requests
    and faults, an account of the owner role is committed at every moment. *)
Theorem concurrent_owner_deletes d t ops cs s :
  administered d -> steps (start d t (administrators ops)) cs = Some s -> administered (committed s).
Proof.
  intros Hok Hst. destruct (pool_runs _ _ _ _ _ Hst) as (ps & Hrun & _).
  destruct (serial_inside _ _ (keeps administered) _ _ _ _ Hrun) as [Hk _]; [|by apply Hk].
  apply Forall_fmap, Forall_true. intros o. apply owner_call_keeps.
Qed.

End owners.

(** ** Tokens *)

Section tokens.
Context {bcrypt : Bcrypt}.
Import OAuth OAuthFacts.

(** What the token endpoint makes Fosite do to the storage; a rotation reports its
    error. *)
Definition storage_call (o : op) : MD unit :=
  match o with OpRotate req sig => RotateRefreshToken req sig | o => run_op o end.

#[export] Instance reified_rotate_tx kid key : Reified (rotate_tx kid key).
Proof. unfold rotate_tx. reify. Defined.
#[export] Instance reified_storage_call o : Reified (storage_call o).
Proof.
  destruct o as [[] ? ?|[] ?|?|[] ?|? ?|?|?|?|? ?|? ? ?|? ? ? ? ? ? ? ? ?| | |? ?|?];
    cbn [storage_call run_op]; unfold ignore, CreateAuthorizeCodeSession, CreateAccessTokenSession, CreateRefreshTokenSession,
    CreatePKCERequestSession, GetAuthorizeCodeSession, GetAccessTokenSession, GetRefreshTokenSession, GetPKCERequestSession,
    InvalidateAuthorizeCodeSession, DeleteAccessTokenSession, DeleteRefreshTokenSession, DeletePKCERequestSession,
    RotateRefreshToken, RevokeRefreshToken, RevokeAccessToken, RevokeAllForSubject, RevokeForSubject, RevokeConsent,
    RevokeForSubjectAndClient, get_active, getByTable, select_grant, hydrate, GetClient, EnsureKey, currentKey,
    EnsureHMACSecret, SetClientAssertionJWT, rotate, OAuth.insert, delete_grants, update_inactive, insertClient, saveConsent,
    oauthGrantTables; cbn [for_each]; reify.
Defined.

Ltac follow := explore ltac:(cbn [reified_storage_call]).

Lemma storage_call_steps supply allow o : allows allow o -> inside supply (rtc (db_step allow)) (code (storage_call o)).
Proof.
  intros Ha. destruct o as [[] ? ?|[] ?|?|[] ?|? ?|?|?|?|? ?|? ? ?|? ? ? ? ? ? ? ? ?| | |? ?|?]; follow.
  all: first
    [ apply within_query; apply _
    | exact (within_unmap _ _ _ (insert_steps _ _ _ _ Ha))
    | apply update_inactive_steps | apply delete_grants_steps | apply insertClient_steps | apply saveConsent_steps
    | apply within_update; [apply _|]; intros d; apply rtc_once; simpl; by constructor
    | idtac ].
  - apply within_body, within_transaction_body; [apply _|]. intros w [] w' Hrun. apply rotate_tx_ok in Hrun as (t & Hn & ->).
    by apply rtc_once, step_rotate.
  - apply within_body, within_transaction_body; [apply _|]. intros w [] w' Hrun. apply rotate_tx_ok in Hrun as (t & Hn & ->).
    by apply rtc_once, step_rotate.
  - apply within_exec; [apply _|]. intros d b d' Hx. destruct (oauth_hmac_secret (oauth d)) eqn:E; [discriminate|].
    injection Hx as _ <-. apply rtc_once. by constructor.
  - apply within_exec; [apply _|]. intros d b d' H. destruct (decide (jti ∈ jti_id <$> oauth_client_jti (oauth d))) as [|Hn].
    + by rewrite bool_decide_eq_true_2 in H.
    + rewrite bool_decide_eq_false_2 in H by done. injection H as _ <-. apply rtc_once. by apply step_jti.
Qed.

Definition endpoints (ops : list op) : list (prog Database unit) := (fun o => code (storage_call o)) <$> ops.

Definition spends (sig : string) (d d' : Database) : Prop := ~ spent sig d /\ spent sig d'.

Lemma rotate_commits req sig : commits (fun d d' => oauth_ok d -> spends sig d d') (code (storage_call (OpRotate req sig))).
Proof.
  follow; [by right| |by right]. left. intros Hok.
  assert (RotateRefreshToken req sig w = (Ok tt, w')) as Hrot.
  { unfold RotateRefreshToken, mbind, M_bind. replace (update_inactive _ _ w) with (@Ok nat a, w') by (by rewrite <- H).
    by rewrite Heqb. }
  split; [|eapply rotate_spends; [apply (ok_signature _ Hok)|exact Hrot]].
  intros Hs. pose proof (spent_rotate sig req w Hs) as Hn. by rewrite Hrot in Hn.
Qed.

Lemma one_rotation supply calm d ops d' ps sig :
  oauth_ok d -> Forall (allows (spares sig)) ops -> rtc (serial_step supply calm) (d, endpoints ops) (d', ps) ->
  forall i j req req' a b, ops !! i = Some (OpRotate req sig) -> ops !! j = Some (OpRotate req' sig) ->
    ps !! i = Some (Done (Ok a)) -> ps !! j = Some (Done (Ok b)) -> i = j.
Proof.
  intros Hok Ha Hrun i j req req' a b Hi Hj Hra Hrb.
  assert (forall R : relation Database, (forall d d', rtc (db_step (spares sig)) d d' -> R d d') ->
    Forall (inside supply R) (endpoints ops)) as Hin.
  { intros R HR. apply Forall_fmap. eapply Forall_impl; [exact Ha|]. intros o Ho. cbn.
    eapply inside_mono; [exact HR|by apply storage_call_steps]. }
  set (W := fun i => Exists (fun o => match o with OpRotate _ sig' => sig' = sig | _ => False end) (option_list (ops !! i))).
  assert (forall i, Decision (W i)) as HW by (intros k; unfold W; apply Exists_dec; intros []; apply _).
  eapply (at_most_one _ _ (fun d d' => oauth_ok d -> spends sig d d') oauth_ok (spent sig) (fun d d' HI HP => HP HI) W
            _ _ _ _ Hrun Hok); [apply Hin|apply Hin| | | | |]; eauto.
  - intros d1 d2 Hs Hd1. induction Hs as [|d1 d2 d3 H1 _ IH]; [done|]. by eapply IH, db_step_ok.
  - intros d1 d2 Hs Hd1. induction Hs as [|d1 d2 d3 H1 _ IH]; [done|]. by eapply IH, db_step_spent.
  - intros k q Hk (o & -> & Ho)%list_lookup_fmap_Some. unfold W in Hk. rewrite Ho in Hk. cbn in Hk.
    apply Exists_cons in Hk as [Hk|Hk%Exists_nil]; [|done]. destruct o; try done. subst. apply rotate_commits.
  - unfold W. rewrite Hi. by left.
  - unfold W. rewrite Hj. by left.
Qed.

(** C2: A refresh token that any number of requests rotate at the same time, among any
    other operations of the token endpoint, rotates for at most one of them. *)
Theorem concurrent_rotations d t ops cs s sig :
  oauth_ok d -> Forall (allows (spares sig)) ops -> steps (start d t (endpoints ops)) cs = Some s ->
  forall i j req req' a b, ops !! i = Some (OpRotate req sig) -> ops !! j = Some (OpRotate req' sig) ->
    i <> j -> returned s i = Some (Ok a) -> returned s j <> Some (Ok b).
Proof.
  intros Hok Ha Hst i j req req' a b Hi Hj Hne Hra Hrb. apply Hne.
  destruct (pool_runs _ _ _ _ _ Hst) as (ps & Hrun & Hret). by eapply one_rotation; eauto.
Qed.

(** *** Exactly one rotation *)

Definition live (req sig : string) (d : Database) : Prop :=
  Exists (fun r => g_signature r = sig /\ g_request_id r = req /\ g_active r = true) (grants RefreshTokens d).

Lemma rotate_ends supply req sig (R : relation Database) d :
  wp supply True R (fun r _ => r = Ok tt \/ r = Err ErrInactiveToken) (code (storage_call (OpRotate req sig))) d.
Proof.
  follow; [by right|by left|]. by apply exec_at_calm in H2 as (? & ? & _); [|auto].
Qed.

Lemma filter_not_nil {T} (P : T -> Prop) `{!forall x, Decision (P x)} l x : x ∈ l -> P x -> filter P l <> [].
Proof. intros Hx HP He. assert (x ∈ filter P l) as Hin by (by apply list_elem_of_filter). rewrite He in Hin. by apply not_elem_of_nil in Hin. Qed.

Lemma rotate_ahead supply req sig (R : relation Database) :
  ahead supply True (live req sig) (wp supply True R (fun r _ => r = Ok tt)) (code (storage_call (OpRotate req sig))).
Proof.
  follow. all: next_call.
  - exfalso. apply bool_decide_eq_true in Heqb as ->. apply exec_at_ok in H1. injection H1 as Hn _.
    apply Exists_exists in H as (r & Hr & Hl). apply length_zero_iff_nil in Hn. revert Hn. by eapply (filter_not_nil _ _ r).
  - right. auto.
  - exfalso. by apply exec_at_calm in H1 as (? & ? & _); [|auto].
Qed.

(** C20: Of requests that rotate one valid refresh token at the same time, when nothing
    fails and all have come as far as they can, exactly one has rotated it, and every
    other is told that it is not active. *)
Theorem rotations_exactly_one d t reqs cs s req sig :
  oauth_ok d -> live req sig d -> reqs <> [] -> Forall (fun o => o = OpRotate req sig) reqs ->
  Forall (fun c => fault c = None) cs -> steps (start d t (endpoints reqs)) cs = Some s -> (forall c, Pool.step s c = None) ->
  exists i, returned s i = Some (Ok tt) /\
    forall j, j < length reqs -> j <> i -> returned s j = Some (Err ErrInactiveToken).
Proof.
  intros Hok Hlive Hne Hops Hcalm Hst Hstuck. rewrite <- (length_fmap (fun o => code (storage_call o)) reqs).
  assert (forall P : prog Database unit -> Prop, P (code (storage_call (OpRotate req sig))) -> Forall P (endpoints reqs)) as Hall.
  { intros P HP. apply Forall_fmap. eapply Forall_impl; [exact Hops|]. by intros o ->. }
  assert (PreOrder (fun _ _ : Database => True)) as Hpre by by split.
  eapply (exactly_one (fun _ => True) (fun _ _ => True) (live req sig)); [..|exact Hst|exact Hstuck]; try done.
  - by destruct reqs.
  - apply Hall. follow.
  - apply Hall. follow. done.
  - apply Hall, rotate_ahead.
  - apply Hall, rotate_ends.
  - intros d' ps' Hrun i j Hi Hj.
    assert (forall k p, ps' !! k = Some p -> reqs !! k = Some (OpRotate req sig)) as Hop.
    { intros k p Hk. apply serial_length in Hrun. unfold endpoints in Hrun. cbn in Hrun. rewrite length_fmap in Hrun.
      destruct (lookup_lt_is_Some_2 reqs k) as [o Ho]; [rewrite <- Hrun; by eapply lookup_lt_Some|].
      rewrite Forall_lookup in Hops. by rewrite Ho, (Hops _ _ Ho). }
    refine (one_rotation _ _ _ _ _ _ sig Hok _ Hrun i j req req tt tt (Hop _ _ Hi) (Hop _ _ Hj) Hi Hj).
    eapply Forall_impl; [exact Hops|]. by intros o ->.
  - by apply Forall_true.
Qed.

End tokens.

(** ** Schedules *)

#[local] Existing Instance AuthFacts.toy_bcrypt.

(** No time passes and nothing fails; the first goroutine draws "first", the others
    "second". *)
Definition turns (l : list nat) : list choice :=
  (fun i => mkChoice i 0 None (if bool_decide (i = 0) then "first" else "second")) <$> l.

Section schedules.
Import Auth AuthFacts.

Definition after (ops : list op) (l : list nat) : option (Pool IdentityDb unit) :=
  steps (start sample_identity 0 (clients ops)) (turns l).
Definition ends_as (ops : list op) (l : list nat) : Pool IdentityDb unit :=
  default (start sample_identity 0 []) (after ops l).

Definition both_redeem : list op := [OResetPassword "tok" "password-1"; OResetPassword "tok" "password-2"].
Definition redeeming : list nat := [0; 1; 0; 0; 0; 0; 0; 0; 0; 1; 1; 1; 1].
Definition both_signup : list op := [OSignUp "bob@example.com" "password"; OSignUp " Bob@Example.com" "password"].
Definition signing_up : list nat := [0; 1; 0; 1; 1; 0; 1].

Lemma concurrent_identity_integrity_witness : identity_ok (committed (ends_as both_redeem redeeming)).
Proof.
  apply (concurrent_identity_integrity sample_identity 0 both_redeem (turns redeeming)).
  - apply sample_identity_ok.
  - vm_compute. reflexivity.
Defined.

Lemma concurrent_redemptions_witness :
  returned (ends_as both_redeem redeeming) 0 = Some (Ok tt) /\ returned (ends_as both_redeem redeeming) 1 <> Some (Ok tt).
Proof.
  split; [vm_compute; reflexivity|].
  apply (concurrent_redemptions sample_identity 0 both_redeem (turns redeeming) _ "tok" sample_identity_ok) with 0 "password-1" "password-2" tt.
  - vm_compute. reflexivity.
  - unfold other_than. evaluate.
  - reflexivity.
  - reflexivity.
  - discriminate.
  - vm_compute. reflexivity.
Defined.

Lemma concurrent_signups_witness :
  returned (ends_as both_signup signing_up) 1 = Some (Ok tt) /\ returned (ends_as both_signup signing_up) 0 <> Some (Ok tt).
Proof.
  split; [vm_compute; reflexivity|].
  apply (concurrent_signups sample_identity 0 both_signup (turns signing_up) _ "bob@example.com")
    with 1 " Bob@Example.com" "bob@example.com" "password" "password" tt.
  - vm_compute. reflexivity.
  - reflexivity.
  - reflexivity.
  - reflexivity.
  - reflexivity.
  - discriminate.
  - vm_compute. reflexivity.
Defined.

Lemma signups_exactly_one_witness :
  let s := ends_as both_signup signing_up in
  exists i, returned s i = Some (Ok tt) /\ (i = 0 \/ returned s 0 = Some (Err ErrEmailTaken)).
Proof.
  intros s. destruct (signups_exactly_one sample_identity 0 both_signup (turns signing_up) s "bob@example.com") as (i & Hi & Hothers).
  - discriminate.
  - reflexivity.
  - repeat constructor; eexists _, _; (split_and!; [reflexivity..|cbn; lia|intros salt; eexists; reflexivity]).
  - unfold taken. evaluate.
  - evaluate.
  - evaluate.
  - vm_compute. reflexivity.
  - intros [[|[|k]] el f x]; vm_compute; reflexivity.
  - exists i. split; [exact Hi|]. destruct (decide (i = 0)) as [->|Hne]; [by left|]. right. apply Hothers; [cbn; lia|congruence].
Defined.

(** The one that comes too late learns that the address is taken. *)
Example signup_loser : returned (ends_as both_signup signing_up) 0 = Some (Err ErrEmailTaken).
Proof. vm_compute. reflexivity. Qed.

Lemma concurrent_requests_return_witness : is_Some (returned (ends_as both_redeem redeeming) 1).
Proof.
  destruct (concurrent_requests_return sample_identity 0 both_redeem) as [_ Hret].
  apply (Hret (turns redeeming)).
  - vm_compute. reflexivity.
  - intros [[|[|i]] el f x]; vm_compute; reflexivity.
  - cbn. lia.
Defined.

(** A login that has checked the old password and is overtaken by a reset of it makes
    its session afterwards: the session outlives the reset that was to end them all. *)
Example login_outlives_reset :
  let s := ends_as [OLogin "ann@example.com" "password"; OResetPassword "tok" "new-password"] [0; 1; 1; 1; 1; 1; 1; 1; 1; 0; 0; 0; 0] in
  returned s 0 = Some (Ok tt) /\ returned s 1 = Some (Ok tt) /\
  (u_password_hash <$> users (db s)) = ["h:new-password"] /\ (s_user_id <$> sessions (db s)) = ["u1"].
Proof. vm_compute. done. Qed.

(** Two callbacks of a first sign-in: the second finds the account the first has made,
    and fails to link it. *)
Example double_callback_fails :
  let s := ends_as [OSocial "google" "42" "bob@example.com" EmptyString; OSocial "google" "42" "bob@example.com" EmptyString]
             [0; 1; 0; 1; 0; 1; 0; 1; 0; 1; 0; 1; 0; 1; 0; 1; 0; 1; 0; 0; 0] in
  returned s 0 = Some (Ok tt) /\
  returned s 1 = Some (Err (Wrap "link social identity"
    (Driver "constraint failed: UNIQUE constraint failed: social_identities.provider, social_identities.provider_user_id (2067)"))).
Proof. vm_compute. done. Qed.

End schedules.

(** Both owners are deleted at the same time: one of them stays. *)
Definition two_owners : OwnerDb :=
  mkOwnerDb [mkOwnerRow "o1" "ann@example.com" "h" OwnerAuth.RoleOwner 0 0; mkOwnerRow "o2" "bob@example.com" "h" OwnerAuth.RoleOwner 0 0] [].

Lemma concurrent_owner_deletes_witness :
  let ops := [OwnerAuthFacts.ODelete "o1"; OwnerAuthFacts.ODelete "o2"] in
  exists s, steps (start two_owners 0 (administrators ops)) (turns [1; 1; 1; 1; 1; 0; 0; 0; 0]) = Some s /\
    OwnerAuthFacts.administered (committed s) /\ returned s 0 = Some (Err OwnerAuth.ErrLastOwner).
Proof.
  intros ops. eexists. split; [vm_compute; reflexivity|]. split; [|vm_compute; reflexivity].
  apply (concurrent_owner_deletes two_owners 0 ops (turns [1; 1; 1; 1; 1; 0; 0; 0; 0])).
  - split; [split; evaluate|vm_compute; lia].
  - vm_compute. reflexivity.
Defined.

Lemma concurrent_rotations_witness :
  let sig := "oauth_refresh_tokens-sig" in
  let ops := [OAuthFacts.OpRotate "req1" sig; OAuthFacts.OpRotate "req1" sig] in
  returned (default (start OAuthFacts.sample_db 0 []) (steps (start OAuthFacts.sample_db 0 (endpoints ops)) (turns [1; 0]))) 0 <> Some (Ok tt).
Proof.
  intros sig ops.
  apply (concurrent_rotations OAuthFacts.sample_db 0 ops (turns [1; 0]) _ sig OAuthFacts.sample_db_ok) with 1 "req1" "req1" tt.
  - repeat constructor.
  - vm_compute. reflexivity.
  - reflexivity.
  - reflexivity.
  - discriminate.
  - vm_compute. reflexivity.
Defined.

Lemma rotations_exactly_one_witness :
  let sig := "oauth_refresh_tokens-sig" in
  let ops := [OAuthFacts.OpRotate "req1" sig; OAuthFacts.OpRotate "req1" sig] in
  let s := default (start OAuthFacts.sample_db 0 []) (steps (start OAuthFacts.sample_db 0 (endpoints ops)) (turns [1; 0])) in
  exists i, returned s i = Some (Ok tt) /\ (i = 0 \/ returned s 0 = Some (Err OAuth.ErrInactiveToken)).
Proof.
  intros sig ops s.
  destruct (rotations_exactly_one OAuthFacts.sample_db 0 ops (turns [1; 0]) s "req1" sig OAuthFacts.sample_db_ok) as (i & Hi & Hothers).
  - unfold live. evaluate.
  - discriminate.
  - repeat constructor.
  - evaluate.
  - vm_compute. reflexivity.
  - intros [[|[|k]] el f x]; vm_compute; reflexivity.
  - exists i. split; [exact Hi|]. destruct (decide (i = 0)) as [->|Hne]; [by left|]. right. apply Hothers; [cbn; lia|congruence].
Defined.

End ConcurrencyFacts.
