(* ===== verification/Register.v ===== *)
(** * The authorization server: registration, discovery, tokens

    Models src/internal/oauth/register.go (dynamic client registration),
    src/internal/oauth/wellknown.go (the discovery document) and the token and
    revocation endpoints of src/internal/oauth/handlers.go, with what the first
    uses of net/url.  The token protocol is Fosite's: [TokenEndpoint]. *)

From S2P Require Import Prelude GoStrings Encoding Schema Auth OAuth.

(** ** net/url *)

Module Url.

(** What [url.Parse] checks of a host and its port depends on the release of Go. *)
Class HostSyntax := { parseHost : string -> bool }.

(** [strings.Cut] at a byte. *)
Fixpoint Cut (c : ascii) (s : string) : string * string :=
  match s with
  | EmptyString => (EmptyString, EmptyString)
  | String x r => if byte_eqb x c then (EmptyString, r) else let '(a, b) := Cut c r in (String x a, b)
  end.

Definition is_ctl (c : ascii) : bool := (byte_n c <? 32)%N || (byte_n c =? 127)%N.
Definition is_letter (c : ascii) : bool := is_lower c || is_upper c.
Definition scheme_byte (c : ascii) : bool :=
  is_digit c || byte_eqb c "+" || byte_eqb c "-" || byte_eqb c ".".

(** The scheme so far and the rest; [None] when the scheme is missing. *)
Fixpoint scheme_loop (rawURL acc s : string) : option (string * string) :=
  match s with
  | EmptyString => Some (EmptyString, rawURL)
  | String c r =>
      if is_letter c then scheme_loop rawURL (acc +:+ one c) r
      else if scheme_byte c then
        if bool_decide (acc = EmptyString) then Some (EmptyString, rawURL) else scheme_loop rawURL (acc +:+ one c) r
      else if byte_eqb c ":" then if bool_decide (acc = EmptyString) then None else Some (acc, r)
      else Some (EmptyString, rawURL)
  end.
Definition getScheme (rawURL : string) : option (string * string) := scheme_loop rawURL EmptyString rawURL.

Definition is_hex (c : ascii) : bool := is_digit c || in_range 97 102 c || in_range 65 70 c.

(** [unescape], of a path, a user, a password or a fragment: whether it succeeds. *)
Fixpoint unescapes (s : string) : bool :=
  match s with
  | EmptyString => true
  | String c r =>
      if byte_eqb c "%" then
        match r with
        | String a (String b r') => is_hex a && is_hex b && unescapes r'
        | _ => false
        end
      else unescapes r
  end.

Definition userinfo_byte (c : ascii) : bool :=
  is_letter c || is_digit c ||
  existsb (byte_eqb c) ["-"; "."; "_"; ":"; "~"; "!"; "$"; "&"; "'"; "("; ")"; "*"; "+"; ","; ";"; "="; "%"; "@"]%char.

Section parse.
Context {host_syntax : HostSyntax}.

Definition parseAuthority (authority : string) : bool :=
  match LastIndexFunc (fun c => byte_eqb c "@") authority with
  | None => parseHost authority
  | Some i =>
      let userinfo := stake i authority in
      parseHost (sdrop (i + 1) authority) && sall userinfo_byte userinfo &&
      (let '(username, password) := Cut ":" userinfo in unescapes username && unescapes password)
  end.

(** The scheme of what has no fragment, unless it is no URL. *)
Definition parse (rawURL : string) : option string :=
  if negb (sall (fun c => negb (is_ctl c)) rawURL) then None
  else if bool_decide (rawURL = "*") then Some EmptyString
  else
    match getScheme rawURL with
    | None => None
    | Some (scheme0, rest0) =>
        let scheme := ToLower scheme0 in
        let rest := (Cut "?" rest0).1 in
        if negb (HasPrefix rest "/") && negb (bool_decide (scheme = EmptyString)) then Some scheme
        else if negb (HasPrefix rest "/") && Contains (Cut "/" rest).1 ":" then None
        else if (negb (bool_decide (scheme = EmptyString)) || negb (HasPrefix rest "///")) && HasPrefix rest "//" then
          let '(authority, path) := Cut "/" (sdrop 2 rest) in
          if parseAuthority authority && unescapes path then Some scheme else None
        else if unescapes rest then Some scheme else None
    end.

(** [url.Parse]: the scheme, and whether there is a fragment. *)
Definition Parse (rawURL : string) : option (string * bool) :=
  let '(u, frag) := Cut "#" rawURL in
  match parse u with
  | None => None
  | Some scheme =>
      if bool_decide (frag = EmptyString) then Some (scheme, false)
      else if unescapes frag then Some (scheme, true) else None
  end.
End parse.
End Url.

(** ** Registration *)

Module Register.
Import OAuth Url.

Definition maxRegisterBodyBytes : Z := 16 * 1024.
Definition maxRedirectURIs : nat := 20.
Definition maxRedirectURILen : nat := Z.to_nat 2048.
Definition maxClientNameLen : nat := 200.

Definition allowedAuthMethods : list string := ["none"; "client_secret_basic"; "client_secret_post"].
Definition allowedGrantTypes : list string := ["authorization_code"; "refresh_token"].
Definition allowedResponseType : list string := ["code"].

Record registerRequest : Type := mkRegisterRequest {
  req_RedirectURIs : list string; req_ClientName : string; req_TokenEndpointAuthMethod : string;
  req_GrantTypes : list string; req_ResponseTypes : list string; req_Scope : string;
}.

Record registerResponse : Type := mkRegisterResponse {
  ClientID : string; ClientSecret : string; ClientIDIssuedAt : Z; ClientSecretExpiresAt : Z; ClientName : string;
  RedirectURIs : list string; TokenEndpointAuthMethod : string; GrantTypes : list string; ResponseTypes : list string;
  Scope : string;
}.

Inductive Reply : Type :=
| Created (r : registerResponse)
| Rejected (code description : string)      (* 400 *)
| InternalError.

(** Fosite's hasher of client secrets, with its salt. *)
Class SecretsHasher := { Hash : string -> string -> string + string }.

(** The body: the bytes up to the end of the first JSON value and what it decodes to. *)
Definition Decode (body : option (Z * registerRequest)) : option registerRequest :=
  match body with
  | Some (n, req) => if (n <=? maxRegisterBodyBytes)%Z then Some req else None
  | None => None
  end.

Definition randomSecret {D} : M D string := b ← rand_read; mret (RawURLEncode b).

Section register.
Context {host_syntax : HostSyntax} {hasher : SecretsHasher}.

Fixpoint check_uris (uris : list string) : option string :=
  match uris with
  | [] => None
  | ru :: rest =>
      if bool_decide (maxRedirectURILen < String.length ru) then Some "redirect_uri too long"
      else
        match Parse ru with
        | None => Some ("redirect_uri " +:+ Quote ru +:+ " is not a well-formed absolute URI")
        | Some (scheme, fragment) =>
            if bool_decide (scheme = EmptyString) then
              Some ("redirect_uri " +:+ Quote ru +:+ " is not a well-formed absolute URI")
            else if fragment : bool then Some ("redirect_uri " +:+ Quote ru +:+ " must not include a fragment")
            else check_uris rest
        end
  end.

(** The first of a list that is not supported. *)
Definition unsupported (allowed l : list string) : option string := find_row (fun x => x ∉ allowed) l.

Definition or_default {A} (l d : list A) : list A := match l with [] => d | _ => l end.

Definition authMethod_of (req : registerRequest) : string :=
  if bool_decide (req_TokenEndpointAuthMethod req = EmptyString) then "client_secret_basic"
  else req_TokenEndpointAuthMethod req.
Definition grantTypes_of (req : registerRequest) : list string := or_default (req_GrantTypes req) ["authorization_code"].
Definition responseTypes_of (req : registerRequest) : list string := or_default (req_ResponseTypes req) ["code"].
Definition scopes_of (req : registerRequest) : list string :=
  if bool_decide (TrimSpace (req_Scope req) = EmptyString) then AllowedScopes else Fields (req_Scope req).

Definition invalid_metadata (description : string) : option (string * string) :=
  Some ("invalid_client_metadata", description).
Definition invalid_uri (description : string) : option (string * string) := Some ("invalid_redirect_uri", description).

(** What is wrong with a registration: the first rule it breaks. *)
Definition rejection (req : registerRequest) : option (string * string) :=
  if bool_decide (maxClientNameLen < String.length (req_ClientName req)) then
    invalid_metadata "client_name too long (max 200 characters)"
  else if bool_decide (req_RedirectURIs req = []) then invalid_uri "redirect_uris is required"
  else if bool_decide (maxRedirectURIs < length (req_RedirectURIs req)) then invalid_uri "too many redirect_uris (max 20)"
  else
    match check_uris (req_RedirectURIs req) with
    | Some e => invalid_uri e
    | None =>
    if bool_decide (authMethod_of req ∉ allowedAuthMethods) then
      invalid_metadata "unsupported token_endpoint_auth_method (supported: none, client_secret_basic, client_secret_post)"
    else
    match unsupported allowedGrantTypes (grantTypes_of req) with
    | Some gt => invalid_metadata ("unsupported grant_type " +:+ Quote gt +:+ " (supported: authorization_code, refresh_token)")
    | None =>
    match unsupported allowedResponseType (responseTypes_of req) with
    | Some rt => invalid_metadata ("unsupported response_type " +:+ Quote rt +:+ " (supported: code)")
    | None =>
    match find_row (fun sc => isAllowedScope sc = false) (scopes_of req) with
    | Some sc => invalid_metadata ("unsupported scope " +:+ Quote sc)
    | None => None
    end end end end.

(** The secret in clear and hashed; none for a public client. *)
Definition new_secret (isPublic : bool) : MD (string * option string) :=
  if isPublic then mret (EmptyString, None)
  else
    plain ← randomSecret;
    salt ← rand_read;
    match Hash salt plain with
    | inl e => fail (Driver e)
    | inr h => mret (plain, Some h)
    end.

Definition HandleRegister (body : option (Z * registerRequest)) : MD Reply :=
  match Decode body with
  | None => mret (Rejected "invalid_client_metadata" "malformed JSON body, or body too large")
  | Some req =>
      match rejection req with
      | Some (code, description) => mret (Rejected code description)
      | None =>
          let isPublic := bool_decide (authMethod_of req = "none") in
          try_or (fun _ => InternalError) (new_secret isPublic) (fun secret =>
          clientID ← new_uuid;
          try_or (fun _ => InternalError)
            (insertClient clientID secret.2 isPublic (authMethod_of req) (req_ClientName req) (req_RedirectURIs req)
               (grantTypes_of req) (responseTypes_of req) (scopes_of req)) (fun _ =>
          t ← now;
          mret (Created (mkRegisterResponse clientID secret.1 (t / second) 0 (req_ClientName req) (req_RedirectURIs req)
                           (authMethod_of req) (grantTypes_of req) (responseTypes_of req) (Join " " (scopes_of req))))))
      end
  end.

End register.

(** ** Discovery *)

Record authServerMetadata : Type := mkAuthServerMetadata {
  Issuer : string; AuthorizationEndpoint : string; TokenEndpointURL : string; RegistrationEndpoint : string;
  RevocationEndpoint : string; JWKSURI : string; ScopesSupported : list string; ResponseTypesSupported : list string;
  GrantTypesSupported : list string; TokenEndpointAuthMethodsSupported : list string;
  CodeChallengeMethodsSupported : list string;
}.

Definition HandleAuthServerMetadata (issuer : string) : authServerMetadata :=
  mkAuthServerMetadata issuer (issuer +:+ "/oauth/authorize") (issuer +:+ "/oauth/token") (issuer +:+ "/oauth/register")
    (issuer +:+ "/oauth/revoke") (issuer +:+ "/.well-known/jwks.json") AllowedScopes ["code"]
    ["authorization_code"; "refresh_token"] ["none"; "client_secret_basic"; "client_secret_post"] ["S256"].

(** ** Tokens *)

(** Fosite, of a request to the token or the revocation endpoint. *)
Class TokenEndpoint := {
  AccessRequester : Type;
  AccessResponder : Type;
  NewAccessRequest : string -> M Database AccessRequester;
  NewAccessResponse : AccessRequester -> M Database AccessResponder;
  NewRevocationRequest : string -> M Database unit;
}.

Inductive TokenReply `{TokenEndpoint} : Type :=
| AccessResponse (ar : AccessRequester) (resp : AccessResponder)
| AccessError (e : error)
| RevocationResponse (e : option error).

Section tokens.
Context {token_endpoint : TokenEndpoint}.

Definition HandleToken (form : string) : MD TokenReply :=
  try_or AccessError (NewAccessRequest form) (fun ar =>
  try_or AccessError (NewAccessResponse ar) (fun resp =>
  mret (AccessResponse ar resp))).

Definition HandleRevoke (form : string) : MD TokenReply :=
  r ← attempt (NewRevocationRequest form);
  mret (RevocationResponse (match r with Ok _ => None | Err e => Some e end)).
End tokens.

End Register.
