(* ===== verification/RegisterFacts.v ===== *)
(** * Registration and discovery: theorems

    What a registration stores and answers on every branch, which redirect URIs it
    takes, and that what discovery announces is what registration accepts. *)

From S2P Require Import Prelude GoStrings Encoding Schema Auth OAuth OAuthFacts Register.

Module RegisterFacts.
Import OAuth Url Register.

(** ** net/url *)

Definition no_hash (s : string) : Prop := no_byte "#" s = true.

Lemma Cut_spec c s :
  no_byte c (Cut c s).1 = true /\
  (s = (Cut c s).1 /\ (Cut c s).2 = EmptyString \/ s = (Cut c s).1 +:+ String c (Cut c s).2).
Proof.
  induction s as [|x s [IH1 IH2]]; [split; [done|by left]|]. cbn [Cut]. destruct (byte_eqb x c) eqn:E.
  - apply byte_eqb_eq in E as ->. split; [done|by right].
  - destruct (Cut c s) as [a b]. cbn [fst snd] in *. split.
    + unfold no_byte in *. simpl. by rewrite E, IH1.
    + destruct IH2 as [[-> ->]| ->]; [left|right]; done.
Qed.

(** A scheme: a letter, then letters, digits, plus, minus and dot. *)
Definition is_scheme (s : string) : Prop :=
  exists c r, s = String c r /\ is_letter c = true /\ sall (fun x => is_letter x || scheme_byte x) r = true.

Definition scheme_prefix (s : string) : Prop := s = EmptyString \/ is_scheme s.

Lemma scheme_loop_spec raw s : forall acc scheme rest,
  scheme_loop raw acc s = Some (scheme, rest) -> scheme_prefix acc -> raw = acc +:+ s ->
  scheme = EmptyString \/ is_scheme scheme /\ raw = scheme +:+ String ":" rest.
Proof.
  induction s as [|c s IH]; intros acc scheme rest; cbn [scheme_loop]; [intros [= <- _]; by left|].
  intros H Ha Hr. assert (forall a, scheme_prefix a -> raw = a +:+ s -> scheme_loop raw a s = Some (scheme, rest) ->
    scheme = EmptyString \/ is_scheme scheme /\ raw = scheme +:+ String ":" rest) as IH' by eauto. clear IH.
  destruct (is_letter c) eqn:El.
  { apply (IH' (acc +:+ one c)); [right| |done].
    - destruct Ha as [->|(a & r & -> & H1 & H2)]; [by exists c, EmptyString|].
      exists a, (r +:+ one c). split_and!; [done|done|]. rewrite sall_app, H2. simpl. by rewrite El.
    - rewrite Hr, <- sapp_assoc. done. }
  destruct (scheme_byte c) eqn:Es.
  { case_bool_decide; [injection H as <- _; by left|]. apply (IH' (acc +:+ one c)); [right| |done].
    - destruct Ha as [->|(a & r & -> & H1 & H2)]; [done|].
      exists a, (r +:+ one c). split_and!; [done|done|]. rewrite sall_app, H2. simpl. by rewrite Es, orb_true_r.
    - rewrite Hr, <- sapp_assoc. done. }
  destruct (byte_eqb c ":") eqn:Ec; [|injection H as <- _; by left].
  case_bool_decide; [done|]. injection H as <- <-. right. destruct Ha as [->|Ha]; [done|].
  apply byte_eqb_eq in Ec as ->. done.
Qed.

Lemma getScheme_spec raw scheme rest :
  getScheme raw = Some (scheme, rest) -> scheme = EmptyString \/ is_scheme scheme /\ raw = scheme +:+ String ":" rest.
Proof. intros H. eapply scheme_loop_spec; [exact H|by left|done]. Qed.

Section url.
Context {host_syntax : HostSyntax}.

Lemma parse_scheme raw scheme :
  parse raw = Some scheme -> scheme <> EmptyString -> exists s rest, is_scheme s /\ raw = s +:+ String ":" rest.
Proof.
  unfold parse. destruct (negb (sall _ _)); [done|]. case_bool_decide as Hstar; [by intros [= <-]|].
  destruct (getScheme raw) as [[s rest]|] eqn:E; [|done]. apply getScheme_spec in E. cbv zeta.
  intros H Hne. destruct E as [->|[Hs ->]]; [exfalso|eauto].
  change (ToLower EmptyString) with EmptyString in H. rewrite (bool_decide_eq_true_2 (EmptyString = EmptyString)) in H by done.
  rewrite andb_false_r in H. destruct (negb (HasPrefix _ "/") && _); [done|].
  destruct (_ && HasPrefix _ "//"); [destruct (Cut "/" (sdrop 2 _)) as [a p]; destruct (_ && _)|destruct (unescapes _)];
    try done; by injection H as <-.
Qed.

(** An absolute URI with no fragment, but perhaps an empty one. *)
Definition absolute_uri (ru : string) : Prop :=
  exists scheme rest, is_scheme scheme /\ no_hash (scheme +:+ String ":" rest) /\
    (ru = scheme +:+ String ":" rest \/ ru = scheme +:+ String ":" rest +:+ "#").

Lemma Parse_absolute ru scheme :
  Parse ru = Some (scheme, false) -> scheme <> EmptyString -> absolute_uri ru.
Proof.
  unfold Parse. destruct (Cut "#" ru) as [u frag] eqn:E. destruct (parse u) as [sc|] eqn:Ep; [|done].
  case_bool_decide as Hf; [|destruct (unescapes frag); done]. intros [= ->] Hne.
  apply parse_scheme in Ep as (s & rest & Hs & ->); [|done]. exists s, rest.
  destruct (Cut_spec "#" ru) as [H1 H2]. rewrite E in H1, H2. cbn [fst snd] in *. subst frag.
  split_and!; [done|done|]. destruct H2 as [[-> _]| ->]; [by left|right]. by rewrite <- sapp_assoc.
Qed.
End url.

(** ** Registration *)

Record uri_ok (ru : string) : Prop := {
  uri_length : String.length ru <= 2048;
  uri_absolute : absolute_uri ru;
}.

(** What a client may register. *)
Record acceptable (req : registerRequest) : Prop := {
  ok_name : String.length (req_ClientName req) <= 200;
  ok_uris_count : 1 <= length (req_RedirectURIs req) <= 20;
  ok_uris : Forall uri_ok (req_RedirectURIs req);
  ok_method : authMethod_of req ∈ ["none"; "client_secret_basic"; "client_secret_post"];
  ok_grants : grantTypes_of req ⊆ ["authorization_code"; "refresh_token"] /\ grantTypes_of req <> [];
  ok_responses : responseTypes_of req ⊆ ["code"] /\ responseTypes_of req <> [];
  ok_scopes : scopes_of req ⊆ AllowedScopes;
}.

Lemma unsupported_None allowed l : unsupported allowed l = None -> l ⊆ allowed.
Proof.
  unfold unsupported. intros H x Hx. destruct (decide (x ∈ allowed)) as [|Hn]; [done|]. pose proof (find_row_None _ _ H) as H0.
  by destruct (H0 x Hx).
Qed.

Lemma isAllowedScope_true sc : isAllowedScope sc = true -> sc ∈ AllowedScopes.
Proof.
  unfold isAllowedScope. intros (x & Hx & ->%bool_decide_eq_true)%existsb_exists. by apply list_elem_of_In.
Qed.

(** *** Scopes as a string *)

Definition word (s : string) : Prop := s <> EmptyString /\ sall (fun c => negb (is_space c)) s = true.

Lemma fields_aux_word w : forall s cur,
  sall (fun c => negb (is_space c)) w = true -> fields_aux (w +:+ s) cur = fields_aux s (cur +:+ w).
Proof.
  induction w as [|c w IH]; intros s cur; simpl; [by rewrite sapp_nil_r|].
  intros [Hc Hw]%andb_true_iff. apply negb_true_iff in Hc. rewrite Hc, IH by done. by rewrite <- sapp_assoc.
Qed.

Lemma Fields_Join l : Forall word l -> Fields (Join " " l) = l.
Proof.
  unfold Fields. intros H. induction H as [|w l [Hne Hw] Hl IH]; [done|]. cbn [Join]. destruct l as [|w2 l].
  - rewrite <- (sapp_nil_r w) at 1. rewrite (fields_aux_word w EmptyString EmptyString Hw). by destruct w.
  - rewrite (fields_aux_word w _ EmptyString Hw).
    transitivity (w :: fields_aux (Join " " (w2 :: l)) EmptyString); [by destruct w|by rewrite IH].
Qed.

Lemma allowed_word sc : sc ∈ AllowedScopes -> word sc.
Proof.
  intros H. apply (proj1 (Forall_forall word AllowedScopes)); [|exact H]. 
  repeat (constructor; [split; [discriminate|reflexivity]|]). constructor.
Qed.

Section register.
Context {host_syntax : HostSyntax} {hasher : SecretsHasher}.

Lemma check_uris_ok uris : check_uris uris = None -> Forall uri_ok uris.
Proof.
  induction uris as [|ru rest IH]; cbn [check_uris]; [constructor|].
  case_bool_decide as Hl; [done|]. destruct (Parse ru) as [[scheme fragment]|] eqn:E; [|done].
  case_bool_decide as Hs; [done|]. destruct fragment; [done|]. intros H. constructor; [|by apply IH].
  split; [unfold maxRedirectURILen in Hl; lia|by eapply Parse_absolute].
Qed.

Lemma rejection_None req : rejection req = None -> acceptable req.
Proof.
  unfold rejection, invalid_metadata, invalid_uri. intros H.
  case_bool_decide as H1; [done|]. case_bool_decide as H2; [done|]. case_bool_decide as H3; [done|].
  destruct (check_uris _) eqn:H4; [done|]. case_bool_decide as H5; [done|].
  destruct (unsupported allowedGrantTypes _) eqn:H6; [done|]. destruct (unsupported allowedResponseType _) eqn:H7; [done|].
  destruct (find_row _ _) eqn:H8; [done|]. unfold maxClientNameLen, maxRedirectURIs in *. constructor.
  - lia.
  - destruct (req_RedirectURIs req); [done|]. simpl in *. lia.
  - by apply check_uris_ok.
  - exact H5.
  - split; [by apply unsupported_None|]. unfold grantTypes_of, or_default. by destruct (req_GrantTypes req).
  - split; [by apply unsupported_None|]. unfold responseTypes_of, or_default. by destruct (req_ResponseTypes req).
  - intros sc Hsc. apply isAllowedScope_true. pose proof (find_row_None _ _ H8 sc Hsc) as H9.
    apply not_false_iff_true. exact H9.
Qed.

Lemma new_secret_run pub w x w' :
  new_secret pub w = (x, w') ->
  w_db w' = w_db w /\
  forall s h, x = Ok (s, h) ->
    if pub then s = EmptyString /\ h = None
    else exists hash salt b, s = RawURLEncode b /\ h = Some hash /\ Hash salt s = inr hash.
Proof.
  intros H. assert (w_db w' = w_db w) as Hw.
  { assert (within eq (new_secret pub)) as Hs.
    { unfold new_secret, randomSecret. destruct pub; within_solve. }
    specialize (Hs w). by rewrite H in Hs. }
  split; [done|]. intros s h ->. unfold new_secret, randomSecret in H. destruct pub; [by injection H as <- <- _|].
  apply bind_ok in H as (plain & w1 & (b & w0 & _ & Hp)%bind_ok & H).
  apply mret_ok in Hp as [Hp _]. apply bind_ok in H as (salt & w2 & _ & H).
  destruct (Hash salt _) as [e|hash] eqn:E; [done|]. injection H as <- <- _. subst plain. eauto 10.
Qed.

(** The row of a registration. *)
Definition registered_row (req : registerRequest) (id : string) (stored : option string) (created : Z) : ClientRow :=
  mkClientRow id stored (req_ClientName req) (req_RedirectURIs req) (grantTypes_of req) (responseTypes_of req)
    (scopes_of req) (authMethod_of req) (bool_decide (authMethod_of req = "none")) created.

(** A registration that succeeded: what is stored and what is answered. *)
Definition registered (req : registerRequest) (resp : registerResponse) (stored : option string) (d d' : Database) : Prop :=
  (ClientID resp ∉ c_id <$> oauth_clients (Schema.oauth d)) /\
  (exists created, d' = put_oauth (set_clients (fun l => l ++ [registered_row req (ClientID resp) stored created]) (Schema.oauth d)) d) /\
  (if bool_decide (authMethod_of req = "none") then ClientSecret resp = EmptyString /\ stored = None
   else exists hash salt b, ClientSecret resp = RawURLEncode b /\ stored = Some hash /\ Hash salt (ClientSecret resp) = inr hash) /\
  exists issued, resp = mkRegisterResponse (ClientID resp) (ClientSecret resp) issued 0 (req_ClientName req)
    (req_RedirectURIs req) (authMethod_of req) (grantTypes_of req) (responseTypes_of req) (Join " " (scopes_of req)).

Lemma HandleRegister_run body w r w' :
  HandleRegister body w = (r, w') ->
  match r with
  | Err _ => False
  | Ok (Rejected code description) =>
      w' = w /\ match Decode body with Some req => rejection req = Some (code, description) | None => True end
  | Ok InternalError => w_db w' = w_db w /\ exists req, Decode body = Some req /\ rejection req = None
  | Ok (Created resp) =>
      exists req stored, Decode body = Some req /\ rejection req = None /\ registered req resp stored (w_db w) (w_db w')
  end.
Proof.
  unfold HandleRegister. destruct (Decode body) as [req|] eqn:Eb; [|by intros [= <- <-]].
  destruct (rejection req) as [[code description]|] eqn:Er; [by intros [= <- <-]|].
  intros H. cbv zeta in H. unfold try_or at 1 in H.
  destruct (new_secret _ w) as [[[s h]|e] w1] eqn:E1; apply new_secret_run in E1 as [D1 Hs]; [|injection H as <- <-; eauto].
  specialize (Hs s h eq_refl). unfold mbind at 1, M_bind at 1, new_uuid in H. destruct (env_draw (w_env w1)) as [n e1] eqn:En.
  unfold try_or in H. cbn [snd] in H.
  destruct (insertClient _ _ _ _ _ _ _ _ _ _) as [[[]|e] w2] eqn:E2 in H.
  - injection H as <- <-. exists req, h. split_and!; [done|done|].
    apply exec_at_ok in E2 as E3. cbn [w_env w_db] in E3. rewrite D1 in E3. case_bool_decide as Hin; [done|].
    injection E3 as E3. split; [exact Hin|]. split; [|split].
    + eexists. symmetry. exact E3.
    + destruct (bool_decide _); [exact Hs|]. destruct Hs as (hash & salt & b & H1 & H2 & H3). exists hash, salt, b. auto.
    + by eexists.
  - injection H as <- <-. split; [|eauto]. apply exec_at_err in E2. by rewrite E2.
Qed.

(** C40: every outcome of a registration, whatever fails: a request that breaks a rule is
    answered with the first one it breaks before anything else happens; otherwise the
    client is stored as requested, with the defaults filled in and the secret only as
    its hash, and answered with its new identifier; or nothing is stored. *)
Theorem HandleRegister_exact body w r w' :
  HandleRegister body w = (r, w') ->
  match r with
  | Err _ => False
  | Ok (Rejected code description) =>
      w' = w /\ match Decode body with Some req => rejection req = Some (code, description) | None => True end
  | Ok InternalError => w_db w' = w_db w /\ exists req, Decode body = Some req /\ rejection req = None
  | Ok (Created resp) =>
      exists req stored, Decode body = Some req /\ acceptable req /\ registered req resp stored (w_db w) (w_db w')
  end.
Proof.
  intros H%HandleRegister_run. destruct r as [[resp|code description|]|e]; try done.
  destruct H as (req & stored & H1 & H2 & H3). exists req, stored. split_and!; [done|by apply rejection_None|done].
Qed.

(** the client somebody registered is the client the endpoints then look up: with
    the redirect URIs, grant types, response types and scopes of the answer. *)
Theorem register_then_GetClient body w resp w1 w2 :
  HandleRegister body w = (Ok (Created resp), w1) -> quiet w2 -> w_db w2 = w_db w1 ->
  exists stored, GetClient (ClientID resp) w2 =
    (Ok (mkDbClient (ClientID resp) stored (bool_decide (TokenEndpointAuthMethod resp = "none")) (RedirectURIs resp)
           (GrantTypes resp) (ResponseTypes resp)
           (Fields (Scope resp))), w2).
Proof.
  intros H Hq Hd. apply HandleRegister_run in H as (req & stored & _ & Hr & Hn & (created & Hw) & _ & (issued & Hresp)).
  exists stored. unfold GetClient, mbind, M_bind, wrapping, map_err. rewrite query_quiet by done. rewrite Hd, Hw.
  assert (Fields (Scope resp) = scopes_of req) as ->.
  { rewrite Hresp. apply Fields_Join. apply Forall_forall. intros sc Hsc.
    apply allowed_word. by apply (ok_scopes _ (rejection_None _ Hr)). }
  cbn [put_oauth Schema.oauth set_clients oauth_clients]. unfold find_row. rewrite filter_app, filter_none.
  - rewrite filter_cons_True by done. destruct resp. cbn in Hresp. by injection Hresp as -> -> -> -> -> -> ->.
  - apply Forall_forall. intros x Hx Hid. apply Hn. rewrite <- Hid. by apply list_elem_of_fmap_2.
Qed.

End register.
(** ** Discovery *)

(** discovery announces exactly what registration accepts, and the endpoints lie under
    the issuer. *)
Theorem metadata_matches_registration issuer :
  let m := HandleAuthServerMetadata issuer in
  (forall x, x ∈ TokenEndpointAuthMethodsSupported m <-> x ∈ allowedAuthMethods) /\
  (forall x, x ∈ GrantTypesSupported m <-> x ∈ allowedGrantTypes) /\
  (forall x, x ∈ ResponseTypesSupported m <-> x ∈ allowedResponseType) /\
  (forall x, x ∈ ScopesSupported m <-> isAllowedScope x = true) /\
  Forall (fun u => HasPrefix u issuer = true)
    [AuthorizationEndpoint m; TokenEndpointURL m; RegistrationEndpoint m; RevocationEndpoint m; JWKSURI m].
Proof.
  split_and!; [done..| |].
  - intros x. split; [|apply isAllowedScope_true]. intros Hx. apply existsb_exists. exists x.
    split; [by apply list_elem_of_In|by apply bool_decide_eq_true].
  - repeat constructor; apply HasPrefix_true; eauto.
Qed.

(** ** What the endpoints leave alone *)

(** What Fosite does of the token requests stays within its own tables. *)
Class TokenBystander `{token_endpoint : TokenEndpoint} := {
  access_request_other form : within OAuthFacts.other_tables (NewAccessRequest form);
  access_response_other ar : within OAuthFacts.other_tables (NewAccessResponse ar);
  revocation_other form : within OAuthFacts.other_tables (NewRevocationRequest form);
}.

Lemma HandleRegister_other `{HostSyntax} `{SecretsHasher} body : within OAuthFacts.other_tables (HandleRegister body).
Proof.
  unfold HandleRegister, new_secret, randomSecret. destruct (Decode body) as [req|]; [|within_solve].
  destruct (rejection req) as [[? ?]|]; within_solve.
  all: first [by apply OAuthFacts.within_steps_other, OAuthFacts.insertClient_steps|idtac].
Qed.

Lemma HandleToken_other `{TokenBystander} form : within OAuthFacts.other_tables (HandleToken form).
Proof. unfold HandleToken. within_solve; [apply access_request_other|apply access_response_other]. Qed.

Lemma HandleRevoke_other `{TokenBystander} form : within OAuthFacts.other_tables (HandleRevoke form).
Proof. unfold HandleRevoke. within_solve. apply revocation_other. Qed.

(** ** Witnesses *)

#[local] Instance toy_hosts : HostSyntax := {| parseHost h := negb (Contains h " ") |}.
#[local] Instance toy_hasher : SecretsHasher := {| Hash salt s := inr ("$2a$" +:+ s) |}.

#[local] Instance toy_tokens : TokenEndpoint := {|
  AccessRequester := string; AccessResponder := string;
  NewAccessRequest form := if bool_decide (form = EmptyString) then fail (Errorf "invalid_request") else mret form;
  NewAccessResponse ar := mret ("token for " +:+ ar);
  NewRevocationRequest form := mret tt;
|}.
#[local] Instance toy_token_bystander : TokenBystander.
Proof. split; intros x; simpl; try case_bool_decide; within_solve. Defined.

Definition a_client : registerRequest :=
  mkRegisterRequest ["https://app.example/cb"; "myapp:/cb"] "App" EmptyString [] [] "profile  records:read".

(** What is taken and what is not: relative and malformed references and fragments
    are refused; an empty fragment, and a scheme for scripts, pass. *)
Example uris :
  check_uris ["https://app.example/cb?x=1"; "myapp:/cb"; "urn:ietf:wg:oauth:2.0:oob"] = None /\
  is_Some (check_uris ["/cb"]) /\ is_Some (check_uris ["//app.example/cb"]) /\ is_Some (check_uris ["https://app.example/cb#x"]) /\
  is_Some (check_uris ["https://app.example/%zz"]) /\ is_Some (check_uris ["a b:/cb"]) /\ is_Some (check_uris ["*"]) /\
  is_Some (check_uris [":cb"]) /\ is_Some (check_uris ["1a:/cb"]) /\ is_Some (check_uris ["http://us er@app.example/"]) /\
  check_uris ["https://app.example/cb#"] = None /\ check_uris ["javascript:alert(1)"] = None.
Proof. split_and!; first [reflexivity|by eexists]. Qed.

(** The limit of a client's name counts bytes: 101 letters of two bytes each are too long. *)
Definition two_byte_letters (n : nat) : string := Nat.iter n (fun s => String "195" (String "169" s)) EmptyString.

Example name_limit_counts_bytes :
  rejection (mkRegisterRequest ["a:/"] (two_byte_letters 101) EmptyString [] [] EmptyString) =
    Some ("invalid_client_metadata", "client_name too long (max 200 characters)").
Proof. vm_compute. reflexivity. Qed.

Definition registering : World Database := sample_world 5 OAuthFacts.sample_db.
Definition after_registering : World Database := (HandleRegister (Some (100%Z, a_client)) registering).2.
Definition answered : option registerResponse :=
  match (HandleRegister (Some (100%Z, a_client)) registering).1 with Ok (Created resp) => Some resp | _ => None end.

Lemma answered_run resp :
  answered = Some resp -> HandleRegister (Some (100%Z, a_client)) registering = (Ok (Created resp), after_registering).
Proof.
  unfold answered, after_registering. destruct (HandleRegister _ _) as [[[r| |]|] w']; cbn [fst snd]; try done. by intros [= ->].
Qed.

Lemma HandleRegister_exact_witness :
  exists resp req stored, answered = Some resp /\ acceptable req /\
    registered req resp stored (w_db registering) (w_db after_registering).
Proof.
  destruct answered as [resp|] eqn:E; [|vm_compute in E; discriminate E].
  destruct (HandleRegister_exact _ _ _ _ (answered_run _ E)) as (req & stored & _ & Ha & Hr).
  exists resp, req, stored. split; [reflexivity|]. split; [exact Ha|exact Hr].
Defined.

Lemma register_then_GetClient_witness :
  exists resp stored, GetClient (ClientID resp) after_registering =
    (Ok (mkDbClient (ClientID resp) stored false ["https://app.example/cb"; "myapp:/cb"] ["authorization_code"] ["code"]
           ["profile"; "records:read"]), after_registering).
Proof.
  destruct answered as [resp|] eqn:E; [|vm_compute in E; discriminate E]. exists resp.
  destruct (register_then_GetClient _ _ _ _ after_registering (answered_run _ E)) as [stored H].
  - vm_compute. reflexivity.
  - reflexivity.
  - exists stored. rewrite H. vm_compute in E. injection E as <-. vm_compute. reflexivity.
Defined.

End RegisterFacts.
