(* ===== verification/AuditLog.v ===== *)
(** * The audit log

    Models src/internal/audit: an append-only table of security-relevant
    actions, deliberately without foreign keys.  An event's metadata object is
    kept as its list of fields. *)

From S2P Require Import Prelude GoStrings Schema Auth.

Module Audit.

Definition EventLogin : string := "login".
Definition EventLoginFailed : string := "login_failed".
Definition EventLoginRateLimited : string := "login_rate_limited".
Definition EventLogout : string := "logout".
Definition EventOwnerCreate : string := "owner_create".
Definition EventOwnerDelete : string := "owner_delete".
Definition EventSessionsPurged : string := "sessions_purged".
Definition EventSQLExecuted : string := "sql_executed".
Definition EventUserCreate : string := "user_create".
Definition EventUserDelete : string := "user_delete".
Definition EventUserSessionsRevoked : string := "user_sessions_revoked".
Definition EventCustomerSignup : string := "customer_signup".
Definition EventCustomerLogin : string := "customer_login".
Definition EventCustomerLoginFailed : string := "customer_login_failed".
Definition EventCustomerLogout : string := "customer_logout".
Definition EventCustomerPasswordResetRequested : string := "customer_password_reset_requested".
Definition EventCustomerPasswordResetCompleted : string := "customer_password_reset_completed".
Definition EventCustomerAccountDeleted : string := "customer_account_deleted".
Definition EventCustomerSocialSignIn : string := "customer_social_sign_in".

Record Actor : Type := mkActor { ActorID : string; ActorEmail : string }.
Definition Target : Type := Actor.
Definition nobody : Actor := mkActor EmptyString EmptyString.

Definition Metadata : Type := list (string * string).

Definition nullIfEmpty (s : string) : option string :=
  if bool_decide (s = EmptyString) then None else Some s.

Definition Record_ (event : string) (actor : Actor) (target : Target) (metadata : option Metadata) :
    M (list AuditRow) unit :=
  id ← new_uuid;
  wrapping "insert audit entry"
    (exec_at (fun clk l =>
       if bool_decide (id ∈ a_id <$> l) then inl (unique_failed "owner_audit_log.id")
       else inr (tt, l ++ [mkAuditRow id event
              (nullIfEmpty (ActorID actor)) (nullIfEmpty (ActorEmail actor))
              (nullIfEmpty (ActorID target)) (nullIfEmpty (ActorEmail target))
              metadata (current_timestamp clk)]))).

(** [RecordLogged]: an error goes to the process log and no further. *)
Definition RecordLogged (event : string) (actor : Actor) (target : Target) (metadata : option Metadata) :
    M (list AuditRow) unit :=
  attempt (Record_ event actor target metadata) ;; mret tt.

Record Entry : Type := mkEntry {
  EID : string; EEvent : string; EActorID : string; EActorEmail : string;
  ETargetID : string; ETargetEmail : string; EMetadata : option Metadata; ECreatedAt : Z;
}.

Definition entry_of (r : AuditRow) : Entry :=
  let str := default EmptyString in
  mkEntry (a_id r) (a_event r) (str (a_actor_id r)) (str (a_actor_email r))
          (str (a_target_id r)) (str (a_target_email r)) (a_metadata r) (a_created_at r).

(** ORDER BY created_at DESC, id DESC. *)
Definition entry_newer (a b : AuditRow) : Prop :=
  (a_created_at b < a_created_at a)%Z \/ (a_created_at a = a_created_at b /\ str_le (a_id b) (a_id a)).
#[local] Instance entry_newer_dec : RelDecision entry_newer.
Proof. intros a b. unfold entry_newer. apply _. Defined.

Definition List_ (limit offset : Z) : M (list AuditRow) (list Entry) :=
  wrapping "list audit entries"
    (query (fun l => entry_of <$> Auth.sql_page limit offset (merge_sort entry_newer l))).

End Audit.
