(* ===== verification/RateLimit.v ===== *)
(** * The fixed-window rate limiter

    Models src/internal/ratelimit: a table of counters per key behind a mutex,
    swept whenever a window opens. *)

From S2P Require Import Prelude GoStrings Schema.

Module RateLimit.

Record bucket : Type := mkBucket { count : Z; windowStart : Z }.

Record Limiter : Type := mkLimiter { Limit : Z; Window : Z; buckets : gmap string bucket }.

Definition New (limit window : Z) : Limiter := mkLimiter limit window ∅.

Definition elapsed (l : Limiter) (now : Z) (b : bucket) : bool := (Window l <=? now - windowStart b)%Z.

Definition sweepLocked (l : Limiter) (now : Z) : gmap string bucket :=
  filter (fun kv => elapsed l now kv.2 = false) (buckets l).

(** The attempt of [key] at time [now]: whether it is allowed, after how long to
    retry, and the limiter afterwards. *)
Definition Allow (now : Z) (key : string) (l : Limiter) : bool * Z * Limiter :=
  let fresh :=
    (true, 0%Z, mkLimiter (Limit l) (Window l) (<[key := mkBucket 1 now]> (sweepLocked l now))) in
  match buckets l !! key with
  | None => fresh
  | Some b =>
      if elapsed l now b then fresh
      else
        let b' := mkBucket (count b + 1) (windowStart b) in
        let l' := mkLimiter (Limit l) (Window l) (<[key := b']> (buckets l)) in
        if (Limit l <? count b')%Z then (false, (Window l - (now - windowStart b))%Z, l')
        else (true, 0%Z, l')
  end.

(** Attempts one after the other, each at its own time. *)
Fixpoint run (l : Limiter) (attempts : list (Z * string)) : list (bool * Z) :=
  match attempts with
  | [] => []
  | (t, k) :: rest => let '(ok, wait, l') := Allow t k l in (ok, wait) :: run l' rest
  end.

End RateLimit.
