(* ===== verification/RateLimitFacts.v ===== *)
(** * The rate limiter: theorems

    Sweeping is invisible, and no interval as long as a window ever lets more
    than twice the limit through. *)

From S2P Require Import Prelude GoStrings Schema RateLimit.

Module RateLimitFacts.
Import RateLimit.

Open Scope Z_scope.

(** ** The limiter without sweeps *)

Definition AllowRef (now : Z) (key : string) (l : Limiter) : bool * Z * Limiter :=
  let fresh := (true, 0, mkLimiter (Limit l) (Window l) (<[key := mkBucket 1 now]> (buckets l))) in
  match buckets l !! key with
  | None => fresh
  | Some b =>
      if elapsed l now b then fresh
      else
        let b' := mkBucket (count b + 1) (windowStart b) in
        let l' := mkLimiter (Limit l) (Window l) (<[key := b']> (buckets l)) in
        if Limit l <? count b' then (false, Window l - (now - windowStart b), l')
        else (true, 0, l')
  end.

Fixpoint run_ref (l : Limiter) (attempts : list (Z * string)) : list (bool * Z) :=
  match attempts with
  | [] => []
  | (t, k) :: rest => let '(ok, wait, l') := AllowRef t k l in (ok, wait) :: run_ref l' rest
  end.

(** A swept bucket is one whose window has elapsed. *)
Record swept_of (t : Z) (l1 l2 : Limiter) : Prop := {
  so_limit : Limit l1 = Limit l2;
  so_window : Window l1 = Window l2;
  so_bucket k : buckets l1 !! k = buckets l2 !! k \/
    (buckets l1 !! k = None /\ exists b, buckets l2 !! k = Some b /\ elapsed l2 t b = true);
}.

Lemma elapsed_mono l t t' b : t <= t' -> elapsed l t b = true -> elapsed l t' b = true.
Proof. unfold elapsed. rewrite !Z.leb_le. lia. Qed.

Lemma swept_of_mono t t' l1 l2 : t <= t' -> swept_of t l1 l2 -> swept_of t' l1 l2.
Proof.
  intros Ht [H1 H2 H3]. split; [done..|]. intros k.
  destruct (H3 k) as [?|(? & b & ? & ?)]; [by left|right]. split; [done|].
  exists b. split; [done|]. by eapply elapsed_mono.
Qed.

Lemma elapsed_eq l1 l2 t b : Window l1 = Window l2 -> elapsed l1 t b = elapsed l2 t b.
Proof. unfold elapsed. by intros ->. Qed.

Lemma sweep_lookup l t k :
  sweepLocked l t !! k =
    match buckets l !! k with
    | Some b => if elapsed l t b then None else Some b
    | None => None
    end.
Proof.
  unfold sweepLocked. destruct (buckets l !! k) as [b|] eqn:E.
  - destruct (elapsed l t b) eqn:Eb.
    + apply map_lookup_filter_None. right. intros b' Hb'. rewrite E in Hb'. injection Hb' as <-. simpl. congruence.
    + by apply map_lookup_filter_Some.
  - apply map_lookup_filter_None. by left.
Qed.

(** One attempt on the two limiters. *)
Lemma Allow_swept now key l1 l2 :
  swept_of now l1 l2 ->
  (Allow now key l1).1 = (AllowRef now key l2).1 /\
  swept_of now (Allow now key l1).2 (AllowRef now key l2).2.
Proof.
  intros [HL HW Hb].
  assert (swept_of now
    (mkLimiter (Limit l1) (Window l1) (<[key := mkBucket 1 now]> (sweepLocked l1 now)))
    (mkLimiter (Limit l2) (Window l2) (<[key := mkBucket 1 now]> (buckets l2)))) as Hfresh.
  { split; [done..|]. intros k. simpl. destruct (decide (k = key)) as [->|Hk].
    { rewrite !lookup_insert_eq. by left. }
    rewrite !lookup_insert_ne by done. rewrite sweep_lookup.
    destruct (Hb k) as [E|(E & b & E2 & Eb)]; rewrite E; [|right; split; [done|]; by exists b].
    destruct (buckets l2 !! k) as [b|] eqn:E2; [|by left]. rewrite (elapsed_eq l1 l2) by done.
    destruct (elapsed l2 now b) eqn:Eb; [right|by left]. split; [done|]. by exists b. }
  unfold Allow, AllowRef. destruct (Hb key) as [E|(E & b & E2 & Eb)].
  - rewrite E. destruct (buckets l2 !! key) as [b|] eqn:E2; [|done].
    rewrite (elapsed_eq l1 l2) by done. destruct (elapsed l2 now b) eqn:Eb; [done|].
    assert (swept_of now
      (mkLimiter (Limit l1) (Window l1) (<[key := mkBucket (count b + 1) (windowStart b)]> (buckets l1)))
      (mkLimiter (Limit l2) (Window l2) (<[key := mkBucket (count b + 1) (windowStart b)]> (buckets l2)))) as Hcount.
    { split; [done..|]. intros k. simpl. destruct (decide (k = key)) as [->|Hk].
      - rewrite !lookup_insert_eq. by left.
      - rewrite !lookup_insert_ne by done. destruct (Hb k) as [?|(? & b' & ? & ?)]; [by left|right; eauto]. }
    simpl. rewrite HL, HW in *. destruct (_ <? _); simpl; rewrite ?HL, ?HW; done.
  - rewrite E, E2, Eb. done.
Qed.

Lemma run_swept attempts : forall t l1 l2,
  Sorted Z.le (t :: attempts.*1) -> swept_of t l1 l2 -> run l1 attempts = run_ref l2 attempts.
Proof.
  induction attempts as [|[now key] rest IH]; intros t l1 l2 Hs Hr; [done|]. simpl in *.
  inversion Hs as [|? ? Hs' Ht]; subst. inversion Ht; subst.
  apply (swept_of_mono _ now) in Hr; [|done].
  pose proof (Allow_swept now key l1 l2 Hr) as [H1 H2].
  destruct (Allow now key l1) as [[ok w] l1']. destruct (AllowRef now key l2) as [[ok' w'] l2'].
  simpl in *. injection H1 as -> ->. f_equal. by apply (IH now).
Qed.

(** The sweep of other buckets never shows in an answer, as long as the clock
    does not go back. *)
Theorem sweep_invisible limit window attempts :
  Sorted Z.le attempts.*1 -> run (New limit window) attempts = run_ref (New limit window) attempts.
Proof.
  intros Hs. destruct attempts as [|[t k] rest]; [done|].
  apply (run_swept _ t); [by constructor; [|constructor]|]. split; [done..|]. by left.
Qed.

(** ** How many attempts an interval lets through *)

(** The attempts of [key] at times in [lo, hi) that were allowed. *)
Fixpoint allowed_in (key : string) (lo hi : Z) (attempts : list (Z * string)) (outs : list (bool * Z)) : Z :=
  match attempts, outs with
  | (t, k) :: rest, (ok, _) :: outs' =>
      (if ok && bool_decide (k = key) && (lo <=? t) && (t <? hi) then 1 else 0) +
      allowed_in key lo hi rest outs'
  | _, _ => 0
  end.

(** How many more a bucket can let through inside the interval. *)
Definition budget (limit window lo : Z) (b : option bucket) : Z :=
  match b with
  | None => 2 * limit
  | Some b =>
      let left := limit - Z.min (count b) limit in
      if windowStart b + window <=? lo then 2 * limit
      else if windowStart b <? lo then left + limit
      else if windowStart b <? lo + window then left
      else 0
  end.

Lemma budget_nonneg limit window lo b : 1 <= limit -> 0 <= budget limit window lo b.
Proof. intros HL. unfold budget. destruct b; [|lia]. repeat case_match; lia. Qed.

Definition counted (ok : bool) (lo window t : Z) : Z :=
  if ok && (lo <=? t) && (t <? lo + window) then 1 else 0.

Lemma AllowRef_budget now key l lo :
  0 < Window l -> 1 <= Limit l ->
  (forall b, buckets l !! key = Some b -> windowStart b <= now) ->
  let '(ok, _, l') := AllowRef now key l in
  counted ok lo (Window l) now + budget (Limit l) (Window l) lo (buckets l' !! key)
    <= budget (Limit l) (Window l) lo (buckets l !! key).
Proof.
  intros HW HL Hpast. unfold AllowRef.
  destruct (buckets l !! key) as [b|] eqn:E.
  - specialize (Hpast b eq_refl). destruct (elapsed l now b) eqn:Eb; unfold elapsed in Eb.
    + apply Z.leb_le in Eb. cbv beta iota zeta. cbn [buckets]. rewrite lookup_insert_eq. unfold budget, counted. simpl.
      repeat case_match; rewrite ?andb_true_iff, ?Z.leb_le, ?Z.ltb_lt, ?Z.leb_gt, ?Z.ltb_ge in *; lia.
    + apply Z.leb_gt in Eb. cbn [count windowStart].
      destruct (Limit l <? count b + 1) eqn:El; cbn [buckets]; rewrite lookup_insert_eq; unfold budget, counted; simpl;
        repeat case_match; rewrite ?andb_true_iff, ?Z.leb_le, ?Z.ltb_lt, ?Z.leb_gt, ?Z.ltb_ge in *; lia.
  - cbv beta iota zeta. cbn [buckets]. rewrite lookup_insert_eq. unfold budget, counted. simpl.
    repeat case_match; rewrite ?andb_true_iff, ?Z.leb_le, ?Z.ltb_lt, ?Z.leb_gt, ?Z.ltb_ge in *; lia.
Qed.

Lemma AllowRef_frame now key l :
  let '(_, _, l') := AllowRef now key l in
  Limit l' = Limit l /\ Window l' = Window l /\
  (forall k, k <> key -> buckets l' !! k = buckets l !! k) /\
  (forall k b, buckets l' !! k = Some b -> buckets l !! k = Some b \/ windowStart b <= now \/
     exists b0, buckets l !! k = Some b0 /\ windowStart b = windowStart b0).
Proof.
  unfold AllowRef.
  assert (forall b' k b, <[key := b']> (buckets l) !! k = Some b -> buckets l !! k = Some b \/ b = b' /\ k = key) as Hi.
  { intros b' k b. destruct (decide (k = key)) as [->|Hk].
    - rewrite lookup_insert_eq. intros [= ->]. by right.
    - rewrite lookup_insert_ne by done. by left. }
  destruct (buckets l !! key) as [b0|] eqn:E; [destruct (elapsed l now b0)|].
  - split_and!; try done; simpl; [intros; by rewrite lookup_insert_ne|].
    intros k b [?|[-> ->]]%Hi; [by left|]. right. left. simpl. lia.
  - destruct (_ <? _); (split_and!; try done; simpl; [intros; by rewrite lookup_insert_ne|]);
      (intros k b [?|[-> ->]]%Hi; [by left|]); right; right; by exists b0.
  - split_and!; try done; simpl; [intros; by rewrite lookup_insert_ne|].
    intros k b [?|[-> ->]]%Hi; [by left|]. right. left. simpl. lia.
Qed.

Lemma run_ref_bound key lo attempts : forall t l,
  0 < Window l -> 1 <= Limit l -> Sorted Z.le (t :: attempts.*1) ->
  (forall k b, buckets l !! k = Some b -> windowStart b <= t) ->
  allowed_in key lo (lo + Window l) attempts (run_ref l attempts)
    <= budget (Limit l) (Window l) lo (buckets l !! key).
Proof.
  induction attempts as [|[now k] rest IH]; intros t l HW HL Hs Hpast; simpl; [by apply budget_nonneg|].
  simpl in Hs. inversion Hs as [|? ? Hs' Ht]; subst. inversion Ht; subst.
  pose proof (AllowRef_frame now k l) as Hf.
  pose proof (AllowRef_budget now k l lo HW HL) as Hb.
  destruct (AllowRef now k l) as [[ok wait] l'].
  destruct Hf as (EL & EW & Hother & Hstart).
  assert (forall k' b, buckets l' !! k' = Some b -> windowStart b <= now) as Hpast'.
  { intros k' b Hk'. apply Hstart in Hk' as [Hk'|[?|(b0 & Hk' & ->)]]; [|done|]; apply Hpast in Hk'; lia. }
  specialize (IH now l'). rewrite EL, EW in IH. specialize (IH HW HL Hs' Hpast').
  destruct (decide (k = key)) as [->|Hk].
  - rewrite bool_decide_true by done. rewrite andb_true_r.
    assert (forall b, buckets l !! key = Some b -> windowStart b <= now) as Hp
      by (intros b Hbk; apply Hpast in Hbk; lia).
    specialize (Hb Hp). unfold counted in Hb. lia.
  - rewrite bool_decide_false, andb_false_r by done. simpl. rewrite (Hother key) in IH by done. lia.
Qed.

(** C24: Whatever the attempts, an interval as long as the window lets through at
    most twice the limit per key. *)
Theorem Allow_bound limit window key lo attempts :
  0 < window -> 1 <= limit -> Sorted Z.le attempts.*1 ->
  allowed_in key lo (lo + window) attempts (run (New limit window) attempts) <= 2 * limit.
Proof.
  intros HW HL Hs.
  assert (run (New limit window) attempts = run_ref (New limit window) attempts) as ->.
  { destruct attempts as [|[t k] rest]; [done|].
    apply (run_swept _ t); [by constructor; [|constructor]|]. split; [done..|]. by left. }
  destruct attempts as [|[t k] rest]; [simpl; lia|].
  pose proof (run_ref_bound key lo ((t, k) :: rest) t (New limit window)) as H. simpl Limit in H. simpl Window in H.
  etrans; [apply H; try done|]; [|simpl; done].
  by constructor; [|constructor].
Qed.

Lemma sweep_invisible_witness :
  run (New 2 10) [(0, "a"); (1, "b"); (12, "a")] = run_ref (New 2 10) [(0, "a"); (1, "b"); (12, "a")].
Proof. apply sweep_invisible. repeat constructor; simpl; lia. Defined.

Lemma Allow_bound_witness :
  allowed_in "a" 5 (5 + 10) [(0, "a"); (6, "a"); (7, "a"); (11, "a"); (12, "a"); (13, "a")]
    (run (New 2 10) [(0, "a"); (6, "a"); (7, "a"); (11, "a"); (12, "a"); (13, "a")]) <= 2 * 2.
Proof. apply Allow_bound; [lia|lia|]. repeat constructor; simpl; lia. Defined.

End RateLimitFacts.
