(* ===== verification/Storage.v ===== *)
(** * File storage

    Models src/internal/storage: metadata in the [files] table, bytes in a
    [Backend] that keeps one file per key in a directory.  A request body is the
    list of chunks its reader delivers; a fault can interrupt the copy between
    any two of them. *)

From S2P Require Import Prelude GoStrings Schema.

Module Storage.

(** The database and the directory of the backend. *)
Record Store : Type := mkStore { db : Database; disk : gmap string string }.

Definition put_db (d : Database) (s : Store) : Store := mkStore d (disk s).
Definition on_disk (f : gmap string string -> gmap string string) (s : Store) : Store := mkStore (db s) (f (disk s)).

Abbreviation MS := (M Store).

(** ** The local backend *)

Inductive removal : Type := Removed | NotExist.

(** os.OpenFile with O_CREATE|O_EXCL. *)
Definition create_file (key : string) : MS unit :=
  exec (fun s => match disk s !! key with
                 | Some _ => inl "file exists"
                 | None => inr (tt, on_disk (<[key := EmptyString]>) s)
                 end).

(** os.Remove: that there is no such file is told apart from any other error. *)
Definition remove_file (key : string) : MS removal :=
  exec (fun s => match disk s !! key with
                 | Some _ => inr (Removed, on_disk (delete key) s)
                 | None => inr (NotExist, s)
                 end).

Definition write_chunk (key chunk : string) : MS unit :=
  exec (fun s => match disk s !! key with
                 | Some content => inr (tt, on_disk (<[key := content +:+ chunk]>) s)
                 | None => inl "file already closed"
                 end).

(** io.Copy: the number of bytes. *)
Fixpoint copy (key : string) (r : list string) : MS Z :=
  match r with
  | [] => mret 0%Z
  | chunk :: rest =>
      write_chunk key chunk ;;
      n ← copy key rest;
      mret (Z.of_nat (String.length chunk) + n)%Z
  end.

Definition Put (key : string) (r : list string) : MS Z :=
  wrapping "create file" (create_file key) ;;
  res ← attempt (copy key r);
  match res with
  | Ok n => mret n
  | Err err => ignored ← attempt (remove_file key); fail (Wrap "write file" err)
  end.

Definition Open (key : string) : MS string :=
  exec (fun s => match disk s !! key with
                 | Some content => inr (content, s)
                 | None => inl "no such file or directory"
                 end).

Definition Delete (key : string) : MS unit := r ← remove_file key; mret tt.

(** ** Metadata *)

Definition ErrNotFound : error := Sentinel "storage.ErrNotFound" "file not found".

Definition defaultLimit : Z := 50.
Definition maxLimit : Z := 200.

Record FileMeta : Type := mkFileMeta {
  ID : string; OwnerID : string; Filename : string; ContentType : string; SizeBytes : Z; CreatedAt : Z;
}.

Definition meta_of (r : FileRow) : FileMeta :=
  mkFileMeta (f_id r) (f_owner_id r) (f_filename r) (f_content_type r) (f_size_bytes r) (f_created_at r).

(** The owner is not part of the answer. *)
Record FileJSON : Type := mkFileJSON {
  j_id : string; j_filename : string; j_content_type : string; j_size_bytes : Z; j_created_at : Z;
}.

Definition fileJSON (m : FileMeta) : FileJSON :=
  mkFileJSON (ID m) (Filename m) (ContentType m) (SizeBytes m) (CreatedAt m).

Definition insert_file (id ownerID filename contentType : string) (size : Z) (storage_key : string) : MS unit :=
  exec_at (fun clk s =>
    let fs := files (db s) in
    if bool_decide (id ∈ f_id <$> fs) then inl (unique_failed "files.id")
    else if bool_decide (storage_key ∈ f_storage_key <$> fs) then inl (unique_failed "files.storage_key")
    else if bool_decide (ownerID ∉ user_ids (db s)) then inl foreign_key_failed
    else inr (tt, put_db (put_files (fs ++ [mkFileRow id ownerID filename contentType size storage_key
                                              (current_timestamp clk)]) (db s)) s)).

Definition delete_file (id : string) : MS unit :=
  update (fun s => (tt, put_db (put_files (filter (fun r => f_id r <> id) (files (db s))) (db s)) s)).

Definition get (ownerID id : string) : MS FileMeta :=
  row ← wrapping "lookup file" (query (fun s => find_row (fun r => f_id r = id /\ f_owner_id r = ownerID) (files (db s))));
  match row with
  | None => fail ErrNotFound
  | Some r => mret (meta_of r)
  end.

(** ** Requests and responses *)

(** A multipart upload: the bytes read up to its closing boundary, whether it
    parses, and its part "file" if it has one. *)
Record Part : Type := mkPart { p_filename : string; p_content_type : string; p_chunks : list string }.
Record Upload : Type := mkUpload { up_bytes : Z; up_parses : bool; up_file : option Part }.

Inductive Response : Type :=
| Error (code : Z) (msg : string)
| Created (f : FileJSON)
| Found (f : FileJSON)
| Listing (records : list FileJSON) (limit offset : Z)
| Content (contentType contentLength filename body : string)
| NoContent.

Definition internal_error : Response := Error 500 "internal error".
Definition not_found : Response := Error 404 "not found".

(** The lookup of a file a handler starts with. *)
Definition lookup_error (err : error) : Response :=
  if errors_Is err ErrNotFound then not_found else internal_error.

(** The address bar's integer parameters: anything odd falls back. *)
Definition parse_limit (v : string) : Z :=
  match Atoi v with
  | Some n => if (0 <? n)%Z && (n <=? maxLimit)%Z then n else defaultLimit
  | None => defaultLimit
  end.
Definition parse_offset (v : string) : Z :=
  match Atoi v with
  | Some n => if (0 <=? n)%Z then n else 0%Z
  | None => 0%Z
  end.
Definition parsePagination (limit offset : string) : Z * Z :=
  (if bool_decide (limit = EmptyString) then defaultLimit else parse_limit limit,
   if bool_decide (offset = EmptyString) then 0%Z else parse_offset offset).

(** ORDER BY created_at DESC; ties in the order of the table. *)
Definition file_newer (a b : FileRow) : Prop := (f_created_at b <= f_created_at a)%Z.
#[global] Instance file_newer_dec : RelDecision file_newer.
Proof. intros a b. unfold file_newer. apply _. Defined.

(** ORDER BY created_at. *)
Definition file_older (a b : FileRow) : Prop := (f_created_at a <= f_created_at b)%Z.
#[global] Instance file_older_dec : RelDecision file_older.
Proof. intros a b. unfold file_older. apply _. Defined.

(** ORDER BY created_at, rowid: the position in the table stands for the rowid. *)
Definition uploaded_before (a b : nat * FileRow) : Prop :=
  (f_created_at a.2 < f_created_at b.2)%Z \/ f_created_at a.2 = f_created_at b.2 /\ a.1 <= b.1.
#[global] Instance uploaded_before_dec : RelDecision uploaded_before.
Proof. intros a b. unfold uploaded_before. apply _. Defined.

Definition owned_by (subj : string) (r : FileRow) : Prop := f_owner_id r = subj.
#[global] Instance owned_by_dec subj r : Decision (owned_by subj r).
Proof. unfold owned_by. apply _. Defined.

(** ** Handlers *)

Section handlers.
Variable maxUploadBytes : Z.

Definition handleUpload (ownerID : string) (u : Upload) : MS Response :=
  if negb (up_parses u) || (maxUploadBytes <? up_bytes u)%Z then
    mret (Error 400 "invalid multipart upload, or file too large")
  else
  match up_file u with
  | None => mret (Error 400 ("missing " +:+ Quote "file" +:+ " field"))
  | Some p =>
      let contentType := if bool_decide (p_content_type p = EmptyString) then "application/octet-stream"
                         else p_content_type p in
      id ← new_uuid;
      try_or (fun _ => internal_error) (Put id (p_chunks p)) (fun size =>
      res ← attempt (insert_file id ownerID (p_filename p) contentType size id);
      match res with
      | Err _ => ignored ← attempt (Delete id); mret internal_error
      | Ok _ => try_or (fun _ => internal_error) (get ownerID id) (fun meta => mret (Created (fileJSON meta)))
      end)
  end.

Definition handleList (ownerID limit0 offset0 : string) : MS Response :=
  let '(limit, offset) := parsePagination limit0 offset0 in
  try_or (fun _ => internal_error)
    (query (fun s => take (Z.to_nat limit) (drop (Z.to_nat offset)
       (merge_sort file_newer (filter (owned_by ownerID) (files (db s))))))) (fun rows =>
  mret (Listing ((fun r => fileJSON (meta_of r)) <$> rows) limit offset)).

Definition handleGet (ownerID id : string) : MS Response :=
  try_or lookup_error (get ownerID id) (fun meta => mret (Found (fileJSON meta))).

Definition handleDownload (ownerID id : string) : MS Response :=
  try_or lookup_error (get ownerID id) (fun meta =>
  try_or (fun _ => internal_error) (Open (ID meta)) (fun body =>
  mret (Content (ContentType meta) (pretty (SizeBytes meta)) (Filename meta) body))).

Definition handleDelete (ownerID id : string) : MS Response :=
  try_or lookup_error (get ownerID id) (fun meta =>
  try_or (fun _ => internal_error) (Delete (ID meta)) (fun _ =>
  try_or (fun _ => internal_error) (delete_file (ID meta)) (fun _ =>
  mret NoContent))).
End handlers.

(** ** Export and erasure of an account *)

Definition ExportOwned (subj : string) : MS (list FileJSON) :=
  rows ← wrapping "list owned files"
           (query (fun s => merge_sort file_older (filter (owned_by subj) (files (db s)))));
  mret ((fun r => fileJSON (meta_of r)) <$> rows).

Definition owned_ids (subj : string) (d : Database) : list string :=
  (fun p => f_id p.2) <$> merge_sort uploaded_before (filter (fun p => owned_by subj p.2) (imap pair (files d))).

Definition erase_one (id : string) : MS unit :=
  wrapping ("delete file bytes " +:+ id) (Delete id) ;;
  wrapping ("delete file metadata " +:+ id) (delete_file id).

Definition DeleteOwned (subj : string) : MS unit :=
  ids ← wrapping "list owned files" (query (fun s => owned_ids subj (db s)));
  for_each erase_one ids.

End Storage.
