(* ===== verification/StorageFacts.v ===== *)
(** * File storage: theorems

    An upload leaves either a complete file or no record of one, callers cannot
    touch each other's files, what was uploaded is what is downloaded, and an
    erasure that was cut short is completed by repeating it. *)

From S2P Require Import Prelude GoStrings Schema Auth AuthFacts Storage.

Module StorageFacts.
Import Storage.

(** The rest of the database is none of this component's business. *)
Definition with_files (fs : list FileRow) (s : Store) : Database := put_files fs (db s).

Lemma with_files_same s : with_files (files (db s)) s = db s.
Proof. unfold with_files. by destruct (db s). Qed.

Lemma with_files_twice fs fs' s s1 : db s1 = with_files fs s -> with_files fs' s1 = with_files fs' s.
Proof. unfold with_files. by intros ->. Qed.

Lemma files_with_files fs s s1 : db s1 = with_files fs s -> files (db s1) = fs.
Proof. by intros ->. Qed.

(** ** Runs of the backend *)

Lemma remove_file_ok key w x w' : remove_file key w = (Ok x, w') -> w_db w' = on_disk (delete key) (w_db w).
Proof.
  intros H%exec_ok. destruct (disk (w_db w) !! key) eqn:E; injection H as _ <-; [done|].
  unfold on_disk. rewrite delete_id by done. by destruct (w_db w).
Qed.

Lemma Delete_ok key w x w' : Delete key w = (Ok x, w') -> w_db w' = on_disk (delete key) (w_db w).
Proof. unfold Delete. intros H. run_inv. by apply remove_file_ok in Hrun. Qed.

Lemma Delete_err key w e w' : Delete key w = (Err e, w') -> w_db w' = w_db w.
Proof. unfold Delete. intros [H|(x & w1 & _ & H)]%bind_err; [by apply exec_err in H|done]. Qed.

Lemma delete_file_ok id w x w' :
  delete_file id w = (Ok x, w') ->
  w_db w' = put_db (with_files (filter (fun r => f_id r <> id) (files (db (w_db w)))) (w_db w)) (w_db w).
Proof. intros H%update_ok. by injection H as _ <-. Qed.

Lemma write_chunk_ok key chunk w x w' :
  write_chunk key chunk w = (Ok x, w') ->
  exists content, disk (w_db w) !! key = Some content /\
    w_db w' = on_disk (<[key := content +:+ chunk]>) (w_db w).
Proof. intros H%exec_ok. destruct (disk (w_db w) !! key) as [c|]; [|done]. injection H as _ <-. eauto. Qed.

Definition bytes (r : list string) : string := foldr String.append EmptyString r.

Lemma copy_ok key r w n w' content :
  disk (w_db w) !! key = Some content -> copy key r w = (Ok n, w') ->
  w_db w' = on_disk (<[key := content +:+ bytes r]>) (w_db w) /\ n = Z.of_nat (String.length (bytes r)).
Proof.
  revert w n content. induction r as [|chunk r IH]; intros w n content Hc H; cbn [copy] in H.
  - run_inv. split; [|done]. cbn [bytes foldr]. rewrite sapp_nil_r. unfold on_disk.
    rewrite insert_id by done. by destruct (w_db w).
  - run_inv. apply write_chunk_ok in Hrun as (c & Hc' & Hd). rewrite Hc in Hc'. injection Hc' as <-.
    apply (IH _ _ (content +:+ chunk)) in Hrun0 as [-> ->]; [|by rewrite Hd; cbn [disk on_disk]; rewrite lookup_insert_eq].
    rewrite Hd. unfold on_disk. cbn [db disk bytes foldr]. rewrite insert_insert_eq, <- sapp_assoc. split; [done|].
    rewrite slength_app, Nat2Z.inj_add. done.
Qed.

(** Only the bytes under [key] change. *)
Definition only_bytes (key : string) (s s' : Store) : Prop :=
  db s' = db s /\ forall k, k <> key -> disk s' !! k = disk s !! k.
#[local] Instance only_bytes_preorder key : PreOrder (only_bytes key).
Proof.
  split; unfold only_bytes; [done|]. intros s1 s2 s3 [-> H1] [-> H2]. split; [done|].
  intros k Hk. by rewrite H2, H1.
Qed.

Lemma only_bytes_on key f s : (forall k, k <> key -> f (disk s) !! k = disk s !! k) -> only_bytes key s (on_disk f s).
Proof. done. Qed.

Lemma within_remove_file key : within (only_bytes key) (remove_file key).
Proof.
  apply within_exec; [apply _|]. intros s a s' H. destruct (disk s !! key); injection H as _ <-; [|done].
  apply only_bytes_on. intros k Hk. by apply lookup_delete_ne.
Qed.

Lemma within_Delete key : within (only_bytes key) (Delete key).
Proof. apply within_bind; [apply _|apply within_remove_file|by within_solve]. Qed.

Lemma within_write_chunk key chunk : within (only_bytes key) (write_chunk key chunk).
Proof.
  apply within_exec; [apply _|]. intros s a s' H. destruct (disk s !! key); [|done]. injection H as _ <-.
  apply only_bytes_on. intros k Hk. by apply lookup_insert_ne.
Qed.

Lemma within_copy key r : within (only_bytes key) (copy key r).
Proof.
  induction r as [|chunk r IH]; cbn [copy]; [by within_solve|].
  apply within_bind; [apply _|apply within_write_chunk|intros _]. apply within_bind; [apply _|exact IH|by within_solve].
Qed.

(** Storing bytes: complete, or refused because the key is taken or for a fault;
    then nothing else changed. *)
Lemma Put_run key r w res w' :
  Put key r w = (res, w') ->
  match res with
  | Ok n => disk (w_db w) !! key = None /\ w_db w' = on_disk (<[key := bytes r]>) (w_db w) /\
            n = Z.of_nat (String.length (bytes r))
  | Err _ => w_db w' = w_db w \/ disk (w_db w) !! key = None /\ only_bytes key (w_db w) (w_db w')
  end.
Proof.
  unfold Put. unfold mbind at 1, M_bind at 1. unfold wrapping, map_err at 1.
  destruct (create_file key w) as [[u|e] w1] eqn:Ec; [|intros [= <- <-]; left; by eapply exec_err].
  apply exec_ok in Ec. destruct (disk (w_db w) !! key) eqn:Hk; [done|]. injection Ec as _ Ec.
  rewrite attempt_bind. pose proof (within_copy key r w1) as Hcopy.
  destruct (copy key r w1) as [[n|e] w2] eqn:E; cbn [fst snd] in *.
  - intros [= <- <-]. apply (copy_ok _ _ _ _ _ EmptyString) in E as [-> ->];
      [|rewrite <- Ec; cbn [disk on_disk]; by rewrite lookup_insert_eq].
    rewrite <- Ec. unfold on_disk. cbn [db disk]. by rewrite insert_insert_eq.
  - rewrite attempt_bind. intros [= <- <-]. right. split; [done|].
    pose proof (within_remove_file key w2) as Hr. etrans; [|exact Hr]. etrans; [|exact Hcopy].
    rewrite <- Ec. apply only_bytes_on. intros k Hne. by apply lookup_insert_ne.
Qed.

(** ** Uploads *)

Definition content_type (p : Part) : string :=
  if bool_decide (p_content_type p = EmptyString) then "application/octet-stream" else p_content_type p.

Definition uploaded (o id : string) (p : Part) (t : Z) : FileRow :=
  mkFileRow id o (p_filename p) (content_type p) (Z.of_nat (String.length (bytes (p_chunks p)))) id t.

Lemma insert_file_ok id o fn ct size key w x w' :
  insert_file id o fn ct size key w = (Ok x, w') ->
  (id ∉ f_id <$> files (db (w_db w))) /\
  exists t, w_db w' = put_db (with_files (files (db (w_db w)) ++ [mkFileRow id o fn ct size key t]) (w_db w)) (w_db w).
Proof.
  unfold insert_file. intros H%exec_at_ok. cbv zeta in H.
  destruct (decide (id ∈ f_id <$> files (db (w_db w)))) as [|Hn]; [by rewrite bool_decide_eq_true_2 in H|].
  rewrite bool_decide_eq_false_2 in H by done. destruct (bool_decide _); [done|]. destruct (bool_decide _); [done|].
  injection H as _ <-. split; [done|]. by eexists.
Qed.

Lemma get_ok o id w m w' :
  get o id w = (Ok m, w') ->
  w_db w' = w_db w /\ exists r, r ∈ files (db (w_db w)) /\ f_id r = id /\ f_owner_id r = o /\ m = meta_of r.
Proof.
  unfold get. intros H. run_inv. destruct (find_row _ _) as [row|] eqn:E; [|discriminate]. run_inv.
  apply find_row_Some in E as [Hin [Hid Ho]]. split; [done|]. by exists row.
Qed.

Lemma get_err o id w e w' : get o id w = (Err e, w') -> w_db w' = w_db w.
Proof.
  unfold get. intros [H|(row & w1 & H & Hk)]%bind_err.
  - unfold wrapping, map_err in H. destruct (query _ w) as [[|e1] w1] eqn:E; [done|]. injection H as _ <-.
    by eapply exec_err.
  - run_inv. destruct (find_row _ _) as [r|]; [done|]. by injection Hk as _ <-.
Qed.

(** The two outcomes of an upload under the identifier [id]. *)
Inductive upload_effect (o id : string) (p : Part) (s s' : Store) : Prop :=
| upload_kept :
    db s' = db s -> (forall k, k <> id -> disk s' !! k = disk s !! k) ->
    (disk s !! id = None \/ disk s' = disk s) -> upload_effect o id p s s'
| upload_added t :
    (id ∉ f_id <$> files (db s)) -> disk s !! id = None ->
    s' = mkStore (with_files (files (db s) ++ [uploaded o id p t]) s) (<[id := bytes (p_chunks p)]> (disk s)) ->
    upload_effect o id p s s'.

Section uploads.
Variable maxUploadBytes : Z.

Lemma handleUpload_run o u w resp w' :
  handleUpload maxUploadBytes o u w = (Ok resp, w') ->
  w_db w' = w_db w /\ (forall f, resp <> Created f) \/
  exists p id, up_file u = Some p /\ upload_effect o id p (w_db w) (w_db w') /\
    (forall f, resp = Created f -> exists t, let r := uploaded o id p t in r ∈ files (db (w_db w')) /\
       f = fileJSON (meta_of r) /\ (id ∉ f_id <$> files (db (w_db w))) /\
       disk (w_db w') !! id = Some (bytes (p_chunks p))).
Proof.
  unfold handleUpload. destruct (negb _ || _); [intros [= <- <-]; left; by split|].
  destruct (up_file u) as [p|]; [|intros [= <- <-]; left; by split]. cbv zeta. intros H. run_inv.
  assert (w_db w0 = w_db w) as Hw0.
  { unfold new_uuid in Hrun. destruct (env_draw _). by injection Hrun as _ <-. }
  rename r into id. apply try_or_ok in H as [(e & Hput & ->)|(size & w1 & Hput & H)]; apply Put_run in Hput; rewrite Hw0 in Hput.
  { destruct Hput as [Heq|[Hn Honly]]; [left; split; [done|by intros]|right]. exists p, id. split_and!; [done|by apply upload_kept; [apply Honly..|left]|done]. }
  destruct Hput as (Hn & Hd & ->). rewrite attempt_bind in H.
  destruct (insert_file _ _ _ _ _ _ w1) as [[x|e] w2] eqn:Eins; cbn [fst snd] in H.
  - apply insert_file_ok in Eins as [Hid [t Hd2]]. rewrite Hd in Hid, Hd2.
    right. exists p, id. split; [done|]. split.
    + apply (upload_added _ _ _ _ _ t); [done|done|].
      apply try_or_ok in H as [(e & H & ->)|(m & w3 & H & H3)]; [by rewrite (get_err _ _ _ _ _ H), Hd2|].
      apply get_ok in H as [H _]. run_inv. by rewrite H, Hd2.
    + intros f ->. apply try_or_ok in H as [(e & H & Hf)|(m & w3 & H & H3)]; [done|].
      apply get_ok in H as [Heq (r & Hr & Hrid & Ho & ->)]. apply mret_ok in H3 as [H3 ->].
      injection H3 as ->. exists t. cbv zeta. rewrite Heq, Hd2 in *. cbn [db disk put_db with_files files put_files] in *.
      apply elem_of_app in Hr as [Hr|Hr%list_elem_of_singleton]; [destruct Hid; rewrite <- Hrid; by apply list_elem_of_fmap_2|subst r].
      split_and!; [set_solver|done|done|]. apply lookup_insert_eq.
  - apply exec_at_err in Eins. rewrite attempt_bind in H. injection H as <- <-. right. exists p, id. split; [done|].
    split; [|done]. pose proof (within_Delete id w2) as [Hdb Hdk]. rewrite Eins, Hd in Hdb, Hdk.
    apply upload_kept; [exact Hdb| |by left]. intros k Hk. rewrite Hdk by done. cbn. by rewrite lookup_insert_ne.
Qed.
End uploads.

Lemma handleUpload_answers max o u w : exists resp, (handleUpload max o u w).1 = Ok resp.
Proof.
  unfold handleUpload. destruct (negb _ || _); [by eexists|]. destruct (up_file u) as [p|]; [|by eexists].
  cbv zeta. unfold mbind at 1, M_bind at 1, new_uuid. destruct (env_draw _) as [n e]. unfold try_or at 1.
  destruct (Put _ _ _) as [[size|err] w1]; [|by eexists]. rewrite attempt_bind.
  destruct (insert_file _ _ _ _ _ _ w1) as [[x|err] w2]; cbn [fst snd]; [|rewrite attempt_bind; by eexists].
  unfold try_or. destruct (get _ _ w2) as [[m|err] w3]; by eexists.
Qed.

(** an upload leaves a complete file or no record of one: whatever fails, no
    file that was stored before changes, and either the records are as before or
    exactly one was added, the caller's, under the name and with the size of what
    was sent, its bytes on disk being exactly what was sent; the answer "created"
    is given only in the second case. *)
Theorem handleUpload_complete max o u w resp w' :
  handleUpload max o u w = (Ok resp, w') ->
  (forall k c, disk (w_db w) !! k = Some c -> disk (w_db w') !! k = Some c) /\
  (files (db (w_db w')) = files (db (w_db w)) /\ (forall f, resp <> Created f) \/
   exists p r, up_file u = Some p /\ files (db (w_db w')) = files (db (w_db w)) ++ [r] /\
     f_owner_id r = o /\ f_filename r = p_filename p /\
     f_size_bytes r = Z.of_nat (String.length (bytes (p_chunks p))) /\
     disk (w_db w') !! f_id r = Some (bytes (p_chunks p))).
Proof.
  intros H. apply handleUpload_run in H as [[Hsame Hf]|(p & id & Hp & He & Hc)].
  { rewrite Hsame. split; [done|left]. done. }
  destruct He as [Hdb Hk Hid|t Hid Hn ->].
  - split.
    + intros k c Hkc. destruct Hid as [Hid| ->]; [|done]. rewrite Hk; [done|]. congruence.
    + left. split; [by rewrite Hdb|]. intros f ->. destruct (Hc f eq_refl) as (t & Hr & _ & Hn & _).
      apply Hn. rewrite Hdb in Hr. by apply (list_elem_of_fmap_2 f_id) in Hr.
  - cbn [disk db]. split.
    + intros k c Hkc. rewrite lookup_insert_ne; [done|congruence].
    + right. exists p, (uploaded o id p t). split_and!; try done. cbn. apply lookup_insert_eq.
Qed.

(** ** Erasing files *)

Lemma elem_of_take_inv {A} (x : A) n l : x ∈ take n l -> x ∈ l.
Proof. intros (i & Hi & _)%elem_of_take. by eapply list_elem_of_lookup_2. Qed.

Lemma elem_of_drop_inv {A} (x : A) n l : x ∈ drop n l -> x ∈ l.
Proof. rewrite <- (take_drop n l) at 2. rewrite elem_of_app. auto. Qed.

Lemma elem_of_take_le {A} n m (x : A) l : n <= m -> x ∈ take n l -> x ∈ take m l.
Proof. intros Hle (i & Hi & Hn)%elem_of_take. apply elem_of_take. exists i. split; [done|lia]. Qed.

(** Of the files [ids] the records of the first [k] and the bytes of the first [j] are gone. *)
Record erased (ids : list string) (k j : nat) (s s' : Store) : Prop := {
  erased_db : db s' = with_files (filter (fun r => f_id r ∉ take k ids) (files (db s))) s;
  erased_disk : forall key, disk s' !! key = if decide (key ∈ take j ids) then None else disk s !! key;
}.

Lemma erased_none ids s : erased ids 0 0 s s.
Proof.
  split; cbn [take].
  - rewrite filter_all; [by rewrite with_files_same|]. apply Forall_true. intros r. apply not_elem_of_nil.
  - intros key. by rewrite decide_False by apply not_elem_of_nil.
Qed.

Lemma erased_step id ids k j s s1 s2 :
  erased [id] 1 1 s s1 -> erased ids k j s1 s2 -> erased (id :: ids) (S k) (S j) s s2.
Proof.
  intros [Hd1 Hk1] [Hd2 Hk2]. split; cbn [take].
  - rewrite Hd2, (with_files_twice _ _ _ _ Hd1), (files_with_files _ _ _ Hd1). f_equal.
    rewrite list_filter_filter. apply filter_ext_in. intros r _. cbn [take]. set_solver.
  - intros key. rewrite Hk2, Hk1. cbn [take]. repeat case_decide; set_solver.
Qed.

Lemma erased_prefix id ids s s1 : erased [id] 0 1 s s1 -> erased (id :: ids) 0 1 s s1.
Proof. intros [Hd Hk]. by split. Qed.

Lemma deleted_bytes id s : erased [id] 0 1 s (on_disk (delete id) s).
Proof.
  split; cbn [take db on_disk disk].
  - rewrite filter_all; [by rewrite with_files_same|]. apply Forall_true. intros r. apply not_elem_of_nil.
  - intros key. case_decide as Hk; [apply list_elem_of_singleton in Hk as ->; apply lookup_delete_eq|].
    apply lookup_delete_ne. set_solver.
Qed.

Lemma deleted_record id s s1 w x w' :
  erased [id] 0 1 s s1 -> w_db w = s1 -> delete_file id w = (Ok x, w') -> erased [id] 1 1 s (w_db w').
Proof.
  intros [Hd Hk] Hw ->%delete_file_ok. rewrite Hw. split; [|exact Hk]. cbn [db put_db].
  rewrite (with_files_twice _ _ _ _ Hd), (files_with_files _ _ _ Hd). f_equal. rewrite list_filter_filter. apply filter_ext_in. intros r _. cbn [take]. set_solver.
Qed.

Lemma erase_one_run id w r w' :
  erase_one id w = (r, w') ->
  if is_ok r then erased [id] 1 1 (w_db w) (w_db w')
  else erased [id] 0 0 (w_db w) (w_db w') \/ erased [id] 0 1 (w_db w) (w_db w').
Proof.
  unfold erase_one, mbind at 1, M_bind at 1, wrapping, map_err.
  destruct (Delete id w) as [[u|e] w1] eqn:E1.
  - apply Delete_ok in E1. destruct (delete_file id w1) as [[u2|e2] w2] eqn:E2; intros [= <- <-]; cbn [is_ok].
    + eapply deleted_record; [apply deleted_bytes|done|exact E2].
    + right. apply exec_err in E2. rewrite E2, E1. apply deleted_bytes.
  - intros [= <- <-]. left. apply Delete_err in E1. rewrite E1. apply erased_none.
Qed.

Lemma erase_all_run ids w r w' :
  for_each erase_one ids w = (r, w') ->
  exists k j, k <= j <= S k /\ j <= length ids /\ (is_ok r = true -> k = length ids) /\
    erased ids k j (w_db w) (w_db w').
Proof.
  revert w. induction ids as [|id ids IH]; intros w; cbn [for_each].
  - intros [= <- <-]. exists 0, 0. split_and!; [lia..|done|]. apply erased_none.
  - unfold mbind, M_bind. destruct (erase_one id w) as [[u|e] w1] eqn:E; apply erase_one_run in E; cbn [is_ok length] in *.
    + intros (k & j & H1 & H2 & H3 & H4)%IH. exists (S k), (S j).
      split_and!; [lia..|intros Hr; by rewrite H3|]. by eapply erased_step.
    + intros [= <- <-]. destruct E as [E|E]; [exists 0, 0|exists 0, 1]; (split_and!; [lia..|done|]).
      * by destruct E as [Hd Hk]; split.
      * by apply erased_prefix.
Qed.

Lemma owned_ids_spec subj id d :
  id ∈ owned_ids subj d <-> exists r, r ∈ files d /\ f_id r = id /\ f_owner_id r = subj.
Proof.
  unfold owned_ids. rewrite list_elem_of_fmap. split.
  - intros ([i r] & -> & Hin). rewrite merge_sort_Permutation in Hin. apply list_elem_of_filter in Hin as [Ho Hin].
    apply elem_of_lookup_imap in Hin as (i' & r' & [= -> ->] & Hr). apply list_elem_of_lookup_2 in Hr. eauto.
  - intros (r & Hin & <- & Ho). apply list_elem_of_lookup_1 in Hin as [i Hi]. exists (i, r). split; [done|].
    rewrite merge_sort_Permutation. apply list_elem_of_filter. split; [done|].
    apply elem_of_lookup_imap. eauto.
Qed.

(** The erasure loop, cut after some statement. *)
Lemma DeleteOwned_run subj w r w' :
  DeleteOwned subj w = (r, w') ->
  exists k j, k <= j <= S k /\ j <= length (owned_ids subj (db (w_db w))) /\
    (is_ok r = true -> k = length (owned_ids subj (db (w_db w)))) /\
    erased (owned_ids subj (db (w_db w))) k j (w_db w) (w_db w').
Proof.
  unfold DeleteOwned, mbind, M_bind. destruct (wrapping _ _ w) as [[l|e] w1] eqn:E.
  - apply map_err_ok, query_ok in E as [-> Hw1]. intros (k & j & H1 & H2 & H3 & H4)%erase_all_run.
    rewrite Hw1 in H4. by exists k, j.
  - intros [= <- <-]. exists 0, 0. split_and!; [lia..|done|].
    unfold wrapping, map_err in E. destruct (query _ w) as [[|e1] w2] eqn:E2; [done|]. injection E as _ <-.
    apply exec_err in E2. rewrite E2. apply erased_none.
Qed.

Lemma erased_owner subj ids s fs :
  unique_on f_id (files (db s)) -> ids = owned_ids subj (db s) -> fs = files (db s) ->
  filter (fun r => f_id r ∉ ids) fs = filter (fun f => f_owner_id f <> subj) fs.
Proof.
  intros Hu -> ->. apply filter_ext_in. intros f Hf. rewrite owned_ids_spec. split.
  - intros Hn Ho. apply Hn. eauto.
  - intros Hn (f' & Hf' & Hid & Ho). by rewrite (unique_on_eq f_id _ _ _ Hu Hf' Hf Hid) in Ho.
Qed.

(** erasing an account's files works through them in upload order, bytes
    before record: when it reports an error, a prefix of them is gone completely,
    of at most the next one the bytes are gone but the record is there, and the
    others, as every file of anybody else, are untouched; when it reports none,
    exactly the account's records and their bytes are gone. *)
Theorem DeleteOwned_prefix subj w r w' :
  unique_on f_id (files (db (w_db w))) -> DeleteOwned subj w = (r, w') ->
  let ids := owned_ids subj (db (w_db w)) in
  (exists k j, k <= j <= S k /\ j <= length ids /\ erased ids k j (w_db w) (w_db w')) /\
  (is_ok r = true ->
     files (db (w_db w')) = filter (fun f => f_owner_id f <> subj) (files (db (w_db w))) /\
     forall key, disk (w_db w') !! key = if decide (key ∈ ids) then None else disk (w_db w) !! key).
Proof.
  intros Hu H ids. apply DeleteOwned_run in H as (k & j & H1 & H2 & H3 & H4). split; [by exists k, j|].
  intros Hok. specialize (H3 Hok). destruct H4 as [Hd Hk]. fold ids in H2, H3, Hd, Hk.
  rewrite take_ge in Hd by lia. split.
  - rewrite (files_with_files _ _ _ Hd). by apply (erased_owner subj ids (w_db w)).
  - intros key. rewrite Hk, take_ge by lia. done.
Qed.

(** C28: repeating an erasure completes it: after a run that was cut short
    anywhere, a run that reports no error leaves exactly what one uninterrupted
    run would have left. *)
Theorem DeleteOwned_retry subj w r w1 w2 :
  unique_on f_id (files (db (w_db w))) ->
  DeleteOwned subj w = (r, w1) -> DeleteOwned subj w1 = (Ok tt, w2) ->
  db (w_db w2) = with_files (filter (fun f => f_owner_id f <> subj) (files (db (w_db w)))) (w_db w) /\
  forall key, disk (w_db w2) !! key =
    if decide (key ∈ owned_ids subj (db (w_db w))) then None else disk (w_db w) !! key.
Proof.
  intros Hu H H'. apply DeleteOwned_run in H as (k & j & H1 & H2 & _ & [Hd Hk]).
  apply DeleteOwned_run in H' as (k' & j' & H1' & H2' & H3' & [Hd' Hk']). specialize (H3' eq_refl).
  rewrite take_ge in Hd', Hk' by lia.
  set (ids := owned_ids subj (db (w_db w))) in *. set (ids1 := owned_ids subj (db (w_db w1))) in *.
  pose proof (files_with_files _ _ _ Hd) as Hf. split.
  - rewrite Hd', (with_files_twice _ _ _ _ Hd). f_equal.
    rewrite (erased_owner subj ids1 (w_db w1)); [|rewrite Hf; by apply unique_on_filter|done..].
    rewrite Hf, list_filter_filter. apply filter_ext_in. intros f Hin. split; [tauto|]. intros Ho. split; [done|].
    intros Hid%elem_of_take_inv.
    apply owned_ids_spec in Hid as (f' & Hf' & Hid & Ho').
    by rewrite (unique_on_eq f_id _ _ _ Hu Hf' Hin Hid) in Ho'.
  - intros key. rewrite Hk', Hk. destruct (decide (key ∈ ids1)) as [Hin|Hin].
    + apply owned_ids_spec in Hin as (f & Hin & <- & Ho). rewrite Hf in Hin. apply list_elem_of_filter in Hin as [_ Hin].
      rewrite decide_True; [done|]. apply owned_ids_spec. eauto.
    + destruct (decide (key ∈ ids)) as [Hid|Hid]; [|rewrite decide_False; [done|]; intros Hj; apply Hid; by eapply elem_of_take_inv].
      apply owned_ids_spec in Hid as Hrow. destruct Hrow as (f & Hfin & <- & Ho).
      rewrite decide_True; [done|]. destruct (decide (f_id f ∈ take k ids)) as [Ht|Ht].
      * by apply (elem_of_take_le k); [lia|].
      * destruct Hin. apply owned_ids_spec. exists f. rewrite Hf. split_and!; try done. by apply list_elem_of_filter.
Qed.

(** ** Isolation *)

(** A request, and who sends it. *)
Inductive op : Type :=
| OpUpload (o : string) (u : Upload)
| OpList (o limit offset : string)
| OpGet (o id : string)
| OpDownload (o id : string)
| OpDelete (o id : string)
| OpExport (o : string)
| OpErase (o : string).

Definition caller (x : op) : string :=
  match x with
  | OpUpload o _ | OpList o _ _ | OpGet o _ | OpDownload o _ | OpDelete o _ | OpExport o | OpErase o => o
  end.

Definition ignore {A} (m : MS A) : MS unit := r ← attempt m; mret tt.

Definition run_op (max : Z) (x : op) : MS unit :=
  match x with
  | OpUpload o u => ignore (handleUpload max o u)
  | OpList o l off => ignore (handleList o l off)
  | OpGet o id => ignore (handleGet o id)
  | OpDownload o id => ignore (handleDownload o id)
  | OpDelete o id => ignore (handleDelete o id)
  | OpExport o => ignore (ExportOwned o)
  | OpErase o => ignore (DeleteOwned o)
  end.

(** [a] changed nothing of anybody else: the records of the others are the same
    and the bytes of their files are still there; identifiers stay unique. *)
Definition spares_others (a : string) (s s' : Store) : Prop :=
  unique_on f_id (files (db s)) ->
  unique_on f_id (files (db s')) /\
  (forall r, f_owner_id r <> a -> (r ∈ files (db s') <-> r ∈ files (db s))) /\
  (forall r c, r ∈ files (db s) -> f_owner_id r <> a -> disk s !! f_id r = Some c -> disk s' !! f_id r = Some c).

#[local] Instance spares_others_preorder a : PreOrder (spares_others a).
Proof.
  split; unfold spares_others; [done|]. intros s1 s2 s3 H1 H2 Hu.
  destruct (H1 Hu) as (Hu1 & Hr1 & Hb1). destruct (H2 Hu1) as (Hu2 & Hr2 & Hb2). split_and!; [done| |].
  - intros r Hr. by rewrite Hr2, Hr1.
  - intros r c Hin Hr Hd. apply Hb2; [by apply Hr1|done|by apply Hb1].
Qed.

Lemma ignore_run {A} (m : MS A) w : w_db (ignore m w).2 = w_db (m w).2.
Proof. unfold ignore. by rewrite attempt_bind. Qed.

Lemma erased_spares a ids k j s s' :
  erased ids k j s s' ->
  (unique_on f_id (files (db s)) -> forall r, r ∈ files (db s) -> f_id r ∈ ids -> f_owner_id r = a) ->
  spares_others a s s'.
Proof.
  intros [Hd Hk] Hown Hu. specialize (Hown Hu). rewrite (files_with_files _ _ _ Hd). split_and!.
  - by apply unique_on_filter.
  - intros r Hr. rewrite list_elem_of_filter. split; [tauto|]. intros Hin. split; [|done]. intros Ht%elem_of_take_inv. by apply Hr, Hown.
  - intros r c Hin Hr Hc. rewrite Hk, decide_False; [done|]. intros Ht%elem_of_take_inv. by apply Hr, Hown.
Qed.

Lemma upload_spares o id p s s' : upload_effect o id p s s' -> spares_others o s s'.
Proof.
  intros [Hdb Hk Hid|t Hid Hn ->] Hu.
  - rewrite Hdb. split_and!; [done|done|]. intros r c Hin Hr Hc. destruct Hid as [Hid| ->]; [|done].
    rewrite Hk; [done|]. intros Heq. by rewrite Heq, Hid in Hc.
  - cbn [db with_files files put_files disk]. split_and!.
    + by apply unique_on_insert.
    + intros r Hr. rewrite elem_of_app, list_elem_of_singleton. split; [|auto]. by intros [| ->].
    + intros r c Hin Hr Hc. rewrite lookup_insert_ne; [done|]. intros Heq. by rewrite Heq, Hc in Hn.
Qed.

Lemma handleDelete_run o id w resp w' :
  handleDelete o id w = (resp, w') ->
  w_db w' = w_db w \/
  exists r k j, r ∈ files (db (w_db w)) /\ f_id r = id /\ f_owner_id r = o /\
    erased [id] k j (w_db w) (w_db w') /\ (resp = Ok NoContent -> k = 1 /\ j = 1).
Proof.
  unfold handleDelete, try_or. destruct (get o id w) as [[m|e] w1] eqn:Eg.
  2: { intros [= _ <-]. left. by eapply get_err. }
  apply get_ok in Eg as [Hw1 (r & Hin & Hid & Ho & ->)]. cbn [ID meta_of]. rewrite Hid.
  destruct (Delete id w1) as [[u|e] w2] eqn:E1.
  2: { intros [= _ <-]. left. apply Delete_err in E1. congruence. }
  apply Delete_ok in E1. rewrite Hw1 in E1. right. exists r.
  destruct (delete_file id w2) as [[u2|e2] w3] eqn:E2; injection H as <- <-.
  - exists 1, 1. split_and!; try done. eapply deleted_record; [apply deleted_bytes|done|exact E2].
  - exists 0, 1. split_and!; try done. apply exec_err in E2. rewrite E2, E1. apply deleted_bytes.
Qed.

Lemma run_op_spares max x : within (spares_others (caller x)) (run_op max x).
Proof.
  destruct x as [o u|o l off|o id|o id|o id|o|o]; intros w; cbn [run_op caller]; rewrite ignore_run.
  - destruct (handleUpload max o u w) as [[resp|e] w'] eqn:E; cbn [snd].
    + apply handleUpload_run in E as [[Heq _]|(p & id & _ & He & _)]; [by rewrite Heq|by eapply upload_spares].
    + by destruct (handleUpload_answers max o u w) as [resp Hr]; rewrite E in Hr.
  - revert w. change (within (spares_others o) (handleList o l off)). unfold handleList. by within_solve.
  - revert w. change (within (spares_others o) (handleGet o id)). unfold handleGet, get. by within_solve.
  - revert w. change (within (spares_others o) (handleDownload o id)). unfold handleDownload, get, Open. within_solve.
    case_match; [by simplify_eq|done].
  - destruct (handleDelete o id w) as [resp w'] eqn:E. cbn [snd].
    apply handleDelete_run in E as [Heq|(r & k & j & Hin & Hid & Ho & He & _)]; [by rewrite Heq|].
    eapply erased_spares; [exact He|]. intros Hu r0 Hr0 ->%list_elem_of_singleton%eq_sym.
    by rewrite (unique_on_eq f_id _ _ _ Hu Hr0 Hin (eq_sym Hid)).
  - revert w. change (within (spares_others o) (ExportOwned o)). unfold ExportOwned. by within_solve.
  - destruct (DeleteOwned o w) as [r w'] eqn:E. cbn [snd]. apply DeleteOwned_run in E as (k & j & _ & _ & _ & He).
    eapply erased_spares; [exact He|]. intros Hu r0 Hin (r1 & Hin1 & Hid & Ho)%owned_ids_spec.
    by rewrite <- (unique_on_eq f_id _ _ _ Hu Hin1 Hin Hid).
Qed.

(** What a sequence of requests by others leaves alone. *)
Definition untouched (b : string) (s s' : Store) : Prop :=
  unique_on f_id (files (db s)) ->
  unique_on f_id (files (db s')) /\
  (forall r, f_owner_id r = b -> (r ∈ files (db s') <-> r ∈ files (db s))) /\
  (forall r c, r ∈ files (db s) -> f_owner_id r = b -> disk s !! f_id r = Some c -> disk s' !! f_id r = Some c).

#[local] Instance untouched_preorder b : PreOrder (untouched b).
Proof.
  split; unfold untouched; [done|]. intros s1 s2 s3 H1 H2 Hu.
  destruct (H1 Hu) as (Hu1 & Hr1 & Hb1). destruct (H2 Hu1) as (Hu2 & Hr2 & Hb2). split_and!; [done| |].
  - intros r Hr. by rewrite Hr2, Hr1.
  - intros r c Hin Hr Hd. apply Hb2; [by apply Hr1|done|by apply Hb1].
Qed.

Lemma run_ops_untouched max b ops :
  Forall (fun x => caller x <> b) ops -> within (untouched b) (for_each (run_op max) ops).
Proof.
  rewrite Forall_forall. intros Hc. apply within_for_each; [apply _|]. intros x Hx w Hu.
  destruct (run_op_spares max x w Hu) as (Hu' & Hr & Hb). apply Hc in Hx. split_and!; [done| |].
  - intros r <-. by apply Hr.
  - intros r c Hin <-. by apply Hb.
Qed.

(** C17: the file store isolates its users: whatever the others send, in whatever
    order and wherever faults stop it, the records of a user's files are exactly
    what they were and the bytes are still there. *)
Theorem files_isolated max b ops w r w' :
  unique_on f_id (files (db (w_db w))) -> Forall (fun x => caller x <> b) ops ->
  for_each (run_op max) ops w = (r, w') ->
  (forall f, f_owner_id f = b -> (f ∈ files (db (w_db w')) <-> f ∈ files (db (w_db w)))) /\
  (forall f c, f ∈ files (db (w_db w)) -> f_owner_id f = b ->
     disk (w_db w) !! f_id f = Some c -> disk (w_db w') !! f_id f = Some c).
Proof.
  intros Hu Hc H. destruct (run_ops_untouched max b ops Hc w Hu) as (_ & Hr & Hb). by rewrite H in *.
Qed.

Lemma get_quiet o w r :
  quiet w -> unique_on f_id (files (db (w_db w))) -> r ∈ files (db (w_db w)) -> f_owner_id r = o ->
  get o (f_id r) w = (Ok (meta_of r), w).
Proof.
  intros Hq Hu Hin Ho. unfold get, mbind, M_bind, wrapping, map_err. rewrite query_quiet by done. cbv beta.
  destruct (find_row _ _) as [r'|] eqn:E.
  - apply find_row_Some in E as [Hin' [Hid _]]. by rewrite (unique_on_eq f_id _ _ _ Hu Hin' Hin Hid).
  - by destruct (find_row_None _ _ E r Hin).
Qed.

(** C10: what was uploaded is what is downloaded: after an upload was answered
    with "created", and whatever the other users did since, the uploader gets
    back the bytes, the name and the type that were sent, under the identifier
    of the answer. *)
Theorem upload_download max b u f w w1 ops r w2 :
  unique_on f_id (files (db (w_db w))) ->
  handleUpload max b u w = (Ok (Created f), w1) ->
  Forall (fun x => caller x <> b) ops -> for_each (run_op max) ops w1 = (r, w2) -> quiet w2 ->
  exists p, up_file u = Some p /\
    handleDownload b (j_id f) w2 =
      (Ok (Content (content_type p) (pretty (Z.of_nat (String.length (bytes (p_chunks p))))) (p_filename p)
             (bytes (p_chunks p))), w2).
Proof.
  intros Hu Hup Hc Hops Hq. apply handleUpload_run in Hup as [[_ Hn]|(p & id & Hp & He & Hf)]; [by destruct (Hn f)|].
  destruct (Hf f eq_refl) as (t & Hin & -> & _ & Hd). exists p. split; [done|]. cbv zeta in Hin.
  destruct (upload_spares _ _ _ _ _ He Hu) as (Hu1 & _ & _).
  destruct (run_ops_untouched max b ops Hc w1 Hu1) as (Hu2 & Hr & Hb). rewrite Hops in *. cbn [snd] in *.
  apply (Hr (uploaded b id p t) eq_refl) in Hin as Hin2.
  apply (Hb (uploaded b id p t) _ Hin eq_refl) in Hd as Hd2.
  unfold handleDownload, try_or. cbn [j_id fileJSON meta_of ID].
  rewrite (get_quiet b w2 (uploaded b id p t)) by done. unfold Open. rewrite exec_quiet by done.
  cbn [meta_of ID f_id uploaded] in *. rewrite Hd2. by destruct w2.
Qed.

(** ** What the component writes *)

(** Of the database only the files table. *)
Definition files_only (s s' : Store) : Prop := exists fs, db s' = with_files fs s.

#[global] Instance files_only_preorder : PreOrder files_only.
Proof.
  split; unfold files_only; [intros s; exists (files (db s)); by rewrite with_files_same|].
  intros s1 s2 s3 [fs H] [fs' H']. exists fs'. rewrite H'. by apply (with_files_twice fs).
Qed.

Lemma on_disk_only f s : files_only s (on_disk f s).
Proof. exists (files (db s)). by rewrite with_files_same. Qed.

Lemma insert_file_only id o fn ct size key : within files_only (insert_file id o fn ct size key).
Proof.
  intros w. destruct (insert_file id o fn ct size key w) as [[x|e] w'] eqn:E; cbn [snd].
  - apply insert_file_ok in E as [_ [t ->]]. by eexists.
  - by apply exec_at_err in E as ->.
Qed.

Lemma delete_file_only id : within files_only (delete_file id).
Proof. apply within_update; [apply _|]. intros s. by eexists. Qed.

Lemma only_bytes_files key s s' : only_bytes key s s' -> files_only s s'.
Proof. intros [Hd _]. exists (files (db s)). by rewrite with_files_same. Qed.

Lemma Put_only key r : within files_only (Put key r).
Proof.
  intros w. destruct (Put key r w) as [[n|e] w'] eqn:E; apply Put_run in E; cbn [snd].
  - destruct E as (_ & -> & _). apply on_disk_only.
  - destruct E as [->|[_ E]]; [done|by eapply only_bytes_files].
Qed.

Lemma Delete_only key : within files_only (Delete key).
Proof. intros w. eapply only_bytes_files, within_Delete. Qed.

Lemma Open_only key : within files_only (Open key).
Proof. apply within_exec; [apply _|]. intros s a s' H. by destruct (disk s !! key); simplify_eq. Qed.

#[local] Hint Resolve insert_file_only delete_file_only Put_only Delete_only Open_only : within.

Lemma handleUpload_only max o u : within files_only (handleUpload max o u).
Proof. unfold handleUpload, get. within_solve. Qed.
Lemma handleList_only o l off : within files_only (handleList o l off).
Proof. unfold handleList. within_solve. Qed.
Lemma handleGet_only o id : within files_only (handleGet o id).
Proof. unfold handleGet, get. within_solve. Qed.
Lemma handleDownload_only o id : within files_only (handleDownload o id).
Proof. unfold handleDownload, get. within_solve. Qed.
Lemma handleDelete_only o id : within files_only (handleDelete o id).
Proof. unfold handleDelete, get. within_solve. Qed.
Lemma ExportOwned_only o : within files_only (ExportOwned o).
Proof. unfold ExportOwned. within_solve. Qed.
Lemma DeleteOwned_only o : within files_only (DeleteOwned o).
Proof. unfold DeleteOwned, erase_one. within_solve. Qed.

(** ** Answers *)

(** Every file an answer speaks of is the caller's. *)
Definition about_own (o : string) (s : Store) (resp : Response) : Prop :=
  match resp with
  | Found f | Created f => exists r, r ∈ files (db s) /\ f_owner_id r = o /\ f = fileJSON (meta_of r)
  | Listing rs limit offset =>
      Forall (fun f => exists r, r ∈ files (db s) /\ f_owner_id r = o /\ f = fileJSON (meta_of r)) rs /\
      length rs <= Z.to_nat limit /\ (0 < limit <= maxLimit)%Z /\ (0 <= offset)%Z
  | Content ct _ fn body => exists r, r ∈ files (db s) /\ f_owner_id r = o /\ disk s !! f_id r = Some body /\
      f_content_type r = ct /\ f_filename r = fn
  | _ => True
  end.

Lemma parsePagination_bounds l off :
  (0 < (parsePagination l off).1 <= maxLimit)%Z /\ (0 <= (parsePagination l off).2)%Z.
Proof.
  unfold parsePagination, parse_limit, parse_offset, defaultLimit, maxLimit. cbn [fst snd].
  destruct (bool_decide (l = _)), (bool_decide (off = _)), (Atoi l), (Atoi off); repeat case_match; lia.
Qed.

(** whoever asks, listing, looking up and downloading change nothing, and
    every file the answer speaks of is the caller's own; a listing stays within
    its page, which is never more than 200 files. *)
Theorem reads_about_own o w :
  (forall l off resp w', handleList o l off w = (Ok resp, w') -> w_db w' = w_db w /\ about_own o (w_db w) resp) /\
  (forall id resp w', handleGet o id w = (Ok resp, w') -> w_db w' = w_db w /\ about_own o (w_db w) resp) /\
  (forall id resp w', handleDownload o id w = (Ok resp, w') -> w_db w' = w_db w /\ about_own o (w_db w) resp).
Proof.
  split_and!.
  - intros l off resp w'. unfold handleList. pose proof (parsePagination_bounds l off) as [Hl Ho].
    destruct (parsePagination l off) as [limit offset]. cbn [fst snd] in *.
    intros [(e & H & ->)|(rows & w1 & H & Hk)]%try_or_ok; [apply exec_err in H; done|].
    run_inv. split; [done|]. cbn [about_own]. rewrite length_fmap, length_take. split_and!; [|lia..].
    apply Forall_fmap, Forall_forall. intros r Hin%elem_of_take_inv%elem_of_drop_inv.
    rewrite merge_sort_Permutation in Hin. apply list_elem_of_filter in Hin as [Ho' Hin]. simpl. eauto.
  - intros id resp w'. unfold handleGet. intros [(e & H & ->)|(m & w1 & H & Hk)]%try_or_ok.
    + apply get_err in H. split; [done|]. unfold lookup_error. by destruct (errors_Is _ _).
    + apply get_ok in H as [Hw (r & Hin & _ & Ho & ->)]. run_inv. split; [done|]. by exists r.
  - intros id resp w'. unfold handleDownload. intros [(e & H & ->)|(m & w1 & H & Hk)]%try_or_ok.
    + apply get_err in H. split; [done|]. unfold lookup_error. by destruct (errors_Is _ _).
    + apply get_ok in H as [Hw (r & Hin & Hid & Ho & ->)].
      apply try_or_ok in Hk as [(e & H & ->)|(body & w2 & H & Hk)]; [apply exec_err in H; by rewrite H|].
      unfold Open in H. apply exec_ok in H. cbn [ID meta_of] in H. rewrite Hw in H.
      destruct (disk (w_db w) !! f_id r) as [c|] eqn:E; [|done]. injection H as -> Hw2. run_inv.
      split; [done|]. by exists r.
Qed.

(** ** Witnesses *)

(** Two accounts, two files of the first one and one of the second. *)
Definition sample_store : Store :=
  mkStore
    (mkDatabase (mkIdentity [mkUserRow "u1" "ann@example.com" "h" 0 0; mkUserRow "u2" "bob@example.com" "h" 0 0] [] [] [])
       (mkOwnerDb [] []) []
       [mkFileRow "f1" "u1" "a.txt" "text/plain" 2 "f1" 0; mkFileRow "f2" "u2" "b.txt" "text/plain" 1 "f2" 0;
        mkFileRow "f3" "u1" "c.txt" "text/plain" 1 "f3" 0]
       (mkOAuthDb [] [] (fun _ => []) [] [] None))
    {[ "f1" := "ab"; "f2" := "x"; "f3" := "c" ]}.

Definition sample_upload : Upload := mkUpload 200 true (Some (mkPart "note.txt" EmptyString ["hello, "; "world"])).

(** A world in which the calls succeed or fail as listed. *)
Definition faulty_world (faults : list (option string)) : World Store :=
  mkWorld (mkEnv ((fun f => mkEvent f 0) <$> faults) 0 0 (fun n => "id-" +:+ pretty n) (fun _ => EmptyString)) sample_store.

Lemma handleUpload_complete_witness :
  let w' := (handleUpload 1000 "u2" sample_upload (sample_world 5 sample_store)).2 in
  disk (w_db w') !! "f1" = Some "ab" /\ length (files (db (w_db w'))) = 4.
Proof.
  intros w'. split; [|by vm_compute].
  refine (proj1 (handleUpload_complete 1000 "u2" sample_upload (sample_world 5 sample_store)
    (Created (mkFileJSON "id-0" "note.txt" "application/octet-stream" 12 0)) w' _) "f1" "ab" _); by vm_compute.
Defined.

Lemma DeleteOwned_prefix_witness :
  let w := faulty_world [None; None; None; Some "disk I/O error"] in
  exists k j, k <= j <= S k /\ j <= 2 /\ erased ["f1"; "f3"] k j sample_store (w_db (DeleteOwned "u1" w).2).
Proof.
  intros w. apply (DeleteOwned_prefix "u1" w (Err (Wrap "delete file bytes f3" (Driver "disk I/O error"))) (DeleteOwned "u1" w).2).
  - evaluate.
  - vm_compute. reflexivity.
Defined.

Lemma DeleteOwned_retry_witness :
  let w1 := (DeleteOwned "u1" (faulty_world [None; None; Some "database is locked"])).2 in
  files (db (w_db (DeleteOwned "u1" w1).2)) = [mkFileRow "f2" "u2" "b.txt" "text/plain" 1 "f2" 0].
Proof.
  intros w1.
  destruct (DeleteOwned_retry "u1" (faulty_world [None; None; Some "database is locked"])
    (Err (Wrap "delete file metadata f1" (Driver "database is locked"))) w1 (DeleteOwned "u1" w1).2) as [Hd _].
  - evaluate.
  - vm_compute. reflexivity.
  - vm_compute. reflexivity.
  - rewrite Hd. vm_compute. reflexivity.
Defined.

Lemma files_isolated_witness :
  let ops := [OpUpload "u1" sample_upload; OpDelete "u1" "f2"; OpErase "u1"] in
  let w' := (for_each (run_op 1000) ops (sample_world 5 sample_store)).2 in
  disk (w_db w') !! "f2" = Some "x".
Proof.
  intros ops w'. destruct (files_isolated 1000 "u2" ops (sample_world 5 sample_store) (Ok tt) w') as [_ Hb].
  - evaluate.
  - repeat constructor; discriminate.
  - vm_compute. reflexivity.
  - apply (Hb (mkFileRow "f2" "u2" "b.txt" "text/plain" 1 "f2" 0)); [right; left|reflexivity|reflexivity].
Defined.

Lemma upload_download_witness :
  let w1 := (handleUpload 1000 "u2" sample_upload (sample_world 5 sample_store)).2 in
  let w2 := (for_each (run_op 1000) [OpErase "u1"] w1).2 in
  handleDownload "u2" "id-0" w2 = (Ok (Content "application/octet-stream" "12" "note.txt" "hello, world"), w2).
Proof.
  intros w1 w2.
  destruct (upload_download 1000 "u2" sample_upload (mkFileJSON "id-0" "note.txt" "application/octet-stream" 12 0)
    (sample_world 5 sample_store) w1 [OpErase "u1"] (Ok tt) w2) as (p & Hp & Hd).
  - evaluate.
  - vm_compute. reflexivity.
  - repeat constructor. discriminate.
  - vm_compute. reflexivity.
  - vm_compute. reflexivity.
  - injection Hp as <-. exact Hd.
Defined.

Lemma reads_about_own_witness :
  about_own "u1" sample_store (Content "text/plain" "2" "a.txt" "ab").
Proof.
  destruct (reads_about_own "u1" (sample_world 5 sample_store)) as (_ & _ & H).
  apply (H "f1" (Content "text/plain" "2" "a.txt" "ab") (sample_world 5 sample_store)). vm_compute. reflexivity.
Defined.

(** When the record of a file cannot be deleted its bytes are already gone: the
    file is still found, and downloading it is an internal error. *)
Example DeleteOwned_leaves_record_without_bytes :
  let w := (DeleteOwned "u1" (faulty_world [None; None; Some "database is locked"])).2 in
  (handleGet "u1" "f1" w).1 = Ok (Found (mkFileJSON "f1" "a.txt" "text/plain" 2 0)) /\
  (handleDownload "u1" "f1" w).1 = Ok internal_error.
Proof. vm_compute. split; reflexivity. Qed.

End StorageFacts.
