(* ===== verification/Http.v ===== *)
(** * HTTP: addresses, cookies, mail

    What the handlers use of net, net/url and net/http, the cookies of the two
    session layers (src/internal/auth/cookie.go, src/internal/ownerauth/cookie.go)
    and the transactional mail of src/internal/email. *)

From S2P Require Import Prelude GoStrings Encoding Schema Auth OwnerAuth.

Module Http.

(** ** net/url, net *)

(** Left alone by url.QueryEscape. *)
Definition unreserved (c : ascii) : bool :=
  is_digit c || is_lower c || is_upper c ||
  byte_eqb c "-" || byte_eqb c "_" || byte_eqb c "." || byte_eqb c "~".

Fixpoint QueryEscape (s : string) : string :=
  match s with
  | EmptyString => EmptyString
  | String c rest =>
      (if unreserved c then one c else if byte_eqb c " " then "+" else "%" +:+ ToUpper (hex_byte c)) +:+ QueryEscape rest
  end.

Definition LastIndexByte (s : string) (c : ascii) : option nat := LastIndexFunc (byte_eqb c) s.
Definition IndexByte (s : string) (c : ascii) : option nat := IndexFunc (byte_eqb c) s.
Definition ContainsByte (s : string) (c : ascii) : bool := bool_decide (is_Some (IndexByte s c)).

(** net.SplitHostPort: the host, when the address has one and a port. *)
Definition SplitHostPort (hostport : string) : option string :=
  match LastIndexByte hostport ":" with
  | None => None
  | Some i =>
      if HasPrefix hostport "[" then
        match IndexByte hostport "]" with
        | None => None
        | Some close =>
            if bool_decide (close + 1 = i) then
              if ContainsByte (sdrop 1 hostport) "[" || ContainsByte (sdrop (close + 1) hostport) "]" then None
              else Some (stake (close - 1) (sdrop 1 hostport))
            else None
        end
      else
        let host := stake i hostport in
        if ContainsByte host ":" then None
        else if ContainsByte hostport "[" || ContainsByte hostport "]" then None
        else Some host
  end.

(** ** Cookies *)

Inductive SameSite : Type := LaxMode | StrictMode | NoneMode.

(** [MaxAge] is 0 when the cookie has none; [Expires] is absent likewise. *)
Record Cookie : Type := mkCookie {
  Name : string; Value : string; Path : string; Expires : option Z; MaxAge : Z;
  HttpOnly : bool; Secure : bool; SameSiteMode : SameSite;
}.

Definition SessionCookieName : string := "maubase_session".
Definition OwnerSessionCookieName : string := "maubase_owner_session".

Definition SetCookie (session : Auth.Session) : Cookie :=
  mkCookie SessionCookieName (Auth.Token session) "/" (Some (Auth.ExpiresAt session)) 0 true true LaxMode.
Definition ClearCookie : Cookie := mkCookie SessionCookieName EmptyString "/" (Some 0%Z) 0 true true LaxMode.

Definition OwnerSetCookie (session : OwnerAuth.Session) : Cookie :=
  mkCookie OwnerSessionCookieName (OwnerAuth.Token session) "/" (Some (OwnerAuth.ExpiresAt session)) 0 true true LaxMode.
Definition OwnerClearCookie : Cookie := mkCookie OwnerSessionCookieName EmptyString "/" (Some 0%Z) 0 true true LaxMode.

(** ** Mail *)

Record Mail : Type := mkMail { To : string; Subject : string; HTML : string }.

(** The provider's HTTP API: status and beginning of the body of its answer. *)
Class Resend := { post_emails : string -> string -> Mail -> Z * string }.

Inductive Sender : Type :=
| NoopSender
| ResendSender (apiKey from : string).

Section mail.
Context {resend : Resend}.

(** Delivered mail is appended. *)
Definition Send (s : Sender) (m : Mail) : M (list Mail) unit :=
  match s with
  | NoopSender =>
      fail (Errorf "no email sender configured — set MAUBASE_RESEND_API_KEY and MAUBASE_EMAIL_FROM")
  | ResendSender apiKey from =>
      r ← wrapping "send via resend"
            (update (fun sent =>
               let r := post_emails apiKey from m in
               (r, if (300 <=? r.1)%Z then sent else sent ++ [m])));
      if (300 <=? r.1)%Z then fail (Errorf ("resend returned " +:+ Itoa r.1 +:+ ": " +:+ r.2)) else mret tt
  end.
End mail.

End Http.
