(* ===== verification/Social.v ===== *)
(** * Sign-in providers

    Models src/internal/social: what a provider's profile endpoints answered,
    boiled down to an identity.  The providers themselves and the OAuth2 client
    are not this program's: [Upstream] is what they answer. *)

From S2P Require Import Prelude GoStrings.

Module Social.

Record Identity : Type := mkIdentity { ProviderUserID : string; Email : string }.

(** An HTTP answer: status, text of the body, and what its JSON decodes to. *)
Record Answer (A : Type) : Type := mkAnswer { StatusCode : Z; text : string; decoded : error + A }.
Arguments mkAnswer {A} _ _ _.
Arguments StatusCode {A} _.
Arguments text {A} _.
Arguments decoded {A} _.

Record GitHubProfile : Type := mkGitHubProfile { gh_id : Z; gh_email : string }.
Record GitHubEmail : Type := mkGitHubEmail { ge_email : string; ge_primary : bool; ge_verified : bool }.

(** The token endpoint and the profile endpoints, a failed call being an error. *)
Class Upstream := {
  token_endpoint : string -> string -> error + string;
  google_userinfo : string -> error + Answer (string * string);
  github_user : string -> error + Answer GitHubProfile;
  github_emails : string -> error + Answer (list GitHubEmail);
  authorize_url : string -> string -> string;
}.

Inductive Kind : Type := Google | GitHub.

Record Provider : Type := mkProvider { Name : string; kind : Kind }.

Definition userInfoURL : string := "https://api.github.com/user".
Definition emailsURL : string := "https://api.github.com/user/emails".

Section social.
Context {upstream : Upstream}.

Definition AuthCodeURL (p : Provider) (state : string) : string := authorize_url (Name p) state.
Definition Exchange (p : Provider) (code : string) : error + string := token_endpoint (Name p) code.

Definition returned (what : string) (status : Z) (body : string) : error :=
  Errorf (what +:+ " returned " +:+ Itoa status +:+ ": " +:+ stake 2048 body).

Definition getJSON {A} (url : string) (answer : error + Answer A) : error + A :=
  match answer with
  | inl err => inl err
  | inr a => if negb (bool_decide (StatusCode a = 200%Z)) then inl (returned url (StatusCode a) (text a)) else decoded a
  end.

Definition fetch_google (tok : string) : error + Identity :=
  match google_userinfo tok with
  | inl err => inl (Wrap "fetch google userinfo" err)
  | inr a =>
      if negb (bool_decide (StatusCode a = 200%Z)) then inl (returned "google userinfo" (StatusCode a) (text a))
      else match decoded a with
      | inl err => inl (Wrap "decode google userinfo" err)
      | inr (sub, mail) =>
          if bool_decide (sub = EmptyString) then inl (Errorf "google userinfo response had no sub")
          else inr (mkIdentity sub mail)
      end
  end.

(** The first address that is both primary and verified. *)
Fixpoint primary_verified (l : list GitHubEmail) : string :=
  match l with
  | [] => EmptyString
  | e :: rest => if ge_primary e && ge_verified e then ge_email e else primary_verified rest
  end.

Definition fetch_github (tok : string) : error + Identity :=
  match getJSON userInfoURL (github_user tok) with
  | inl err => inl (Wrap "fetch github user" err)
  | inr profile =>
      if bool_decide (gh_id profile = 0%Z) then inl (Errorf "github user response had no id")
      else
        let mail :=
          if bool_decide (gh_email profile = EmptyString) then
            match getJSON emailsURL (github_emails tok) with
            | inl _ => EmptyString
            | inr emails => primary_verified emails
            end
          else gh_email profile in
        inr (mkIdentity (Itoa (gh_id profile)) mail)
  end.

Definition FetchIdentity (p : Provider) (tok : string) : error + Identity :=
  match kind p with
  | Google => fetch_google tok
  | GitHub => fetch_github tok
  end.

End social.

End Social.
