(* ===== verification/Realtime.v ===== *)
(** * Realtime fan-out

    Models src/internal/realtime: the broker's subscription table and the
    bounded event channel of each connection, one definition per operation under
    the mutex; the delivery of one event, which happens after the mutex is
    released; and the relay between processes.  A connection is a number, as
    pointers are compared by identity.  The record an event carries is opaque. *)

From S2P Require Import Prelude.

Module Realtime.

Section broker.
Context {R : Type}.

Record Event : Type := mkEvent {
  Type_ : string; Collection : string; Record_ : option R; ID : string;
}.

(** [events] is the content of the channel, oldest first; [closed] says
    [close(c.events)] has run. *)
Record Conn : Type := mkConn { Subject : string; events : list Event; closed : bool }.

Definition channel_size : nat := 16.

Record Broker : Type := mkBroker {
  subs : gmap string (gset nat);
  conns : gmap nat Conn;
}.

Definition NewBroker : Broker := mkBroker ∅ ∅.

(** A new connection gets a number no other has. *)
Definition NewConn (subject : string) (b : Broker) : nat * Broker :=
  let c := fresh (dom (conns b)) in
  (c, mkBroker (subs b) (<[c := mkConn subject [] false]> (conns b))).

Definition Subscribe (c : nat) (collection : string) (b : Broker) : Broker :=
  let set := default ∅ (subs b !! collection) in
  mkBroker (<[collection := {[c]} ∪ set]> (subs b)) (conns b).

(** [delete(set, c)], and the entry itself once the set is empty. *)
Definition prune (c : nat) (set : gset nat) : option (gset nat) :=
  let set' := set ∖ {[c]} in
  if bool_decide (set' = ∅) then None else Some set'.

Definition Unsubscribe (c : nat) (collection : string) (b : Broker) : Broker :=
  match subs b !! collection with
  | None => b
  | Some set =>
      mkBroker (partial_alter (fun _ => prune c set) collection (subs b)) (conns b)
  end.

Definition close_channel (c : Conn) : Conn := mkConn (Subject c) (events c) true.

Definition Close (c : nat) (b : Broker) : Broker :=
  mkBroker (omap (prune c) (subs b)) (alter close_channel c (conns b)).

(** ** Publishing *)

Definition authorized (ownerID : string) (c : Conn) : bool :=
  bool_decide (ownerID = EmptyString) || bool_decide (Subject c = ownerID).

(** The connections collected under the mutex. *)
Definition may_see (ownerID : string) (b : Broker) (c : nat) : bool :=
  match conns b !! c with Some k => authorized ownerID k | None => false end.

Definition collect (ev : Event) (ownerID : string) (b : Broker) : list nat :=
  filter (fun c => may_see ownerID b c = true) (elements (default ∅ (subs b !! Collection ev))).

(** [select { case c.events <- ev: default: }]: a send on a closed channel
    panics ([None]), a full channel drops the event. *)
Definition send (ev : Event) (c : nat) (b : Broker) : option Broker :=
  match conns b !! c with
  | None => Some b
  | Some k =>
      if closed k then None
      else if bool_decide (length (events k) < channel_size) then
        Some (mkBroker (subs b) (<[c := mkConn (Subject k) (events k ++ [ev]) false]> (conns b)))
      else Some b
  end.

Fixpoint send_all (ev : Event) (cs : list nat) (b : Broker) : option Broker :=
  match cs with
  | [] => Some b
  | c :: rest => b' ← send ev c b; send_all ev rest b'
  end.

(** [publishLocal] when nothing runs between its two halves. *)
Definition publishLocal (ev : Event) (ownerID : string) (b : Broker) : option Broker :=
  send_all ev (collect ev ownerID b) b.

(** [writePump] takes the oldest event. *)
Definition receive (c : nat) (b : Broker) : option (Event * Broker) :=
  k ← conns b !! c;
  match events k with
  | [] => None
  | ev :: rest => Some (ev, mkBroker (subs b) (<[c := mkConn (Subject k) rest (closed k)]> (conns b)))
  end.

(** ** The messages of a client *)

Record Message : Type := mkMessage { MType : string; MCollection : string }.

Definition readPump_step (c : nat) (msg : Message) (b : Broker) : Broker :=
  if bool_decide (MCollection msg = EmptyString) then b
  else if bool_decide (MType msg = "subscribe") then Subscribe c (MCollection msg) b
  else if bool_decide (MType msg = "unsubscribe") then Unsubscribe c (MCollection msg) b
  else b.

(** A whole connection: its messages, then the deferred [Close]. *)
Definition handleConnect (subject : string) (msgs : list Message) (b : Broker) : Broker :=
  let '(c, b) := NewConn subject b in
  Close c (foldl (fun b m => readPump_step c m b) b msgs).

(** ** Interleavings

    What goroutines do to a broker, one critical section at a time: a publish
    collects its connections, and sends to each of them later. *)

Record System : Type := mkSystem {
  broker : Broker;
  in_flight : list (Event * list nat);     (* collected, not yet sent *)
}.

Inductive action : Type :=
| AConnect (subject : string)
| AMessage (c : nat) (msg : Message)
| AClose (c : nat)
| ACollect (ev : Event) (ownerID : string)
| ASend (i : nat)                          (* the next send of the i-th publish *)
| AReceive (c : nat).

(** A client's goroutine touches its own connection until it closes it, once. *)
Definition is_open (c : nat) (b : Broker) : Prop :=
  exists k, conns b !! c = Some k /\ closed k = false.

Inductive step : System -> action -> System -> Prop :=
| step_connect s subject :
    step s (AConnect subject) (mkSystem (NewConn subject (broker s)).2 (in_flight s))
| step_message s c msg :
    is_open c (broker s) ->
    step s (AMessage c msg) (mkSystem (readPump_step c msg (broker s)) (in_flight s))
| step_close s c :
    is_open c (broker s) ->
    step s (AClose c) (mkSystem (Close c (broker s)) (in_flight s))
| step_collect s ev ownerID :
    step s (ACollect ev ownerID)
      (mkSystem (broker s) (in_flight s ++ [(ev, collect ev ownerID (broker s))]))
| step_send s i ev c cs b' :
    in_flight s !! i = Some (ev, c :: cs) ->
    send ev c (broker s) = Some b' ->
    step s (ASend i) (mkSystem b' (<[i := (ev, cs)]> (in_flight s)))
| step_receive s c ev b' :
    receive c (broker s) = Some (ev, b') ->
    step s (AReceive c) (mkSystem b' (in_flight s)).

(** The next send of some publish panics. *)
Definition panics (s : System) : Prop :=
  exists i ev c cs, in_flight s !! i = Some (ev, c :: cs) /\ send ev c (broker s) = None.

(** ** The relay *)

Record relayMessage : Type := mkRelayMessage { MEvent : Event; OwnerID : string; OriginID : string }.

(** One process: its relay's identifier and its broker. *)
Record Process : Type := mkProcess { originID : string; local : Broker }.

(** [RedisRelay.Publish]: what goes on the wire. *)
Definition relay_publish (p : Process) (ev : Event) (ownerID : string) : relayMessage :=
  mkRelayMessage ev ownerID (originID p).

(** One turn of [RedisRelay.Run], with the handler [NewBrokerWithRelay] gives it. *)
Definition relay_run (m : relayMessage) (p : Process) : option Process :=
  if bool_decide (OriginID m = originID p) then Some p
  else b' ← publishLocal (MEvent m) (OwnerID m) (local p); Some (mkProcess (originID p) b').

(** A message published on the channel reaches every subscribed process. *)
Fixpoint redis_deliver (m : relayMessage) (fleet : list Process) : option (list Process) :=
  match fleet with
  | [] => Some []
  | p :: rest => p' ← relay_run m p; rest' ← redis_deliver m rest; Some (p' :: rest')
  end.

(** [Broker.Publish] in process [i] of a fleet, the relay included. *)
Definition Publish (i : nat) (ev : Event) (ownerID : string) (fleet : list Process) : option (list Process) :=
  p ← fleet !! i;
  b' ← publishLocal ev ownerID (local p);
  redis_deliver (relay_publish p ev ownerID) (<[i := mkProcess (originID p) b']> fleet).

End broker.

Arguments Event : clear implicits.
Arguments Conn : clear implicits.
Arguments Broker : clear implicits.
Arguments System : clear implicits.
Arguments Process : clear implicits.
Arguments action : clear implicits.

End Realtime.
