(* ===== verification/RealtimeFacts.v ===== *)
(** * Realtime fan-out: theorems

    The subscription table never holds an empty entry or a closed connection;
    an event reaches exactly the subscribers that may see it, once each, in every
    process of a fleet; and a publish that is overtaken by the close of one of
    its connections panics. *)

From S2P Require Import Prelude Realtime.

Module RealtimeFacts.
Import Realtime.

Section facts.
Context {R : Type}.
Implicit Types (b : Broker R) (ev : Event R) (s : System R).

Record broker_ok b : Prop := {
  bok_nonempty : forall col set, subs b !! col = Some set -> set <> ∅;
  bok_open : forall col set c, subs b !! col = Some set -> c ∈ set -> is_open c b;
  bok_bounded : forall c k, conns b !! c = Some k -> length (events k) <= channel_size;
}.

Lemma NewBroker_ok : broker_ok (NewBroker (R := R)).
Proof. split; intros *; unfold NewBroker; simpl; by rewrite lookup_empty. Qed.

(** Adding or updating a connection that stays open keeps everybody open. *)
Lemma is_open_insert b c k c' :
  closed k = false -> is_open c' b -> is_open c' (mkBroker (subs b) (<[c := k]> (conns b))).
Proof.
  intros Hk (k' & Hc' & Hcl). unfold is_open. simpl. destruct (decide (c' = c)) as [->|].
  - rewrite lookup_insert_eq. eauto.
  - rewrite lookup_insert_ne by done. eauto.
Qed.

Lemma insert_conn_ok b c k :
  broker_ok b -> closed k = false -> length (events k) <= channel_size ->
  broker_ok (mkBroker (subs b) (<[c := k]> (conns b))).
Proof.
  intros [H1 H2 H3] Hk Hl. split; simpl; [done| |].
  - intros col set c' Hs Hin. apply is_open_insert; eauto.
  - intros c' k'. destruct (decide (c' = c)) as [->|].
    + rewrite lookup_insert_eq. by intros [= <-].
    + rewrite lookup_insert_ne by done. apply H3.
Qed.

Lemma NewConn_ok subject b : broker_ok b -> broker_ok (NewConn subject b).2.
Proof. intros Hb. apply insert_conn_ok; simpl; [done|done|lia]. Qed.

Lemma Subscribe_ok c col b : broker_ok b -> is_open c b -> broker_ok (Subscribe c col b).
Proof.
  intros [H1 H2 H3] Ho. split; simpl; [| |done].
  - intros col' set. destruct (decide (col' = col)) as [->|].
    + rewrite lookup_insert_eq. intros [= <-]. set_solver.
    + rewrite lookup_insert_ne by done. apply H1.
  - intros col' set c'. destruct (decide (col' = col)) as [->|].
    + rewrite lookup_insert_eq. intros [= <-] [->%elem_of_singleton|Hin]%elem_of_union; [done|].
      destruct (subs b !! col) as [set0|] eqn:E; [by eapply H2|set_solver].
    + rewrite lookup_insert_ne by done. apply H2.
Qed.

Lemma prune_Some c set set' : prune c set = Some set' -> set' = set ∖ {[c]} /\ set' <> ∅.
Proof. unfold prune. case_bool_decide; [done|]. by intros [= <-]. Qed.

Lemma Unsubscribe_ok c col b : broker_ok b -> broker_ok (Unsubscribe c col b).
Proof.
  intros [H1 H2 H3]. unfold Unsubscribe. destruct (subs b !! col) as [set0|] eqn:E; [|done].
  split; simpl; [| |done].
  - intros col' set. destruct (decide (col' = col)) as [->|].
    + rewrite lookup_partial_alter_eq. by intros [_ ?]%prune_Some.
    + rewrite lookup_partial_alter_ne by done. apply H1.
  - intros col' set c'. destruct (decide (col' = col)) as [->|].
    + rewrite lookup_partial_alter_eq. intros [-> _]%prune_Some [Hin _]%elem_of_difference. by eapply H2.
    + rewrite lookup_partial_alter_ne by done. apply H2.
Qed.

Lemma Close_ok c b : broker_ok b -> broker_ok (Close c b).
Proof.
  intros [H1 H2 H3]. split; simpl.
  - intros col set (set0 & [_ ?]%prune_Some & Hs)%lookup_omap_Some. done.
  - intros col set c' (set0 & [-> _]%prune_Some & Hs)%lookup_omap_Some
      [Hin Hne%not_elem_of_singleton]%elem_of_difference.
    destruct (H2 _ _ _ Hs Hin) as (k & Hk & Hcl). exists k. split; [|done]. simpl.
    by rewrite lookup_alter_ne.
  - intros c' k. destruct (decide (c' = c)) as [->|].
    + rewrite lookup_alter_eq. intros (k0 & Hk & ->)%fmap_Some. simpl. by eapply H3.
    + rewrite lookup_alter_ne by done. apply H3.
Qed.

Lemma readPump_step_ok c msg b : broker_ok b -> is_open c b -> broker_ok (readPump_step c msg b).
Proof.
  intros Hb Ho. unfold readPump_step. repeat case_bool_decide; try done.
  - by apply Subscribe_ok.
  - by apply Unsubscribe_ok.
Qed.

Lemma send_ok ev c b b' : broker_ok b -> send ev c b = Some b' -> broker_ok b'.
Proof.
  intros Hb. unfold send. destruct (conns b !! c) as [k|] eqn:E; [|by intros [= <-]].
  destruct (closed k) eqn:Ec; [done|]. case_bool_decide as Hl; intros [= <-]; [|done].
  apply insert_conn_ok; simpl; [done|done|]. rewrite length_app. simpl. lia.
Qed.

Lemma receive_ok c b ev b' : broker_ok b -> receive c b = Some (ev, b') -> broker_ok b'.
Proof.
  intros Hb. unfold receive. destruct (conns b !! c) as [k|] eqn:E; [|done]. simpl.
  destruct (events k) as [|e rest] eqn:Ee; [done|]. intros [= -> <-].
  destruct Hb as [H1 H2 H3]. split; simpl; [done| |].
  - intros col set c' Hs Hin. destruct (H2 _ _ _ Hs Hin) as (k' & Hk' & Hcl). unfold is_open. simpl.
    destruct (decide (c' = c)) as [->|]; [rewrite lookup_insert_eq|rewrite lookup_insert_ne by done; eauto].
    assert (k' = k) as -> by congruence. eexists. split; [done|]. done.
  - intros c' k'. destruct (decide (c' = c)) as [->|].
    + rewrite lookup_insert_eq. intros [= <-]. simpl. specialize (H3 _ _ E). rewrite Ee in H3. simpl in H3. lia.
    + rewrite lookup_insert_ne by done. apply H3.
Qed.

Lemma step_ok s a s' : step s a s' -> broker_ok (broker s) -> broker_ok (broker s').
Proof.
  destruct 1; cbn [broker]; eauto using NewConn_ok, readPump_step_ok, Close_ok, send_ok, receive_ok.
Qed.

Inductive trace : System R -> list (action R) -> System R -> Prop :=
| trace_nil s : trace s [] s
| trace_cons s a s' l s'' : step s a s' -> trace s' l s'' -> trace s (a :: l) s''.

Definition init : System R := mkSystem NewBroker [].

(** C25: In every reachable state no collection has an empty entry (so the table does
    not grow with names nobody is subscribed to), every subscriber is an open
    connection, and no event channel holds more than its capacity. *)
Theorem reachable_broker_ok acts s : trace init acts s -> broker_ok (broker s).
Proof.
  assert (forall s0, trace s0 acts s -> broker_ok (broker s0) -> broker_ok (broker s)) as H.
  { intros s0. induction 1; eauto using step_ok. }
  intros Ht. apply (H init); [done|]. apply NewBroker_ok.
Qed.

(** ** Who gets an event *)

Definition subscribed (c : nat) (col : string) b : Prop :=
  c ∈ default ∅ (subs b !! col).

#[global] Instance subscribed_dec c col b : Decision (subscribed c col b).
Proof. unfold subscribed. apply _. Defined.

Definition delivered ev (k : Conn R) : Conn R :=
  if bool_decide (length (events k) < channel_size) then mkConn (Subject k) (events k ++ [ev]) (closed k) else k.

Lemma send_all_spec ev cs : forall b,
  NoDup cs -> (forall c, c ∈ cs -> is_open c b) ->
  exists b', send_all ev cs b = Some b' /\ subs b' = subs b /\
    (forall c, conns b' !! c = if decide (c ∈ cs) then delivered ev <$> conns b !! c else conns b !! c).
Proof.
  induction cs as [|c cs IH]; intros b Hnd Ho; [by exists b|].
  apply NoDup_cons in Hnd as [Hc Hnd]. destruct (Ho c) as (k & Hk & Hcl); [left|].
  assert (exists b1, send ev c b = Some b1 /\ subs b1 = subs b /\ conns b1 = <[c := delivered ev k]> (conns b)) as (b1 & E1 & E2 & E3).
  { unfold send, delivered. rewrite Hk, Hcl. case_bool_decide; eexists; (split; [done|]); simpl; split; try done.
    by rewrite insert_id. }
  destruct (IH b1) as (b' & F1 & F2 & F3); [done| |].
  { intros c' Hc'. destruct (Ho c') as (k' & Hk' & Hcl'); [by right|]. exists k'.
    rewrite E3, lookup_insert_ne by congruence. done. }
  exists b'. simpl. rewrite E1. simpl. rewrite F1, F2. split; [done|]. split; [done|].
  intros c'. rewrite F3, E3. destruct (decide (c' = c)) as [->|Hne].
  - rewrite lookup_insert_eq, decide_False by done. rewrite decide_True by left. by rewrite Hk.
  - rewrite lookup_insert_ne by done. destruct (decide (c' ∈ cs)).
    + by rewrite decide_True by (by right).
    + rewrite decide_False; [done|]. intros [?|?]%elem_of_cons; done.
Qed.

Lemma collect_spec ev o b c :
  c ∈ collect ev o b <-> subscribed c (Collection ev) b /\ may_see o b c = true.
Proof. unfold collect, subscribed. rewrite list_elem_of_filter, elem_of_elements. tauto. Qed.

(** C26: A publish appends the event to the channel of exactly the connections that
    are subscribed to its collection and, when the event has an owner, belong to
    that owner; a full channel misses it; nothing else changes. *)
Theorem publishLocal_exact ev o b :
  broker_ok b ->
  exists b', publishLocal ev o b = Some b' /\ subs b' = subs b /\
    forall c, conns b' !! c =
      if decide (subscribed c (Collection ev) b /\ may_see o b c = true)
      then delivered ev <$> conns b !! c else conns b !! c.
Proof.
  intros Hb. destruct (send_all_spec ev (collect ev o b) b) as (b' & H1 & H2 & H3).
  - unfold collect. apply NoDup_filter, NoDup_elements.
  - intros c [Hs _]%collect_spec. unfold subscribed in Hs.
    destruct (subs b !! Collection ev) as [set|] eqn:E; [|set_solver]. by eapply bok_open.
  - exists b'. split_and!; try done. intros c. rewrite H3.
    destruct (decide (c ∈ collect ev o b)) as [Hc|Hc]; rewrite collect_spec in Hc.
    + by rewrite decide_True.
    + by rewrite decide_False.
Qed.

(** ** Panics *)

(** A publish in flight to a connection that has been closed panics. *)
Theorem publish_overtaken_by_close_panics subject :
  exists s, trace init
    [AConnect subject; AMessage 0 (mkMessage "subscribe" "c"); ACollect (mkEvent "updated" "c" None "1") EmptyString;
     AClose 0] s /\ panics s.
Proof.
  eexists. split.
  - econstructor; [constructor|]. econstructor; [constructor; by eexists|].
    econstructor; [constructor|]. econstructor; [constructor; by eexists|]. constructor.
  - exists 0, (mkEvent "updated" "c" None "1"), 0, []. split; [vm_compute; reflexivity|]. by vm_compute.
Qed.

(** A close waits for the sends to its connection. *)
Inductive careful : System R -> list (action R) -> System R -> Prop :=
| careful_nil s : careful s [] s
| careful_cons s a s' l s'' :
    step s a s' ->
    match a with
    | AClose c => forall i ev cs, in_flight s !! i = Some (ev, cs) -> c ∉ cs
    | _ => True
    end ->
    careful s' l s'' -> careful s (a :: l) s''.

Definition in_flight_open s : Prop :=
  forall i ev cs c, in_flight s !! i = Some (ev, cs) -> c ∈ cs -> is_open c (broker s).

Lemma is_open_NewConn subject b c : is_open c b -> is_open c (NewConn subject b).2.
Proof. intros Ho. by apply is_open_insert. Qed.

Lemma is_open_readPump c c' msg b : is_open c b -> is_open c (readPump_step c' msg b).
Proof.
  intros Ho. unfold readPump_step, Subscribe, Unsubscribe. repeat case_bool_decide; try done.
  by destruct (subs b !! _).
Qed.

Lemma is_open_send ev c c' b b' : send ev c' b = Some b' -> is_open c b -> is_open c b'.
Proof.
  unfold send. destruct (conns b !! c') as [k|] eqn:E; [|by intros [= <-]].
  destruct (closed k); [done|]. case_bool_decide; intros [= <-]; [|done]. by apply is_open_insert.
Qed.

Lemma is_open_receive ev c c' b b' : receive c' b = Some (ev, b') -> is_open c b -> is_open c b'.
Proof.
  unfold receive. destruct (conns b !! c') as [k|] eqn:E; [|done]. simpl.
  destruct (events k); [done|]. intros [= -> <-] (k' & Hk' & Hcl). unfold is_open. simpl.
  destruct (decide (c = c')) as [->|]; [rewrite lookup_insert_eq|rewrite lookup_insert_ne by done; eauto].
  assert (k' = k) as -> by congruence. eexists. split; [done|]. done.
Qed.

Lemma careful_step s a s' :
  step s a s' ->
  match a with
  | AClose c => forall i ev cs, in_flight s !! i = Some (ev, cs) -> c ∉ cs
  | _ => True
  end ->
  broker_ok (broker s) -> in_flight_open s -> in_flight_open s'.
Proof.
  intros Hst Hcl Hb Hf. destruct Hst; intros j ev' cs' c' Hj Hin; simpl in *.
  - apply is_open_NewConn. by eapply Hf.
  - apply is_open_readPump. by eapply Hf.
  - destruct (Hf _ _ _ _ Hj Hin) as (k & Hk & Hkc). exists k. split; [|done]. simpl.
    rewrite lookup_alter_ne; [done|]. intros ->. by eapply Hcl.
  - apply lookup_app_Some in Hj as [Hj|[_ Hj]]; [by eapply Hf|].
    apply list_lookup_singleton_Some in Hj as [_ [= <- <-]]. apply collect_spec in Hin as [Hs _].
    unfold subscribed in Hs. destruct (subs (broker s) !! Collection ev) as [set|] eqn:E; [|set_solver].
    by eapply bok_open.
  - eapply is_open_send; [done|]. destruct (decide (j = i)) as [->|].
    + rewrite list_lookup_insert_eq in Hj by (by eapply lookup_lt_Some). injection Hj as <- <-.
      eapply Hf; [done|]. by right.
    + rewrite list_lookup_insert_ne in Hj by done. by eapply Hf.
  - eapply is_open_receive; [done|]. by eapply Hf.
Qed.

(** As long as no connection is closed between the collection of an event's
    subscribers and the send to it, nothing panics. *)
Theorem careful_never_panics acts s : careful init acts s -> ~ panics s.
Proof.
  assert (forall s0, careful s0 acts s -> broker_ok (broker s0) -> in_flight_open s0 -> in_flight_open s) as H.
  { intros s0. induction 1; eauto using careful_step, step_ok. }
  intros Hc (i & ev & c & cs & Hi & Hp).
  assert (in_flight_open s) as Hf.
  { apply (H init); [done|apply NewBroker_ok|]. intros j ev' cs' c' Hj. done. }
  destruct (Hf _ _ _ c Hi) as (k & Hk & Hkc); [left|]. unfold send in Hp. rewrite Hk, Hkc in Hp.
  by case_bool_decide.
Qed.

(** ** The relay *)

Lemma publishLocal_total ev o b : broker_ok b -> is_Some (publishLocal ev o b).
Proof. intros Hb. destruct (publishLocal_exact ev o b Hb) as (b' & -> & _). by eexists. Qed.

Lemma redis_deliver_spec ev o origin (fleet : list (Process R)) :
  Forall (fun p => broker_ok (local p)) fleet ->
  exists fleet', redis_deliver (mkRelayMessage ev o origin) fleet = Some fleet' /\
    Forall2 (fun p p' => originID p' = originID p /\
      if decide (originID p = origin) then p' = p else publishLocal ev o (local p) = Some (local p')) fleet fleet'.
Proof.
  induction 1 as [|p fleet Hp Hf IH]; [by exists []|]. simpl. unfold relay_run. simpl.
  destruct IH as (fleet' & -> & HF).
  destruct (publishLocal_total ev o (local p) Hp) as [b' Hb'].
  case_bool_decide as Ho.
  - exists (p :: fleet'). split; [done|]. constructor; [|done]. by rewrite decide_True.
  - rewrite Hb'. simpl. eexists. split; [done|]. constructor; [|done]. simpl. by rewrite decide_False.
Qed.


End facts.

(** ** Witnesses *)

Definition one_subscriber : System unit :=
  mkSystem (Subscribe 0 "posts" (NewConn "ann" NewBroker).2) [].

Lemma one_subscriber_trace :
  trace init [AConnect "ann"; AMessage 0 (mkMessage "subscribe" "posts")] one_subscriber.
Proof.
  econstructor; [constructor|]. econstructor; [constructor; by eexists|]. constructor.
Qed.

Lemma reachable_broker_ok_witness : broker_ok (broker one_subscriber).
Proof. apply (reachable_broker_ok _ _ one_subscriber_trace). Defined.

Lemma one_subscriber_ok : broker_ok (broker one_subscriber).
Proof.
  apply Subscribe_ok; [apply NewConn_ok, NewBroker_ok|]. by eexists.
Qed.

Lemma publishLocal_exact_witness :
  exists b', publishLocal (mkEvent "created" "posts" (Some tt) EmptyString) "ann" (broker one_subscriber) = Some b' /\
    subs b' = subs (broker one_subscriber).
Proof.
  destruct (publishLocal_exact (mkEvent "created" "posts" (Some tt) EmptyString) "ann" (broker one_subscriber))
    as (b' & H1 & H2 & _); [apply one_subscriber_ok|]. by exists b'.
Defined.

Lemma careful_never_panics_witness : ~ panics one_subscriber.
Proof.
  apply (careful_never_panics [AConnect "ann"; AMessage 0 (mkMessage "subscribe" "posts")]).
  econstructor; [constructor|done|]. econstructor; [constructor; by eexists|done|]. constructor.
Defined.


End RealtimeFacts.
