(* ===== verification/Registry.v ===== *)
(** * Application tables and the registry of collections

    Models src/internal/restapi/registry.go and json.go: what auto-REST learns
    about the deployment's own tables by introspection, and the access rule of
    each operation.  The tables live in SQLite, a third-party engine: the parts
    of its behaviour that are data (columns, rows, rowids) are modelled as they
    are documented, and what depends on the values (affinity, comparison,
    constraints, ordering) is the interface [Sqlite]. *)

From S2P Require Import Prelude GoStrings.

(** ** Values and tables *)

(** A value bound to a statement or read from a row.  [VComposite] is a JSON
    array or object, which no column can hold; a real number is its text. *)
Inductive value : Type :=
| VNull
| VBool (b : bool)
| VInt (z : Z)
| VReal (s : string)
| VText (s : string)
| VComposite.

#[global] Instance value_eq_dec : EqDecision value.
Proof. solve_decision. Defined.

(** [fmt.Sprint]. *)
Definition sprint (v : value) : string :=
  match v with
  | VNull => "<nil>"
  | VBool b => if b then "true" else "false"
  | VInt z => Itoa z
  | VReal s => s
  | VText s => s
  | VComposite => "map[]"
  end.

Abbreviation Row := (gmap string value).

Record TColumn : Type := mkTColumn {
  tc_name : string; tc_decl : string; tc_not_null : bool; tc_pk : bool; tc_default : value;
}.

(** Rows with their rowids, in the order a query returns them. *)
Record Table : Type := mkTable { t_columns : list TColumn; t_rows : list (Z * Row) }.

Record PolicyRow : Type := mkPolicyRow { p_collection : string; p_operation : string; p_rule : string }.

Record AppDb : Type := mkAppDb { tables : gmap string Table; policies : list PolicyRow }.

(** What the engine decides about values. *)
Class Sqlite := {
  (** the value stored when one is bound to a column of a declared type *)
  coerce : string -> value -> value;
  (** [column = ?] *)
  matches : string -> value -> value -> bool;
  (** the constraint a row violates next to the other rows, as an error text *)
  violation : list TColumn -> list Row -> Row -> option string;
  (** the order of ORDER BY *)
  value_leb : value -> value -> bool;
}.

Module Registry.

Definition OwnerColumnName : string := "owner_id".

Definition reservedTables : list string :=
  ["users"; "sessions";
   "oauth_clients"; "oauth_client_jti"; "oauth_authorize_codes";
   "oauth_access_tokens"; "oauth_refresh_tokens"; "oauth_pkce_requests";
   "oauth_consents"; "oauth_signing_keys"; "oauth_hmac_secret";
   "owner_users"; "owner_sessions"; "owner_audit_log";
   "schema_migrations"; "files"; "_policies"; "password_reset_tokens"; "social_identities"].

Definition isReserved (name : string) : bool :=
  HasPrefix name "sqlite_" || bool_decide (name ∈ reservedTables).

Definition Rule : Type := string.
Definition RuleOwner : Rule := "owner".
Definition RuleShared : Rule := "shared".
Definition RuleDenied : Rule := "denied".

Definition OpRead : string := "read".
Definition OpCreate : string := "create".
Definition OpUpdate : string := "update".
Definition OpDelete : string := "delete".

Record Column : Type := mkColumn { Name : string; DeclType : string; NotNull : bool; IsPK : bool }.

Record Collection : Type := mkCollection {
  CName : string; Columns : list Column; PKColumn : string; PKIsInteger : bool;
  OwnerColumn : string;
  ReadRule : Rule; CreateRule : Rule; UpdateRule : Rule; DeleteRule : Rule;
}.

Definition HasColumn (c : Collection) (name : string) : bool :=
  existsb (fun col => bool_decide (Name col = name)) (Columns c).

Definition registry : Type := gmap string Collection.

Definition Get (r : registry) (name : string) : option Collection := r !! name.

Definition by_name (a b : Collection) : Prop := str_le (CName a) (CName b).
#[global] Instance by_name_dec : RelDecision by_name := fun a b => decide (str_le (CName a) (CName b)).

Definition All (r : registry) : list Collection :=
  merge_sort by_name ((map_to_list r).*2).

Definition ownedCollections (r : registry) : list Collection :=
  merge_sort by_name (filter (fun c => OwnerColumn c <> EmptyString) ((map_to_list r).*2)).

Inductive Affinity : Type := INTEGER | TEXT | BLOB | REAL | NUMERIC.
#[global] Instance Affinity_eq_dec : EqDecision Affinity.
Proof. solve_decision. Defined.

Definition affinity_name (a : Affinity) : string :=
  match a with
  | INTEGER => "INTEGER" | TEXT => "TEXT" | BLOB => "BLOB" | REAL => "REAL" | NUMERIC => "NUMERIC"
  end.

Definition columnAffinity (declType : string) : Affinity :=
  let t := ToUpper declType in
  if Contains t "INT" then INTEGER
  else if Contains t "CHAR" || Contains t "CLOB" || Contains t "TEXT" then TEXT
  else if Contains t "BLOB" || bool_decide (t = EmptyString) then BLOB
  else if Contains t "REAL" || Contains t "FLOA" || Contains t "DOUB" then REAL
  else NUMERIC.

(** Double the double quotes, and quote. *)
Definition quoteIdent (name : string) : string :=
  one dquote +:+ ReplaceByte dquote (one dquote +:+ one dquote) name +:+ one dquote.

(** One row of PRAGMA table_info. *)
Definition column_of (c : TColumn) : Column := mkColumn (tc_name c) (tc_decl c) (tc_not_null c) (tc_pk c).

Definition affinity_error (table : string) (c : Column) : error :=
  Errorf (table +:+ ".owner_id has declared type " +:+ Quote (DeclType c) +:+ " (" +:+
          affinity_name (columnAffinity (DeclType c)) +:+ " affinity), but owner_id must have TEXT affinity: " +:+
          "a numeric affinity lets SQLite silently coerce differently-formatted owner values (e.g. " +:+
          Quote "7" +:+ ", " +:+ Quote "07" +:+ ", and " +:+ Quote "7.0" +:+
          ") into the same stored value, so distinct subjects could end up scoped to the same rows " +:+
          "— declare it as owner_id TEXT NOT NULL instead").

(** The loop over the columns: the owner column found, or the error. *)
Fixpoint owner_column (table : string) (cols : list Column) (found : string) : error + string :=
  match cols with
  | [] => inr found
  | c :: rest =>
      if bool_decide (Name c = OwnerColumnName) then
        if bool_decide (columnAffinity (DeclType c) = TEXT) then owner_column table rest OwnerColumnName
        else inl (affinity_error table c)
      else owner_column table rest found
  end.

Definition describe (name : string) (tcols : list TColumn) : error + Collection :=
  let cols := column_of <$> tcols in
  match owner_column name cols EmptyString with
  | inl e => inl e
  | inr owner =>
      let '(pk, pkInt) :=
        match filter (fun c => IsPK c = true) cols with
        | [c] => (Name c, Contains (ToUpper (DeclType c)) "INT")
        | _ => (EmptyString, false)
        end in
      inr (mkCollection name cols pk pkInt owner EmptyString EmptyString EmptyString EmptyString)
  end.

(** PRAGMA table_info of a missing table has no rows. *)
Definition describeTable (name : string) : M AppDb Collection :=
  tcols ← query (fun d => from_option t_columns [] (tables d !! name));
  match describe name tcols with
  | inl e => fail e
  | inr c => mret c
  end.

Definition set_rules (r : Rule) (c : Collection) : Collection :=
  mkCollection (CName c) (Columns c) (PKColumn c) (PKIsInteger c) (OwnerColumn c) r r r r.

Fixpoint discover_tables (names : list string) (reg : registry) : M AppDb registry :=
  match names with
  | [] => mret reg
  | name :: rest =>
      if isReserved name then discover_tables rest reg
      else
        col ← wrapping ("describe table " +:+ name) (describeTable name);
        if bool_decide (PKColumn col = EmptyString) then discover_tables rest reg
        else
          let def := if negb (bool_decide (OwnerColumn col = EmptyString)) then RuleOwner else RuleShared in
          discover_tables rest (<[name := set_rules def col]> reg)
  end.

(** One row of [_policies]. *)
Definition apply_policy (p : PolicyRow) (reg : registry) : error + registry :=
  let where_ := "_policies: " +:+ p_collection p +:+ "." +:+ p_operation p in
  match reg !! p_collection p with
  | None => inl (Errorf (where_ +:+ ": no such exposed collection"))
  | Some c =>
      let r := p_rule p in
      let put c' := inr (<[p_collection p := c']> reg) in
      if bool_decide (r = RuleOwner) && bool_decide (OwnerColumn c = EmptyString) then
        inl (Errorf (where_ +:+ ": rule " +:+ Quote RuleOwner +:+ " requires an " +:+ OwnerColumnName +:+
                     " column, but " +:+ p_collection p +:+ " has none"))
      else if bool_decide (p_operation p = OpRead) then
        put (mkCollection (CName c) (Columns c) (PKColumn c) (PKIsInteger c) (OwnerColumn c)
               r (CreateRule c) (UpdateRule c) (DeleteRule c))
      else if bool_decide (p_operation p = OpCreate) then
        put (mkCollection (CName c) (Columns c) (PKColumn c) (PKIsInteger c) (OwnerColumn c)
               (ReadRule c) r (UpdateRule c) (DeleteRule c))
      else if bool_decide (p_operation p = OpUpdate) then
        put (mkCollection (CName c) (Columns c) (PKColumn c) (PKIsInteger c) (OwnerColumn c)
               (ReadRule c) (CreateRule c) r (DeleteRule c))
      else if bool_decide (p_operation p = OpDelete) then
        put (mkCollection (CName c) (Columns c) (PKColumn c) (PKIsInteger c) (OwnerColumn c)
               (ReadRule c) (CreateRule c) (UpdateRule c) r)
      else inl (Errorf ("_policies: " +:+ p_collection p +:+ ": unknown operation " +:+ Quote (p_operation p)))
  end.

Fixpoint apply_policies (ps : list PolicyRow) (reg : registry) : error + registry :=
  match ps with
  | [] => inr reg
  | p :: rest =>
      match apply_policy p reg with
      | inl e => inl e
      | inr reg' => apply_policies rest reg'
      end
  end.

Definition applyPolicies (reg : registry) : M AppDb registry :=
  ps ← wrapping "list access policies" (query policies);
  match apply_policies ps reg with
  | inl e => fail e
  | inr reg' => mret reg'
  end.

Definition Discover : M AppDb registry :=
  names ← wrapping "list tables" (query (fun d => (map_to_list (tables d)).*1));
  reg ← discover_tables names ∅;
  applyPolicies reg.

End Registry.

(** The documented behaviour access control relies on: a column of TEXT affinity
    stores text as it is and compares it exactly, NULL equals nothing, and a
    primary key of text is unique. *)
Class SqliteLaws {sqlite : Sqlite} := {
  coerce_text decl s : Registry.columnAffinity decl = Registry.TEXT -> coerce decl (VText s) = VText s;
  matches_text decl v s :
    Registry.columnAffinity decl = Registry.TEXT -> matches decl v (VText s) = bool_decide (v = VText s);
  violation_pk (cols : list TColumn) (rows : list Row) (r r' : Row) (pk : TColumn) (s : string) :
    filter (fun c => tc_pk c = true) cols = [pk] -> Registry.columnAffinity (tc_decl pk) = Registry.TEXT ->
    violation cols rows r = None -> r' ∈ rows -> r !! tc_name pk = Some (VText s) ->
    r' !! tc_name pk <> Some (VText s);
}.
