(* ===== verification/RegistryFacts.v ===== *)
(** * The registry of collections: theorems

    What introspection exposes is exactly determined by the schema and the
    policies, and a collection whose rule is "owner" has an owner column of TEXT
    affinity, on which row isolation rests. *)

From S2P Require Import Prelude GoStrings Registry.

Module RegistryFacts.
Import Registry.

(** ** What the schema says *)

Definition owner_of (t : Table) : string :=
  if bool_decide (OwnerColumnName ∈ tc_name <$> t_columns t) then OwnerColumnName else EmptyString.

Definition text_owner (t : Table) : Prop :=
  Forall (fun c => tc_name c = OwnerColumnName -> columnAffinity (tc_decl c) = TEXT) (t_columns t).

Definition single_pk (t : Table) (pk : TColumn) : Prop :=
  filter (fun c => tc_pk c = true) (t_columns t) = [pk] /\ tc_name pk <> EmptyString.

Definition default_rule (t : Table) : Rule :=
  if bool_decide (owner_of t = EmptyString) then RuleShared else RuleOwner.

(** The rule of the last policy about an operation, or the default. *)
Definition policy_rule (ps : list PolicyRow) (name op : string) (def : Rule) : Rule :=
  foldl (fun r p => if bool_decide (p_collection p = name /\ p_operation p = op) then p_rule p else r) def ps.

Definition with_policies (ps : list PolicyRow) (c : Collection) (name : string) : Collection :=
  mkCollection (CName c) (Columns c) (PKColumn c) (PKIsInteger c) (OwnerColumn c)
    (policy_rule ps name OpRead (ReadRule c)) (policy_rule ps name OpCreate (CreateRule c))
    (policy_rule ps name OpUpdate (UpdateRule c)) (policy_rule ps name OpDelete (DeleteRule c)).

Definition described (name : string) (t : Table) (pk : TColumn) (r : Rule) : Collection :=
  mkCollection name (column_of <$> t_columns t) (tc_name pk) (Contains (ToUpper (tc_decl pk)) "INT")
    (owner_of t) r r r r.

(** The table is exposed, as this collection. *)
Definition exposed_as (ps : list PolicyRow) (name : string) (t : Table) (c : Collection) : Prop :=
  isReserved name = false /\ text_owner t /\
  exists pk, single_pk t pk /\ c = with_policies ps (described name t pk (default_rule t)) name.

(** ** One table *)

Lemma owner_column_spec table (tcols : list TColumn) : forall found o,
  owner_column table (column_of <$> tcols) found = inr o <->
  Forall (fun c => tc_name c = OwnerColumnName -> columnAffinity (tc_decl c) = TEXT) tcols /\
  o = (if bool_decide (OwnerColumnName ∈ tc_name <$> tcols) then OwnerColumnName else found).
Proof.
  induction tcols as [|c rest IH]; intros found o; rewrite ?fmap_cons; cbn [owner_column column_of Name DeclType].
  - split; [by intros [= ->]|by intros [_ ->]].
  - rewrite Forall_cons. destruct (decide (tc_name c = OwnerColumnName)) as [Hc|Hc].
    + rewrite (bool_decide_eq_true_2 (_ = _)) by done.
      rewrite (bool_decide_eq_true_2 (_ ∈ _)) by (rewrite Hc; left).
      destruct (decide (columnAffinity (tc_decl c) = TEXT)) as [Ha|Ha].
      * rewrite bool_decide_eq_true_2 by done. rewrite IH. destruct (bool_decide _); tauto.
      * rewrite bool_decide_eq_false_2 by done. split; [discriminate|]. intros [[H _] _]. by destruct Ha; apply H.
    + rewrite (bool_decide_eq_false_2 (_ = _)) by done. rewrite IH.
      rewrite (bool_decide_ext (OwnerColumnName ∈ tc_name c :: _) (OwnerColumnName ∈ tc_name <$> rest))
        by (rewrite elem_of_cons; intuition congruence).
      tauto.
Qed.

Lemma pk_of_columns (tcols : list TColumn) :
  filter (fun c => IsPK c = true) (column_of <$> tcols) =
  column_of <$> filter (fun c => tc_pk c = true) tcols.
Proof. by rewrite filter_fmap. Qed.

(** The collection a table gives rise to, before the policies. *)
Definition table_entry (name : string) (t : Table) : option Collection :=
  if isReserved name then None
  else match filter (fun c => tc_pk c = true) (t_columns t) with
       | [pk] => if bool_decide (tc_name pk = EmptyString) then None
                 else Some (described name t pk (default_rule t))
       | _ => None
       end.

Lemma table_entry_Some name t c :
  table_entry name t = Some c <->
  isReserved name = false /\ exists pk, single_pk t pk /\ c = described name t pk (default_rule t).
Proof.
  unfold table_entry, single_pk. destruct (isReserved name); [split; [done|by intros [? _]]|].
  destruct (filter _ (t_columns t)) as [|pk [|pk' r]].
  - split; [done|]. by intros (_ & ? & [? _] & _).
  - case_bool_decide.
    + split; [done|]. by intros (_ & ? & [[= <-] ?] & _).
    + split; [intros [= <-]; eauto 6|]. by intros (_ & ? & [[= <-] ?] & ->).
  - split; [done|]. by intros (_ & ? & [? _] & _).
Qed.

(** Describing a table fails exactly for an owner column that is not text. *)
Lemma describe_spec name t c :
  describe name (t_columns t) = inr c ->
  text_owner t /\
  if bool_decide (PKColumn c = EmptyString) then isReserved name = false -> table_entry name t = None
  else isReserved name = false -> table_entry name t = Some (set_rules (default_rule t) c) /\
       OwnerColumn c = owner_of t.
Proof.
  unfold describe. destruct (owner_column _ _ _) as [e|o] eqn:Ho; [discriminate|].
  apply owner_column_spec in Ho as [Ht ->]. rewrite pk_of_columns.
  unfold table_entry. destruct (filter _ (t_columns t)) as [|pk [|pk' r]]; simpl;
    intros [= <-]; (split; [done|]); simpl.
  - by intros ->.
  - case_bool_decide; intros ->; done.
  - by intros ->.
Qed.

Lemma describe_total name t : text_owner t -> exists c, describe name (t_columns t) = inr c.
Proof.
  intros Ht. unfold describe.
  rewrite (proj2 (owner_column_spec name (t_columns t) EmptyString _) (conj Ht eq_refl)).
  match goal with |- exists _, (let '(_, _) := ?x in _) = _ => destruct x end. eauto.
Qed.

(** ** All tables *)

(** What the loop adds for the tables it is given. *)
Definition entry (db : AppDb) (names : list string) (name : string) : option Collection :=
  if decide (name ∈ names) then tables db !! name ≫= table_entry name else None.

Lemma describeTable_ok name w c w' :
  describeTable name w = (Ok c, w') ->
  describe name (from_option t_columns [] (tables (w_db w) !! name)) = inr c /\ w_db w' = w_db w.
Proof.
  unfold describeTable. intros H. run_inv. destruct (describe _ _); run_inv. done.
Qed.

(** The names are the tables of the database, all different. *)
Definition listed (db : AppDb) (names : list string) : Prop :=
  NoDup names /\ Forall (fun n => is_Some (tables db !! n)) names.

Lemma listed_cons db name rest :
  listed db (name :: rest) -> listed db rest /\ (name ∉ rest) /\ exists t, tables db !! name = Some t.
Proof. unfold listed. rewrite NoDup_cons, Forall_cons. intros [[? ?] [? ?]]. done. Qed.

Lemma entry_cons db name rest n :
  name ∉ rest ->
  entry db (name :: rest) n =
  if bool_decide (n = name) then tables db !! name ≫= table_entry name else entry db rest n.
Proof.
  intros Hn. unfold entry. case_bool_decide.
  - subst. rewrite decide_True by left. done.
  - destruct (decide (n ∈ rest)); [rewrite decide_True by (by right)|rewrite decide_False]; [done|done|set_solver].
Qed.

Lemma discover_tables_spec names : forall reg w reg' w',
  listed (w_db w) names ->
  discover_tables names reg w = (Ok reg', w') ->
  w_db w' = w_db w /\
  Forall (fun n => isReserved n = false -> forall t, tables (w_db w) !! n = Some t -> text_owner t) names /\
  forall n, reg' !! n = entry (w_db w) names n ∪ reg !! n.
Proof.
  induction names as [|name rest IH]; intros reg w reg' w' Hl H.
  { simpl in H. run_inv. split_and!; [done|constructor|]. intros n. unfold entry.
    rewrite decide_False by apply not_elem_of_nil. by destruct (reg !! n). }
  apply listed_cons in Hl as (Hl & Hnot & t & Ht). simpl in H.
  destruct (isReserved name) eqn:Hr.
  - apply IH in H as (-> & Hf & H); [|done]. split_and!; [done| |].
    + constructor; [congruence|done].
    + intros n. rewrite H, entry_cons, Ht by done. simpl. case_bool_decide; [|done]. subst.
      unfold entry. rewrite decide_False by done. unfold table_entry. by rewrite Hr.
  - apply bind_ok in H as (col & w1 & H1%map_err_ok%describeTable_ok & H).
    destruct H1 as [H1 Hw1]. rewrite Ht in H1. apply describe_spec in H1 as [Hto H1].
    rewrite <- Hw1 in Hl, Ht |- *.
    assert (exists reg1, (forall n, reg1 !! n = (if bool_decide (n = name) then table_entry name t else None) ∪ reg !! n) /\
      discover_tables rest reg1 w1 = (Ok reg', w')) as (reg1 & Hreg1 & H2).
    { case_bool_decide as Hpk.
      - exists reg. split; [|done]. intros n. rewrite H1 by done. by case_bool_decide; destruct (reg !! n).
      - destruct (H1 Hr) as [-> Ho]. eexists. split; [|exact H]. intros n.
        unfold default_rule. rewrite Ho. destruct (decide (n = name)) as [->|Hn].
        + unfold registry in *. rewrite lookup_insert_eq, (bool_decide_eq_true_2 (name = name)) by done.
          by destruct (bool_decide (owner_of t = _)), (reg !! name).
        + unfold registry in *. rewrite lookup_insert_ne, (bool_decide_eq_false_2 (n = name)) by done. by destruct (reg !! n). }
    apply IH in H2 as (-> & Hf & H2); [|done]. split_and!; [done| |].
    + constructor; [|done]. intros _ t' Ht'. congruence.
    + intros n. rewrite H2, Hreg1, entry_cons, Ht by done. destruct (decide (n = name)); [|rewrite !bool_decide_eq_false_2 by done; by destruct (entry _ _ _), (reg !! n)]. rewrite !bool_decide_eq_true_2 by done.
      subst. unfold entry. rewrite decide_False by done. simpl. by destruct (table_entry _ _), (reg !! name).
Qed.

(** ** Policies *)

(** A policy is sound when it names an exposed collection and a known operation,
    and gives the rule "owner" only to a collection with an owner column. *)
Definition operations : list string := [OpRead; OpCreate; OpUpdate; OpDelete].

Definition policy_ok (reg : registry) (p : PolicyRow) : Prop :=
  p_operation p ∈ operations /\
  exists c, reg !! p_collection p = Some c /\ (p_rule p = RuleOwner -> OwnerColumn c <> EmptyString).

Lemma with_policies_nil c name : with_policies [] c name = c.
Proof. by destruct c. Qed.

(** Resolve the boolean tests whose outcome is known. *)
Ltac decide_in H :=
  repeat first [rewrite bool_decide_eq_true_2 in H by done | rewrite bool_decide_eq_false_2 in H by done].
Ltac decide_goal :=
  repeat first [rewrite bool_decide_eq_true_2 by done
               | rewrite bool_decide_eq_false_2 by (done || by intros [_ ?])].

Lemma apply_policy_spec p reg reg' :
  apply_policy p reg = inr reg' ->
  policy_ok reg p /\
  forall n, reg' !! n = (fun c => with_policies [p] c n) <$> reg !! n.
Proof.
  unfold apply_policy, policy_ok. destruct p as [pc po pr]. simpl.
  destruct (reg !! pc) as [c|] eqn:Hc; [|discriminate].
  destruct (decide (pr = RuleOwner /\ OwnerColumn c = EmptyString)) as [[-> ->]|Hn]; [done|].
  rewrite <- bool_decide_and, bool_decide_eq_false_2 by done. intros H.
  assert ((po ∈ operations) /\ reg' = <[pc := with_policies [mkPolicyRow pc po pr] c pc]> reg) as [Ho ->].
  { unfold with_policies, policy_rule, operations. simpl.
    destruct (decide (po = OpRead)) as [->|?]; [|destruct (decide (po = OpCreate)) as [->|?];
      [|destruct (decide (po = OpUpdate)) as [->|?]; [|destruct (decide (po = OpDelete)) as [->|?]]]];
      decide_in H; try discriminate H; decide_goal; injection H as <-; (split; [set_solver|done]). }
  split; [split; [done|exists c; tauto]|].
  intros n. unfold registry in *. destruct (decide (n = pc)) as [->|Hne].
  - by rewrite lookup_insert_eq, Hc.
  - rewrite lookup_insert_ne by done. destruct (reg !! n) as [d|]; [|done]. simpl.
    unfold with_policies, policy_rule. simpl.
    rewrite !bool_decide_eq_false_2 by (by intros [? _]). by destruct d.
Qed.

Lemma apply_policies_spec ps : forall reg reg',
  apply_policies ps reg = inr reg' ->
  Forall (policy_ok reg) ps /\
  forall n, reg' !! n = (fun c => with_policies ps c n) <$> reg !! n.
Proof.
  induction ps as [|p ps IH]; intros reg reg'; simpl.
  - intros [= <-]. split; [constructor|]. intros n.
    destruct (reg !! n); [|done]. simpl. by rewrite with_policies_nil.
  - destruct (apply_policy p reg) as [|reg1] eqn:H1; [discriminate|].
    intros H2. apply apply_policy_spec in H1 as [Hp H1]. apply IH in H2 as [Hps H2]. split.
    + constructor; [done|]. eapply Forall_impl; [exact Hps|]. intros q (Hop & c & Hc & Hr).
      split; [done|]. rewrite H1 in Hc. destruct (reg !! p_collection q) as [c0|]; [|done].
      injection Hc as <-. exists c0. done.
    + intros n. rewrite H2, H1. by destruct (reg !! n).
Qed.

(** ** Discovery *)

(** The entries of the schema before the policies, and when it is valid. *)
Definition schema_entry (db : AppDb) (name : string) : option Collection :=
  tables db !! name ≫= table_entry name.

Definition valid_schema (db : AppDb) : Prop :=
  (forall name t, tables db !! name = Some t -> isReserved name = false -> text_owner t) /\
  Forall (fun p => p_operation p ∈ operations /\
            exists c, schema_entry db (p_collection p) = Some c /\
                      (p_rule p = RuleOwner -> OwnerColumn c <> EmptyString)) (policies db).

Lemma names_listed (db : AppDb) : listed db (map_to_list (tables db)).*1.
Proof.
  split; [apply NoDup_fst_map_to_list|]. apply Forall_forall.
  intros n ([? t] & -> & Ht%elem_of_map_to_list)%list_elem_of_fmap. by exists t.
Qed.

Lemma entry_all (db : AppDb) name : entry db (map_to_list (tables db)).*1 name = schema_entry db name.
Proof.
  unfold entry, schema_entry. destruct (decide _) as [|Hn]; [done|].
  destruct (tables db !! name) as [t|] eqn:Ht; [|done]. destruct Hn.
  apply list_elem_of_fmap. exists (name, t). split; [done|]. by apply elem_of_map_to_list.
Qed.

Lemma Discover_ok w reg w' :
  Discover w = (Ok reg, w') ->
  w_db w' = w_db w /\ valid_schema (w_db w) /\
  forall n, reg !! n = (fun c => with_policies (policies (w_db w)) c n) <$> schema_entry (w_db w) n.
Proof.
  unfold Discover. intros H.
  apply bind_ok in H as (names & w1 & H1%map_err_ok%query_ok & H). destruct H1 as [-> Hw1].
  apply bind_ok in H as (reg0 & w2 & H0 & H). rewrite <- Hw1 in H0 |- *.
  apply discover_tables_spec in H0 as (Hw2 & Hto & H0); [|apply names_listed]. rewrite <- Hw2 in *.
  unfold applyPolicies in H.
  apply bind_ok in H as (ps & w3 & H3%map_err_ok%query_ok & H). destruct H3 as [-> Hw3].
  destruct (apply_policies _ reg0) as [|reg1] eqn:Hp; [discriminate H|]. run_inv.
  apply apply_policies_spec in Hp as [Hok Hp].
  assert (forall n, reg0 !! n = schema_entry (w_db w2) n) as He.
  { intros n. rewrite H0, entry_all. by destruct (schema_entry _ _). }
  split; [done|]. split; [split|].
  - rewrite Forall_forall in Hto. intros n t Ht Hr. apply (Hto n); [|done|done].
    apply list_elem_of_fmap. exists (n, t). split; [done|]. by apply elem_of_map_to_list.
  - eapply Forall_impl; [exact Hok|]. intros p [Hop (c & Hc & Hr)]. rewrite He in Hc. eauto.
  - intros n. by rewrite Hp, He.
Qed.

Lemma Discover_run w reg w' :
  Discover w = (Ok reg, w') ->
  w_db w' = w_db w /\
  forall name c, reg !! name = Some c <->
    exists t, tables (w_db w) !! name = Some t /\ exposed_as (policies (w_db w)) name t c.
Proof.
  intros (Hw & [Ht _] & Hreg)%Discover_ok. split; [done|]. intros name c. rewrite Hreg.
  unfold schema_entry, exposed_as. destruct (tables _ !! name) as [t|] eqn:E; simpl; [|split; [done|by intros (? & ? & _)]].
  specialize (Ht name t E). split.
  - destruct (table_entry name t) as [c0|] eqn:He; [|done]. intros [= <-].
    apply table_entry_Some in He as (Hr & pk & Hs & ->). eauto 10.
  - intros (? & [= <-] & Hr & _ & pk & Hs & ->).
    by rewrite (proj2 (table_entry_Some _ _ _) (conj Hr (ex_intro _ pk (conj Hs eq_refl)))).
Qed.

(** C32: A discovery that succeeds exposes exactly the tables that are not reserved
    and have a single primary-key column, each with the owner column, the key
    and the rules its schema and its policies give. *)
Theorem Discover_exact w reg w' :
  Discover w = (Ok reg, w') ->
  w_db w' = w_db w /\
  forall name c, reg !! name = Some c <->
    exists t, tables (w_db w) !! name = Some t /\ exposed_as (policies (w_db w)) name t c.
Proof. apply Discover_run. Qed.

(** ** When discovery succeeds *)

Lemma discover_tables_total names : forall reg w,
  quiet w -> listed (w_db w) names ->
  Forall (fun n => isReserved n = false -> forall t, tables (w_db w) !! n = Some t -> text_owner t) names ->
  exists reg', discover_tables names reg w = (Ok reg', w).
Proof.
  induction names as [|name rest IH]; intros reg w Hq Hl Ht; cbn [discover_tables]; [by eexists|].
  apply listed_cons in Hl as (Hl & _ & t & Hn). apply Forall_cons in Ht as [Hto Ht].
  destruct (isReserved name); [by apply IH|].
  destruct (describe_total name t (Hto eq_refl t Hn)) as [c Hc].
  assert (wrapping ("describe table " +:+ name) (describeTable name) w = (Ok c, w)) as Hd.
  { unfold wrapping, map_err, describeTable, mbind, M_bind. rewrite query_quiet, Hn by done. simpl.
    by rewrite Hc. }
  unfold mbind, M_bind. rewrite Hd. case_bool_decide; by apply IH.
Qed.

Lemma apply_policies_total ps : forall reg,
  Forall (policy_ok reg) ps -> exists reg', apply_policies ps reg = inr reg'.
Proof.
  induction ps as [|p ps IH]; intros reg Hps; simpl; [by eexists|].
  apply Forall_cons in Hps as [(Hop & c & Hc & Hr) Hps].
  assert (exists reg1, apply_policy p reg = inr reg1) as [reg1 H1].
  { unfold apply_policy. rewrite Hc. rewrite <- bool_decide_and, bool_decide_eq_false_2 by (intros [? ?]; by apply Hr).
    unfold operations in Hop. rewrite !elem_of_cons in Hop.
    do 4 (case_bool_decide; [eauto|]). apply not_elem_of_nil in Hop || set_solver. }
  rewrite H1. apply IH. apply apply_policy_spec in H1 as [_ H1].
  eapply Forall_impl; [exact Hps|]. intros q (Hoq & d & Hd & Hrq). split; [done|].
  rewrite H1, Hd. by eexists.
Qed.

(** When no statement fails, discovery succeeds exactly on the schemas in
    which every owner column is text and every policy names an exposed
    collection, a known operation and a rule the collection can have. *)
Theorem Discover_accepts w :
  quiet w -> (exists reg w', Discover w = (Ok reg, w')) <-> valid_schema (w_db w).
Proof.
  intros Hq. split; [intros (reg & w' & (_ & ? & _)%Discover_ok); done|]. intros [Ht Hps].
  destruct (discover_tables_total (map_to_list (tables (w_db w))).*1 ∅ w Hq (names_listed _)) as [reg0 H0].
  { apply Forall_forall. eauto. }
  assert (forall n, reg0 !! n = schema_entry (w_db w) n) as He.
  { apply discover_tables_spec in H0 as (_ & _ & H0); [|apply names_listed].
    intros n. rewrite H0, entry_all. by destruct (schema_entry _ _). }
  destruct (apply_policies_total (policies (w_db w)) reg0) as [reg Hreg].
  { eapply Forall_impl; [exact Hps|]. intros p [Hop (c & Hc & Hr)]. split; [done|]. rewrite He. eauto. }
  exists reg, w. unfold Discover, mbind, M_bind, wrapping, map_err at 1.
  rewrite query_quiet by done. rewrite H0.
  unfold applyPolicies, mbind, M_bind, wrapping, map_err. rewrite query_quiet by done. by rewrite Hreg.
Qed.

(** ** Quoting identifiers *)

(** How SQL reads a quoted identifier, after its opening quote: up to the next
    quote that is not doubled.  The identifier and the rest of the text. *)
Fixpoint lex_ident (text : string) : option (string * string) :=
  match text with
  | EmptyString => None
  | String c rest =>
      if byte_eqb c dquote then
        match rest with
        | String d rest' =>
            if byte_eqb d dquote then (fun p => (String dquote p.1, p.2)) <$> lex_ident rest'
            else Some (EmptyString, rest)
        | EmptyString => Some (EmptyString, EmptyString)
        end
      else (fun p => (String c p.1, p.2)) <$> lex_ident rest
  end.

Lemma lex_ident_body name rest :
  HasPrefix rest (one dquote) = false ->
  lex_ident (ReplaceByte dquote (one dquote +:+ one dquote) name +:+ String dquote rest) = Some (name, rest).
Proof.
  intros Hr. change (one dquote +:+ one dquote) with (String dquote (one dquote)).
  induction name as [|c name IH]; simpl.
  - destruct rest as [|d rest]; [done|]. destruct (byte_eqb d dquote) eqn:E; [|done].
    apply byte_eqb_eq in E as ->. done.
  - destruct (byte_eqb c dquote) eqn:E; simpl.
    + apply byte_eqb_eq in E as ->. by rewrite IH.
    + by rewrite E, IH.
Qed.

(** C27: Whatever an identifier contains, its quoted form placed anywhere in a
    statement is read back as that identifier, and the statement goes on after it. *)
Theorem quoteIdent_lexes name rest :
  HasPrefix rest (one dquote) = false ->
  exists body, quoteIdent name +:+ rest = String dquote body /\ lex_ident body = Some (name, rest).
Proof.
  intros Hr. eexists. split; [|by apply lex_ident_body].
  unfold quoteIdent. rewrite <- !sapp_assoc. reflexivity.
Qed.

(** ** Witnesses *)

Lemma quoteIdent_lexes_witness :
  exists body, quoteIdent (String dquote "x") +:+ " = ?" = String dquote body /\
               lex_ident body = Some (String dquote "x", " = ?").
Proof. apply (quoteIdent_lexes (String dquote "x") " = ?"). reflexivity. Defined.

Definition notes : Table :=
  mkTable [mkTColumn "id" "TEXT" false true VNull; mkTColumn "owner_id" "TEXT" true false VNull;
           mkTColumn "body" "TEXT" false false VNull] [].

Definition sample_app : AppDb :=
  mkAppDb (<["notes" := notes]> (<["users" := notes]> ∅)) [mkPolicyRow "notes" "delete" "denied"].

Definition notes_collection : Collection :=
  mkCollection "notes" (column_of <$> t_columns notes) "id" false "owner_id" "owner" "owner" "owner" "denied".

Lemma Discover_exact_witness :
  (Discover (sample_world 0 sample_app)).1 = Ok (<["notes" := notes_collection]> ∅) /\
  exists t, tables sample_app !! "notes" = Some t /\ exposed_as (policies sample_app) "notes" t notes_collection.
Proof.
  assert (Discover (sample_world 0 sample_app) =
          (Ok (<["notes" := notes_collection]> ∅), sample_world 0 sample_app)) as H by (vm_compute; reflexivity).
  split; [by rewrite H|]. apply (proj1 (proj2 (Discover_exact _ _ _ H) "notes" notes_collection)).
  apply lookup_insert_eq.
Defined.

Lemma Discover_accepts_witness : valid_schema sample_app.
Proof.
  apply (proj1 (Discover_accepts (sample_world 0 sample_app) eq_refl)).
  exists (<["notes" := notes_collection]> ∅), (sample_world 0 sample_app). vm_compute. reflexivity.
Defined.

End RegistryFacts.
