(* ===== verification/RestApi.v ===== *)
(** * Auto-REST

    Models src/internal/restapi/handlers.go and admin.go: the generic handlers
    over the deployment's own tables, with row ownership, per-operation access
    rules and realtime events, and the unscoped operations behind the admin UI.

    A statement is the table operation its SQL text denotes; an identifier that
    is not in the schema fails.  The body of a request is what the JSON decoder
    makes of it.  An event handed to the broker is appended to [outbox]. *)

From S2P Require Import Prelude GoStrings Registry.

Module RestApi.
Import Registry.

Definition scopeRead : string := "records:read".
Definition scopeWrite : string := "records:write".
Definition defaultLimit : Z := 50.
Definition maxLimit : Z := 200.

(** ** Events, state, requests and responses *)

Inductive Event : Type :=
| EvCreated (collection : string) (record : Row)
| EvUpdated (collection : string) (record : Row)
| EvDeleted (collection id : string).

Record Server : Type := mkServer {
  app : AppDb;
  reg : registry;
  broker : bool;                          (* is there a broker *)
  outbox : list (Event * string);         (* the calls of Broker.Publish *)
  maxBodyBytes : Z;
  devMode : bool;
}.

Definition set_app (a : AppDb) (s : Server) : Server :=
  mkServer a (reg s) (broker s) (outbox s) (maxBodyBytes s) (devMode s).
Definition set_reg (r : registry) (s : Server) : Server :=
  mkServer (app s) r (broker s) (outbox s) (maxBodyBytes s) (devMode s).
Definition add_event (e : Event * string) (s : Server) : Server :=
  mkServer (app s) (reg s) (broker s) (outbox s ++ [e]) (maxBodyBytes s) (devMode s).

(** What decoding a JSON body into a map gives. *)
Inductive Decoded : Type :=
| Malformed
| Null
| Object (fields : gmap string value).

Record Request : Type := mkRequest {
  path_collection : string; path_id : string;
  subject : string;                        (* of the access token *)
  q_limit : string; q_offset : string;     (* "" when absent *)
  body_len : Z;                            (* up to the end of the JSON value *)
  body : Decoded;
}.

Inductive Body : Type :=
| BNone
| BText (s : string)
| BError (msg : string)
| BRecord (r : Row)
| BRecords (rs : list Row) (limit offset : Z)
| BSchema (cs : list Collection).

Record Response : Type := mkResponse { status : Z; content : Body }.

Definition writeError (code : Z) (msg : string) : Response := mkResponse code (BError msg).
Definition internal_error : Response := mkResponse 500 (BText "internal error").
Definition not_found : Response := writeError 404 "not found".

Section server.
Context {sql : Sqlite}.
Abbreviation MR := (M Server).

(** ** The statements *)

Definition decl_of (t : Table) (col : string) : option string :=
  tc_decl <$> find_row (fun c => tc_name c = col) (t_columns t).

Definition cell (r : Row) (col : string) : value := default VNull (r !! col).

(** [col = ?] on a row. *)
Definition holds (t : Table) (r : Row) (cond : string * value) : bool :=
  match decl_of t cond.1 with
  | None => false
  | Some decl => matches decl (cell r cond.1) cond.2
  end.

Definition selected (t : Table) (conds : list (string * value)) (r : Z * Row) : bool :=
  forallb (holds t r.2) conds.

Definition known_columns (t : Table) (cols : list string) : bool :=
  forallb (fun c => bool_decide (is_Some (decl_of t c))) cols.

Definition on_table {A} (name : string) (cols : list string) (f : Table -> string + (A * Table)) (s : Server) :
    string + (A * Server) :=
  match tables (app s) !! name with
  | None => inl ("no such table: " +:+ name)
  | Some t =>
      if negb (known_columns t cols) then inl "no such column"
      else match f t with
           | inl e => inl e
           | inr (a, t') => inr (a, set_app (mkAppDb (<[name := t']> (tables (app s))) (policies (app s))) s)
           end
  end.

(** SELECT * FROM name WHERE conds, every value normalised for JSON: a column
    that was never set reads as NULL. *)
Definition full_row (t : Table) (r : Row) : Row :=
  list_to_map ((fun c => (tc_name c, cell r (tc_name c))) <$> t_columns t).

Definition select_where (name : string) (conds : list (string * value)) : MR (list Row) :=
  exec (on_table name conds.*1 (fun t =>
    inr ((fun r => full_row t r.2) <$> filter (fun r => selected t conds r = true) (t_rows t), t))).

(** Only the rows of a page. *)
Definition page {A} (limit offset : Z) (l : list A) : list A :=
  take (Z.to_nat limit) (drop (Z.to_nat offset) l).

Definition delete_where (name : string) (conds : list (string * value)) : MR Z :=
  exec (on_table name conds.*1 (fun t =>
    inr (Z.of_nat (length (filter (fun r => selected t conds r = true) (t_rows t))),
         mkTable (t_columns t) (filter (fun r => selected t conds r = false) (t_rows t))))).

(** The column that is an alias of the rowid: the only primary-key column, when
    its declared type is exactly INTEGER. *)
Definition rowid_alias (t : Table) : option string :=
  match filter (fun c => tc_pk c = true) (t_columns t) with
  | [c] => if bool_decide (ToUpper (tc_decl c) = "INTEGER") then Some (tc_name c) else None
  | _ => None
  end.

(** One more than the largest rowid. *)
Definition next_rowid (t : Table) : Z :=
  match (t_rows t).*1 with
  | [] => 1
  | x :: rest => (foldr Z.max x rest + 1)%Z
  end.

Definition is_null (v : value) : bool := bool_decide (v = VNull).

(** The row an INSERT makes: bound values coerced, defaults for the rest. *)
Definition new_row (t : Table) (fields : Row) : Row :=
  list_to_map ((fun c =>
    (tc_name c, match fields !! tc_name c with
                | Some v => coerce (tc_decl c) v
                | None => tc_default c
                end)) <$> t_columns t).

(** The rowid, and the row with it filled in where a column is its alias. *)
Definition assign_rowid (t : Table) (r : Row) : string + (Z * Row) :=
  match rowid_alias t with
  | None => inr (next_rowid t, r)
  | Some p =>
      match cell r p with
      | VNull => inr (next_rowid t, <[p := VInt (next_rowid t)]> r)
      | VInt z =>
          if bool_decide (z ∈ (t_rows t).*1) then inl ("UNIQUE constraint failed: " +:+ p)
          else inr (z, r)
      | _ => inl "datatype mismatch"
      end
  end.

(** INSERT: the value of LastInsertId.  Without fields the statement is
    INSERT INTO name () VALUES (), which SQLite does not parse. *)
Definition insert_into (name : string) (fields : Row) : MR Z :=
  exec (on_table name (map_to_list fields).*1 (fun t =>
    if bool_decide (fields = ∅) then inl "near ): syntax error" else
    match assign_rowid t (new_row t fields) with
    | inl e => inl e
    | inr (rowid, r) =>
        match violation (t_columns t) ((t_rows t).*2) r with
        | Some e => inl e
        | None => inr (rowid, mkTable (t_columns t) (t_rows t ++ [(rowid, r)]))
        end
    end)).

Definition set_fields (t : Table) (fields : Row) (r : Row) : Row :=
  map_imap (fun col old =>
    match fields !! col, decl_of t col with
    | Some v, Some decl => Some (coerce decl v)
    | _, _ => Some old
    end) (full_row t r).

(** UPDATE of every selected row, one after the other: the first violated
    constraint undoes the whole statement. *)
Fixpoint update_rows (t : Table) (fields : Row) (conds : list (string * value))
    (before after : list (Z * Row)) : string + list (Z * Row) :=
  match after with
  | [] => inr before
  | r :: rest =>
      if selected t conds r then
        let r' := set_fields t fields r.2 in
        match violation (t_columns t) ((before ++ rest).*2) r' with
        | Some e => inl e
        | None => update_rows t fields conds (before ++ [(r.1, r')]) rest
        end
      else update_rows t fields conds (before ++ [r]) rest
  end.

Definition update_where (name : string) (fields : Row) (conds : list (string * value)) : MR Z :=
  exec (on_table name ((map_to_list fields).*1 ++ conds.*1) (fun t =>
    match update_rows t fields conds [] (t_rows t) with
    | inl e => inl e
    | inr rows =>
        inr (Z.of_nat (length (filter (fun r => selected t conds r = true) (t_rows t))),
             mkTable (t_columns t) rows)
    end)).

(** ** Helpers *)

Definition owner_cond (col : Collection) (scoped : bool) (subj : string) : list (string * value) :=
  if scoped then [(OwnerColumn col, VText subj)] else [].

Definition fetchByPK (col : Collection) (pkValue : value) (scopeToOwner : bool) (subj : string) :
    MR (option Row) :=
  records ← select_where (CName col) ((PKColumn col, pkValue) :: owner_cond col scopeToOwner subj);
  mret (head records).

Definition publish (col : Collection) (ev : Event) (ownerID : string) : MR unit :=
  fun w =>
    let s := w_db w in
    if negb (broker s) || bool_decide (ReadRule col = RuleDenied) then (Ok tt, w)
    else (Ok tt, mkWorld (w_env w) (add_event (ev, ownerID) s)).

Definition ownerGateValue (col : Collection) (record : Row) : string :=
  if negb (bool_decide (ReadRule col = RuleOwner)) || bool_decide (OwnerColumn col = EmptyString) then EmptyString
  else match record !! OwnerColumn col with
       | None | Some VNull => EmptyString
       | Some v => sprint v
       end.

(** The owner of a row about to be deleted; a failed lookup gives "". *)
Definition ownerValueForPK (col : Collection) (pkValue : value) : MR string :=
  records ← select_where (CName col) [(PKColumn col, pkValue)];
  match head records with
  | None => fail (Sentinel "sql.ErrNoRows" "sql: no rows in result set")
  | Some r => match cell r (OwnerColumn col) with
              | VNull => mret EmptyString
              | v => mret (sprint v)
              end
  end.

Definition gate_before_delete (col : Collection) (pkValue : value) : MR string :=
  if bool_decide (ReadRule col = RuleOwner) && negb (bool_decide (OwnerColumn col = EmptyString)) then
    r ← attempt (ownerValueForPK col pkValue);
    match r with Ok v => mret v | Err _ => mret EmptyString end
  else mret EmptyString.

(** [strings.IndexAny(rest, " (")] and [strings.LastIndex(rest, ".")]. *)
Definition fieldFromConstraintError (msg prefix : string) : string :=
  match Index msg prefix with
  | None => "unknown"
  | Some idx =>
      let rest := sdrop (idx + String.length prefix) msg in
      let rest := match IndexFunc (fun c => byte_eqb c " " || byte_eqb c "(") rest with
                  | Some e => stake e rest
                  | None => rest
                  end in
      match LastIndexFunc (byte_eqb ".") rest with
      | Some dot => sdrop (dot + 1) rest
      | None => rest
      end
  end.

Definition writeWriteError (e : error) : Response :=
  let msg := error_text e in
  if Contains msg "UNIQUE constraint failed" then writeError 409 "already exists"
  else if Contains msg "NOT NULL constraint failed" then
    writeError 400 ("missing required field " +:+ Quote (fieldFromConstraintError msg "NOT NULL constraint failed: "))
  else if Contains msg "CHECK constraint failed" then
    writeError 400 "a field's value violates a constraint on this table"
  else if Contains msg "FOREIGN KEY constraint failed" then
    writeError 400 "a field references a row that doesn't exist"
  else internal_error.

(** The first field the loop over the body rejects, in key order. *)
Definition field_error (col : Collection) (kv : string * value) : option string :=
  if negb (HasColumn col kv.1) then Some ("unknown field " +:+ Quote kv.1)
  else match kv.2 with
       | VComposite => Some ("field " +:+ Quote kv.1 +:+
           " must be a scalar value (string, number, boolean, or null), not an object/array")
       | _ => None
       end.

Definition decodeBody (max : Z) (r : Request) (col : Collection) : Response + Row :=
  if (max <? body_len r)%Z then inl (writeError 413 "request body too large")
  else match body r with
  | Malformed => inl (writeError 400 "invalid JSON body")
  | Null => inr ∅
  | Object fields =>
      match omap (field_error col) (map_to_list fields) with
      | msg :: _ => inl (writeError 400 msg)
      | [] => inr fields
      end
  end.

Definition parse_limit (v : string) : string + Z :=
  if bool_decide (v = EmptyString) then inr defaultLimit
  else match Atoi v with
  | None => inl ("limit must be a positive integer, got " +:+ Quote v)
  | Some n =>
      if (n <=? 0)%Z then inl ("limit must be a positive integer, got " +:+ Quote v)
      else if (maxLimit <? n)%Z then
        inl ("limit must not exceed " +:+ Itoa maxLimit +:+ ", got " +:+ Itoa n)
      else inr n
  end.

Definition parse_offset (v : string) : string + Z :=
  if bool_decide (v = EmptyString) then inr 0%Z
  else match Atoi v with
  | None => inl ("offset must be a non-negative integer, got " +:+ Quote v)
  | Some n => if (n <? 0)%Z then inl ("offset must be a non-negative integer, got " +:+ Quote v) else inr n
  end.

Definition parsePagination (r : Request) : string + (Z * Z) :=
  match parse_limit (q_limit r) with
  | inl e => inl e
  | inr limit => match parse_offset (q_offset r) with
                 | inl e => inl e
                 | inr offset => inr (limit, offset)
                 end
  end.

(** The server as it is when the request arrives. *)
Definition get_server : MR Server := fun w => (Ok (w_db w), w).

(** [s.collection], then [s.authorizeOp], then the rest. *)
Definition with_collection (r : Request) (rule : Collection -> Rule) (k : Collection -> MR Response) : MR Response :=
  s ← get_server;
  match Get (reg s) (path_collection r) with
  | None => mret (writeError 404 "no such collection")
  | Some col =>
      if bool_decide (rule col = RuleDenied) then
        mret (writeError 403 "this operation is disabled for this collection")
      else k col
  end.

Definition on_internal (_ : error) : Response := internal_error.

(** ** The handlers *)

Definition handleSchema : MR Response := s ← get_server; mret (mkResponse 200 (BSchema (All (reg s)))).

Definition requireDevMode (next : MR Response) : MR Response :=
  s ← get_server;
  if negb (devMode s) then mret (mkResponse 404 (BText "404 page not found")) else next.

Definition handleList (r : Request) : MR Response :=
  with_collection r ReadRule (fun col =>
    match parsePagination r with
    | inl msg => mret (writeError 400 msg)
    | inr (limit, offset) =>
        try_or on_internal
          (select_where (CName col) (owner_cond col (bool_decide (ReadRule col = RuleOwner)) (subject r)))
          (fun records => mret (mkResponse 200 (BRecords (page limit offset records) limit offset)))
    end).

Definition handleGet (r : Request) : MR Response :=
  with_collection r ReadRule (fun col =>
    try_or on_internal
      (fetchByPK col (VText (path_id r)) (bool_decide (ReadRule col = RuleOwner)) (subject r))
      (fun record => match record with
                     | None => mret not_found
                     | Some rec => mret (mkResponse 200 (BRecord rec))
                     end)).

(** A TEXT primary key the client left out is generated. *)
Definition fill_pk (col : Collection) (fields : Row) : MR Row :=
  if PKIsInteger col then mret fields
  else match fields !! PKColumn col with
       | None | Some VNull | Some (VText EmptyString) =>
           id ← new_uuid; mret (<[PKColumn col := VText id]> fields)
       | Some _ => mret fields
       end.

Definition stamp_owner (col : Collection) (subj : string) (fields : Row) : Row :=
  if bool_decide (OwnerColumn col = EmptyString) then fields
  else <[OwnerColumn col := VText subj]> fields.

Definition handleCreate (r : Request) : MR Response :=
  with_collection r CreateRule (fun col =>
    s ← get_server;
    match decodeBody (maxBodyBytes s) r col with
    | inl resp => mret resp
    | inr fields =>
        fields ← fill_pk col (stamp_owner col (subject r) fields);
        try_or writeWriteError (insert_into (CName col) fields) (fun lastId =>
          let pkValue := if PKIsInteger col then VInt lastId else default VNull (fields !! PKColumn col) in
          try_or on_internal (fetchByPK col pkValue false EmptyString) (fun record =>
            match record with
            | None => mret internal_error
            | Some rec =>
                publish col (EvCreated (CName col) rec) (ownerGateValue col rec) ;;
                mret (mkResponse 201 (BRecord rec))
            end))
    end).

Definition strip_immutable (col : Collection) (fields : Row) : Row :=
  let fields := delete (PKColumn col) fields in
  if bool_decide (OwnerColumn col = EmptyString) then fields else delete (OwnerColumn col) fields.

Definition handleUpdate (r : Request) : MR Response :=
  with_collection r UpdateRule (fun col =>
    s ← get_server;
    match decodeBody (maxBodyBytes s) r col with
    | inl resp => mret resp
    | inr sent =>
        let fields := strip_immutable col sent in
        let scoped := bool_decide (UpdateRule col = RuleOwner) in
        let id := VText (path_id r) in
        if bool_decide (fields = ∅) then
          if bool_decide (sent = ∅) then mret (writeError 400 "no updatable fields in request body")
          else
            try_or on_internal (fetchByPK col id scoped (subject r)) (fun record =>
              match record with
              | None => mret not_found
              | Some rec => mret (mkResponse 200 (BRecord rec))
              end)
        else
          try_or writeWriteError
            (update_where (CName col) fields ((PKColumn col, id) :: owner_cond col scoped (subject r)))
            (fun n =>
              if bool_decide (n = 0%Z) then mret not_found
              else
                try_or on_internal (fetchByPK col id false EmptyString) (fun record =>
                  match record with
                  | None => mret internal_error
                  | Some rec =>
                      publish col (EvUpdated (CName col) rec) (ownerGateValue col rec) ;;
                      mret (mkResponse 200 (BRecord rec))
                  end))
    end).

Definition handleDelete (r : Request) : MR Response :=
  with_collection r DeleteRule (fun col =>
    let id := VText (path_id r) in
    gateVal ← gate_before_delete col id;
    try_or on_internal
      (delete_where (CName col)
         ((PKColumn col, id) :: owner_cond col (bool_decide (DeleteRule col = RuleOwner)) (subject r)))
      (fun n =>
        if bool_decide (n = 0%Z) then mret not_found
        else
          publish col (EvDeleted (CName col) (path_id r)) gateVal ;;
          mret (mkResponse 204 BNone))).

(** ** Accounts: export and erasure *)

Fixpoint export_loop (cols : list Collection) (subj : string) (out : list (string * list Row)) :
    MR (list (string * list Row)) :=
  match cols with
  | [] => mret out
  | col :: rest =>
      if bool_decide (ReadRule col = RuleDenied) then export_loop rest subj out
      else
        records ← select_where (CName col) [(OwnerColumn col, VText subj)];
        export_loop rest subj (out ++ [(CName col, records)])
  end.

Definition ExportOwned (subj : string) : MR (list (string * list Row)) :=
  s ← get_server; export_loop (ownedCollections (reg s)) subj [].

Definition pkValuesForOwner (col : Collection) (subj : string) : MR (list string) :=
  records ← select_where (CName col) [(OwnerColumn col, VText subj)];
  mret ((fun r => sprint (cell r (PKColumn col))) <$> records).

Definition delete_owned_in (subj : string) (col : Collection) : MR unit :=
  s ← get_server;
  ids ← (if broker s then pkValuesForOwner col subj else mret []);
  delete_where (CName col) [(OwnerColumn col, VText subj)] ;;
  for_each (fun id => publish col (EvDeleted (CName col) id) subj) ids.

Definition DeleteOwned (subj : string) : MR unit :=
  s ← get_server; for_each (delete_owned_in subj) (ownedCollections (reg s)).

Definition ReloadSchema : MR unit :=
  r ← wrapping "reload schema" (zoom app set_app Discover);
  update (fun s => (tt, set_reg r s)).

(** ** The admin UI's operations *)

Definition value_le (a b : value) : Prop := value_leb a b = true.
#[local] Instance value_le_dec : RelDecision value_le := fun a b => decide (value_leb a b = true).

(** ORDER BY sortCol dir, primary key. *)
Definition row_le (pk sortCol : string) (desc : bool) (a b : Row) : Prop :=
  let x := cell a sortCol in let y := cell b sortCol in
  let '(x, y) := if desc then (y, x) else (x, y) in
  (value_leb x y = true /\ value_leb y x = false) \/
  (value_leb x y = true /\ value_leb y x = true /\ value_leb (cell a pk) (cell b pk) = true).
#[local] Instance row_le_dec pk c d : RelDecision (row_le pk c d).
Proof. intros a b. unfold row_le. destruct d; apply _. Defined.

Definition AdminListRows (col : Collection) (limit offset : Z) (sortCol sortDir : string) : MR (list Row) :=
  let orderCol := if HasColumn col sortCol then sortCol else PKColumn col in
  let desc := EqualFold sortDir "desc" in
  rows ← wrapping "list rows" (select_where (CName col) []);
  mret (page limit offset (merge_sort (row_le (PKColumn col) orderCol desc) rows)).

Definition AdminCountRows (col : Collection) : MR Z :=
  rows ← wrapping "count rows" (select_where (CName col) []); mret (Z.of_nat (length rows)).

Definition ErrNoRows : error := Sentinel "sql.ErrNoRows" "sql: no rows in result set".

Definition AdminGetRow (col : Collection) (pkValue : value) : MR Row :=
  record ← fetchByPK col pkValue false EmptyString;
  match record with
  | None => fail ErrNoRows
  | Some rec => mret rec
  end.

Definition AdminCreateRow (col : Collection) (fields0 : Row) : MR Row :=
  fields ← fill_pk col fields0;
  lastId ← wrapping "insert row" (insert_into (CName col) fields);
  record ← AdminGetRow col (if PKIsInteger col then VInt lastId else default VNull (fields !! PKColumn col));
  publish col (EvCreated (CName col) record) (ownerGateValue col record) ;;
  mret record.

Definition AdminUpdateRow (col : Collection) (pkValue : value) (fields0 : Row) : MR Row :=
  let fields := delete (PKColumn col) fields0 in
  if bool_decide (fields = ∅) then AdminGetRow col pkValue
  else
    wrapping "update row" (update_where (CName col) fields [(PKColumn col, pkValue)]) ;;
    record ← AdminGetRow col pkValue;
    publish col (EvUpdated (CName col) record) (ownerGateValue col record) ;;
    mret record.

Definition AdminDeleteRow (col : Collection) (pkValue : value) : MR unit :=
  gateVal ← gate_before_delete col pkValue;
  n ← wrapping "delete row" (delete_where (CName col) [(PKColumn col, pkValue)]);
  if bool_decide (n = 0%Z) then fail ErrNoRows
  else publish col (EvDeleted (CName col) (sprint pkValue)) gateVal.

(** [^[a-z][a-z0-9_]*$] *)
Definition identifierRe : re :=
  RSeq (RChr is_lower) (RStar (RChr (fun c => is_lower c || is_digit c || byte_eqb c "_"))).

Definition AdminAllowedColumnTypes : list string := ["TEXT"; "INTEGER"; "REAL"].
Definition isAllowedColumnType (t : string) : bool := existsb (fun a => bool_decide (a = t)) AdminAllowedColumnTypes.

Record AdminColumnDef : Type := mkAdminColumnDef { AName : string; AType : string; ARequired : bool }.

Definition bad_identifier (what name : string) : error :=
  Errorf (what +:+ " name " +:+ Quote name +:+
          " must start with a letter and contain only lowercase letters, digits, and underscores").

(** The loop over the columns, with the names seen so far. *)
Fixpoint column_defs (cols : list AdminColumnDef) (seen : list string) : error + list TColumn :=
  match cols with
  | [] => inr []
  | c :: rest =>
      if bool_decide (AName c = EmptyString) then column_defs rest seen
      else if negb (re_match identifierRe (AName c)) then inl (bad_identifier "column" (AName c))
      else if bool_decide (AName c ∈ seen) then
        inl (Errorf ("column " +:+ Quote (AName c) +:+ " is defined more than once"))
      else if negb (isAllowedColumnType (AType c)) then
        inl (Errorf ("column " +:+ Quote (AName c) +:+ ": unsupported type " +:+ Quote (AType c)))
      else match column_defs rest (AName c :: seen) with
           | inl e => inl e
           | inr defs => inr (mkTColumn (AName c) (AType c) (ARequired c) false VNull :: defs)
           end
  end.

Definition AdminCreateTable (name : string) (ownerScoped : bool) (columns : list AdminColumnDef) : MR unit :=
  if negb (re_match identifierRe name) then fail (bad_identifier "table" name)
  else if isReserved name then fail (Errorf ("table name " +:+ Quote name +:+ " is reserved"))
  else
    let seen := "id" :: (if ownerScoped then [OwnerColumnName] else []) in
    match column_defs columns seen with
    | inl e => fail e
    | inr defs =>
        let all := mkTColumn "id" "TEXT" false true VNull ::
                   (if ownerScoped then [mkTColumn OwnerColumnName "TEXT" true false VNull] else []) ++ defs in
        wrapping "create table"
          (exec (fun s =>
             match tables (app s) !! name with
             | Some _ => inl ("table " +:+ quoteIdent name +:+ " already exists")
             | None => inr (tt, set_app (mkAppDb (<[name := mkTable all []]> (tables (app s))) (policies (app s))) s)
             end)) ;;
        ReloadSchema
    end.

End server.

End RestApi.
