(* ===== verification/RestApiFacts.v ===== *)
(** * Auto-REST: theorems

    Row isolation of reads and of writes, what each handler does to the tables,
    what reaches the realtime broker, and the round trips of its helpers. *)

From S2P Require Import Prelude GoStrings Registry RegistryFacts RestApi Realtime.

Module RestApiFacts.
Import Registry RegistryFacts RestApi.

(** ** A registry in step with the schema *)

(** What introspection guarantees of a collection, and every handler relies on. *)
Record sync_with (name : string) (t : Table) (c : Collection) : Prop := mkSync {
  sync_name : CName c = name;
  sync_key : exists pk, single_pk t pk /\ PKColumn c = tc_name pk /\
               PKIsInteger c = Contains (ToUpper (tc_decl pk)) "INT";
  sync_columns : Columns c = column_of <$> t_columns t;
  sync_owner : OwnerColumn c = owner_of t;
  sync_text : text_owner t;
  sync_rules : RuleOwner ∈ [ReadRule c; CreateRule c; UpdateRule c; DeleteRule c] ->
               OwnerColumn c <> EmptyString;
}.

Definition in_sync (s : Server) : Prop :=
  forall name c, reg s !! name = Some c ->
    exists t, tables (app s) !! name = Some t /\ sync_with name t c.

Lemma single_pk_in t pk : single_pk t pk -> pk ∈ t_columns t.
Proof.
  intros [Hf _]. assert (pk ∈ filter (fun c => tc_pk c = true) (t_columns t)) as Hin by (rewrite Hf; left).
  by apply list_elem_of_filter in Hin as [_ Hin].
Qed.

Lemma single_pk_unique t pk pk' : single_pk t pk -> single_pk t pk' -> pk = pk'.
Proof. intros [H1 _] [H2 _]. congruence. Qed.

Lemma sync_pk name t c : sync_with name t c -> PKColumn c ∈ tc_name <$> t_columns t.
Proof.
  intros Hs. destruct (sync_key _ _ _ Hs) as (pk & Hpk & -> & _).
  by apply list_elem_of_fmap_2, single_pk_in.
Qed.

(** A rule given by a policy is sound, and the default is. *)
Lemma policy_rule_owner (ps : list PolicyRow) name op : forall r,
  policy_rule ps name op r = RuleOwner ->
  r = RuleOwner \/ exists p, p ∈ ps /\ p_collection p = name /\ p_rule p = RuleOwner.
Proof.
  induction ps as [|p ps IH]; intros r; [by left|]. unfold policy_rule in *. simpl. intros H.
  apply IH in H as [H|(q & Hq & ?)].
  - case_bool_decide as Hp; [|by left]. right. exists p. split; [left|tauto].
  - right. exists q. split; [by right|done].
Qed.

Lemma Discover_sync w rg w' :
  Discover w = (Ok rg, w') ->
  forall name c, rg !! name = Some c ->
    exists t, tables (w_db w) !! name = Some t /\ sync_with name t c.
Proof.
  intros (_ & [Ht Hps] & Hreg)%Discover_ok name c. rewrite Hreg. unfold schema_entry.
  destruct (tables _ !! name) as [t|] eqn:E; [|done]. simpl.
  destruct (table_entry name t) as [c0|] eqn:He; [|done]. intros [= <-].
  pose proof He as He'. apply table_entry_Some in He as (Hr & pk & [Hf Hne] & ->).
  exists t. split; [done|]. constructor; simpl; [done| |done|done|by eapply Ht|].
  - exists pk. done.
  - intros Hin Ho.
    assert (exists op, policy_rule (policies (w_db w)) name op (default_rule t) = RuleOwner) as [op Hop].
    { rewrite !elem_of_cons in Hin. destruct Hin as [H|[H|[H|[H|H]]]]; [eauto..|by apply elem_of_nil in H]. }
    apply policy_rule_owner in Hop as [Hd|(p & Hp & Hn & Hrp)].
    + unfold default_rule in Hd. by rewrite bool_decide_eq_true_2 in Hd.
    + rewrite Forall_forall in Hps. destruct (Hps p Hp) as (_ & c & Hc & Hown).
      unfold schema_entry in Hc. rewrite Hn, E in Hc. simpl in Hc. rewrite He' in Hc.
      injection Hc as <-. by apply Hown.
Qed.

(** ** Rows *)

Lemma lookup_list_to_map_fmap {A V} (f : A -> string) (g : string -> V) (l : list A) k :
  (list_to_map ((fun x => (f x, g (f x))) <$> l) : gmap string V) !! k =
  if decide (k ∈ f <$> l) then Some (g k) else None.
Proof.
  induction l as [|x l IH]; [done|]. rewrite !fmap_cons. cbn [list_to_map foldr uncurry fst snd].
  destruct (decide (k = f x)) as [->|Hne].
  - rewrite lookup_insert_eq, decide_True by left. done.
  - rewrite lookup_insert_ne, IH by done.
    destruct (decide (k ∈ f <$> l)); [rewrite decide_True by (by right)|rewrite decide_False]; [done|done|set_solver].
Qed.

Lemma full_row_lookup t r k :
  full_row t r !! k = if decide (k ∈ tc_name <$> t_columns t) then Some (cell r k) else None.
Proof. apply (lookup_list_to_map_fmap tc_name (cell r)). Qed.

Lemma cell_full_row t r k : k ∈ tc_name <$> t_columns t -> cell (full_row t r) k = cell r k.
Proof. intros Hk. unfold cell at 1. by rewrite full_row_lookup, decide_True. Qed.

Lemma decl_of_Some t k d :
  decl_of t k = Some d -> exists c, c ∈ t_columns t /\ tc_name c = k /\ tc_decl c = d.
Proof.
  unfold decl_of. destruct (find_row _ _) as [c|] eqn:E; [|done]. intros [= <-].
  apply find_row_Some in E as [? ?]. eauto.
Qed.

Lemma decl_of_is_Some t k : k ∈ tc_name <$> t_columns t -> is_Some (decl_of t k).
Proof.
  intros (c & -> & Hc)%list_elem_of_fmap. unfold decl_of.
  destruct (find_row_is_Some (fun c' => tc_name c' = tc_name c) (t_columns t) c Hc eq_refl) as [d ->].
  by eexists.
Qed.

Lemma decl_of_owner t d : text_owner t -> decl_of t OwnerColumnName = Some d -> columnAffinity d = TEXT.
Proof.
  intros Ht (c & Hc & Hn & <-)%decl_of_Some. unfold text_owner in Ht. rewrite Forall_forall in Ht. auto.
Qed.

Lemma owner_of_nonempty t : owner_of t <> EmptyString ->
  owner_of t = OwnerColumnName /\ (OwnerColumnName ∈ tc_name <$> t_columns t).
Proof. unfold owner_of. by case_bool_decide. Qed.

(** The row belongs to a subject. *)
Definition owned_by (subj : string) (r : Z * Row) : Prop := cell r.2 OwnerColumnName = VText subj.
#[global] Instance owned_by_dec subj r : Decision (owned_by subj r).
Proof. unfold owned_by. apply _. Defined.

Section rest.
Context {sql : Sqlite} {laws : SqliteLaws}.

Lemma holds_owner t r subj :
  text_owner t -> OwnerColumnName ∈ tc_name <$> t_columns t ->
  holds t r (OwnerColumnName, VText subj) = bool_decide (cell r OwnerColumnName = VText subj).
Proof using laws.
  intros Ht Hin. unfold holds. simpl. destruct (decl_of_is_Some t OwnerColumnName Hin) as [d Hd].
  rewrite Hd. apply matches_text. by eapply decl_of_owner.
Qed.

Lemma selected_owner t r subj conds :
  text_owner t -> OwnerColumnName ∈ tc_name <$> t_columns t ->
  (OwnerColumnName, VText subj) ∈ conds -> selected t conds r = true -> owned_by subj r.
Proof using laws.
  intros Ht Hin Hc Hs. unfold selected in Hs. rewrite forallb_forall in Hs.
  apply list_elem_of_In in Hc. specialize (Hs _ Hc). rewrite holds_owner in Hs by done.
  by apply bool_decide_eq_true_1 in Hs.
Qed.

(** ** Statements *)

Definition with_table (name : string) (t : Table) (s : Server) : Server :=
  set_app (mkAppDb (<[name := t]> (tables (app s))) (policies (app s))) s.

Lemma on_table_inr {A} name cols (f : Table -> string + (A * Table)) s a s' :
  on_table name cols f s = inr (a, s') ->
  exists t t', tables (app s) !! name = Some t /\ known_columns t cols = true /\
               f t = inr (a, t') /\ s' = with_table name t' s.
Proof.
  unfold on_table. destruct (tables _ !! name) as [t|]; [|done].
  destruct (known_columns t cols) eqn:Hk; [|done]. simpl.
  destruct (f t) as [|[a' t']] eqn:Hf; [done|]. intros [= <- <-]. eauto 10.
Qed.

Lemma with_table_id name t s : tables (app s) !! name = Some t -> with_table name t s = s.
Proof.
  intros Ht. unfold with_table. rewrite insert_id by done. by destruct s as [[]].
Qed.

(** The rows a query returns. *)
Definition result_rows (t : Table) (conds : list (string * value)) : list Row :=
  (fun r : Z * Row => full_row t r.2) <$> filter (fun r => selected t conds r = true) (t_rows t).

Lemma select_where_ok name conds w rs w' :
  select_where name conds w = (Ok rs, w') ->
  w_db w' = w_db w /\
  exists t, tables (app (w_db w)) !! name = Some t /\ known_columns t conds.*1 = true /\ rs = result_rows t conds.
Proof.
  intros H%exec_ok. apply on_table_inr in H as (t & t' & Ht & Hk & [= <- <-] & ->).
  rewrite with_table_id by done. eauto.
Qed.

Lemma select_where_reads name conds w : w_db (select_where name conds w).2 = w_db w.
Proof.
  destruct (select_where name conds w) as [[rs|e] w'] eqn:E.
  - by apply select_where_ok in E as [? _].
  - by apply exec_err in E.
Qed.

Lemma select_where_quiet name conds t w :
  quiet w -> tables (app (w_db w)) !! name = Some t -> known_columns t conds.*1 = true ->
  select_where name conds w = (Ok (result_rows t conds), w).
Proof.
  intros Hq Ht Hk. unfold select_where. rewrite exec_quiet by done. unfold on_table.
  rewrite Ht, Hk. simpl. fold (with_table name t (w_db w)). rewrite with_table_id by done. by destruct w.
Qed.

Lemma within_select (R : relation Server) `{!PreOrder R} name conds : within R (select_where name conds).
Proof. intros w. rewrite select_where_reads. reflexivity. Qed.

(** What a statement does to its table, as a relation on the whole state. *)
Lemma within_on_table (R : relation Server) `{!PreOrder R} {A} name cols (f : Table -> string + (A * Table)) :
  (forall s t a t', tables (app s) !! name = Some t -> known_columns t cols = true ->
     f t = inr (a, t') -> R s (with_table name t' s)) ->
  within R (exec (on_table name cols f)).
Proof.
  intros Hf. apply within_exec; [done|]. intros s a s' (t & t' & Ht & Hk & Hft & ->)%on_table_inr. eauto.
Qed.

Lemma fetchByPK_ok col pkv scoped subj w r w' :
  fetchByPK col pkv scoped subj w = (Ok r, w') ->
  w_db w' = w_db w /\
  exists t, tables (app (w_db w)) !! CName col = Some t /\
    known_columns t ((PKColumn col, pkv) :: owner_cond col scoped subj).*1 = true /\
    r = head (result_rows t ((PKColumn col, pkv) :: owner_cond col scoped subj)).
Proof.
  unfold fetchByPK. intros H. run_inv. apply select_where_ok in Hrun as (Hw & t & Ht & Hk & ->). eauto.
Qed.

Lemma fetchByPK_reads col pkv scoped subj w : w_db (fetchByPK col pkv scoped subj w).2 = w_db w.
Proof.
  unfold fetchByPK, mbind, M_bind.
  pose proof (select_where_reads (CName col) ((PKColumn col, pkv) :: owner_cond col scoped subj) w) as H.
  by destruct (select_where _ _ w) as [[rs|e] w'].
Qed.

Lemma within_fetch (R : relation Server) `{!PreOrder R} col pkv scoped subj : within R (fetchByPK col pkv scoped subj).
Proof. intros w. rewrite fetchByPK_reads. reflexivity. Qed.

Lemma with_collection_run r rule (k : Collection -> M Server Response) w col :
  reg (w_db w) !! path_collection r = Some col ->
  with_collection r rule k w =
  if bool_decide (rule col = RuleDenied)
  then (Ok (writeError 403 "this operation is disabled for this collection"), w) else k col w.
Proof.
  intros Hc. unfold with_collection, get_server, Get. unfold mbind at 1, M_bind. rewrite Hc. by case_bool_decide.
Qed.

Lemma with_collection_unknown r rule (k : Collection -> M Server Response) w :
  reg (w_db w) !! path_collection r = None ->
  with_collection r rule k w = (Ok (writeError 404 "no such collection"), w).
Proof. intros Hc. unfold with_collection, get_server, Get. unfold mbind at 1, M_bind. by rewrite Hc. Qed.

(** ** Reads *)

(** The records of a response. *)
Definition records_of (resp : Response) : list Row :=
  match content resp with
  | BRecord r => [r]
  | BRecords rs _ _ => rs
  | _ => []
  end.

Definition own_record (subj : string) (rec : Row) : Prop := rec !! OwnerColumnName = Some (VText subj).

Lemma result_rows_owned t subj conds :
  text_owner t -> OwnerColumnName ∈ tc_name <$> t_columns t -> (OwnerColumnName, VText subj) ∈ conds ->
  Forall (own_record subj) (result_rows t conds).
Proof using laws.
  intros Ht Hin Hc. apply Forall_forall. intros rec (r & -> & [Hs Hr]%list_elem_of_filter)%list_elem_of_fmap.
  unfold own_record. rewrite full_row_lookup, decide_True by done. f_equal.
  by eapply (selected_owner t r).
Qed.

Lemma owner_scoped col name t subj :
  sync_with name t col -> RuleOwner ∈ [ReadRule col; CreateRule col; UpdateRule col; DeleteRule col] ->
  owner_cond col true subj = [(OwnerColumnName, VText subj)] /\
  text_owner t /\ (OwnerColumnName ∈ tc_name <$> t_columns t).
Proof.
  intros Hs Hr. pose proof (sync_rules _ _ _ Hs Hr) as Hne. rewrite (sync_owner _ _ _ Hs) in Hne.
  apply owner_of_nonempty in Hne as [Ho Hin]. unfold owner_cond. rewrite (sync_owner _ _ _ Hs), Ho.
  split; [done|]. split; [apply Hs|done].
Qed.

(** C14: In a collection whose reads belong to the owner, listing and fetching
    change nothing and, whatever fails, answer with no record of another
    subject. *)
Theorem reads_isolated r w col h resp w' :
  in_sync (w_db w) ->
  reg (w_db w) !! path_collection r = Some col -> ReadRule col = RuleOwner ->
  h ∈ [handleList r; handleGet r] -> h w = (Ok resp, w') ->
  w_db w' = w_db w /\ Forall (own_record (subject r)) (records_of resp).
Proof using laws.
  intros Hsync Hc Hr Hh Hrun. destruct (Hsync _ _ Hc) as (t & Ht & Hs).
  destruct (owner_scoped col _ t (subject r) Hs) as (Hoc & Htext & Hin); [rewrite Hr; left|].
  rewrite !elem_of_cons in Hh. destruct Hh as [->|[->|[]%elem_of_nil]]; revert Hrun.
  - unfold handleList. rewrite (with_collection_run _ _ _ _ col) by done. rewrite Hr, bool_decide_eq_false_2 by done.
    destruct (parsePagination r) as [msg|[limit offset]]; [by intros [-> ->]%mret_ok|].
    rewrite bool_decide_eq_true_2, Hoc by done. intros [(e & H & ->)|(rs & w1 & H & Hk)]%try_or_ok.
    + apply exec_err in H. done.
    + run_inv. apply select_where_ok in H as (Hw & t' & Ht' & _ & ->).
      rewrite (sync_name _ _ _ Hs), Ht in Ht'. injection Ht' as <-. split; [done|].
      apply Forall_take, Forall_drop, result_rows_owned; [done|done|left].
  - unfold handleGet. rewrite (with_collection_run _ _ _ _ col) by done. rewrite Hr, bool_decide_eq_false_2 by done.
    rewrite bool_decide_eq_true_2 by done. intros [(e & H & ->)|(rec & w1 & H & Hk)]%try_or_ok.
    + pose proof (fetchByPK_reads col (VText (path_id r)) true (subject r) w) as Hf. by rewrite H in Hf.
    + apply fetchByPK_ok in H as (Hw & t' & Ht' & _ & ->).
      rewrite (sync_name _ _ _ Hs), Ht in Ht'. injection Ht' as <-. rewrite Hoc in Hk.
      assert (Forall (own_record (subject r))
                (result_rows t [(PKColumn col, VText (path_id r)); (OwnerColumnName, VText (subject r))])) as Hall.
      { apply result_rows_owned; [done|done|]. right. left. }
      destruct (result_rows t _) as [|rec rest]; simpl in Hk; run_inv; (split; [done|]); [constructor|].
      apply Forall_cons in Hall as [? _]. by repeat constructor.
Qed.

(** A list request on an exposed collection answers 403, 400 or 500, or with
    exactly the page of the rows the caller may read. *)
Theorem handleList_exact r w col t :
  in_sync (w_db w) ->
  reg (w_db w) !! path_collection r = Some col -> tables (app (w_db w)) !! path_collection r = Some t ->
  exists resp, (handleList r w).1 = Ok resp /\
    if bool_decide (ReadRule col = RuleDenied) then status resp = 403%Z
    else match parsePagination r with
         | inl msg => resp = writeError 400 msg
         | inr (limit, offset) =>
             (resp = internal_error /\ ~ quiet w) \/
             resp = mkResponse 200 (BRecords (page limit offset
               ((fun row : Z * Row => full_row t row.2) <$>
                filter (fun row => ReadRule col = RuleOwner -> owned_by (subject r) row) (t_rows t))) limit offset)
         end.
Proof using laws.
  intros Hsync Hc Ht. destruct (Hsync _ _ Hc) as (t' & Ht' & Hs). rewrite Ht in Ht'. injection Ht' as <-.
  unfold handleList. rewrite (with_collection_run _ _ _ _ col) by done.
  case_bool_decide as Hd; [by eexists|].
  destruct (parsePagination r) as [msg|[limit offset]]; [by eexists|].
  set (conds := owner_cond col (bool_decide (ReadRule col = RuleOwner)) (subject r)).
  assert (known_columns t conds.*1 = true /\
          forall row, selected t conds row = true <-> (ReadRule col = RuleOwner -> owned_by (subject r) row)) as [Hk Hsel].
  { subst conds. case_bool_decide as Ho; [|split; [done|]; by intros; split].
    destruct (owner_scoped col _ t (subject r) Hs) as (-> & Htext & Hin); [rewrite Ho; left|]. split.
    - simpl. rewrite andb_true_r, bool_decide_eq_true_2; [done|]. by apply decl_of_is_Some.
    - intros row. unfold selected. simpl. rewrite andb_true_r, holds_owner, bool_decide_eq_true by done. tauto. }
  unfold try_or.
  destruct (select_where (CName col) conds w) as [[rs|e] w1] eqn:E.
  - apply select_where_ok in E as (_ & t1 & Ht1 & _ & ->). rewrite (sync_name _ _ _ Hs), Ht in Ht1.
    injection Ht1 as <-. eexists. split; [done|]. right. unfold result_rows. do 4 f_equal.
    apply filter_ext_in. intros row _. apply Hsel.
  - eexists. split; [done|]. left. split; [done|]. intros Hq.
    rewrite (select_where_quiet _ _ t) in E; [done|done|by rewrite (sync_name _ _ _ Hs)|done].
Qed.

(** ** Writes *)

(** The table has distinct column names and an owner column, of text. *)
Definition owner_table (name : string) (s : Server) : Prop :=
  exists t, tables (app s) !! name = Some t /\ text_owner t /\
            (OwnerColumnName ∈ tc_name <$> t_columns t) /\ NoDup (tc_name <$> t_columns t).

(** Everything but the rows of one subject in one table stays as it was. *)
Definition others_kept (subj name : string) (s s' : Server) : Prop :=
  reg s' = reg s /\ policies (app s') = policies (app s) /\
  (forall n, n <> name -> tables (app s') !! n = tables (app s) !! n) /\
  forall t, tables (app s) !! name = Some t ->
    exists t', tables (app s') !! name = Some t' /\ t_columns t' = t_columns t /\
      filter (fun r => ~ owned_by subj r) (t_rows t') = filter (fun r => ~ owned_by subj r) (t_rows t).

Definition isolates (subj name : string) (s s' : Server) : Prop :=
  owner_table name s -> owner_table name s' /\ others_kept subj name s s'.

Lemma others_kept_refl subj name s : others_kept subj name s s.
Proof. unfold others_kept. split_and!; [done..|]. eauto. Qed.

#[local] Instance isolates_preorder subj name : PreOrder (isolates subj name).
Proof.
  split.
  - intros s Ho. split; [done|]. unfold others_kept. split_and!; [done..|]. eauto.
  - intros s1 s2 s3 H12 H23 Ho. destruct (H12 Ho) as (Ho2 & R1 & P1 & T1 & O1).
    destruct (H23 Ho2) as (Ho3 & R2 & P2 & T2 & O2). split; [done|].
    unfold others_kept. split_and!; [congruence|congruence| |].
    + intros n Hn. by rewrite T2, T1.
    + intros t (t2 & Ht2 & C2 & F2)%O1. destruct (O2 _ Ht2) as (t3 & Ht3 & C3 & F3).
      exists t3. split_and!; [done|congruence|congruence].
Qed.

(** A statement that leaves the columns and the foreign rows of its table. *)
Lemma isolates_with_table subj name t t' s :
  tables (app s) !! name = Some t -> t_columns t' = t_columns t ->
  (text_owner t -> OwnerColumnName ∈ tc_name <$> t_columns t -> NoDup (tc_name <$> t_columns t) ->
   filter (fun r => ~ owned_by subj r) (t_rows t') = filter (fun r => ~ owned_by subj r) (t_rows t)) ->
  isolates subj name s (with_table name t' s).
Proof.
  intros Ht Hc Hf (t0 & Ht0 & Htext & Hin & Hnd). rewrite Ht in Ht0. injection Ht0 as <-.
  unfold owner_table, others_kept, with_table. simpl. rewrite lookup_insert_eq. split.
  - exists t'. unfold text_owner. rewrite Hc. done.
  - split_and!; [done|done|intros n Hn; by rewrite lookup_insert_ne|].
    intros t0 H0. rewrite Ht in H0. injection H0 as <-. exists t'. split_and!; [done|done|auto].
Qed.

Lemma isolates_delete subj name conds :
  (OwnerColumnName, VText subj) ∈ conds -> within (isolates subj name) (delete_where name conds).
Proof using laws.
  intros Hc. apply within_on_table; [apply _|]. intros s t a t' Ht _ [= _ <-].
  apply (isolates_with_table _ _ t); [done|done|]. intros Htext Hin _. simpl.
  rewrite list_filter_filter. apply filter_ext_in. intros row _. split; [tauto|]. intros Hn. split; [done|].
  destruct (selected t conds row) eqn:E; [|done]. by destruct Hn; eapply selected_owner.
Qed.

#[local] Arguments selected : simpl never.

(** *** UPDATE *)

Lemma set_fields_lookup t fields r k :
  set_fields t fields r !! k =
  full_row t r !! k ≫= fun old => match fields !! k, decl_of t k with
                                  | Some v, Some decl => Some (coerce decl v)
                                  | _, _ => Some old
                                  end.
Proof. apply map_lookup_imap. Qed.

Lemma set_fields_cell t fields r k :
  k ∈ tc_name <$> t_columns t -> fields !! k = None -> cell (set_fields t fields r) k = cell r k.
Proof.
  intros Hk Hf. unfold cell at 1. rewrite set_fields_lookup, full_row_lookup, decide_True by done.
  simpl. by rewrite Hf.
Qed.

(** The rows an UPDATE leaves, one by one. *)
Lemma update_rows_spec t fields conds after : forall before rows,
  update_rows t fields conds before after = inr rows ->
  rows = before ++ ((fun r : Z * Row =>
           if selected t conds r then (r.1, set_fields t fields r.2) else r) <$> after).
Proof.
  induction after as [|r rest IH]; intros before rows; cbn [update_rows].
  - intros [= <-]. by rewrite app_nil_r.
  - rewrite fmap_cons. destruct (selected t conds r).
    + destruct (violation _ _ _); [done|]. intros ->%IH. by rewrite <- app_assoc.
    + intros ->%IH. by rewrite <- app_assoc.
Qed.

Lemma isolates_update subj name fields conds :
  (OwnerColumnName, VText subj) ∈ conds -> fields !! OwnerColumnName = None ->
  within (isolates subj name) (update_where name fields conds).
Proof using laws.
  intros Hc Hf. apply within_on_table; [apply _|]. intros s t a t' Ht _ Hrun.
  destruct (update_rows t fields conds [] (t_rows t)) as [|rows] eqn:Hu; [done|]. injection Hrun as _ <-.
  apply update_rows_spec in Hu. simpl in Hu. subst rows.
  apply (isolates_with_table _ _ t); [done|done|]. intros Htext Hin _. simpl.
  induction (t_rows t) as [|r rest IH]; [done|]. rewrite fmap_cons.
  destruct (selected t conds r) eqn:Hsel.
  - assert (owned_by subj r) as Ho by (by eapply selected_owner).
    rewrite !filter_cons_False; [done|tauto|].
    unfold owned_by in *. simpl. rewrite set_fields_cell by done. tauto.
  - destruct (decide (~ owned_by subj r)); [rewrite !filter_cons_True by done; by f_equal|].
    by rewrite !filter_cons_False.
Qed.

(** *** INSERT *)

Lemma new_row_lookup t fields k :
  new_row t fields !! k =
  (fun c => match fields !! k with Some v => coerce (tc_decl c) v | None => tc_default c end)
    <$> find_row (fun c => tc_name c = k) (t_columns t).
Proof.
  unfold new_row, find_row. induction (t_columns t) as [|c l IH]; [done|].
  rewrite fmap_cons. cbn [list_to_map foldr uncurry fst snd]. destruct (decide (tc_name c = k)) as [<-|Hne].
  - rewrite filter_cons_True by done. by rewrite lookup_insert_eq.
  - rewrite filter_cons_False by done. by rewrite lookup_insert_ne.
Qed.

Lemma new_row_cell t fields k v d :
  fields !! k = Some v -> decl_of t k = Some d -> cell (new_row t fields) k = coerce d v.
Proof.
  unfold decl_of, cell. intros Hf Hd. rewrite new_row_lookup, Hf.
  destruct (find_row _ _); [|done]. by injection Hd as <-.
Qed.

(** A column of TEXT affinity is no alias of the rowid. *)
Lemma rowid_alias_not_text t p d :
  rowid_alias t = Some p -> decl_of t p = Some d -> NoDup (tc_name <$> t_columns t) -> columnAffinity d <> TEXT.
Proof.
  unfold rowid_alias. destruct (filter _ _) as [|c [|]] eqn:Hf; [done| |done].
  case_bool_decide as Hd; [|done]. intros [= <-] (c' & Hc' & Hn & <-)%decl_of_Some Hnd.
  assert (c ∈ filter (fun c => tc_pk c = true) (t_columns t)) as Hc by (rewrite Hf; left).
  apply list_elem_of_filter in Hc as [_ Hc].
  rewrite (unique_on_eq tc_name (t_columns t) c' c) by done.
  unfold columnAffinity. by rewrite Hd.
Qed.

(** The row that is stored: the one bound, but for the alias of the rowid. *)
Lemma assign_rowid_inr t r rowid r' :
  assign_rowid t r = inr (rowid, r') ->
  forall k, rowid_alias t <> Some k -> r' !! k = r !! k.
Proof.
  unfold assign_rowid. destruct (rowid_alias t) as [p|]; [|by intros [= _ <-]].
  destruct (cell r p); try done.
  - intros [= _ <-] k Hk. apply lookup_insert_ne. congruence.
  - case_bool_decide; [done|]. by intros [= _ <-].
Qed.

Lemma insert_into_ok name fields s rowid s' (w w' : World Server) :
  w_db w = s -> w_db w' = s' ->
  insert_into name fields w = (Ok rowid, w') ->
  exists t r r', tables (app s) !! name = Some t /\ known_columns t (map_to_list fields).*1 = true /\
    r = new_row t fields /\ assign_rowid t r = inr (rowid, r') /\
    violation (t_columns t) ((t_rows t).*2) r' = None /\
    s' = with_table name (mkTable (t_columns t) (t_rows t ++ [(rowid, r')])) s.
Proof.
  intros <- <- H%exec_ok. apply on_table_inr in H as (t & t' & Ht & Hk & Hf & ->).
  case_bool_decide; [done|].
  destruct (assign_rowid t (new_row t fields)) as [|[id r']] eqn:Ha; [done|].
  destruct (violation _ _ _) eqn:Hv; [done|]. injection Hf as <- <-. eauto 10.
Qed.

(** The columns of a table have different names. *)
Definition distinct_columns (name : string) (s : Server) : Prop :=
  forall t, tables (app s) !! name = Some t -> NoDup (tc_name <$> t_columns t).

(** The row of an INSERT that binds the owner column belongs to that owner. *)
Lemma inserted_owned t fields subj rowid r' :
  text_owner t -> OwnerColumnName ∈ tc_name <$> t_columns t -> NoDup (tc_name <$> t_columns t) ->
  fields !! OwnerColumnName = Some (VText subj) ->
  assign_rowid t (new_row t fields) = inr (rowid, r') -> owned_by subj (rowid, r').
Proof using laws.
  intros Ht Hin Hnd Hf Ha. unfold owned_by. simpl. destruct (decl_of_is_Some t OwnerColumnName Hin) as [d Hd].
  pose proof (decl_of_owner _ _ Ht Hd) as Haff.
  unfold cell. rewrite (assign_rowid_inr _ _ _ _ Ha).
  - fold (cell (new_row t fields) OwnerColumnName). rewrite (new_row_cell _ _ _ _ _ Hf Hd). by apply coerce_text.
  - intros Hal. by eapply rowid_alias_not_text.
Qed.

Lemma isolates_insert subj name fields :
  fields !! OwnerColumnName = Some (VText subj) -> within (isolates subj name) (insert_into name fields).
Proof using laws.
  intros Hf. apply within_on_table; [apply _|]. intros s t a t' Ht _ Hrun.
  case_bool_decide; [done|].
  destruct (assign_rowid t (new_row t fields)) as [|[id r']] eqn:Ha; [done|].
  destruct (violation _ _ _); [done|]. injection Hrun as _ <-.
  apply (isolates_with_table _ _ t); [done|done|]. intros Htext Hin Hnd. simpl.
  rewrite filter_app, (filter_cons_False (fun r => ~ owned_by subj r)); [by rewrite app_nil_r|].
  pose proof (inserted_owned t fields subj id r' Htext Hin Hnd Hf Ha). tauto.
Qed.

Lemma isolates_publish subj name col ev o : within (isolates subj name) (publish col ev o).
Proof.
  intros w. unfold publish. destruct (negb _ || _); [reflexivity|]. intros Ho. simpl.
  split; [done|]. unfold others_kept. split_and!; [done..|]. eauto.
Qed.

Lemma ownerValueForPK_reads col pkv w : w_db (ownerValueForPK col pkv w).2 = w_db w.
Proof.
  unfold ownerValueForPK, mbind, M_bind.
  pose proof (select_where_reads (CName col) [(PKColumn col, pkv)] w) as H.
  destruct (select_where _ _ w) as [[rs|e] w']; [|done].
  destruct (head rs) as [rec|]; [|done]. by destruct (cell rec (OwnerColumn col)).
Qed.

Lemma gate_reads col pkv w : w_db (gate_before_delete col pkv w).2 = w_db w.
Proof.
  unfold gate_before_delete. destruct (_ && _); [|done]. rewrite attempt_bind.
  pose proof (ownerValueForPK_reads col pkv w) as H. by destruct (ownerValueForPK col pkv w) as [[|] ?].
Qed.

Lemma within_gate (R : relation Server) `{!PreOrder R} col pkv : within R (gate_before_delete col pkv).
Proof. intros w. rewrite gate_reads. reflexivity. Qed.

Lemma within_get_server (R : relation Server) `{!PreOrder R} : within R get_server.
Proof. by apply within_same. Qed.

#[local] Hint Resolve isolates_publish isolates_insert isolates_update isolates_delete
  within_fetch within_gate within_get_server within_select : within.

Lemma stamp_owner_lookup col subj fields name t :
  sync_with name t col -> OwnerColumn col <> EmptyString ->
  stamp_owner col subj fields !! OwnerColumnName = Some (VText subj).
Proof.
  intros Hs Ho. unfold stamp_owner. rewrite bool_decide_eq_false_2 by done.
  rewrite (sync_owner _ _ _ Hs) in *. apply owner_of_nonempty in Ho as [-> _]. by rewrite lookup_insert_eq.
Qed.

Lemma strip_immutable_owner col fields name t :
  sync_with name t col -> OwnerColumn col <> EmptyString ->
  strip_immutable col fields !! OwnerColumnName = None.
Proof.
  intros Hs Ho. unfold strip_immutable. rewrite bool_decide_eq_false_2 by done.
  rewrite (sync_owner _ _ _ Hs) in *. apply owner_of_nonempty in Ho as [-> _]. by rewrite lookup_delete_eq.
Qed.

Lemma strip_immutable_pk col fields : strip_immutable col fields !! PKColumn col = None.
Proof.
  unfold strip_immutable. case_bool_decide; [apply lookup_delete_eq|].
  apply lookup_delete_None. right. apply lookup_delete_eq.
Qed.

(** Was the key left out? *)
Definition pk_missing (col : Collection) (fields : Row) : Prop :=
  PKIsInteger col = false /\
  match fields !! PKColumn col with
  | None | Some VNull | Some (VText EmptyString) => True
  | Some _ => False
  end.

Lemma fill_pk_ok col fields w :
  exists f w', fill_pk col fields w = (Ok f, w') /\ w_db w' = w_db w /\
    ((~ pk_missing col fields /\ f = fields /\ w' = w) \/
     (pk_missing col fields /\ exists id, f = <[PKColumn col := VText id]> fields)).
Proof.
  unfold fill_pk, pk_missing. destruct (PKIsInteger col).
  { exists fields, w. split_and!; [done|done|]. left. split_and!; [by intros [? _]|done|done]. }
  assert (exists f w', (id ← new_uuid; mret (<[PKColumn col := VText id]> fields)) w = (Ok f, w') /\
            w_db w' = w_db w /\ exists id, f = <[PKColumn col := VText id]> fields) as (f & w' & Hr & Hw & Hid).
  { unfold mbind, M_bind, new_uuid. destruct (env_draw (w_env w)) as [n e]. eauto 10. }
  destruct (fields !! PKColumn col) as [[| | | |[]|]|];
    first [exists f, w'; split_and!; [done|done|by right] | exists fields, w; split_and!; [done|done|by left; split_and!; [intros [_ ?]|..]]].
Qed.

(** The key is generated without touching the owner a request is stamped with. *)
Lemma fill_pk_owner (R : relation Server) `{!PreOrder R} col subj fields (k : Row -> M Server Response) :
  subj <> EmptyString -> fields !! OwnerColumnName = Some (VText subj) ->
  (forall f, f !! OwnerColumnName = Some (VText subj) -> within R (k f)) ->
  within R (fill_pk col fields ≫= k).
Proof.
  intros Hne Hf Hk w. unfold mbind, M_bind.
  destruct (fill_pk_ok col fields w) as (f & w' & -> & <- & Hor). apply Hk.
  destruct Hor as [(_ & -> & _)|([_ Hm] & id & ->)]; [done|].
  rewrite lookup_insert_ne; [done|]. intros Heq. rewrite Heq, Hf in Hm. by destruct subj.
Qed.


(** ** What a PATCH may change *)

(** The row keeps its rowid, its key and its owner, and it is the same row unless
    the request names it and, under the rule "owner", its subject owns it. *)
Definition patched (col : Collection) (subj : string) (t : Table) (id : value) (r r' : Z * Row) : Prop :=
  r'.1 = r.1 /\ cell r'.2 (PKColumn col) = cell r.2 (PKColumn col) /\
  (OwnerColumn col <> EmptyString -> cell r'.2 (OwnerColumn col) = cell r.2 (OwnerColumn col)) /\
  (r' <> r -> holds t r.2 (PKColumn col, id) = true /\
     (UpdateRule col = RuleOwner -> holds t r.2 (OwnerColumn col, VText subj) = true)).

Definition patches (col : Collection) (subj : string) (id : value) (s s' : Server) : Prop :=
  reg s' = reg s /\ policies (app s') = policies (app s) /\
  (forall n, n <> CName col -> tables (app s') !! n = tables (app s) !! n) /\
  forall t, tables (app s) !! CName col = Some t -> sync_with (CName col) t col ->
    exists rows, tables (app s') !! CName col = Some (mkTable (t_columns t) rows) /\
      Forall2 (patched col subj t id) (t_rows t) rows.

Lemma patched_refl col subj t id r : patched col subj t id r r.
Proof. by unfold patched. Qed.

Lemma patched_trans col subj t id r1 r2 r3 :
  patched col subj t id r1 r2 -> patched col subj t id r2 r3 -> patched col subj t id r1 r3.
Proof.
  intros (I1 & P1 & O1 & C1) (I2 & P2 & O2 & C2). unfold patched. split_and!.
  - congruence.
  - congruence.
  - intros Ho. by rewrite O2, O1.
  - intros Hne. destruct (decide (r2 = r1)) as [->|]; auto.
Qed.

Lemma sync_with_rows name t rows col :
  sync_with name t col -> sync_with name (mkTable (t_columns t) rows) col.
Proof. intros [? ? ? ? ? ?]. constructor; assumption. Qed.

#[local] Instance patches_preorder col subj id : PreOrder (patches col subj id).
Proof.
  split.
  - intros s. unfold patches. split_and!; [done..|]. intros t Ht _. exists (t_rows t).
    split; [by destruct t|]. apply Forall_Forall2_diag, Forall_forall. intros x _. apply patched_refl.
  - intros s1 s2 s3 (R1 & P1 & T1 & F1) (R2 & P2 & T2 & F2). unfold patches. split_and!; [congruence|congruence| |].
    + intros n Hn. by rewrite T2, T1.
    + intros t Ht Hs. destruct (F1 t Ht Hs) as (rows2 & Ht2 & H12).
      destruct (F2 _ Ht2) as (rows3 & Ht3 & H23); [by apply sync_with_rows|].
      exists rows3. split; [done|]. eapply Forall2_trans; [|exact H12|exact H23].
      intros r1 r2 r3 Hr1 Hr2. by apply patched_trans with r2.
Qed.

Lemma patches_publish col subj id c ev o : within (patches col subj id) (publish c ev o).
Proof.
  intros w. unfold publish. destruct (negb _ || _); [reflexivity|]. simpl.
  unfold patches. simpl. split_and!; [done..|]. intros t Ht _. exists (t_rows t).
  split; [by destruct t|]. apply Forall_Forall2_diag, Forall_forall. intros x _. apply patched_refl.
Qed.

Lemma selected_scoped col subj t id scoped r :
  selected t ((PKColumn col, id) :: owner_cond col scoped subj) r = true ->
  holds t r.2 (PKColumn col, id) = true /\ (scoped = true -> holds t r.2 (OwnerColumn col, VText subj) = true).
Proof.
  unfold selected, owner_cond. destruct scoped; simpl; rewrite ?andb_true_r, ?andb_true_iff; [tauto|].
  intros H. by split.
Qed.

Lemma patches_update col subj id sent :
  within (patches col subj id)
    (update_where (CName col) (strip_immutable col sent)
       ((PKColumn col, id) :: owner_cond col (bool_decide (UpdateRule col = RuleOwner)) subj)).
Proof.
  apply within_on_table; [apply _|]. intros s t a t' Ht _ Hrun.
  destruct (update_rows t _ _ [] (t_rows t)) as [|rows] eqn:Hu; [done|]. injection Hrun as _ <-.
  apply update_rows_spec in Hu. simpl in Hu. subst rows.
  unfold patches, with_table. simpl. split_and!; [done..|intros n Hn; by rewrite lookup_insert_ne|].
  intros t0 Ht0 Hs. rewrite Ht in Ht0. injection Ht0 as <-. rewrite lookup_insert_eq. eexists. split; [done|].
  apply Forall2_fmap_r, Forall_Forall2_diag, Forall_forall. intros x _. cbn [compose].
  match goal with |- context [selected t ?c x] => destruct (selected t c x) eqn:Hsel end; [|apply patched_refl].
  apply selected_scoped in Hsel as [Hpk Hown]. unfold patched. simpl. split_and!.
  - done.
  - apply set_fields_cell; [by eapply sync_pk|apply strip_immutable_pk].
  - intros Ho. apply set_fields_cell.
    + rewrite (sync_owner _ _ _ Hs) in *. by apply owner_of_nonempty in Ho as [-> ?].
    + unfold strip_immutable. rewrite bool_decide_eq_false_2 by done. by rewrite lookup_delete_eq.
  - intros _. split; [done|]. intros Hr. apply Hown. by apply bool_decide_eq_true_2.
Qed.

#[local] Hint Resolve patches_publish patches_update : within.

(** Whatever a PATCH sends and whatever fails, every row keeps its rowid, key
    and owner; only rows with the key of the request change and, under the rule
    "owner", only those of the caller; no other table changes. *)
Theorem handleUpdate_immutable r w col :
  reg (w_db w) !! path_collection r = Some col ->
  patches col (subject r) (VText (path_id r)) (w_db w) (w_db (handleUpdate r w).2).
Proof.
  intros Hc. unfold handleUpdate. rewrite (with_collection_run _ _ _ _ col) by done.
  case_bool_decide; [reflexivity|].
  match goal with |- patches _ _ _ _ (w_db (?m w).2) => assert (within (patches col (subject r) (VText (path_id r))) m) as Hm;
    [|exact (Hm w)] end.
  within_solve.
Qed.

(** ** Creation *)

(** The answer is no success and carries no record. *)
Definition refused (resp : Response) : Prop := status resp <> 201%Z /\ records_of resp = [].

Lemma decodeBody_error max r col resp : decodeBody max r col = inl resp -> refused resp.
Proof.
  unfold decodeBody. destruct (max <? body_len r)%Z; [by intros [= <-]|].
  destruct (body r); [by intros [= <-]|done|]. destruct (omap _ _); [done|by intros [= <-]].
Qed.

Lemma writeWriteError_refused e : refused (writeWriteError e).
Proof. unfold writeWriteError. by repeat case_match. Qed.

(** What a creation stores for the fields it decoded. *)
Definition stored (col : Collection) (subj : string) (t : Table) (sent : Row) (row : Z * Row) : Prop :=
  (OwnerColumn col <> EmptyString -> owned_by subj row) /\
  forall k v d, sent !! k = Some v -> k <> PKColumn col -> k <> OwnerColumn col ->
    decl_of t k = Some d -> rowid_alias t <> Some k -> cell row.2 k = coerce d v.

(** The answer to a creation, and the event it publishes. *)
Definition announced (col : Collection) (s s' : Server) (resp : Response) : Prop :=
  (resp = internal_error /\ outbox s' = outbox s) \/
  exists rec, resp = mkResponse 201 (BRecord rec) /\
    outbox s' = outbox s ++
      if negb (broker s) || bool_decide (ReadRule col = RuleDenied) then []
      else [(EvCreated (CName col) rec, ownerGateValue col rec)].

Lemma publish_run col ev o w :
  exists w', publish col ev o w = (Ok tt, w') /\
    app (w_db w') = app (w_db w) /\ reg (w_db w') = reg (w_db w) /\
    outbox (w_db w') = outbox (w_db w) ++
      if negb (broker (w_db w)) || bool_decide (ReadRule col = RuleDenied) then [] else [(ev, o)].
Proof.
  unfold publish. destruct (negb _ || _).
  - exists w. by rewrite app_nil_r.
  - eexists. done.
Qed.

(** The refetch, the event and the answer. *)
Lemma announce_run col pkv (s : Server) w resp w' :
  w_db w = s ->
  try_or on_internal (fetchByPK col pkv false EmptyString) (fun record =>
    match record with
    | None => mret internal_error
    | Some rec => publish col (EvCreated (CName col) rec) (ownerGateValue col rec) ;; mret (mkResponse 201 (BRecord rec))
    end) w = (Ok resp, w') ->
  app (w_db w') = app s /\ reg (w_db w') = reg s /\ announced col s (w_db w') resp /\
  forall rec, content resp = BRecord rec ->
    exists t, tables (app s) !! CName col = Some t /\ head (result_rows t [(PKColumn col, pkv)]) = Some rec.
Proof.
  intros <- [(e & H & ->)|(record & w1 & H & Hk)]%try_or_ok.
  - pose proof (fetchByPK_reads col pkv false EmptyString w) as Hf. rewrite H in Hf. simpl in Hf. rewrite Hf.
    split; [done|]. split; [done|]. split; [by left|done].
  - apply fetchByPK_ok in H as (Hw & t & Ht & _ & Hrec). destruct record as [rec|]; [|run_inv; rewrite Hw].
    + apply bind_ok in Hk as (u & w2 & Hp & Hk). run_inv.
      destruct (publish_run col (EvCreated (CName col) rec) (ownerGateValue col rec) w1) as (w3 & Hp' & Ha & Hr & Ho).
      rewrite Hp in Hp'. injection Hp' as _ <-. rewrite Hw in Ha, Hr, Ho. split; [done|]. split; [done|]. split.
      * right. by exists rec.
      * simpl. intros ? [= <-]. exists t. split; [done|by symmetry].
    + split; [done|]. split; [done|]. split; [by left|done].
Qed.

Lemma fill_pk_lookup col (fields f : Row) k :
  f = fields \/ (exists id, f = <[PKColumn col := VText id]> fields) -> k <> PKColumn col -> f !! k = fields !! k.
Proof. intros [->|[id ->]] Hk; [done|]. by rewrite lookup_insert_ne. Qed.

(** The fields bound by the INSERT, next to the ones sent. *)
Definition bound (col : Collection) (subj : string) (sent f : Row) : Prop :=
  (OwnerColumn col <> EmptyString -> f !! OwnerColumn col = Some (VText subj)) /\
  forall k, k <> PKColumn col -> k <> OwnerColumn col -> f !! k = sent !! k.

(** The key bound is the one stamped or sent, or a generated text. *)
Definition key_bound (col : Collection) (subj : string) (sent f : Row) : Prop :=
  (~ pk_missing col (stamp_owner col subj sent) /\
     f !! PKColumn col = stamp_owner col subj sent !! PKColumn col) \/
  exists k, f !! PKColumn col = Some (VText k).

Lemma bound_fields name t col subj sent f w w' :
  sync_with name t col -> subj <> EmptyString ->
  fill_pk col (stamp_owner col subj sent) w = (Ok f, w') ->
  w_db w' = w_db w /\ bound col subj sent f /\ key_bound col subj sent f.
Proof.
  intros Hs Hne Hf. destruct (fill_pk_ok col (stamp_owner col subj sent) w) as (f' & w1 & Hf' & Hw & Hor).
  rewrite Hf in Hf'. injection Hf' as <- <-. split; [done|]. split; [split|].
  - intros Ho. pose proof (stamp_owner_lookup col subj sent _ _ Hs Ho) as Hl.
    rewrite (sync_owner _ _ _ Hs) in Ho |- *. apply owner_of_nonempty in Ho as [-> _].
    destruct Hor as [(_ & -> & _)|([_ Hm] & id & ->)]; [done|].
    rewrite lookup_insert_ne; [done|]. intros Heq. rewrite Heq, Hl in Hm. by destruct subj.
  - intros k Hk Ho. rewrite (fill_pk_lookup col (stamp_owner col subj sent)); [|naive_solver|done].
    unfold stamp_owner. case_bool_decide; [done|]. by rewrite lookup_insert_ne.
  - destruct Hor as [(Hm & -> & _)|(_ & id & ->)]; [by left|]. right. exists id. apply lookup_insert_eq.
Qed.

Lemma bound_stored name t col subj sent f rowid row :
  sync_with name t col -> NoDup (tc_name <$> t_columns t) -> bound col subj sent f ->
  assign_rowid t (new_row t f) = inr (rowid, row) -> stored col subj t sent (rowid, row).
Proof using laws.
  intros Hs Hnd [Hb1 Hb2] Ha. split.
  - intros Ho. specialize (Hb1 Ho). rewrite (sync_owner _ _ _ Hs) in Ho, Hb1.
    apply owner_of_nonempty in Ho as [Heq Hin]. rewrite Heq in Hb1.
    apply (inserted_owned t f); [apply Hs|done..].
  - intros k v d Hk Hpk Ho Hd Hal. simpl. rewrite <- (Hb2 k) in Hk by done.
    unfold cell. rewrite (assign_rowid_inr _ _ _ _ Ha) by done. by apply (new_row_cell t f k).
Qed.

(** Everything a creation does, once its row is in. *)
Record creation (r : Request) (s s' : Server) (col : Collection) (t : Table) (resp : Response)
    (sent f : Row) (row : Z * Row) : Prop := mkCreation {
  cr_decoded : decodeBody (maxBodyBytes s) r col = inr sent;
  cr_bound : bound col (subject r) sent f;
  cr_key : key_bound col (subject r) sent f;
  cr_rowid : assign_rowid t (new_row t f) = inr row;
  cr_valid : violation (t_columns t) ((t_rows t).*2) row.2 = None;
  cr_app : app s' = app (with_table (path_collection r) (mkTable (t_columns t) (t_rows t ++ [row])) s);
  cr_reg : reg s' = reg s;
  cr_announced : announced col s s' resp;
  cr_record : forall rec, content resp = BRecord rec ->
    head (result_rows (mkTable (t_columns t) (t_rows t ++ [row]))
           [(PKColumn col, if PKIsInteger col then VInt row.1 else default VNull (f !! PKColumn col))]) = Some rec;
}.

Lemma handleCreate_run r w col t resp w' :
  in_sync (w_db w) -> subject r <> EmptyString ->
  reg (w_db w) !! path_collection r = Some col -> tables (app (w_db w)) !! path_collection r = Some t ->
  handleCreate r w = (Ok resp, w') ->
  (app (w_db w') = app (w_db w) /\ outbox (w_db w') = outbox (w_db w) /\ refused resp) \/
  exists sent f row, creation r (w_db w) (w_db w') col t resp sent f row.
Proof.
  intros Hsync Hsub Hc Ht. destruct (Hsync _ _ Hc) as (t' & Ht' & Hs). rewrite Ht in Ht'. injection Ht' as <-.
  unfold handleCreate. rewrite (with_collection_run _ _ _ _ col) by done.
  case_bool_decide; [intros [= <- <-]; by left|]. intros H1.
  apply bind_ok in H1 as (s0 & w0 & Hg & H1). injection Hg as <- <-.
  destruct (decodeBody _ r col) as [resp0|sent] eqn:Hdec.
  { run_inv. left. split_and!; [done|done|]. by eapply decodeBody_error. }
  apply bind_ok in H1 as (f & w1 & Hf & H1).
  apply (bound_fields (path_collection r) t) in Hf as (Hw1 & Hb & Hkey); [|done|done].
  apply try_or_ok in H1 as [(e & H1 & ->)|(rowid & w2 & Hins & H1)].
  { apply exec_err in H1. rewrite H1, Hw1. left. split_and!; [done|done|]. apply writeWriteError_refused. }
  right. rewrite (sync_name _ _ _ Hs) in Hins.
  apply (insert_into_ok _ _ (w_db w) _ (w_db w2)) in Hins as (t1 & r1 & row & Ht1 & Hk & -> & Ha & Hv & Hw2); [|done|done].
  rewrite Ht in Ht1. injection Ht1 as <-.
  apply (announce_run _ _ (w_db w2)) in H1 as (Happ & Hreg & Hann & Hrec); [|done].
  exists sent, f, (rowid, row). rewrite Hw2 in *. constructor; [done..|].
  intros rec Hcon. destruct (Hrec rec Hcon) as (t2 & Ht2 & Hh). rewrite (sync_name _ _ _ Hs) in Ht2.
  unfold with_table in Ht2. simpl in Ht2. rewrite lookup_insert_eq in Ht2. by injection Ht2 as <-.
Qed.

(** C23: A creation either leaves the tables alone and answers with an error, or it
    adds exactly one row, owned by the caller and holding what was sent, and
    then answers with the row it reads back, publishing it once. *)
Theorem handleCreate_exact r w col t resp w' :
  in_sync (w_db w) -> distinct_columns (path_collection r) (w_db w) -> subject r <> EmptyString ->
  reg (w_db w) !! path_collection r = Some col -> tables (app (w_db w)) !! path_collection r = Some t ->
  handleCreate r w = (Ok resp, w') ->
  (app (w_db w') = app (w_db w) /\ outbox (w_db w') = outbox (w_db w) /\ refused resp) \/
  exists sent row, decodeBody (maxBodyBytes (w_db w)) r col = inr sent /\
    app (w_db w') = app (with_table (path_collection r) (mkTable (t_columns t) (t_rows t ++ [row])) (w_db w)) /\
    stored col (subject r) t sent row /\ announced col (w_db w) (w_db w') resp.
Proof using laws.
  intros Hsync Hnd Hsub Hc Ht Hrun. destruct (Hsync _ _ Hc) as (t' & Ht' & Hs). rewrite Ht in Ht'. injection Ht' as <-.
  destruct (handleCreate_run r w col t resp w') as [?|(sent & f & [rowid row] & [])]; [done..|by left|].
  right. exists sent, (rowid, row). split_and!; [done|done| |done]. eapply bound_stored; eauto.
Qed.

(** *** The record read back *)

Lemma known_key t pk : single_pk t pk -> decl_of t (tc_name pk) = Some (tc_decl pk) \/ ~ NoDup (tc_name <$> t_columns t).
Proof.
  intros Hpk. destruct (decide (NoDup (tc_name <$> t_columns t))) as [Hnd|]; [left|by right].
  destruct (decl_of_is_Some t (tc_name pk)) as [d Hd]; [by apply list_elem_of_fmap_2, single_pk_in|].
  rewrite Hd. apply decl_of_Some in Hd as (c & Hc & Hn & <-).
  by rewrite (unique_on_eq tc_name (t_columns t) c pk) by (done || by apply single_pk_in).
Qed.

Lemma result_rows_unique t key rows row pk extra :
  single_pk t pk -> columnAffinity (tc_decl pk) = TEXT -> NoDup (tc_name <$> t_columns t) ->
  violation (t_columns t) rows.*2 row.2 = None -> cell row.2 (tc_name pk) = VText key ->
  selected t extra row = true ->
  result_rows (mkTable (t_columns t) (rows ++ [row])) ((tc_name pk, VText key) :: extra) = [full_row t row.2].
Proof using laws.
  intros Hpk Haff Hnd Hv Hkey Hex. unfold result_rows. simpl.
  destruct (known_key t pk Hpk) as [Hd|]; [|done].
  assert (forall x : Z * Row,
    selected (mkTable (t_columns t) (rows ++ [row])) ((tc_name pk, VText key) :: extra) x = true <->
    cell x.2 (tc_name pk) = VText key /\ selected t extra x = true) as Hsel.
  { intros x. change (holds t x.2 (tc_name pk, VText key) && selected t extra x = true <->
                      cell x.2 (tc_name pk) = VText key /\ selected t extra x = true).
    unfold holds. simpl. rewrite Hd, matches_text, andb_true_iff, bool_decide_eq_true by done. done. }
  rewrite filter_app, filter_none, filter_cons_True; [done|by apply Hsel|].
  apply Forall_forall. intros x Hx Hsx. apply Hsel in Hsx as [Hsx _]. unfold cell in Hsx, Hkey.
  destruct (row.2 !! tc_name pk) as [v|] eqn:Hr; [|done]. simpl in Hkey. subst v.
  apply (violation_pk (t_columns t) rows.*2 row.2 x.2 pk key);
    [apply Hpk|done|done|by apply list_elem_of_fmap_2|done|].
  destruct (x.2 !! tc_name pk); [|done]. simpl in Hsx. by subst.
Qed.

(** The key of a new row in a table with a text key. *)
Lemma text_key name col t pk subj sent f row :
  sync_with name t col -> single_pk t pk -> columnAffinity (tc_decl pk) = TEXT -> NoDup (tc_name <$> t_columns t) ->
  (forall v, sent !! PKColumn col = Some v -> v = VNull \/ exists k, v = VText k) ->
  key_bound col subj sent f -> assign_rowid t (new_row t f) = inr row ->
  PKIsInteger col = false /\ exists k, f !! PKColumn col = Some (VText k) /\ cell row.2 (PKColumn col) = VText k.
Proof using laws.
  intros Hs Hpk Haff Hnd Hsent Hkey Ha. destruct (sync_key _ _ _ Hs) as (pk' & Hpk' & Hname & Hint).
  rewrite (single_pk_unique _ _ _ Hpk' Hpk) in *.
  destruct (known_key t pk Hpk) as [Hd|]; [|done].
  assert (PKIsInteger col = false) as Hni.
  { rewrite Hint. destruct (Contains (ToUpper (tc_decl pk)) "INT") eqn:E; [|done].
    unfold columnAffinity in Haff. by rewrite E in Haff. }
  split; [done|].
  assert (exists k, f !! PKColumn col = Some (VText k)) as [k Hk].
  { destruct Hkey as [[Hm ->]|]; [|done]. unfold stamp_owner, pk_missing in *.
    destruct (decide (OwnerColumn col = EmptyString)) as [Ho|Ho];
      [rewrite bool_decide_eq_true_2 in * by done|rewrite bool_decide_eq_false_2 in * by done].
    - destruct (sent !! PKColumn col) as [v|] eqn:Hv; [|by destruct Hm].
      destruct (Hsent v eq_refl) as [->|[k ->]]; [by destruct Hm|by exists k].
    - destruct (decide (OwnerColumn col = PKColumn col)) as [->|Hne]; [rewrite lookup_insert_eq; by eexists|].
      rewrite lookup_insert_ne in * by done. destruct (sent !! PKColumn col) as [v|] eqn:Hv; [|by destruct Hm].
      destruct (Hsent v eq_refl) as [->|[k ->]]; [by destruct Hm|by exists k]. }
  exists k. split; [done|]. rewrite Hname in *. destruct row as [rowid row]. unfold cell. simpl.
  rewrite (assign_rowid_inr _ _ _ _ Ha).
  - fold (cell (new_row t f) (tc_name pk)). rewrite (new_row_cell _ _ _ _ _ Hk Hd). by apply coerce_text.
  - intros Hal. by eapply rowid_alias_not_text.
Qed.

(** In a table with a text key, what a creation answers with can be read back:
    a GET by the caller under the key of the answer gives the same record. *)
Theorem created_is_readable r w col t pk resp w' rec sent g :
  in_sync (w_db w) -> distinct_columns (path_collection r) (w_db w) -> subject r <> EmptyString ->
  reg (w_db w) !! path_collection r = Some col -> tables (app (w_db w)) !! path_collection r = Some t ->
  single_pk t pk -> columnAffinity (tc_decl pk) = TEXT -> ReadRule col <> RuleDenied ->
  decodeBody (maxBodyBytes (w_db w)) r col = inr sent ->
  (forall v, sent !! PKColumn col = Some v -> v = VNull \/ exists k, v = VText k) ->
  handleCreate r w = (Ok resp, w') -> content resp = BRecord rec -> quiet w' ->
  path_collection g = path_collection r -> subject g = subject r ->
  rec !! PKColumn col = Some (VText (path_id g)) ->
  handleGet g w' = (Ok (mkResponse 200 (BRecord rec)), w').
Proof using laws.
  intros Hsync Hnd Hsub Hc Ht Hpk Haff Hrd Hdec Hsent Hrun Hcon Hq Hgc Hgs Hid.
  destruct (Hsync _ _ Hc) as (t' & Ht' & Hs). rewrite Ht in Ht'. injection Ht' as <-. specialize (Hnd t Ht).
  destruct (handleCreate_run r w col t resp w') as [(Hsame & _ & Hst)|(sent' & f & row & Hcr)]; [done..| |].
  { destruct Hst as [_ Hst]. unfold records_of in Hst. by rewrite Hcon in Hst. }
  destruct Hcr as [Hdec' Hb Hkb Ha Hv Happ Hreg Hann Hrec]. rewrite Hdec in Hdec'. injection Hdec' as <-.
  destruct (text_key _ col t pk _ _ _ _ Hs Hpk Haff Hnd Hsent Hkb Ha) as (Hni & k & Hk & Hcell).
  specialize (Hrec rec Hcon). rewrite Hni, Hk in Hrec. simpl in Hrec.
  destruct (sync_key _ _ _ Hs) as (pk' & Hpk' & Hname & _). rewrite (single_pk_unique _ _ _ Hpk' Hpk) in Hname.
  rewrite Hname in *.
  rewrite (result_rows_unique t k (t_rows t) row pk []) in Hrec by done. injection Hrec as <-.
  rewrite full_row_lookup, decide_True, Hcell in Hid by (by apply list_elem_of_fmap_2, single_pk_in). injection Hid as Hid.
  unfold handleGet. rewrite (with_collection_run _ _ _ _ col) by (by rewrite Hreg, Hgc).
  rewrite bool_decide_eq_false_2 by done. rewrite Hgs, <- Hid.
  set (extra := owner_cond col (bool_decide (ReadRule col = RuleOwner)) (subject r)).
  assert (selected t extra row = true /\ known_columns t extra.*1 = true) as [Hex Hkn].
  { subst extra. case_bool_decide as Ho; [|done].
    destruct (owner_scoped col _ t (subject r) Hs) as (-> & Htext & Hin); [rewrite Ho; left|]. split.
    - unfold selected. simpl. rewrite holds_owner, andb_true_r by done. apply bool_decide_eq_true.
      destruct row as [rowid row']. destruct (bound_stored _ t col (subject r) sent f rowid row' Hs Hnd Hb Ha) as [Hown _].
      apply Hown, (sync_rules _ _ _ Hs). rewrite Ho. left.
    - simpl. rewrite andb_true_r. apply bool_decide_eq_true. by apply decl_of_is_Some. }
  unfold try_or, fetchByPK, mbind, M_bind. fold extra. rewrite Hname, (sync_name _ _ _ Hs).
  rewrite (select_where_quiet _ _ (mkTable (t_columns t) (t_rows t ++ [row]))); [|done| |].
  - by rewrite (result_rows_unique t _ (t_rows t) row pk extra).
  - rewrite Happ. apply lookup_insert_eq.
  - change (known_columns t (tc_name pk :: extra.*1) = true). unfold known_columns in *. simpl. rewrite Hkn, andb_true_r.
    apply bool_decide_eq_true. by apply decl_of_is_Some, list_elem_of_fmap_2, single_pk_in.
Qed.

(** ** Accounts *)

Lemma elem_of_ownedCollections (rg : registry) c :
  c ∈ ownedCollections rg <-> OwnerColumn c <> EmptyString /\ exists name, rg !! name = Some c.
Proof.
  unfold ownedCollections. rewrite merge_sort_Permutation, list_elem_of_filter, list_elem_of_fmap. split.
  - intros [Ho ([name c'] & -> & Hin%elem_of_map_to_list)]. eauto.
  - intros [Ho [name Hn]]. split; [done|]. exists (name, c). split; [done|]. by apply elem_of_map_to_list.
Qed.

(** The table without the rows of a subject. *)
Definition erase (subj : string) (t : Table) : Table :=
  mkTable (t_columns t) (filter (fun r => ~ owned_by subj r) (t_rows t)).

Lemma erase_idemp subj t : erase subj (erase subj t) = erase subj t.
Proof. unfold erase. simpl. f_equal. apply filter_weaken. tauto. Qed.

(** The collections of a list are owned and in step with the tables. *)
Definition owned_in_sync (s : Server) (cols : list Collection) : Prop :=
  Forall (fun c => OwnerColumn c <> EmptyString /\
            exists t, tables (app s) !! CName c = Some t /\ sync_with (CName c) t c) cols.

Lemma in_sync_owned s : in_sync s -> owned_in_sync s (ownedCollections (reg s)).
Proof.
  intros Hs. apply Forall_forall. intros c [Ho [name Hc]]%elem_of_ownedCollections. split; [done|].
  destruct (Hs name c Hc) as (t & Ht & Hsync). pose proof (sync_name _ _ _ Hsync) as <-. eauto.
Qed.

Lemma owner_selected c t subj row :
  OwnerColumn c <> EmptyString -> sync_with (CName c) t c ->
  selected t [(OwnerColumn c, VText subj)] row = true <-> owned_by subj row.
Proof using laws.
  intros Ho Hs. rewrite (sync_owner _ _ _ Hs) in *. apply owner_of_nonempty in Ho as [-> Hin].
  unfold selected. simpl. rewrite andb_true_r, holds_owner, bool_decide_eq_true; [done|apply Hs|done].
Qed.

Definition own_rows (subj : string) (t : Table) : list Row :=
  (fun r : Z * Row => full_row t r.2) <$> filter (owned_by subj) (t_rows t).

Lemma export_loop_ok subj cols : forall out w res w',
  owned_in_sync (w_db w) cols -> export_loop cols subj out w = (Ok res, w') ->
  w_db w' = w_db w /\
  res = out ++ ((fun c => (CName c, from_option (own_rows subj) [] (tables (app (w_db w)) !! CName c)))
                 <$> filter (fun c => ReadRule c <> RuleDenied) cols).
Proof using laws.
  induction cols as [|c cols IH]; intros out w res w' Hs H; cbn [export_loop] in H.
  - run_inv. by rewrite app_nil_r.
  - apply Forall_cons in Hs as [(Ho & t & Ht & Hs) Hcols].
    destruct (decide (ReadRule c = RuleDenied)) as [Hd|Hd].
    + rewrite bool_decide_eq_true_2 in H by done. rewrite filter_cons_False by tauto. by apply IH.
    + rewrite bool_decide_eq_false_2 in H by done. rewrite filter_cons_True by done.
      apply bind_ok in H as (rs & w1 & H1 & H). apply select_where_ok in H1 as (Hw & t' & Ht' & _ & ->).
      rewrite Ht in Ht'. injection Ht' as <-. rewrite <- Hw in Hcols, Ht |- *.
      destruct (IH _ _ _ _ Hcols H) as [-> ->]. split; [done|]. rewrite fmap_cons, <- app_assoc, Ht.
      simpl. do 3 f_equal. unfold result_rows, own_rows. f_equal. apply filter_ext_in. intros row _.
      by apply owner_selected.
Qed.

(** The export of an account is exactly its own rows of every collection that
    has owners and may be read. *)
Theorem ExportOwned_exact subj w out w' :
  in_sync (w_db w) -> ExportOwned subj w = (Ok out, w') ->
  w_db w' = w_db w /\
  out = (fun c => (CName c, from_option (own_rows subj) [] (tables (app (w_db w)) !! CName c)))
          <$> filter (fun c => ReadRule c <> RuleDenied) (ownedCollections (reg (w_db w))).
Proof using laws.
  intros Hs H. unfold ExportOwned in H. apply bind_ok in H as (s & w1 & Hg & H). injection Hg as <- <-.
  by apply export_loop_ok in H; [|apply in_sync_owned].
Qed.

(** *** Erasure *)

(** Some tables of owned collections lost the rows of the subject, the others are
    as they were. *)
Definition erased (subj : string) (names : list string) (s s' : Server) : Prop :=
  reg s' = reg s /\ broker s' = broker s /\
  forall n, tables (app s') !! n =
    if decide (n ∈ names) then erase subj <$> tables (app s) !! n else tables (app s) !! n.

Lemma for_each_publish_run {A} col (ev : A -> Event) o l : forall w,
  exists w', for_each (fun a => publish col (ev a) o) l w = (Ok tt, w') /\
    app (w_db w') = app (w_db w) /\ reg (w_db w') = reg (w_db w) /\ broker (w_db w') = broker (w_db w).
Proof.
  induction l as [|a l IH]; intros w; cbn [for_each]; [by exists w|].
  unfold mbind, M_bind, publish at 1. destruct (negb _ || _); [apply IH|].
  destruct (IH (mkWorld (w_env w) (add_event (ev a, o) (w_db w)))) as (w' & -> & Ha & Hr & Hb). by exists w'.
Qed.

Lemma pkValues_reads col subj w : w_db (pkValuesForOwner col subj w).2 = w_db w.
Proof.
  unfold pkValuesForOwner, mbind, M_bind.
  pose proof (select_where_reads (CName col) [(OwnerColumn col, VText subj)] w) as H.
  by destruct (select_where _ _ w) as [[rs|e] w'].
Qed.

(** One collection: nothing happened on an error. *)
Lemma delete_owned_in_run subj c w r w' t :
  OwnerColumn c <> EmptyString -> tables (app (w_db w)) !! CName c = Some t -> sync_with (CName c) t c ->
  delete_owned_in subj c w = (r, w') ->
  match r with
  | Ok _ => erased subj [CName c] (w_db w) (w_db w')
  | Err _ => w_db w' = w_db w
  end.
Proof using laws.
  intros Ho Ht Hs H. unfold delete_owned_in, get_server in H. unfold mbind, M_bind in H.
  assert (w_db ((if broker (w_db w) then pkValuesForOwner c subj else mret []) w).2 = w_db w) as Hids
    by (destruct (broker _); [apply pkValues_reads|done]).
  destruct ((if broker (w_db w) then pkValuesForOwner c subj else mret []) w) as [[ids|e] w1]; [|injection H as <- <-; done]. simpl in Hids.
  destruct (delete_where (CName c) _ w1) as [[n|e] w2] eqn:Hd.
  2:{ injection H as <- <-. apply exec_err in Hd. congruence. }
  destruct (for_each_publish_run c (fun id => EvDeleted (CName c) id) subj ids w2) as (w3 & Hp & Ha & Hr & Hb).
  rewrite Hp in H. injection H as <- <-.
  apply exec_ok in Hd. apply on_table_inr in Hd as (t1 & t2 & Ht1 & _ & Hf & Hw2). injection Hf as _ <-.
  rewrite Hids in Hw2, Ht1. rewrite Ht in Ht1. injection Ht1 as <-. unfold erased.
  rewrite Ha, Hr, Hb, Hw2. simpl. split_and!; [done|done|]. intros k. destruct (decide (k ∈ [CName c])) as [Hk|Hk].
  - apply list_elem_of_singleton in Hk. subst k. rewrite lookup_insert_eq, Ht. simpl. unfold erase. do 2 f_equal.
    apply filter_ext_in. intros row _. rewrite <- (owner_selected c t subj row Ho Hs). by rewrite not_true_iff_false.
  - rewrite lookup_insert_ne; [done|]. intros <-. destruct Hk. left.
Qed.

Lemma erased_sync subj names s s' cols :
  erased subj names s s' -> owned_in_sync s cols -> owned_in_sync s' cols.
Proof.
  intros (_ & _ & He) Hs. eapply Forall_impl; [exact Hs|]. intros c (Ho & t & Ht & Hsync). split; [done|].
  rewrite He, Ht. destruct (decide _); [|by exists t]. exists (erase subj t). split; [done|].
  by apply sync_with_rows.
Qed.

Lemma erased_cons subj n ns s1 s2 s3 :
  erased subj [n] s1 s2 -> erased subj ns s2 s3 -> erased subj (n :: ns) s1 s3.
Proof.
  intros (R1 & B1 & E1) (R2 & B2 & E2). split_and!; [congruence|congruence|]. intros k. rewrite E2, E1.
  destruct (decide (k ∈ [n])) as [Hk|Hk], (decide (k ∈ ns)) as [Hk'|Hk'].
  - rewrite decide_True by set_solver. destruct (tables (app s1) !! k); [|done]. simpl. by rewrite erase_idemp.
  - by rewrite decide_True by set_solver.
  - by rewrite decide_True by set_solver.
  - by rewrite decide_False by set_solver.
Qed.

Lemma erased_nil subj s : erased subj [] s s.
Proof.
  split_and!; [done..|]. intros n. by rewrite decide_False by apply not_elem_of_nil.
Qed.

Lemma delete_loop_run subj cols : forall w r w',
  owned_in_sync (w_db w) cols -> for_each (delete_owned_in subj) cols w = (r, w') ->
  exists k, erased subj (take k (CName <$> cols)) (w_db w) (w_db w') /\
    match r with Ok _ => k = length cols | Err _ => k < length cols end.
Proof using laws.
  induction cols as [|c cols IH]; intros w r w' Hs H; cbn [for_each] in H.
  - injection H as <- <-. exists 0. split; [apply erased_nil|done].
  - pose proof Hs as [(Ho & t & Ht & Hsync) Hcols]%Forall_cons. unfold mbind, M_bind in H.
    destruct (delete_owned_in subj c w) as [[u|e] w1] eqn:H1.
    + apply (delete_owned_in_run subj c w _ _ t) in H1; [|done..].
      destruct (IH w1 r w') as (k & Hk & Hr); [by apply (erased_sync subj [CName c] (w_db w))|exact H|].
      exists (S k). split; [exact (erased_cons subj (CName c) (take k (CName <$> cols)) _ _ _ H1 Hk)|]. simpl. destruct r; lia.
    + injection H as <- <-. apply (delete_owned_in_run subj c w _ _ t) in H1; [|done..]. rewrite H1.
      exists 0. split; [apply erased_nil|simpl; lia].
Qed.

(** Erasing an account removes exactly its rows from exactly the collections
    that have owners; cut short by a failure it has done so for the first of
    them in name order, so that repeating it completes it. *)
Theorem DeleteOwned_exact subj w r w' :
  in_sync (w_db w) -> DeleteOwned subj w = (r, w') ->
  exists k, erased subj (take k (CName <$> ownedCollections (reg (w_db w)))) (w_db w) (w_db w') /\
    match r with
    | Ok _ => k = length (ownedCollections (reg (w_db w)))
    | Err _ => k < length (ownedCollections (reg (w_db w)))
    end.
Proof using laws. intros Hs H. apply delete_loop_run; [by apply in_sync_owned|exact H]. Qed.

(** ** Events *)

(** The state gained events that all satisfy [P], and lost none. *)
Definition publishes (P : Event * string -> Prop) (s s' : Server) : Prop :=
  exists evs, outbox s' = outbox s ++ evs /\ Forall P evs.

#[export] Instance publishes_preorder P : PreOrder (publishes P).
Proof.
  split.
  - intros s. exists []. by rewrite app_nil_r.
  - intros s1 s2 s3 (e1 & H1 & F1) (e2 & H2 & F2). exists (e1 ++ e2).
    rewrite H2, H1, app_assoc. split; [done|]. by apply Forall_app.
Qed.

Lemma publishes_on_table P {A} name cols (f : Table -> string + (A * Table)) :
  within (publishes P) (exec (on_table name cols f)).
Proof. apply within_on_table; [apply _|]. intros s t a t' _ _ _. exists []. by rewrite app_nil_r. Qed.

Lemma publishes_insert P name fields : within (publishes P) (insert_into name fields).
Proof. apply publishes_on_table. Qed.

Lemma publishes_update P name fields conds : within (publishes P) (update_where name fields conds).
Proof. apply publishes_on_table. Qed.

#[local] Hint Resolve publishes_insert publishes_update : within.

Lemma publishes_publish (P : Event * string -> Prop) col ev o :
  (ReadRule col <> RuleDenied -> P (ev, o)) -> within (publishes P) (publish col ev o).
Proof.
  intros HP w. unfold publish. destruct (negb _); [reflexivity|]. simpl.
  case_bool_decide as Hr; [reflexivity|]. exists [(ev, o)]. split; [done|]. by repeat constructor; apply HP.
Qed.

(** An event about a record is one of a collection that may be read; where reads
    belong to the owner it is addressed to the owner of that very record. *)
Definition gated (col : Collection) (e : Event * string) : Prop :=
  ReadRule col <> RuleDenied /\
  exists rec, (e.1 = EvCreated (CName col) rec \/ e.1 = EvUpdated (CName col) rec) /\
    (ReadRule col <> RuleOwner -> e.2 = EmptyString) /\
    forall o, ReadRule col = RuleOwner -> OwnerColumn col <> EmptyString ->
      rec !! OwnerColumn col = Some (VText o) -> e.2 = o.

Lemma ownerGateValue_gated col ev rec :
  ev = EvCreated (CName col) rec \/ ev = EvUpdated (CName col) rec -> ReadRule col <> RuleDenied ->
  gated col (ev, ownerGateValue col rec).
Proof.
  intros Hev Hd. split; [done|]. exists rec. split; [done|]. unfold ownerGateValue. simpl. split.
  - intros Hr. by rewrite (bool_decide_eq_false_2 (_ = RuleOwner)).
  - intros o Hr Ho Hrec. rewrite (bool_decide_eq_true_2 (_ = RuleOwner)), (bool_decide_eq_false_2 (_ = EmptyString)) by done.
    simpl. by rewrite Hrec.
Qed.

(** Whatever fails, the events of a creation and of an update concern a
    collection that may be read, and where reads belong to the owner they are
    addressed to the owner the record has, whoever wrote it. *)
Theorem write_events_gated r w col h :
  reg (w_db w) !! path_collection r = Some col -> h ∈ [handleCreate r; handleUpdate r] ->
  publishes (gated col) (w_db w) (w_db (h w).2).
Proof.
  intros Hc Hh.
  assert (forall rec, within (publishes (gated col)) (publish col (EvCreated (CName col) rec) (ownerGateValue col rec))) as H1
    by (intros rec; apply publishes_publish; intros; apply ownerGateValue_gated; eauto).
  assert (forall rec, within (publishes (gated col)) (publish col (EvUpdated (CName col) rec) (ownerGateValue col rec))) as H2
    by (intros rec; apply publishes_publish; intros; apply ownerGateValue_gated; eauto).
  assert (forall m : M Server Response, within (publishes (gated col)) m -> publishes (gated col) (w_db w) (w_db (m w).2))
    as Hrun by (intros m Hm; exact (Hm w)).
  rewrite !elem_of_cons in Hh. destruct Hh as [->|[->|[]%elem_of_nil]].
  - unfold handleCreate. rewrite (with_collection_run _ _ _ _ col) by done.
    case_bool_decide; [reflexivity|]. apply Hrun. unfold fill_pk. within_solve.
  - unfold handleUpdate. rewrite (with_collection_run _ _ _ _ col) by done.
    case_bool_decide; [reflexivity|]. apply Hrun. within_solve.
Qed.

(** *** Deletions *)

(** The rows a deletion names, and those its caller may delete. *)
Definition named (col : Collection) (t : Table) (id : value) : list (Z * Row) :=
  filter (fun r => holds t r.2 (PKColumn col, id) = true) (t_rows t).

Definition deletable (col : Collection) (subj : string) (t : Table) (id : value) : list (string * value) :=
  (PKColumn col, id) :: owner_cond col (bool_decide (DeleteRule col = RuleOwner)) subj.

(** The subject the event is for: the owner of the row; everybody when reads are
    shared, and when the row has no owner. *)
Definition delete_gate (col : Collection) (t : Table) (id : value) : string :=
  if bool_decide (ReadRule col = RuleOwner) then
    match cell (default (0%Z, ∅) (head (named col t id))).2 (OwnerColumn col) with
    | VNull => EmptyString
    | v => sprint v
    end
  else EmptyString.

Lemma known_columns_sync name t col scoped subj id :
  sync_with name t col -> (scoped = true -> OwnerColumn col <> EmptyString) ->
  known_columns t ((PKColumn col, id) :: owner_cond col scoped subj).*1 = true.
Proof.
  intros Hs Ho. unfold known_columns, owner_cond. simpl.
  destruct (decl_of_is_Some t (PKColumn col)) as [d ->]; [by eapply sync_pk|].
  destruct scoped; simpl; [|done]. specialize (Ho eq_refl).
  rewrite (sync_owner _ _ _ Hs) in *. apply owner_of_nonempty in Ho as [-> Hin].
  by destruct (decl_of_is_Some t OwnerColumnName Hin) as [d' ->].
Qed.

Lemma gate_run col t id w :
  quiet w -> sync_with (CName col) t col -> tables (app (w_db w)) !! CName col = Some t ->
  named col t id <> [] ->
  gate_before_delete col id w = (Ok (delete_gate col t id), w).
Proof.
  intros Hq Hs Ht Hne. unfold gate_before_delete, delete_gate. case_bool_decide as Hr; [|done].
  assert (OwnerColumn col <> EmptyString) as Ho by (apply (sync_rules _ _ _ Hs); rewrite Hr; left).
  rewrite bool_decide_eq_false_2 by done. simpl. rewrite attempt_bind. unfold ownerValueForPK, mbind, M_bind.
  rewrite (select_where_quiet _ _ t);
    [|done|done|by apply (known_columns_sync (CName col) t col false EmptyString id)].
  unfold result_rows, named in *.
  rewrite (filter_ext_in (fun r : Z * Row => selected t [(PKColumn col, id)] r = true)
            (fun r => holds t r.2 (PKColumn col, id) = true))
    by (intros x _; unfold selected; simpl; by rewrite andb_true_r).
  destruct (filter _ (t_rows t)) as [|row rest]; [done|]. simpl.
  rewrite cell_full_row; [|rewrite (sync_owner _ _ _ Hs) in *; by apply owner_of_nonempty in Ho as [-> ?]].
  by destruct (cell row.2 (OwnerColumn col)).
Qed.

Lemma gate_total col t id w :
  quiet w -> tables (app (w_db w)) !! CName col = Some t -> exists g, gate_before_delete col id w = (Ok g, w).
Proof.
  intros Hq Ht. unfold gate_before_delete. destruct (_ && _); [|by eexists].
  rewrite attempt_bind. unfold ownerValueForPK, mbind, M_bind.
  assert ((select_where (CName col) [(PKColumn col, id)] w).2 = w) as Hw.
  { unfold select_where. rewrite exec_quiet by done. unfold on_table. rewrite Ht.
    destruct (known_columns _ _); [|done]. simpl. fold (with_table (CName col) t (w_db w)).
    rewrite with_table_id by done. by destruct w. }
  destruct (select_where _ _ w) as [[rs|e] w1]; simpl in Hw; subst w1; [|by eexists].
  destruct (head rs) as [rec|]; [|by eexists]. destruct (cell rec (OwnerColumn col)); by eexists.
Qed.

Lemma delete_where_quiet name conds t w :
  quiet w -> tables (app (w_db w)) !! name = Some t -> known_columns t conds.*1 = true ->
  delete_where name conds w =
  (Ok (Z.of_nat (length (filter (fun r => selected t conds r = true) (t_rows t)))),
   mkWorld (w_env w) (with_table name (mkTable (t_columns t) (filter (fun r => selected t conds r = false) (t_rows t))) (w_db w))).
Proof. intros Hq Ht Hk. unfold delete_where. rewrite exec_quiet by done. unfold on_table. by rewrite Ht, Hk. Qed.


(** ** Creating tables *)

Lemma column_defs_spec cols : forall seen defs,
  column_defs cols seen = inr defs ->
  NoDup (tc_name <$> defs) /\
  Forall (fun c : TColumn => (tc_name c ∉ seen) /\ tc_name c <> EmptyString /\ tc_pk c = false /\
                   isAllowedColumnType (tc_decl c) = true) defs.
Proof.
  induction cols as [|c cols IH]; intros seen defs; cbn [column_defs].
  { intros [= <-]. split; constructor. }
  case_bool_decide as Hemp; [by apply IH|]. destruct (re_match _ _); [|done]. simpl.
  case_bool_decide as Hseen; [done|]. destruct (isAllowedColumnType (AType c)) eqn:Hty; [|done]. simpl.
  destruct (column_defs cols _) as [|defs'] eqn:E; [done|]. intros [= <-]. apply IH in E as [Hnd Hall].
  rewrite Forall_forall in Hall. split.
  - rewrite fmap_cons. apply NoDup_cons. split; [|done]. simpl. intros (d & Hd & Hin)%list_elem_of_fmap.
    destruct (Hall d Hin) as [Hn _]. rewrite <- Hd in Hn. apply Hn. left.
  - constructor; [done|]. apply Forall_forall. intros d Hin. destruct (Hall d Hin) as (Hn & ? & ?).
    split; [|done]. intros Hd. apply Hn. by right.
Qed.

(** The columns of a table made in the admin UI. *)
Definition id_column : TColumn := mkTColumn "id" "TEXT" false true VNull.
Definition admin_columns (ownerScoped : bool) (defs : list TColumn) : list TColumn :=
  id_column :: (if ownerScoped then [mkTColumn OwnerColumnName "TEXT" true false VNull] else []) ++ defs.

Lemma admin_columns_ok (ownerScoped : bool) (defs : list TColumn) :
  NoDup (tc_name <$> defs) ->
  Forall (fun c : TColumn => (tc_name c ∉ "id" :: (if ownerScoped then [OwnerColumnName] else [])) /\
            tc_name c <> EmptyString /\ tc_pk c = false /\ isAllowedColumnType (tc_decl c) = true) defs ->
  NoDup (tc_name <$> admin_columns ownerScoped defs) /\
  single_pk (mkTable (admin_columns ownerScoped defs) []) id_column.
Proof.
  intros Hnd Hall. rewrite Forall_forall in Hall. split.
  - unfold admin_columns. rewrite fmap_cons, fmap_app. apply NoDup_cons. split.
    + rewrite elem_of_app. intros [H|(d & Hd & Hin)%list_elem_of_fmap].
      * destruct ownerScoped; [by apply list_elem_of_singleton in H|by apply elem_of_nil in H].
      * destruct (Hall d Hin) as [Hn _]. rewrite <- Hd in Hn. apply Hn. left.
    + apply NoDup_app. split_and!; [destruct ownerScoped; [apply NoDup_singleton|constructor]| |done].
      intros x Hx (d & -> & Hin)%list_elem_of_fmap. destruct ownerScoped; [|by apply elem_of_nil in Hx].
      apply list_elem_of_singleton in Hx. destruct (Hall d Hin) as [Hn _]. apply Hn. rewrite Hx. right. left.
  - split; [|done]. unfold admin_columns. simpl. rewrite filter_cons_True by done. f_equal.
    rewrite filter_app, (filter_none _ defs).
    + by destruct ownerScoped.
    + apply Forall_forall. intros d Hd. destruct (Hall d Hd) as (_ & _ & Hp & _). by rewrite Hp.
Qed.

Lemma schema_entry_new name t pk ts ps :
  isReserved name = false -> single_pk t pk ->
  schema_entry (mkAppDb (<[name := t]> ts) ps) name = Some (described name t pk (default_rule t)).
Proof.
  intros Hr Hpk. unfold schema_entry. cbn [tables]. rewrite lookup_insert_eq. simpl.
  apply table_entry_Some. eauto.
Qed.

(** A reload that succeeds puts the registry in step with the tables. *)
Lemma ReloadSchema_run w u w' :
  ReloadSchema w = (Ok u, w') ->
  app (w_db w') = app (w_db w) /\ in_sync (w_db w') /\
  forall name, reg (w_db w') !! name =
    (fun c => with_policies (policies (app (w_db w))) c name) <$> schema_entry (app (w_db w)) name.
Proof.
  intros H. apply bind_ok in H as (rg & w2 & H2%map_err_ok & H3%update_ok).
  unfold zoom in H2. destruct (Discover _) as [res w3] eqn:HD. injection H2 as -> <-. simpl in *.
  pose proof (Discover_sync _ _ _ HD) as Hsync. apply Discover_ok in HD as (Hsame & _ & Hrg). simpl in *.
  injection H3 as _ H3. rewrite <- H3. cbn [set_reg app reg]. rewrite Hsame. split_and!; [done|exact Hsync|exact Hrg].
Qed.

(** A table created in the admin UI without an error is live at once: it is new,
    empty, keyed by a text [id], the registry exposes it with its columns and
    its owner column, and the registry is in step with all tables again. *)
Theorem AdminCreateTable_live name ownerScoped cols w w' :
  AdminCreateTable name ownerScoped cols w = (Ok tt, w') ->
  exists defs, column_defs cols ("id" :: (if ownerScoped then [OwnerColumnName] else [])) = inr defs /\
    let t := mkTable (admin_columns ownerScoped defs) [] in
    tables (app (w_db w)) !! name = None /\
    tables (app (w_db w')) = <[name := t]> (tables (app (w_db w))) /\
    NoDup (tc_name <$> t_columns t) /\ in_sync (w_db w') /\
    exists c, reg (w_db w') !! name = Some c /\ PKColumn c = "id" /\ PKIsInteger c = false /\
      (ownerScoped = true -> OwnerColumn c = OwnerColumnName).
Proof.
  unfold AdminCreateTable. destruct (re_match _ name); [|done]. simpl.
  destruct (isReserved name) eqn:Hres; [done|]. destruct (column_defs _ _) as [|defs] eqn:Hdefs; [done|].
  intros H. apply bind_ok in H as (u & w1 & H1%map_err_ok%exec_ok & H).
  destruct (tables (app (w_db w)) !! name) eqn:Hnew; [done|]. injection H1 as _ H1.
  change (id_column :: _) with (admin_columns ownerScoped defs) in H1.
  destruct w1 as [e1 s1]. simpl in H1. subst s1.
  exists defs. split; [done|]. simpl. apply column_defs_spec in Hdefs as [Hnd Hall].
  destruct (admin_columns_ok ownerScoped defs Hnd Hall) as [Hnd' Hpk].
  apply ReloadSchema_run in H as (Happ & Hsync & Hrg). simpl in *. rewrite Happ.
  split; [done|]. split; [done|]. split; [done|]. split; [exact Hsync|].
  rewrite (Hrg name), (schema_entry_new name _ _ _ _ Hres Hpk).
  eexists. split; [done|]. split_and!; [done|done|]. by intros ->.
Qed.

(** ** Helpers *)

Lemma parsePagination_range r limit offset :
  parsePagination r = inr (limit, offset) -> (0 < limit <= maxLimit)%Z /\ (0 <= offset)%Z.
Proof.
  unfold parsePagination, parse_limit, parse_offset. intros H. unfold maxLimit, defaultLimit in *.
  repeat (case_match || case_bool_decide); try discriminate; injection H as <- <-; simplify_eq; lia.
Qed.

(** A listing never has more records than the largest page, nor more than its
    limit, which is between 1 and the largest page. *)
Theorem list_bounded r w resp w' rs limit offset :
  handleList r w = (Ok resp, w') -> content resp = BRecords rs limit offset ->
  (0 < limit <= maxLimit)%Z /\ (0 <= offset)%Z /\ (Z.of_nat (length rs) <= limit)%Z.
Proof.
  unfold handleList. intros H Hcon. destruct (reg (w_db w) !! path_collection r) as [col|] eqn:Hc.
  - rewrite (with_collection_run _ _ _ _ col) in H by done. destruct (bool_decide _); [by injection H as <- _|].
    destruct (parsePagination r) as [msg|[l o]] eqn:Hp; [by injection H as <- _|].
    apply parsePagination_range in Hp as [Hl Ho].
    apply try_or_ok in H as [(e & _ & ->)|(rs' & w1 & _ & H)]; [done|]. run_inv. injection Hcon as <- <- <-.
    split_and!; [lia|lia|done|]. unfold page. rewrite length_take. lia.
  - rewrite with_collection_unknown in H by done. by injection H as <- _.
Qed.

End rest.

(** *** Error messages of the driver *)

Lemma IndexFunc_app p a c b : sall (fun x => negb (p x)) a = true -> p c = true ->
  IndexFunc p (a +:+ String c b) = Some (String.length a).
Proof.
  intros Ha Hc. induction a as [|x a IH]; simpl in *; [by rewrite Hc|].
  apply andb_true_iff in Ha as [Hx Ha]. apply negb_true_iff in Hx. by rewrite Hx, IH.
Qed.

Lemma LastIndexFunc_none p a : sall (fun x => negb (p x)) a = true -> LastIndexFunc p a = None.
Proof.
  induction a as [|x a IH]; simpl; [done|]. intros [Hx Ha]%andb_true_iff. apply negb_true_iff in Hx.
  by rewrite IH, Hx.
Qed.

Lemma LastIndexFunc_app p a c b : sall (fun x => negb (p x)) b = true -> p c = true ->
  LastIndexFunc p (a +:+ String c b) = Some (String.length a).
Proof.
  intros Hb Hc. induction a as [|x a IH]; simpl; [by rewrite LastIndexFunc_none, Hc|by rewrite IH].
Qed.

Lemma stake_app a b : stake (String.length a) (a +:+ b) = a.
Proof. induction a as [|x a IH]; simpl; [by destruct b|by rewrite IH]. Qed.

Lemma sdrop_app a b : sdrop (String.length a) (a +:+ b) = b.
Proof. induction a as [|x a IH]; simpl; [done|]. exact IH. Qed.

Lemma length_sapp a b : String.length (a +:+ b) = String.length a + String.length b.
Proof. induction a as [|x a IH]; simpl; [done|by rewrite IH]. Qed.

(** A name the parser of messages can isolate. *)
Definition plain (s : string) : bool := sall (fun x => negb (byte_eqb x " " || byte_eqb x "(")) s.

(** From the driver's message about a missing value the column is recovered
    exactly, whatever the table and the rest of the message. *)
Theorem fieldFromConstraintError_column table column rest :
  plain table = true -> plain column = true -> no_byte "." column = true ->
  fieldFromConstraintError
    ("constraint failed: NOT NULL constraint failed: " +:+ table +:+ "." +:+ column +:+ " (" +:+ rest)
    "NOT NULL constraint failed: " = column.
Proof.
  intros Ht Hc Hd. unfold fieldFromConstraintError.
  change (Index _ _) with (Some 19). cbv iota beta zeta.
  change (sdrop _ ("constraint failed: NOT NULL constraint failed: " +:+ ?x)) with x.
  assert (table +:+ "." +:+ column +:+ " (" +:+ rest = (table +:+ String "." column) +:+ String " " (String "(" rest)) as ->
    by (by rewrite <- sapp_assoc).
  rewrite IndexFunc_app; [|rewrite sall_app; unfold plain in *; rewrite Ht; simpl; exact Hc|done].
  rewrite stake_app, LastIndexFunc_app; [|exact Hd|done].
  replace (String.length table + 1) with (String.length (table +:+ one ".")) by (by rewrite length_sapp).
  replace (table +:+ String "." column) with ((table +:+ one ".") +:+ column) by (by rewrite <- sapp_assoc).
  apply sdrop_app.
Qed.

(** ** Witnesses

    A small engine that satisfies the laws, and a server with one collection. *)

Definition toy_coerce (decl : string) (v : value) : value :=
  match columnAffinity decl with
  | INTEGER => match v with
               | VText x | VReal x => match Atoi x with Some z => VInt z | None => v end
               | VBool b => VInt (if b then 1 else 0)
               | _ => v
               end
  | TEXT => match v with
            | VInt z => VText (Itoa z)
            | VReal x => VText x
            | VBool b => VText (if b then "1" else "0")
            | _ => v
            end
  | _ => v
  end.

Definition toy_violation (cols : list TColumn) (rows : list Row) (r : Row) : option string :=
  match filter (fun c => tc_pk c = true) cols with
  | [pk] => if negb (bool_decide (cell r (tc_name pk) = VNull)) &&
               existsb (fun r' => bool_decide (cell r' (tc_name pk) = cell r (tc_name pk))) rows
            then Some ("UNIQUE constraint failed: " +:+ tc_name pk)
            else None
  | _ => None
  end.

Definition toy : Sqlite :=
  {| coerce := toy_coerce;
     matches decl a b := negb (bool_decide (a = VNull)) && bool_decide (a = toy_coerce decl b);
     violation := toy_violation;
     value_leb _ _ := true |}.

#[local] Existing Instance toy.

Lemma toy_laws : SqliteLaws (sqlite := toy).
Proof.
  split.
  - intros decl x Ha. simpl. unfold toy_coerce. by rewrite Ha.
  - intros decl v x Ha. simpl. unfold toy_coerce. rewrite Ha.
    destruct (decide (v = VNull)) as [->|Hv]; [done|].
    by rewrite (bool_decide_eq_false_2 (v = VNull)).
  - intros cols rows r r' pk x Hpk _ Hv Hin Hr Hr'. simpl in Hv. unfold toy_violation in Hv. rewrite Hpk in Hv.
    unfold cell in Hv. rewrite Hr in Hv. simpl in Hv.
    destruct (existsb _ rows) eqn:E; [done|].
    assert (existsb (fun r' => bool_decide (default VNull (r' !! tc_name pk) = VText x)) rows = true) as H.
    { apply existsb_exists. exists r'. split; [by apply list_elem_of_In|]. rewrite Hr'. by apply bool_decide_eq_true_2. }
    congruence.
Qed.

#[local] Existing Instance toy_laws.

Definition a_note (id owner text : string) : Row :=
  <["id" := VText id]> (<["owner_id" := VText owner]> (<["body" := VText text]> ∅)).

Definition two_notes : Table := mkTable (t_columns notes) [(1%Z, a_note "n1" "alice" "A"); (2%Z, a_note "n2" "bob" "B")].

Definition open_notes : Collection :=
  mkCollection "notes" (column_of <$> t_columns notes) "id" false "owner_id" "owner" "owner" "owner" "owner".

Definition sample_server : Server :=
  mkServer (mkAppDb {["notes" := two_notes]} []) {["notes" := open_notes]} true [] 1000 false.

Lemma sample_in_sync : in_sync sample_server.
Proof.
  intros name c H. change (({["notes" := open_notes]} : gmap string Collection) !! name = Some c) in H.
  apply lookup_singleton_Some in H as [<- <-]. exists two_notes. split; [reflexivity|].
  constructor; [done| |done|done| |by intros _].
  - exists id_column. done.
  - repeat constructor; done.
Qed.

Lemma sample_distinct : distinct_columns "notes" sample_server.
Proof. intros t. vm_compute. intros [= <-]. apply (bool_decide_unpack _). vm_compute. exact I. Qed.

Definition request (id subj : string) (b : Decoded) : Request := mkRequest "notes" id subj EmptyString EmptyString 10 b.

Definition here : World Server := sample_world 0 sample_server.

Lemma reads_isolated_witness :
  (handleList (sql := toy) (request "" "alice" Null) here).1 =
    Ok (mkResponse 200 (BRecords [a_note "n1" "alice" "A"] 50 0)) /\
  Forall (own_record "alice") (records_of (mkResponse 200 (BRecords [a_note "n1" "alice" "A"] 50 0))).
Proof.
  split; [vm_compute; reflexivity|].
  apply (reads_isolated (laws := toy_laws) (request "" "alice" Null) here open_notes
           (handleList (sql := toy) (request "" "alice" Null)) _ here).
  - apply sample_in_sync.
  - reflexivity.
  - reflexivity.
  - left.
  - vm_compute. reflexivity.
Defined.

Lemma handleList_exact_witness :
  exists resp, (handleList (sql := toy) (request "" "alice" Null) here).1 = Ok resp.
Proof.
  destruct (handleList_exact (laws := toy_laws) (request "" "alice" Null) here open_notes two_notes
              sample_in_sync eq_refl eq_refl) as (resp & H & _). by exists resp.
Defined.


Definition patch_body : Decoded := Object (<["body" := VText "new"]> (<["owner_id" := VText "eve"]> ∅)).

Lemma handleUpdate_immutable_witness :
  patches open_notes "alice" (VText "n1") sample_server
    (w_db (handleUpdate (sql := toy) (request "n1" "alice" patch_body) here).2).
Proof. apply (handleUpdate_immutable (request "n1" "alice" patch_body) here open_notes eq_refl). Defined.

Definition post_body : Decoded := Object (<["body" := VText "C"]> ∅).

Lemma handleCreate_exact_witness :
  exists sent row, decodeBody 1000 (request "" "alice" post_body) open_notes = inr sent /\
    stored (sql := toy) open_notes "alice" two_notes sent row.
Proof.
  destruct (handleCreate (sql := toy) (request "" "alice" post_body) here) as [[resp|e] w'] eqn:Hrun;
    [|vm_compute in Hrun; discriminate Hrun].
  assert ("alice" <> EmptyString) as Hne by done.
  destruct (handleCreate_exact (laws := toy_laws) (request "" "alice" post_body) here open_notes two_notes resp w'
              sample_in_sync sample_distinct Hne eq_refl eq_refl Hrun) as [(Happ & _)|(sent & row & Hd & _ & Hs & _)].
  - exfalso. apply (f_equal (fun x => w_db x.2)) in Hrun. cbn [snd] in Hrun. rewrite <- Hrun in Happ.
    apply (f_equal (fun a => from_option (fun t => length (t_rows t)) 0 (tables a !! "notes"))) in Happ.
    vm_compute in Happ. discriminate Happ.
  - exists sent, row. split; [exact Hd|exact Hs].
Defined.

Lemma created_is_readable_witness :
  exists resp w', handleCreate (sql := toy) (request "" "alice" post_body) here = (Ok resp, w') /\
    handleGet (sql := toy) (request "id-0" "alice" Null) w' =
      (Ok (mkResponse 200 (BRecord (a_note "id-0" "alice" "C"))), w').
Proof.
  destruct (handleCreate (sql := toy) (request "" "alice" post_body) here) as [[resp|e] w'] eqn:Hrun;
    [|vm_compute in Hrun; discriminate Hrun].
  exists resp, w'. split; [done|].
  assert (resp = mkResponse 201 (BRecord (a_note "id-0" "alice" "C"))) as Hresp
    by (vm_compute in Hrun; injection Hrun as <- _; vm_compute; reflexivity).
  assert (quiet w') as Hq by (vm_compute in Hrun; injection Hrun as _ <-; reflexivity).
  assert (forall v, (<["body" := VText "C"]> (∅ : Row)) !! "id" = Some v -> v = VNull \/ exists k, v = VText k) as Hsent
    by (intros v; vm_compute; discriminate).
  assert (single_pk two_notes id_column) as Hpk by (split; [vm_compute; reflexivity|discriminate]).
  assert ("alice" <> EmptyString) as Hne by discriminate.
  assert (ReadRule open_notes <> RuleDenied) as Hrd by discriminate.
  assert (decodeBody 1000 (request "" "alice" post_body) open_notes = inr (<["body" := VText "C"]> ∅)) as Hdec
    by (vm_compute; reflexivity).
  assert (content resp = BRecord (a_note "id-0" "alice" "C")) as Hcon by (rewrite Hresp; reflexivity).
  exact (created_is_readable (laws := toy_laws) (request "" "alice" post_body) here open_notes two_notes id_column resp w'
           _ (<["body" := VText "C"]> ∅) (request "id-0" "alice" Null) sample_in_sync sample_distinct Hne eq_refl eq_refl
           Hpk eq_refl Hrd Hdec Hsent Hrun Hcon Hq eq_refl eq_refl eq_refl).
Defined.

Lemma ExportOwned_exact_witness :
  (ExportOwned (sql := toy) "alice" here).1 = Ok [("notes", [a_note "n1" "alice" "A"])] /\
  [("notes", [a_note "n1" "alice" "A"])] =
    (fun c => (CName c, from_option (own_rows "alice") [] (tables (app sample_server) !! CName c)))
      <$> filter (fun c => ReadRule c <> RuleDenied) (ownedCollections (reg sample_server)).
Proof.
  split; [vm_compute; reflexivity|].
  apply (ExportOwned_exact (laws := toy_laws) "alice" here _ here sample_in_sync). vm_compute. reflexivity.
Defined.

Lemma DeleteOwned_exact_witness :
  exists k, erased "alice" (take k ["notes"]) sample_server (w_db (DeleteOwned (sql := toy) "alice" here).2).
Proof.
  destruct (DeleteOwned (sql := toy) "alice" here) as [r w'] eqn:Hrun.
  destruct (DeleteOwned_exact (laws := toy_laws) "alice" here r w' sample_in_sync Hrun) as (k & Hk & _).
  exists k. exact Hk.
Defined.

Lemma write_events_gated_witness :
  publishes (gated open_notes) sample_server
    (w_db (handleCreate (sql := toy) (request "" "alice" post_body) here).2).
Proof. apply (write_events_gated (request "" "alice" post_body) here open_notes); [reflexivity|left]. Defined.


Definition todo_columns : list AdminColumnDef := [mkAdminColumnDef "title" "TEXT" true; mkAdminColumnDef "" "TEXT" false].

Lemma AdminCreateTable_live_witness :
  exists w' c, AdminCreateTable "todos" true todo_columns here = (Ok tt, w') /\ reg (w_db w') !! "todos" = Some c.
Proof.
  destruct (AdminCreateTable "todos" true todo_columns here) as [[[]|e] w'] eqn:Hrun;
    [|vm_compute in Hrun; discriminate Hrun].
  destruct (AdminCreateTable_live _ _ _ _ _ Hrun) as (defs & _ & _ & _ & _ & _ & c & Hc & _).
  exists w', c. split; [reflexivity|exact Hc].
Defined.

Lemma list_bounded_witness : (Z.of_nat (length [a_note "n1" "alice" "A"]) <= 50)%Z.
Proof.
  apply (list_bounded (sql := toy) (request "" "alice" Null) here
           (mkResponse 200 (BRecords [a_note "n1" "alice" "A"] 50 0)) here [a_note "n1" "alice" "A"] 50 0);
    [vm_compute; reflexivity|reflexivity].
Defined.

Lemma fieldFromConstraintError_column_witness :
  fieldFromConstraintError "constraint failed: NOT NULL constraint failed: notes.body (1299)"
    "NOT NULL constraint failed: " = "body".
Proof. exact (fieldFromConstraintError_column "notes" "body" "1299)" eq_refl eq_refl eq_refl). Defined.

(** ** Where the code does something else than it says *)

(** The lookup of a row's owner fails, the deletion does not: the event goes to
    every subscriber of a collection whose reads belong to the owner. *)
Theorem delete_gate_lost :
  let busy := mkEnv [mkEvent (Some "database is locked") 0] 0 0 (fun _ => "id") (fun _ => "") in
  outbox (w_db (handleDelete (request "n1" "alice" Null) (mkWorld busy sample_server)).2) =
    [(EvDeleted "notes" "n1", EmptyString)] /\
  forall c : Realtime.Conn Row, Realtime.authorized EmptyString c = true.
Proof. split; [vm_compute; reflexivity|done]. Qed.

(** A key declared BIGINT is no alias of the rowid, so the row read back by the
    rowid of the INSERT may be somebody else's. *)
Definition items : Table :=
  mkTable [mkTColumn "id" "BIGINT" false true VNull; mkTColumn "owner_id" "TEXT" true false VNull;
           mkTColumn "body" "TEXT" false false VNull]
    [(1%Z, <["id" := VInt 2]> (<["owner_id" := VText "bob"]> (<["body" := VText "secret"]> ∅)))].

Definition items_collection : Collection :=
  mkCollection "items" (column_of <$> t_columns items) "id" true "owner_id" "owner" "owner" "owner" "owner".

Definition items_server : Server :=
  mkServer (mkAppDb {["items" := items]} []) {["items" := items_collection]} false [] 1000 false.

Theorem created_answers_with_foreign_row :
  (Discover (sample_world 0 (app items_server))).1 = Ok (reg items_server) /\
  (handleCreate (mkRequest "items" "" "alice" "" "" 10 post_body) (sample_world 0 items_server)).1 =
    Ok (mkResponse 201 (BRecord (<["id" := VInt 2]> (<["owner_id" := VText "bob"]> (<["body" := VText "secret"]> ∅))))).
Proof. split; vm_compute; reflexivity. Qed.

(** A column [owner_id] that is not text passes the checks of the admin UI; the
    table stays, and from then on no discovery succeeds, the one at startup
    included. *)
Theorem create_table_blocks_discovery :
  let cols := [mkAdminColumnDef "owner_id" "INTEGER" false] in
  is_ok (AdminCreateTable "todos" false cols here).1 = false /\
  forall w, app (w_db (AdminCreateTable "todos" false cols here).2) = w_db w -> is_ok (Discover w).1 = false.
Proof.
  split; [vm_compute; reflexivity|]. intros w Happ. destruct (Discover w) as [[rg|e] w'] eqn:HD; [|done].
  exfalso. apply Discover_ok in HD as (_ & [Ht _] & _). rewrite <- Happ in Ht.
  specialize (Ht "todos" (mkTable [id_column; mkTColumn "owner_id" "INTEGER" false false VNull] [])).
  assert (text_owner (mkTable [id_column; mkTColumn "owner_id" "INTEGER" false false VNull] [])) as Hto
    by (apply Ht; vm_compute; reflexivity).
  unfold text_owner in Hto. rewrite Forall_forall in Hto.
  specialize (Hto (mkTColumn "owner_id" "INTEGER" false false VNull)).
  assert (columnAffinity "INTEGER" = TEXT) as H by (apply Hto; [right; left|reflexivity]). discriminate H.
Qed.

(** Creating a row without any field in a shared table with an integer key is an
    internal error: the INSERT has an empty column list. *)
Theorem create_without_fields_fails r w col t :
  reg (w_db w) !! path_collection r = Some col -> tables (app (w_db w)) !! CName col = Some t ->
  CreateRule col <> RuleDenied -> PKIsInteger col = true -> OwnerColumn col = EmptyString ->
  decodeBody (maxBodyBytes (w_db w)) r col = inr ∅ ->
  quiet w -> (handleCreate r w).1 = Ok internal_error.
Proof.
  intros Hc Ht Hd Hpk Ho Hdec Hq. unfold handleCreate. rewrite (with_collection_run _ _ _ _ col) by done.
  rewrite bool_decide_eq_false_2 by done. unfold mbind, M_bind, get_server. rewrite Hdec.
  unfold stamp_owner, fill_pk. rewrite Hpk, bool_decide_eq_true_2 by done.
  unfold mret, M_ret, try_or, insert_into. rewrite exec_quiet by done. unfold on_table.
  by rewrite Ht, map_to_list_empty.
Qed.

(** Erasing an account tells nobody else about rows everybody may read, while an
    ordinary DELETE of such a row tells every subscriber. *)
Theorem erasure_hidden_from_readers :
  let shared := mkCollection "notes" (column_of <$> t_columns notes) "id" false "owner_id"
                  "shared" "owner" "owner" "owner" in
  let w := sample_world 0 (mkServer (app sample_server) {["notes" := shared]} true [] 1000 false) in
  outbox (w_db (DeleteOwned "alice" w).2) = [(EvDeleted "notes" "n1", "alice")] /\
  outbox (w_db (handleDelete (request "n1" "alice" Null) w).2) = [(EvDeleted "notes" "n1", EmptyString)].
Proof. split; vm_compute; reflexivity. Qed.

End RestApiFacts.
