(* ===== verification/App.v ===== *)
(** * The application

    What the packages behind the routes work on together: the state of
    internal/server.Server and internal/adminui.Server (the database, the file
    store, auto-REST, the limiters, the mail sent), how each package's operations
    run inside it, and the parts of a request both surfaces read. *)

From S2P Require Import Prelude GoStrings Encoding Schema Auth OwnerAuth AuditLog RateLimit Storage Registry RestApi Http.

Module App.
Import Http.

(** ** The state behind the routes *)

Record App : Type := mkApp {
  database : Database;
  disk : gmap string string;                  (* of the storage backend *)
  rest : RestApi.Server;
  loginLimiter : RateLimit.Limiter;
  registerLimiter : RateLimit.Limiter;
  ownerLoginLimiter : RateLimit.Limiter;
  adminUiLimiter : RateLimit.Limiter;
  delivered : list Mail;
}.

Definition set_database (d : Database) (a : App) : App :=
  mkApp d (disk a) (rest a) (loginLimiter a) (registerLimiter a) (ownerLoginLimiter a) (adminUiLimiter a) (delivered a).
Definition set_store (s : Storage.Store) (a : App) : App :=
  mkApp (Storage.db s) (Storage.disk s) (rest a) (loginLimiter a) (registerLimiter a) (ownerLoginLimiter a) (adminUiLimiter a) (delivered a).
Definition set_rest (r : RestApi.Server) (a : App) : App :=
  mkApp (database a) (disk a) r (loginLimiter a) (registerLimiter a) (ownerLoginLimiter a) (adminUiLimiter a) (delivered a).
Definition set_delivered (l : list Mail) (a : App) : App :=
  mkApp (database a) (disk a) (rest a) (loginLimiter a) (registerLimiter a) (ownerLoginLimiter a) (adminUiLimiter a) l.

Inductive limiter : Type := LoginLimiter | RegisterLimiter | OwnerLoginLimiter | AdminUiLimiter.

Definition get_limiter (l : limiter) (a : App) : RateLimit.Limiter :=
  match l with
  | LoginLimiter => loginLimiter a
  | RegisterLimiter => registerLimiter a
  | OwnerLoginLimiter => ownerLoginLimiter a
  | AdminUiLimiter => adminUiLimiter a
  end.
Definition set_limiter (l : limiter) (x : RateLimit.Limiter) (a : App) : App :=
  match l with
  | LoginLimiter =>
      mkApp (database a) (disk a) (rest a) x (registerLimiter a) (ownerLoginLimiter a) (adminUiLimiter a) (delivered a)
  | RegisterLimiter =>
      mkApp (database a) (disk a) (rest a) (loginLimiter a) x (ownerLoginLimiter a) (adminUiLimiter a) (delivered a)
  | OwnerLoginLimiter =>
      mkApp (database a) (disk a) (rest a) (loginLimiter a) (registerLimiter a) x (adminUiLimiter a) (delivered a)
  | AdminUiLimiter =>
      mkApp (database a) (disk a) (rest a) (loginLimiter a) (registerLimiter a) (ownerLoginLimiter a) x (delivered a)
  end.

Abbreviation MA := (M App).

Definition in_db {A} (m : M Database A) : MA A := zoom database set_database m.
Definition auth {A} (m : M IdentityDb A) : MA A := in_db (zoom identity put_identity m).
Definition ownerAuth {A} (m : M OwnerDb A) : MA A := in_db (zoom owners put_owners m).
Definition audit (m : M (list AuditRow) unit) : MA unit := in_db (zoom audit_log put_audit_log m).
Definition storage {A} (m : M Storage.Store A) : MA A :=
  zoom (fun a => Storage.mkStore (database a) (disk a)) set_store m.
Definition restapi {A} (m : M RestApi.Server A) : MA A := zoom rest set_rest m.
Definition email {A} (m : M (list Mail) A) : MA A := zoom delivered set_delivered m.

Definition RecordLogged (event : string) (actor : Audit.Actor) (target : Audit.Target) (metadata : option Audit.Metadata) :
    MA unit := audit (Audit.RecordLogged event actor target metadata).

Definition owner_actor (o : OwnerAuth.Owner) : Audit.Actor := Audit.mkActor (OwnerAuth.OID o) (OwnerAuth.OEmail o).


(** ** Requests *)

Record Request : Type := mkRequest {
  Authorization : string;                (* the header, "" when absent *)
  cookies : list (string * string);
  RemoteAddr : string;
  URLParam : string;                     (* the path parameter of the route, if it has one *)
  query_limit : string; query_offset : string;
  query_state : string; query_error : string; query_code : string;
}.

Definition cookie_of (r : Request) (name : string) : option string :=
  snd <$> find_row (fun c => c.1 = name) (cookies r).

(** net.SplitHostPort on the remote address, or the address as it is. *)
Definition clientIP (r : Request) : string := default (RemoteAddr r) (SplitHostPort (RemoteAddr r)).

(** [limiter.Allow]: not a statement, so nothing can fail in between. *)
Definition allow (l : limiter) (key : string) : MA (bool * Z) :=
  fun w =>
    let '(ok, wait, l') := RateLimit.Allow (clock w) key (get_limiter l (w_db w)) in
    (Ok (ok, wait), mkWorld (w_env w) (set_limiter l l' (w_db w))).

Definition get_app : MA App := fun w => (Ok (w_db w), w).

End App.
