(* ===== verification/AppFacts.v ===== *)
(** * The application: shared lemmas

    What each package may do to the state behind the routes: the audit log only
    grows and the owner accounts stay, whatever part works on it; who is signed
    in; and what the steps of erasing an account leave. *)

From S2P Require Import Prelude GoStrings Encoding Schema Auth AuthFacts OwnerAuth AuditLog RateLimit OAuth OAuthFacts Storage StorageFacts OwnerAuthFacts Registry RestApi RestApiFacts Http App.

Module AppFacts.
Import Http App.

(** ** Frames *)

(** What a part of the server may do to the database: the audit log grows, the
    owner accounts are as they were. *)
Record modest (d d' : Database) : Prop := {
  modest_audit : audit_log d `prefix_of` audit_log d';
  modest_owners : owner_users (owners d') = owner_users (owners d);
}.

#[export] Instance modest_preorder : PreOrder modest.
Proof. split; [by split|]. intros d1 d2 d3 [H1 H2] [H3 H4]. split; [by etrans|congruence]. Qed.

Definition on_db (R : relation Database) : relation App := fun a a' => R (database a) (database a').
#[export] Instance on_db_preorder R `{!PreOrder R} : PreOrder (on_db R).
Proof. split; unfold on_db; [intros a; reflexivity|intros a1 a2 a3 H1 H2; by etrans]. Qed.

Lemma other_modest d d' : OAuthFacts.other_tables d d' -> modest d d'.
Proof. intros [Ha Ho]. split; [by rewrite Ha|by rewrite Ho]. Qed.

Lemma within_mono {D A} (R R' : relation D) (m : M D A) : (forall d d', R d d' -> R' d d') -> within R m -> within R' m.
Proof. intros HR Hm w. by apply HR. Qed.

Lemma in_db_frame {A} (R : relation Database) (m : M Database A) : within R m -> within (on_db R) (in_db m).
Proof. intros Hm. apply (within_zoom R); [done|]. by intros s d. Qed.

(** An operation on the identity tables, whatever it is. *)
Lemma auth_modest {A} (m : M IdentityDb A) : within (on_db modest) (auth m).
Proof. apply in_db_frame, (within_mono OAuthFacts.other_tables); [apply other_modest|apply OAuthFacts.identity_other]. Qed.

Lemma storage_modest {A} (m : M Storage.Store A) : within StorageFacts.files_only m -> within (on_db modest) (storage m).
Proof. intros Hm. apply (within_zoom StorageFacts.files_only); [done|]. intros a s [fs H]. unfold on_db. cbn in *. rewrite H. by split. Qed.

Lemma restapi_modest {A} (m : M RestApi.Server A) : within (on_db modest) (restapi m).
Proof. intros w. unfold restapi, zoom. destruct (m _). unfold on_db. cbn. reflexivity. Qed.

Lemma email_modest {A} (m : M (list Mail) A) : within (on_db modest) (email m).
Proof. intros w. unfold email, zoom. destruct (m _). unfold on_db. cbn. reflexivity. Qed.

Lemma Record_prefix e x y md : within (fun l l' : list AuditRow => l `prefix_of` l') (Audit.Record_ e x y md).
Proof.
  unfold Audit.Record_. apply within_bind; [split; [by intros l|intros ???; by etrans]|by intros w|intros id].
  apply within_map_err; [split; [by intros l|intros ???; by etrans]|].
  apply within_exec_at; [split; [by intros l|intros ???; by etrans]|].
  intros t l u l' H. destruct (bool_decide _); [done|]. injection H as _ <-. by apply prefix_app_r.
Qed.

Lemma RecordLogged_modest e x y md : within (on_db modest) (RecordLogged e x y md).
Proof.
  apply in_db_frame, (within_zoom (fun l l' : list AuditRow => l `prefix_of` l')).
  - intros w. unfold Audit.RecordLogged. rewrite attempt_bind. apply Record_prefix.
  - intros d l Hl. by split.
Qed.

(** An operation on the owner tables that leaves the accounts alone. *)
Lemma ownerAuth_modest {A} (m : M OwnerDb A) :
  within (fun d d' => owner_users d' = owner_users d) m -> within (on_db modest) (ownerAuth m).
Proof. intros Hm. apply in_db_frame, (within_zoom (fun d d' => owner_users d' = owner_users d)); [done|]. by split. Qed.

#[export] Instance same_accounts_preorder : PreOrder (fun d d' => owner_users d' = owner_users d).
Proof. split; [done|]. intros d1 d2 d3 H1 H2. congruence. Qed.

Section owner_frames.
Context {bcrypt : Bcrypt}.
Abbreviation same := (fun d d' => owner_users d' = owner_users d).

Lemma owner_Login_same e p : within same (OwnerAuth.Login e p).
Proof.
  unfold OwnerAuth.Login, OwnerAuth.createSession, OwnerAuth.randomToken, OwnerAuth.insert_session. within_solve.
  repeat (destruct (bool_decide _); [done|]). by simplify_eq.
Qed.
Lemma owner_Validate_same t : within same (OwnerAuth.ValidateSession t).
Proof. unfold OwnerAuth.ValidateSession. within_solve. Qed.
Lemma owner_Logout_same t : within same (OwnerAuth.Logout t).
Proof. unfold OwnerAuth.Logout, OwnerAuth.delete_sessions. by within_solve. Qed.
Lemma owner_Purge_same : within same OwnerAuth.PurgeExpiredSessions.
Proof. unfold OwnerAuth.PurgeExpiredSessions, OwnerAuth.delete_sessions. by within_solve. Qed.
Lemma owner_List_same : within same OwnerAuth.ListOwners.
Proof. unfold OwnerAuth.ListOwners. within_solve. Qed.
End owner_frames.

Lemma within_get_app R `{!PreOrder R} : within R get_app.
Proof. by apply within_same. Qed.

Lemma allow_modest l k : within (on_db modest) (allow l k).
Proof.
  intros w. unfold allow. destruct (RateLimit.Allow _ _ _) as [[ok wait] l'].
  destruct l; unfold on_db; cbn; reflexivity.
Qed.

#[export] Hint Resolve auth_modest restapi_modest email_modest RecordLogged_modest allow_modest within_get_app : within.

(** Fosite works through the storage it is given: on the database it only ever
    touches the tables of the authorization server. *)
Class Bystander `{provider : OAuth.Provider} `{introspection : OAuth.Introspection} := {
  request_other q : within OAuthFacts.other_tables (OAuth.NewAuthorizeRequest q);
  response_other ar s : within OAuthFacts.other_tables (OAuth.NewAuthorizeResponse ar s);
  introspect_other t sc : within OAuthFacts.other_tables (OAuth.IntrospectToken t sc);
}.

Lemma oauth_modest {A} (m : M Database A) : within OAuthFacts.other_tables m -> within (on_db modest) (in_db m).
Proof. intros Hm. apply in_db_frame. eapply within_mono; [apply other_modest|exact Hm]. Qed.

Lemma delete_user_modest id : within (on_db modest) (in_db (Auth.DeleteUser id)).
Proof. apply in_db_frame. unfold Auth.DeleteUser. within_solve. by split. Qed.

Lemma list_consents_modest u : within (on_db modest) (in_db (OAuth.ListConsents u)).
Proof. apply in_db_frame. unfold OAuth.ListConsents. within_solve. Qed.

Lemma jwks_modest : within (on_db modest) (in_db OAuth.JWKS).
Proof. apply in_db_frame. unfold OAuth.JWKS. within_solve. Qed.

Lemma audit_list_modest l o : within (on_db modest) (in_db (zoom audit_log put_audit_log (Audit.List_ l o))).
Proof.
  apply in_db_frame, (within_zoom eq); [unfold Audit.List_; within_solve|]. intros d a <-. by destruct d.
Qed.

#[export] Hint Resolve delete_user_modest list_consents_modest jwks_modest audit_list_modest : within.
#[export] Hint Resolve ownerAuth_modest owner_Login_same owner_Validate_same owner_Logout_same owner_Purge_same owner_List_same : within.
#[export] Hint Resolve storage_modest StorageFacts.handleUpload_only StorageFacts.handleList_only StorageFacts.handleGet_only
  StorageFacts.handleDownload_only StorageFacts.handleDelete_only StorageFacts.ExportOwned_only StorageFacts.DeleteOwned_only : within.
#[export] Hint Resolve oauth_modest OAuthFacts.RevokeAllForSubject_other OAuthFacts.RevokeConsent_other : within.

(** ** The audit log grows *)

Definition grows (d d' : Database) : Prop := audit_log d `prefix_of` audit_log d'.
#[export] Instance grows_preorder : PreOrder grows.
Proof. split; unfold grows; [by intros d|]. intros d1 d2 d3 H1 H2. by etrans. Qed.

Lemma modest_grows a a' : on_db modest a a' -> on_db grows a a'.
Proof. by intros []. Qed.

Lemma ownerAuth_grows {A} (m : M OwnerDb A) : within (on_db grows) (ownerAuth m).
Proof. intros w. unfold ownerAuth, in_db, zoom. destruct (m _). unfold on_db, grows. cbn. reflexivity. Qed.

Lemma RecordLogged_grows e x y md : within (on_db grows) (RecordLogged e x y md).
Proof. eapply within_mono; [apply modest_grows|apply RecordLogged_modest]. Qed.

(** ** Signed in to the owner plane *)

(** [c] is the cookie of a session of [o]. *)
Definition signed_in_owner (r : Request) (o : OwnerAuth.Owner) (d : Database) : Prop :=
  exists c e w1, cookie_of r OwnerSessionCookieName = Some c /\
    OwnerAuth.ValidateSession c (mkWorld e (owners d)) = (Ok o, w1).

Lemma owner_Validate_reads c : within eq (OwnerAuth.ValidateSession c).
Proof using. unfold OwnerAuth.ValidateSession. within_solve. Qed.

Lemma put_owners_same d : put_owners (owners d) d = d.
Proof using. by destruct d. Qed.

Lemma set_database_same a : set_database (database a) a = a.
Proof using. by destruct a. Qed.

Lemma ownerAuth_reads {A} (m : M OwnerDb A) w : within eq m -> w_db (ownerAuth m w).2 = w_db w.
Proof using.
  intros Hm. unfold ownerAuth, in_db, zoom. specialize (Hm (mkWorld (w_env w) (owners (database (w_db w))))).
  cbn [w_env w_db]. destruct (m _) as [x w1]. cbn in *. rewrite <- Hm, put_owners_same. apply set_database_same.
Qed.

Lemma auth_run {A} (m : M IdentityDb A) w r w' :
  auth m w = (r, w') ->
  exists w1, m (mkWorld (w_env w) (identity (database (w_db w)))) = (r, w1) /\
    w' = mkWorld (w_env w1) (set_database (put_identity (w_db w1) (database (w_db w))) (w_db w)).
Proof. intros (w1 & (w2 & H & ->)%zoom_run & ->)%zoom_run. by exists w2. Qed.

(** ** Running programs *)

Lemma now_bind {D A} (k : Z -> M D A) w : (now ≫= k) w = k (clock w) w.
Proof. done. Qed.

Lemma bind_run {D A B} (m : M D A) (k : A -> M D B) w a w1 : m w = (Ok a, w1) -> (m ≫= k) w = k a w1.
Proof. unfold mbind, M_bind. by intros ->. Qed.

Lemma try_or_run {D A B} f (m : M D A) (k : A -> M D B) w a w1 : m w = (Ok a, w1) -> try_or f m k w = k a w1.
Proof. unfold try_or. by intros ->. Qed.

(** ** Recording *)

Lemma RecordLogged_run e x y md w :
  exists w1 l, RecordLogged e x y md w = (Ok tt, w1) /\ w_db w1 = set_database (put_audit_log l (database (w_db w))) (w_db w) /\
    (quiet w -> quiet w1).
Proof.
  unfold RecordLogged, audit, in_db, zoom, Audit.RecordLogged. rewrite attempt_bind. eexists _, _.
  split_and!; [reflexivity|reflexivity|]. intros Hq.
  apply (forward_quiet (Audit.Record_ e x y md) (mkWorld (w_env w) (audit_log (database (w_db w))))); [|exact Hq].
  unfold Audit.Record_. forward_solve.
Qed.

(** The row an entry is kept as. *)
Definition audit_row (id e : string) (x y : Audit.Actor) (md : option Audit.Metadata) (t : Z) : AuditRow :=
  mkAuditRow id e (Audit.nullIfEmpty (Audit.ActorID x)) (Audit.nullIfEmpty (Audit.ActorEmail x))
    (Audit.nullIfEmpty (Audit.ActorID y)) (Audit.nullIfEmpty (Audit.ActorEmail y)) md t.

(** The identifier the next draw gives. *)
Definition next_id {D} (w : World D) : string := env_uuid (w_env w) (env_draws (w_env w)).

Lemma RecordLogged_quiet e x y md w :
  quiet w -> next_id w ∉ a_id <$> audit_log (database (w_db w)) ->
  exists w1, RecordLogged e x y md w = (Ok tt, w1) /\ quiet w1 /\
    w_db w1 = set_database (put_audit_log (audit_log (database (w_db w)) ++
      [audit_row (next_id w) e x y md (current_timestamp (clock w))]) (database (w_db w))) (w_db w).
Proof.
  intros Hq Hid. destruct w as [[sched clk draws uuid bytes] a]. unfold quiet in Hq. cbn in Hq. subst sched.
  unfold next_id in *. cbn in Hid.
  set (l := audit_log (database a) ++ [audit_row (uuid draws) e x y md (current_timestamp clk)]).
  assert (Audit.Record_ e x y md (mkWorld (mkEnv [] clk draws uuid bytes) (audit_log (database a))) =
    (Ok tt, mkWorld (mkEnv [] clk (N.succ draws) uuid bytes) l)) as HR.
  { unfold Audit.Record_, new_uuid, wrapping, map_err, mbind, M_bind. cbn -[bool_decide].
    by rewrite bool_decide_eq_false_2 by exact Hid. }
  exists (mkWorld (mkEnv [] clk (N.succ draws) uuid bytes) (set_database (put_audit_log l (database a)) a)).
  split; [|done]. unfold RecordLogged, audit, in_db, zoom, Audit.RecordLogged. cbn [w_env w_db].
  rewrite attempt_bind. cbn [w_env w_db]. rewrite HR. reflexivity.
Qed.

(** ** Cookies *)

(** Out of reach of scripts, of plain HTTP and of cross-site requests. *)
Record safe_cookie (c : Cookie) : Prop := {
  safe_http_only : HttpOnly c = true;
  safe_secure : Secure c = true;
  safe_same_site : SameSiteMode c = LaxMode;
  safe_path : Path c = "/";
}.

Lemma session_cookie_safe s : safe_cookie (SetCookie s).
Proof. by split. Qed.
Lemma clear_cookie_safe : safe_cookie ClearCookie.
Proof. by split. Qed.
Lemma owner_cookie_safe s : safe_cookie (OwnerSetCookie s).
Proof. by split. Qed.
Lemma owner_clear_cookie_safe : safe_cookie OwnerClearCookie.
Proof. by split. Qed.
(** ** Erasing an account *)

(** Everything of the account is gone. *)
Record account_gone (subj : string) (a a' : App) : Prop := {
  gone_rows : RestApiFacts.erased subj (Registry.CName <$> Registry.ownedCollections (RestApi.reg (rest a))) (rest a) (rest a');
  gone_files : Forall (fun f => f_owner_id f <> subj) (files (database a'));
  gone_bytes : forall f, f ∈ files (database a) -> f_owner_id f = subj -> disk a' !! f_id f = None;
  gone_grants : forall t, Forall (fun g => js_Subject (g_session g) <> subj) (OAuth.grants t (database a'));
  gone_consents : Forall (fun k => k_user_id k <> subj) (oauth_consents (oauth (database a')));
  gone_user : subj ∉ user_ids (database a');
  gone_sessions : Forall (fun s => s_user_id s <> subj) (sessions (identity (database a')));
  gone_resets : Forall (fun s => r_user_id s <> subj) (reset_tokens (identity (database a')));
  gone_social : Forall (fun s => si_user_id s <> subj) (social_identities (identity (database a')));
}.

Lemma Forall_filter_fact {A} (P : A -> Prop) `{HP : forall x, Decision (P x)} l : Forall P (filter P l).
Proof. apply Forall_forall. by intros x [? _]%list_elem_of_filter. Qed.

Section erasure.
Context {bcrypt : Bcrypt} {sql : Sqlite} {laws : SqliteLaws}.

(** The steps of an erasure one after the other, each on its part of the state. *)
Lemma DeleteUser_run id w r w' :
  in_db (Auth.DeleteUser id) w = (r, w') ->
  match r with
  | Ok _ => w_db w' = set_database (delete_user_cascade id (database (w_db w))) (w_db w)
  | Err _ => w_db w' = w_db w
  end.
Proof using.
  unfold in_db. intros (w1 & H & ->)%zoom_run. cbn [w_db]. unfold Auth.DeleteUser, wrapping, map_err in H.
  destruct (update _ _) as [[u|e] w2] eqn:E; injection H as <- <-.
  - apply update_ok in E. by injection E as _ <-.
  - apply exec_err in E. rewrite E. apply set_database_same.
Qed.
Lemma storage_erase_run subj w r w' :
  storage (Storage.DeleteOwned subj) w = (r, w') ->
  unique_on f_id (files (database (w_db w))) ->
  (exists fs d, w_db w' = set_store (Storage.mkStore (put_files fs (database (w_db w))) d) (w_db w)) /\
  (is_ok r = true -> Forall (fun f => f_owner_id f <> subj) (files (database (w_db w'))) /\
     forall f, f ∈ files (database (w_db w)) -> f_owner_id f = subj -> disk (w_db w') !! f_id f = None).
Proof using.
  intros (w1 & H & ->)%zoom_run Hu. apply StorageFacts.DeleteOwned_run in H as (k & j & H1 & H2 & H3 & [Hd Hk]).
  cbn [w_db] in *. split.
  - exists (filter (fun r => f_id r ∉ take k (Storage.owned_ids subj (database (w_db w)))) (files (database (w_db w)))), (Storage.disk (w_db w1)).
    unfold set_store. f_equal. by rewrite Hd.
  - intros Hok. specialize (H3 Hok). cbn [Storage.db Storage.disk] in *. rewrite take_ge in Hd, Hk by lia. split.
    + cbn [set_store database]. rewrite (StorageFacts.files_with_files _ _ _ Hd). cbn [Storage.db].
      rewrite (StorageFacts.erased_owner subj _ (Storage.mkStore (database (w_db w)) (disk (w_db w))));
        [apply Forall_filter_fact|done..].
    + intros f Hf Ho. cbn [set_store disk]. rewrite Hk, decide_True; [done|]. apply StorageFacts.owned_ids_spec. eauto.
Qed.

Lemma oauth_revoke_run subj w r w' :
  in_db (OAuth.RevokeAllForSubject subj) w = (r, w') ->
  exists d, w_db w' = set_database d (w_db w) /\ identity d = identity (database (w_db w)) /\
    files d = files (database (w_db w)) /\
    (is_ok r = true -> forall t, Forall (fun g => js_Subject (g_session g) <> subj) (OAuth.grants t d)).
Proof using.
  intros (w1 & H & ->)%zoom_run. exists (w_db w1). split; [done|]. cbn [w_db] in *.
  apply (OAuthFacts.clear_tables (OAuthFacts.of_subject subj)) in H as (k & Hok & Hc & _ & Hi & Hf). cbn [w_db] in *.
  split_and!; [done..|]. intros Hr t. rewrite (Hok Hr) in Hc. rewrite (OAuthFacts.cleared_all _ _ _ t Hc).
  apply Forall_filter_fact.
Qed.

Lemma restapi_erase_run subj w r w' :
  RestApiFacts.in_sync (rest (w_db w)) -> restapi (RestApi.DeleteOwned subj) w = (r, w') ->
  (exists s, w_db w' = set_rest s (w_db w)) /\
  (is_ok r = true -> RestApiFacts.erased subj (Registry.CName <$> Registry.ownedCollections (RestApi.reg (rest (w_db w))))
     (rest (w_db w)) (rest (w_db w'))).
Proof using laws.
  intros Hs (w1 & H & ->)%zoom_run. split; [by eexists|]. intros Hok.
  unfold RestApi.DeleteOwned, RestApi.get_server, mbind, M_bind in H. cbn [w_db] in H.
  apply RestApiFacts.delete_loop_run in H as (k & He & Hk); [|by apply RestApiFacts.in_sync_owned].
  cbn [w_db] in *. destruct r as [u|e]; [|done]. subst k. rewrite take_ge in He by (rewrite length_fmap; lia). exact He.
Qed.

End erasure.

End AppFacts.
