(* ===== verification/AdminUi.v ===== *)
(** * The admin UI

    Models src/internal/adminui/server.go: the server-rendered surface of the
    owner plane under /admin/ui, its middleware, its handlers and their routing.
    A page is the name of its template with the data handed to it; how the
    templates turn that into HTML is html/template's.  A form is the list of its
    fields, the body's before the query's, as net/http merges them.  SQL Studio
    hands whatever was typed to SQLite: the engine is the class [Studio]. *)

From S2P Require Import Prelude GoStrings Schema Auth OwnerAuth AuditLog RateLimit OAuth Storage Registry RestApi Http App.

Module AdminUi.
Import Http App Registry.

Definition defaultLimit : Z := 50.
Definition maxLimit : Z := 200.

(** ** Forms *)

Definition Form : Type := list (string * string).

Definition form_value (f : Form) (key : string) : option string := snd <$> find_row (fun kv => kv.1 = key) f.
Definition Has (f : Form) (key : string) : bool := bool_decide (is_Some (form_value f key)).
Definition FormValue (f : Form) (key : string) : string := default EmptyString (form_value f key).

(** The keys of the map a form is kept in. *)
Definition form_keys (f : Form) : list string := remove_dups f.*1.

Definition formToBody (f : Form) (col : Collection) : Row :=
  fold_left (fun body c =>
    if Has f (Name c +:+ "__null") then <[Name c := VNull]> body
    else if Has f (Name c) then <[Name c := VText (FormValue f (Name c))]> body
    else body) (Columns col) ∅.

(** ** Pages and responses *)

(** What running a statement gave. *)
Inductive Outcome : Type :=
| ResultRows (columns : list string) (rows : list (list value))
| RowsAffected (n : Z).

Record StudioRun : Type := mkStudioRun {
  sr_query : string; sr_duration_ms : Z; sr_outcome : option Outcome; sr_error : option string;
}.

Inductive Page : Type :=
| LoginPage (err mail : option string)
| Dashboard (owner : OwnerAuth.Owner)
| OwnersPage (owner : OwnerAuth.Owner) (l : list OwnerAuth.Owner) (err : option string)
| UsersPage (owner : OwnerAuth.Owner) (l : list Auth.User) (limit offset total : Z) (canWrite : bool) (err : option string)
| UserDetail (owner : OwnerAuth.Owner) (user : Auth.User) (sessionCount : Z) (identities : list Auth.SocialIdentity)
    (pendingResetTokens : Z) (canWrite : bool)
| AuditLogPage (owner : OwnerAuth.Owner) (l : list Audit.Entry) (limit offset : Z)
| Maintenance (owner : OwnerAuth.Owner) (purged : option (Z * Z * Z))
| DataCollections (owner : OwnerAuth.Owner) (l : list Collection) (canWrite : bool)
| DataRows (owner : OwnerAuth.Owner) (col : Collection) (rows : list Row) (limit offset total : Z) (sort dir : string)
    (canWrite : bool)
| DataRow (col : Collection) (row : Row) (canWrite : bool)
| DataRowEditInline (col : Collection) (row : Row)
| DataRowEdit (owner : OwnerAuth.Owner) (col : Collection) (row : Row)
| TablesNew (owner : OwnerAuth.Owner) (err : option string)
| ColumnRow (n next : Z)
| SQLStudio (owner : OwnerAuth.Owner) (run : option StudioRun)
| Forbidden (owner : OwnerAuth.Owner).

Inductive Content : Type :=
| Html (p : Page)
| Text (msg : string)
| Redirect (url : string)
| Empty.

Record Response : Type := mkResponse {
  status : Z; content : Content; set_cookies : list Cookie; retry_after : option Z;
}.

Definition reply (code : Z) (c : Content) : Response := mkResponse code c [] None.
Definition render (p : Page) : Response := reply 200 (Html p).
Definition see_other (url : string) : Response := reply 303 (Redirect url).
Definition http_error (code : Z) (msg : string) : Response := reply code (Text msg).
Definition not_found : Response := http_error 404 "404 page not found".
Definition internal_error : Response := http_error 500 "internal error".
Definition invalid_form : Response := http_error 400 "invalid form".
Definition on_internal (_ : error) : Response := internal_error.
Definition with_cookie (c : Cookie) (r : Response) : Response :=
  mkResponse (status r) (content r) (set_cookies r ++ [c]) (retry_after r).

(** [r.ParseForm], or the answer to a form that does not parse. *)
Definition ParseForm (form : option Form) (k : Form -> MA Response) : MA Response :=
  match form with
  | None => mret invalid_form
  | Some f => k f
  end.

Definition parsePagination (r : Request) : string + (Z * Z) :=
  let bad_limit := "limit must be a positive integer, got " +:+ Quote (query_limit r) in
  let bad_offset := "offset must be a non-negative integer, got " +:+ Quote (query_offset r) in
  let limit :=
    if bool_decide (query_limit r = EmptyString) then inr defaultLimit
    else match Atoi (query_limit r) with
         | None => inl bad_limit
         | Some n =>
             if (n <=? 0)%Z then inl bad_limit
             else if (maxLimit <? n)%Z then inl ("limit must not exceed " +:+ Itoa maxLimit +:+ ", got " +:+ Itoa n)
             else inr n
         end in
  let offset :=
    if bool_decide (query_offset r = EmptyString) then inr 0%Z
    else match Atoi (query_offset r) with
         | None => inl bad_offset
         | Some n => if (n <? 0)%Z then inl bad_offset else inr n
         end in
  match limit, offset with
  | inl e, _ => inl e
  | inr _, inl e => inl e
  | inr l, inr o => inr (l, o)
  end.

Definition canWrite (owner : OwnerAuth.Owner) : bool := OwnerAuth.AtLeast (OwnerAuth.ORole owner) OwnerAuth.RoleDeveloper.

(** ** Middleware *)

Definition rateLimitLogin (r : Request) (next : MA Response) : MA Response :=
  a ← get_app;
  if (RateLimit.Limit (adminUiLimiter a) <=? 0)%Z then next
  else
    let key := clientIP r in
    '(ok, retryAfter) ← allow AdminUiLimiter key;
    if negb ok then
      RecordLogged Audit.EventLoginRateLimited Audit.nobody Audit.nobody (Some [("client_ip", key)]) ;;
      mret (mkResponse 429 (Html (LoginPage (Some "too many login attempts — try again shortly") None)) []
              (Some (retryAfter / second + 1)%Z))
    else next.

Definition requireRole (min : OwnerAuth.Role) (r : Request) (next : OwnerAuth.Owner -> MA Response) : MA Response :=
  match cookie_of r OwnerSessionCookieName with
  | None => mret (see_other "/admin/ui/login")
  | Some c =>
      try_or (fun _ => see_other "/admin/ui/login") (ownerAuth (OwnerAuth.ValidateSession c)) (fun owner =>
      if negb (OwnerAuth.AtLeast (OwnerAuth.ORole owner) min) then mret (reply 403 (Html (Forbidden owner)))
      else next owner)
  end.

(** ** SQL Studio's statement *)

(** The whole database: the program's own tables and the application's. *)
Record SqlDb : Type := mkSqlDb { internal : Database; application : AppDb }.

Class Studio := {
  run_query : string -> SqlDb -> string + (list string * list (list value) * SqlDb);
  run_exec : string -> SqlDb -> string + (Z * SqlDb);
}.

Definition sqlite_view (a : App) : SqlDb := mkSqlDb (database a) (RestApi.app (rest a)).
Definition sqlite_put (d : SqlDb) (a : App) : App :=
  set_rest (RestApi.set_app (application d) (rest a)) (set_database (internal d) a).
Definition sqlite {A} (m : M SqlDb A) : MA A := zoom sqlite_view sqlite_put m.

Definition truncateQuery (q : string) (n : nat) : string :=
  if bool_decide (String.length q <= n) then q else stake n q +:+ "…".

(** Chosen by the statement's first keyword. *)
Definition isQuery (trimmed : string) : bool :=
  let upper := ToUpper trimmed in
  HasPrefix upper "SELECT" || HasPrefix upper "PRAGMA" || HasPrefix upper "EXPLAIN" || HasPrefix upper "WITH".

Definition runSQL {studio : Studio} (query_ : string) : M SqlDb Outcome :=
  let trimmed := TrimSpace query_ in
  if isQuery trimmed then
    '(cols, rows) ← exec (run_query trimmed);
    query (fun _ => tt) ;;
    mret (ResultRows cols rows)
  else
    n ← exec (run_exec trimmed);
    mret (RowsAffected n).

(** ** Handlers *)

Section handlers.
Context {bcrypt : Bcrypt} {sql : Sqlite} {studio : Studio}.

Definition handleLoginPage (r : Request) : MA Response :=
  match cookie_of r OwnerSessionCookieName with
  | None => mret (render (LoginPage None None))
  | Some c =>
      res ← attempt (ownerAuth (OwnerAuth.ValidateSession c));
      mret (match res with
            | Ok _ => see_other "/admin/ui"
            | Err _ => render (LoginPage None None)
            end)
  end.

Definition handleLoginSubmit (form : option Form) : MA Response :=
  match form with
  | None => mret (render (LoginPage (Some "invalid form submission") None))
  | Some f =>
      let mail := FormValue f "email" in
      res ← attempt (ownerAuth (OwnerAuth.Login mail (FormValue f "password")));
      match res with
      | Err _ =>
          RecordLogged Audit.EventLoginFailed Audit.nobody (Audit.mkActor EmptyString mail) None ;;
          mret (render (LoginPage (Some "invalid email or password") (Some mail)))
      | Ok session =>
          RecordLogged Audit.EventLogin (Audit.mkActor (OwnerAuth.OwnerID session) mail) Audit.nobody None ;;
          mret (with_cookie (OwnerSetCookie session) (see_other "/admin/ui"))
      end
  end.

Definition handleLogout (r : Request) : MA Response :=
  (match cookie_of r OwnerSessionCookieName with
   | None => mret tt
   | Some c =>
       res ← attempt (ownerAuth (OwnerAuth.ValidateSession c));
       (match res with
        | Ok owner => RecordLogged Audit.EventLogout (owner_actor owner) Audit.nobody None
        | Err _ => mret tt
        end) ;;
       ignored ← attempt (ownerAuth (OwnerAuth.Logout c));
       mret tt
   end) ;;
  mret (with_cookie OwnerClearCookie (see_other "/admin/ui/login")).

(** *** Owners *)

Definition handleOwnersPage (owner : OwnerAuth.Owner) : MA Response :=
  try_or on_internal (ownerAuth OwnerAuth.ListOwners) (fun l => mret (render (OwnersPage owner l None))).

Definition renderOwnersWithError (actor : OwnerAuth.Owner) (err : error) : MA Response :=
  res ← attempt (ownerAuth OwnerAuth.ListOwners);
  mret (render (OwnersPage actor (match res with Ok l => l | Err _ => [] end) (Some (error_text err)))).

Definition handleCreateOwner (form : option Form) (actor : OwnerAuth.Owner) : MA Response :=
  ParseForm form (fun f =>
  res ← attempt (ownerAuth (OwnerAuth.CreateOwner (FormValue f "email") (FormValue f "password") (FormValue f "role")));
  match res with
  | Err err => renderOwnersWithError actor err
  | Ok created =>
      RecordLogged Audit.EventOwnerCreate (owner_actor actor) (owner_actor created)
        (Some [("role", OwnerAuth.ORole created)]) ;;
      mret (see_other "/admin/ui/owners")
  end).

Definition handleDeleteOwner (id : string) (actor : OwnerAuth.Owner) : MA Response :=
  res ← attempt (ownerAuth (OwnerAuth.DeleteOwner id));
  match res with
  | Err err => renderOwnersWithError actor err
  | Ok deleted =>
      RecordLogged Audit.EventOwnerDelete (owner_actor actor) (owner_actor deleted)
        (Some [("role", OwnerAuth.ORole deleted)]) ;;
      mret (see_other "/admin/ui/owners")
  end.

(** *** Users *)

Definition user_actor (u : Auth.User) : Audit.Actor := Audit.mkActor (Auth.ID u) (Auth.Email u).

Definition handleUsersPage (r : Request) (owner : OwnerAuth.Owner) : MA Response :=
  match parsePagination r with
  | inl msg => mret (http_error 400 msg)
  | inr (limit, offset) =>
      try_or on_internal (auth (Auth.ListUsers limit offset)) (fun l =>
      try_or on_internal (auth Auth.CountUsers) (fun total =>
      mret (render (UsersPage owner l limit offset total (canWrite owner) None))))
  end.

Definition renderUsersWithError (r : Request) (owner : OwnerAuth.Owner) (errMsg : string) : MA Response :=
  let '(limit, offset) := match parsePagination r with inl _ => (defaultLimit, 0%Z) | inr p => p end in
  users ← attempt (auth (Auth.ListUsers limit offset));
  total ← attempt (auth Auth.CountUsers);
  mret (render (UsersPage owner (match users with Ok l => l | Err _ => [] end) limit offset
                  (match total with Ok n => n | Err _ => 0%Z end) (canWrite owner) (Some errMsg))).

Definition handleUserDetail (id : string) (owner : OwnerAuth.Owner) : MA Response :=
  try_or (fun _ => not_found) (auth (Auth.GetUser id)) (fun user =>
  try_or on_internal (auth (Auth.CountActiveSessions (Auth.ID user))) (fun sessionCount =>
  try_or on_internal (auth (Auth.ListSocialIdentities (Auth.ID user))) (fun socialIdentities =>
  try_or on_internal (auth (Auth.CountPendingResetTokens (Auth.ID user))) (fun pendingResetTokens =>
  mret (render (UserDetail owner user sessionCount socialIdentities pendingResetTokens (canWrite owner))))))).

Definition handleCreateUser (r : Request) (form : option Form) (owner : OwnerAuth.Owner) : MA Response :=
  ParseForm form (fun f =>
  res ← attempt (auth (Auth.SignUp (FormValue f "email") (FormValue f "password")));
  match res with
  | Err err => renderUsersWithError r owner (error_text err)
  | Ok created =>
      RecordLogged Audit.EventUserCreate (owner_actor owner) (user_actor created) None ;;
      mret (see_other "/admin/ui/users")
  end).

Definition delete_failed (err : error) : Response := http_error 500 ("delete failed: " +:+ error_text err).

Definition handleDeleteUser (id : string) (owner : OwnerAuth.Owner) : MA Response :=
  try_or (fun _ => not_found) (auth (Auth.GetUser id)) (fun user =>
  try_or delete_failed (restapi (RestApi.DeleteOwned id)) (fun _ =>
  try_or delete_failed (storage (Storage.DeleteOwned id)) (fun _ =>
  try_or delete_failed (in_db (OAuth.RevokeAllForSubject id)) (fun _ =>
  try_or delete_failed (in_db (Auth.DeleteUser id)) (fun _ =>
  RecordLogged Audit.EventUserDelete (owner_actor owner) (user_actor user) None ;;
  mret (see_other "/admin/ui/users")))))).

Definition handleRevokeUserSessions (id : string) (owner : OwnerAuth.Owner) : MA Response :=
  try_or (fun _ => not_found) (auth (Auth.GetUser id)) (fun user =>
  try_or (fun err => http_error 500 ("revoke failed: " +:+ error_text err)) (auth (Auth.RevokeAllSessions id)) (fun revoked =>
  RecordLogged Audit.EventUserSessionsRevoked (owner_actor owner) (user_actor user)
    (Some [("sessions_revoked", Itoa revoked)]) ;;
  mret (see_other ("/admin/ui/users/" +:+ id)))).

(** *** Audit log and maintenance *)

Definition handleAuditLogPage (r : Request) (owner : OwnerAuth.Owner) : MA Response :=
  match parsePagination r with
  | inl msg => mret (http_error 400 msg)
  | inr (limit, offset) =>
      try_or on_internal (in_db (zoom audit_log put_audit_log (Audit.List_ limit offset))) (fun entries =>
      mret (render (AuditLogPage owner entries limit offset)))
  end.

Definition handlePurgeSessions (owner : OwnerAuth.Owner) : MA Response :=
  try_or on_internal (auth Auth.PurgeExpiredSessions) (fun sessionsPurged =>
  try_or on_internal (ownerAuth OwnerAuth.PurgeExpiredSessions) (fun ownerSessionsPurged =>
  try_or on_internal (auth Auth.PurgeExpiredResetTokens) (fun resetTokensPurged =>
  RecordLogged Audit.EventSessionsPurged (owner_actor owner) Audit.nobody
    (Some [("sessions", Itoa sessionsPurged); ("owner_sessions", Itoa ownerSessionsPurged);
           ("reset_tokens", Itoa resetTokensPurged)]) ;;
  mret (render (Maintenance owner (Some (sessionsPurged, ownerSessionsPurged, resetTokensPurged))))))).

(** *** The data browser *)

(** The collection a path names, or 404. *)
Definition with_collection (name : string) (k : Collection -> MA Response) : MA Response :=
  a ← get_app;
  match Get (RestApi.reg (rest a)) name with
  | None => mret not_found
  | Some col => k col
  end.

(** The row a path names, or 404. *)
Definition with_row (name id : string) (k : Collection -> Row -> MA Response) : MA Response :=
  with_collection name (fun col =>
  try_or (fun _ => not_found) (restapi (RestApi.AdminGetRow col (VText id))) (fun row => k col row)).

Definition handleDataCollections (owner : OwnerAuth.Owner) : MA Response :=
  a ← get_app; mret (render (DataCollections owner (All (RestApi.reg (rest a))) (canWrite owner))).

Definition handleDataRows (r : Request) (name sortCol sortDir : string) (owner : OwnerAuth.Owner) : MA Response :=
  with_collection name (fun col =>
  match parsePagination r with
  | inl msg => mret (http_error 400 msg)
  | inr (limit, offset) =>
      try_or on_internal (restapi (RestApi.AdminListRows col limit offset sortCol sortDir)) (fun rows =>
      try_or on_internal (restapi (RestApi.AdminCountRows col)) (fun total =>
      mret (render (DataRows owner col rows limit offset total sortCol sortDir (canWrite owner)))))
  end).

Definition handleDataRowFragment (name id : string) (owner : OwnerAuth.Owner) : MA Response :=
  with_row name id (fun col row => mret (render (DataRow col row (canWrite owner)))).

Definition handleDataEditRowFragment (name id : string) : MA Response :=
  with_row name id (fun col row => mret (render (DataRowEditInline col row))).

Definition handleDataCreate (name : string) (form : option Form) : MA Response :=
  with_collection name (fun col =>
  ParseForm form (fun f =>
  try_or (fun err => http_error 400 ("create failed: " +:+ error_text err))
    (restapi (RestApi.AdminCreateRow col (formToBody f col))) (fun _ =>
  mret (see_other ("/admin/ui/data/" +:+ name))))).

Definition handleDataEditForm (name id : string) (owner : OwnerAuth.Owner) : MA Response :=
  with_row name id (fun col row => mret (render (DataRowEdit owner col row))).

(** [hx]: the request carries the HX-Request header. *)
Definition handleDataUpdate (hx : bool) (name id : string) (form : option Form) (owner : OwnerAuth.Owner) : MA Response :=
  with_collection name (fun col =>
  ParseForm form (fun f =>
  try_or (fun err => http_error 400 ("update failed: " +:+ error_text err))
    (restapi (RestApi.AdminUpdateRow col (VText id) (formToBody f col))) (fun row =>
  if hx then mret (render (DataRow col row (canWrite owner)))
  else mret (see_other ("/admin/ui/data/" +:+ name))))).

Definition handleDataDelete (hx : bool) (name id : string) : MA Response :=
  with_collection name (fun col =>
  res ← attempt (restapi (RestApi.AdminDeleteRow col (VText id)));
  let deleted := if hx then reply 200 Empty else see_other ("/admin/ui/data/" +:+ name) in
  match res with
  | Ok _ => mret deleted
  | Err err =>
      if negb (errors_Is err RestApi.ErrNoRows) then
        mret (http_error 400 ("delete failed: " +:+ error_text err))
      else mret deleted
  end).

(** *** Creating a table *)

(** [strconv.Atoi] with its error dropped: the nearest int when the number does
    not fit one, 0 when it is no number. *)
Definition Atoi_value (s : string) : Z :=
  match Atoi s with
  | Some n => n
  | None =>
      let '(neg, body) :=
        match s with
        | String c rest =>
            if byte_eqb c "-" then (true, rest) else if byte_eqb c "+" then (false, rest) else (false, s)
        | EmptyString => (false, s)
        end in
      if bool_decide (body = EmptyString) || negb (sall is_digit body) then 0%Z
      else if (neg : bool) then min_int64 else max_int64
  end.

Definition handleNewTableColumnRow (n : string) : MA Response :=
  mret (render (ColumnRow (Atoi_value n) (wrap_int64 (Atoi_value n + 1)))).

(** The loop over the form's keys, in the order the iteration visits them. *)
Fixpoint form_columns (f : Form) (keys : list string) : list RestApi.AdminColumnDef :=
  match keys with
  | [] => []
  | key :: rest =>
      match CutPrefix key "col_name_" with
      | None => form_columns f rest
      | Some idx =>
          let colName := FormValue f key in
          if bool_decide (colName = EmptyString) then form_columns f rest
          else RestApi.mkAdminColumnDef colName (FormValue f ("col_type_" +:+ idx))
                 (bool_decide (FormValue f ("col_required_" +:+ idx) = "1")) :: form_columns f rest
      end
  end.

(** [visited]: the keys of the form in the order the iteration visits them, which
    Go leaves open. *)
Definition handleCreateTable (form : option Form) (visited : list string) (owner : OwnerAuth.Owner) : MA Response :=
  ParseForm form (fun f =>
  let name := FormValue f "name" in
  let ownerScoped := bool_decide (FormValue f "owner_scoped" = "1") in
  res ← attempt (restapi (RestApi.AdminCreateTable name ownerScoped (form_columns f visited)));
  mret (match res with
        | Err err => render (TablesNew owner (Some (error_text err)))
        | Ok _ => see_other ("/admin/ui/data/" +:+ name)
        end)).

(** *** SQL Studio *)

Definition handleSQLStudioRun (form : option Form) (owner : OwnerAuth.Owner) : MA Response :=
  ParseForm form (fun f =>
  let query_ := FormValue f "query" in
  start ← now;
  res ← attempt (sqlite (runSQL query_));
  finish ← now;
  let run := mkStudioRun query_ ((finish - start) / 1000000)%Z in
  RecordLogged Audit.EventSQLExecuted (owner_actor owner) Audit.nobody
    (Some [("query", truncateQuery query_ 500); ("ok", if is_ok res then "true" else "false")]) ;;
  match res with
  | Err err => mret (render (SQLStudio owner (Some (run None (Some (error_text err))))))
  | Ok (ResultRows cols rows) => mret (render (SQLStudio owner (Some (run (Some (ResultRows cols rows)) None))))
  | Ok (RowsAffected n) =>
      reloaded ← attempt (restapi RestApi.ReloadSchema);
      let err := match reloaded with
                 | Ok _ => None
                 | Err rErr => Some ("query ran, but reloading the schema afterward failed: " +:+ error_text rErr)
                 end in
      mret (render (SQLStudio owner (Some (run (Some (RowsAffected n)) err))))
  end).

(** ** Routes *)

Inductive Route : Type :=
| UiLoginPage
| UiLogin (form : option Form)
| UiLogout
(* viewer *)
| UiDashboard
| UiCollections
| UiRows (name sort dir : string)
| UiRowFragment (name id : string)
| UiUsers
| UiUser (id : string)
(* developer *)
| UiRowCreate (name : string) (form : option Form)
| UiRowEditForm (name id : string)
| UiRowEditFragment (name id : string)
| UiRowUpdate (hx : bool) (name id : string) (form : option Form)
| UiRowDelete (hx : bool) (name id : string)
| UiUserCreate (form : option Form)
| UiUserDelete (id : string)
| UiUserRevokeSessions (id : string)
| UiTablesNew
| UiColumnRow (n : string)
| UiTableCreate (form : option Form) (visited : list string)
(* admin *)
| UiOwners
| UiAuditLog
| UiMaintenance
| UiPurgeSessions
(* owner *)
| UiOwnerCreate (form : option Form)
| UiOwnerDelete (id : string)
| UiSqlPage
| UiSqlRun (form : option Form).

(** The group of routes a request falls in: none for the sign-in pages. *)
Definition required_role (route : Route) : option OwnerAuth.Role :=
  match route with
  | UiLoginPage | UiLogin _ | UiLogout => None
  | UiDashboard | UiCollections | UiRows _ _ _ | UiRowFragment _ _ | UiUsers | UiUser _ => Some OwnerAuth.RoleViewer
  | UiRowCreate _ _ | UiRowEditForm _ _ | UiRowEditFragment _ _ | UiRowUpdate _ _ _ _ | UiRowDelete _ _ _
  | UiUserCreate _ | UiUserDelete _ | UiUserRevokeSessions _ | UiTablesNew | UiColumnRow _ | UiTableCreate _ _ =>
      Some OwnerAuth.RoleDeveloper
  | UiOwners | UiAuditLog | UiMaintenance | UiPurgeSessions => Some OwnerAuth.RoleAdmin
  | UiOwnerCreate _ | UiOwnerDelete _ | UiSqlPage | UiSqlRun _ => Some OwnerAuth.RoleOwner
  end.

(** The handler of a route behind [requireRole]. *)
Definition page_handler (r : Request) (route : Route) (owner : OwnerAuth.Owner) : MA Response :=
  match route with
  | UiLoginPage | UiLogin _ | UiLogout => mret not_found
  | UiDashboard => mret (render (Dashboard owner))
  | UiCollections => handleDataCollections owner
  | UiRows name sort dir => handleDataRows r name sort dir owner
  | UiRowFragment name id => handleDataRowFragment name id owner
  | UiUsers => handleUsersPage r owner
  | UiUser id => handleUserDetail id owner
  | UiRowCreate name form => handleDataCreate name form
  | UiRowEditForm name id => handleDataEditForm name id owner
  | UiRowEditFragment name id => handleDataEditRowFragment name id
  | UiRowUpdate hx name id form => handleDataUpdate hx name id form owner
  | UiRowDelete hx name id => handleDataDelete hx name id
  | UiUserCreate form => handleCreateUser r form owner
  | UiUserDelete id => handleDeleteUser id owner
  | UiUserRevokeSessions id => handleRevokeUserSessions id owner
  | UiTablesNew => mret (render (TablesNew owner None))
  | UiColumnRow n => handleNewTableColumnRow n
  | UiTableCreate form visited => handleCreateTable form visited owner
  | UiOwners => handleOwnersPage owner
  | UiAuditLog => handleAuditLogPage r owner
  | UiMaintenance => mret (render (Maintenance owner None))
  | UiPurgeSessions => handlePurgeSessions owner
  | UiOwnerCreate form => handleCreateOwner form owner
  | UiOwnerDelete id => handleDeleteOwner id owner
  | UiSqlPage => mret (render (SQLStudio owner None))
  | UiSqlRun form => handleSQLStudioRun form owner
  end.

Definition mount (r : Request) (route : Route) : MA Response :=
  match route with
  | UiLoginPage => handleLoginPage r
  | UiLogin form => rateLimitLogin r (handleLoginSubmit form)
  | UiLogout => handleLogout r
  | _ =>
      match required_role route with
      | None => mret not_found
      | Some min => requireRole min r (page_handler r route)
      end
  end.

End handlers.

End AdminUi.
