(* ===== verification/AdminUiFacts.v ===== *)
(** * The admin UI: theorems

    What the pages may do to the state (the owner accounts and the audit log are
    out of reach of every one but the pages that manage owners and SQL Studio),
    that a run of SQL Studio is answered and recorded whatever it was, what a
    form turns into, and that the order a form's columns are visited in decides
    nothing but the order of the columns. *)

From S2P Require Import Prelude GoStrings Encoding Schema Auth AuthFacts OwnerAuth OwnerAuthFacts AuditLog RateLimit OAuth OAuthFacts Storage StorageFacts Registry RestApi RestApiFacts Http App AppFacts AdminUi.

Module AdminUiFacts.
Import Http App AppFacts AdminUi Registry.

(** ** Frames *)

(** The pages that can change owner accounts, SQL Studio among them. *)
Definition changes_owners (route : Route) : bool :=
  match route with UiOwnerCreate _ | UiOwnerDelete _ | UiSqlRun _ => true | _ => false end.

Definition runs_sql (route : Route) : bool := match route with UiSqlRun _ => true | _ => false end.

Section frames.
Context {bcrypt : Bcrypt} {sql : Sqlite} {studio : Studio}.

Lemma ParseForm_within R form k `{!PreOrder R} :
  (forall f, within R (k f)) -> within R (ParseForm form k).
Proof using. intros Hk. destruct form; [apply Hk|by apply within_ret]. Qed.

Lemma with_collection_within R name k `{!PreOrder R} :
  (forall col, within R (k col)) -> within R (with_collection name k).
Proof using.
  intros Hk. unfold with_collection. apply within_bind; [done|by apply within_get_app|intros a].
  destruct (Get _ _); [apply Hk|by apply within_ret].
Qed.

Lemma with_row_modest name id k :
  (forall col row, within (on_db modest) (k col row)) -> within (on_db modest) (with_row name id k).
Proof using.
  intros Hk. apply with_collection_within; [apply _|intros col].
  apply within_try_or; [apply _|apply restapi_modest|intros row; apply Hk].
Qed.

Lemma requireRole_within R min r next `{!PreOrder R} :
  (forall c, within R (ownerAuth (OwnerAuth.ValidateSession c))) -> (forall o, within R (next o)) ->
  within R (requireRole min r next).
Proof using.
  intros Hv Hn. unfold requireRole. destruct (cookie_of r _) as [c|]; [|by apply within_ret].
  apply within_try_or; [done|apply Hv|intros o]. destruct (negb _); [by apply within_ret|apply Hn].
Qed.

Ltac page_step :=
  match goal with
  | |- within _ (ParseForm _ _) => apply ParseForm_within; [exact _|intros ?]
  | |- within _ (with_collection _ _) => apply with_collection_within; [exact _|intros ?]
  | |- within _ (with_row _ _ _) => apply with_row_modest; intros ? ?
  | |- within _ (restapi _) => apply restapi_modest
  | _ => within_step
  | |- within _ _ => progress cbv zeta
  end.

Create HintDb pages.
#[local] Hint Unfold handleDataCollections handleDataRows handleDataRowFragment handleUsersPage handleUserDetail
  handleDataCreate handleDataEditForm handleDataEditRowFragment handleDataUpdate handleDataDelete handleCreateUser
  renderUsersWithError handleDeleteUser handleRevokeUserSessions handleNewTableColumnRow handleCreateTable
  handleOwnersPage handleAuditLogPage handlePurgeSessions handleLoginPage handleLoginSubmit handleLogout rateLimitLogin : pages.

Lemma page_modest r route owner :
  changes_owners route = false -> within (on_db modest) (page_handler r route owner).
Proof using.
  intros Hr. destruct route; try discriminate Hr; cbn [page_handler]; autounfold with pages; cbv zeta.
  all: repeat page_step.
Qed.

Lemma mount_modest r route : changes_owners route = false -> within (on_db modest) (mount r route).
Proof using.
  intros Hr. pose proof (fun o => page_modest r route o Hr) as Hp.
  destruct route; try discriminate Hr; cbn [mount required_role]; autounfold with pages; cbv zeta.
  all: first [apply requireRole_within; [apply _| |exact Hp]|idtac].
  all: repeat page_step.
Qed.

Lemma renderOwnersWithError_grows actor err : within (on_db grows) (renderOwnersWithError actor err).
Proof using.
  unfold renderOwnersWithError. apply within_bind; [apply _| |by within_solve].
  apply within_attempt; [apply _|apply ownerAuth_grows].
Qed.

(** Only SQL Studio can take entries out of the audit log. *)
Lemma mount_grows r route : runs_sql route = false -> within (on_db grows) (mount r route).
Proof using.
  intros Hr. destruct (changes_owners route) eqn:E; [|by eapply within_mono; [apply modest_grows|apply mount_modest]].
  destruct route; try discriminate E; try discriminate Hr; cbn [mount required_role];
    (apply requireRole_within; [apply _|intros c; apply ownerAuth_grows|intros actor]); cbn [page_handler].
  - unfold handleCreateOwner. apply ParseForm_within; [apply _|intros f].
    apply within_bind; [apply _|apply within_attempt; [apply _|apply ownerAuth_grows]|intros [o|e]].
    + apply within_bind; [apply _|apply RecordLogged_grows|by within_solve].
    + apply renderOwnersWithError_grows.
  - unfold handleDeleteOwner.
    apply within_bind; [apply _|apply within_attempt; [apply _|apply ownerAuth_grows]|intros [o|e]].
    + apply within_bind; [apply _|apply RecordLogged_grows|by within_solve].
    + apply renderOwnersWithError_grows.
Qed.
End frames.

(** ** Who gets through *)

Section gate.
Context {bcrypt : Bcrypt} {sql : Sqlite} {studio : Studio}.

(** The three ways past [requireRole]: to the login page, to the "forbidden" page,
    or with a valid session of the rank asked for. *)
Lemma requireRole_run min r next w x w' :
  requireRole min r next w = (x, w') ->
  w_db w' = w_db w /\ (x = Ok (see_other "/admin/ui/login") \/ exists o, x = Ok (reply 403 (Html (Forbidden o)))) \/
  exists o w1, w_db w1 = w_db w /\ signed_in_owner r o (database (w_db w)) /\
    OwnerAuth.AtLeast (OwnerAuth.ORole o) min = true /\ next o w1 = (x, w').
Proof using.
  unfold requireRole. destruct (cookie_of r _) as [c|] eqn:Ec; [|intros [= <- <-]; left; auto].
  unfold try_or. pose proof (ownerAuth_reads (OwnerAuth.ValidateSession c) w (owner_Validate_reads c)) as Hr.
  destruct (ownerAuth _ w) as [[o|e] w1] eqn:Ev; cbn [snd] in Hr; [|intros [= <- <-]; left; auto].
  destruct (OwnerAuth.AtLeast _ _) eqn:Hl; cbn [negb]; [|intros [= <- <-]; left; eauto]. intros H. right. exists o, w1.
  split_and!; try done. unfold ownerAuth, in_db, zoom in Ev. cbn [w_env w_db] in Ev.
  destruct (OwnerAuth.ValidateSession c _) as [v w2] eqn:E. injection Ev as -> _. by exists c, (w_env w), w2.
Qed.

(** A route with a rank goes through [requireRole]. *)
Lemma mount_gated r route min :
  required_role route = Some min -> mount r route = requireRole min r (page_handler r route).
Proof using. by destruct route; intros [= <-]. Qed.
End gate.

(** ** Answers *)

Definition well_formed (resp : Response) : Prop :=
  Forall safe_cookie (set_cookies resp) /\ (status resp = 429%Z <-> is_Some (retry_after resp)) /\
  (200 <= status resp < 600)%Z.

Section answers.
Context {bcrypt : Bcrypt} {sql : Sqlite} {studio : Studio}.

Lemma ui_reply_well_formed code c : code <> 429%Z -> (200 <= code < 600)%Z -> well_formed (reply code c).
Proof using. intros Hne Hc. split_and!; [by constructor|split; [done|intros [? [=]]]|apply Hc..]. Qed.

Lemma ui_with_cookie_well_formed c resp : safe_cookie c -> well_formed resp -> well_formed (with_cookie c resp).
Proof using. intros Hc (H1 & H2 & H3). split_and!; [apply Forall_app; split; [done|by constructor]|done|apply H3..]. Qed.

Ltac answer_step :=
  match goal with
  | |- forall _, _ => intros ?
  | |- yields (match ?x with _ => _ end) _ => destruct x
  | |- yields (mret _) _ => apply yields_ret
  | |- yields (try_or _ _ _) _ => apply yields_try_or
  | |- yields (_ ≫= _) _ => apply yields_bind
  | |- well_formed (match ?x with _ => _ end) => destruct x
  | |- well_formed (with_cookie _ _) => apply ui_with_cookie_well_formed; [by split|]
  | |- well_formed (mkResponse 429 _ _ _) => split_and!; [by constructor|by split|done..]
  | |- well_formed _ => by apply ui_reply_well_formed
  end.

Lemma mount_yields r route : yields (mount r route) well_formed.
Proof using.
  destruct route; cbn [mount required_role page_handler];
    unfold rateLimitLogin, requireRole, handleLoginPage, handleLoginSubmit, handleLogout; cbv zeta.
  all: repeat first [answer_step | progress cbv zeta | progress cbn [page_handler] | progress unfold
    handleDataCollections, handleDataRows, handleDataRowFragment, handleUsersPage, handleUserDetail,
    handleDataCreate, handleDataEditForm, handleDataEditRowFragment, handleDataUpdate, handleDataDelete, handleCreateUser,
    renderUsersWithError, handleDeleteUser, handleRevokeUserSessions, handleNewTableColumnRow, handleCreateTable,
    handleOwnersPage, handleAuditLogPage, handlePurgeSessions, handleSQLStudioRun, handleCreateOwner, handleDeleteOwner,
    renderOwnersWithError, with_row, with_collection, ParseForm].
Qed.
End answers.

(** ** SQL Studio *)

Section studio.
Context {bcrypt : Bcrypt} {sql : Sqlite} {studio : Studio}.

Lemma runSQL_forward q : forward (runSQL q).
Proof using. unfold runSQL. forward_solve. Qed.

(** The handler in two halves: the statement, and what is made of its result. *)
Lemma handleSQLStudioRun_split f owner w :
  let q := FormValue f "query" in
  let w1 := (sqlite (runSQL q) w).2 in
  let res := (sqlite (runSQL q) w).1 in
  exists run w2,
    RecordLogged Audit.EventSQLExecuted (owner_actor owner) Audit.nobody
      (Some [("query", truncateQuery q 500); ("ok", if is_ok res then "true" else "false")]) w1 = (Ok tt, w2) /\
    (handleSQLStudioRun (Some f) owner w).1 = Ok (render (SQLStudio owner (Some run))) /\
    sr_query run = q /\
    match res with
    | Err e => sr_outcome run = None /\ sr_error run = Some (error_text e) /\
        (handleSQLStudioRun (Some f) owner w).2 = w2
    | Ok (ResultRows cols rows) => sr_outcome run = Some (ResultRows cols rows) /\ sr_error run = None /\
        (handleSQLStudioRun (Some f) owner w).2 = w2
    | Ok (RowsAffected n) => sr_outcome run = Some (RowsAffected n) /\
        (handleSQLStudioRun (Some f) owner w).2 = (restapi RestApi.ReloadSchema w2).2 /\
        (sr_error run = None <-> is_ok (restapi RestApi.ReloadSchema w2).1 = true)
    end.
Proof using.
  cbv zeta. unfold handleSQLStudioRun, ParseForm. cbv zeta.
  rewrite now_bind, attempt_bind, now_bind. destruct (sqlite _ w) as [res w1]. cbn [fst snd].
  destruct (RecordLogged_run Audit.EventSQLExecuted (owner_actor owner) Audit.nobody
    (Some [("query", truncateQuery (FormValue f "query") 500); ("ok", if is_ok res then "true" else "false")]) w1)
    as (w2 & l & HR & _ & _). rewrite (bind_run _ _ _ _ _ HR).
  destruct res as [[cols rows|n]|e].
  - eexists _, w2. split; [exact HR|]. split_and!; reflexivity.
  - rewrite attempt_bind. eexists _, w2. split; [exact HR|]. split_and!; try reflexivity.
    cbn [sr_error]. by destruct (restapi RestApi.ReloadSchema w2) as [[?|?] ?].
  - eexists _, w2. split; [exact HR|]. split_and!; reflexivity.
Qed.

Lemma restapi_database {A} (m : M RestApi.Server A) w : database (w_db (restapi m w).2) = database (w_db w).
Proof using. unfold restapi, zoom. by destruct (m _). Qed.

Lemma sqlite_quiet q w : quiet w -> quiet (sqlite (runSQL q) w).2.
Proof using. intros Hq. by apply forward_quiet; [apply forward_zoom, runSQL_forward|]. Qed.

(** C9: a run of SQL Studio is always answered with the page, the error of a
    statement that failed shown on it, and - unless a fault strikes the recording
    itself - leaves, whatever the statement was and whether it succeeded, one
    further entry at the end of the audit log: who ran it, its text (cut to 500
    bytes) and whether it went through. *)
Theorem SQLStudioRun_recorded f owner w :
  let q := FormValue f "query" in
  let w1 := (sqlite (runSQL q) w).2 in
  let ran := is_ok (sqlite (runSQL q) w).1 in
  (exists run, (handleSQLStudioRun (Some f) owner w).1 = Ok (render (SQLStudio owner (Some run))) /\
     sr_query run = q /\ (ran = true <-> is_Some (sr_outcome run)) /\ (ran = false -> is_Some (sr_error run))) /\
  (quiet w -> next_id w1 ∉ a_id <$> audit_log (database (w_db w1)) ->
   audit_log (database (w_db (handleSQLStudioRun (Some f) owner w).2)) =
     audit_log (database (w_db w1)) ++
     [audit_row (next_id w1) Audit.EventSQLExecuted (owner_actor owner) Audit.nobody
        (Some [("query", truncateQuery q 500); ("ok", if ran then "true" else "false")]) (current_timestamp (clock w1))]).
Proof using.
  cbv zeta. destruct (handleSQLStudioRun_split f owner w) as (run & w2 & HR & Ha & Hq & Hres). cbv zeta in *. split.
  - exists run. split; [done|]. split; [done|].
    destruct (sqlite _ w) as [[[cols rows|n]|e] w1]; cbn [fst is_ok] in *; destruct Hres as (Ho & Hres);
      rewrite Ho; (split; [split; [by eauto|done || by intros []]|]); try done. by destruct Hres as [-> _].
  - intros Hw Hid. apply sqlite_quiet with (q := FormValue f "query") in Hw.
    destruct (RecordLogged_quiet Audit.EventSQLExecuted (owner_actor owner) Audit.nobody
      (Some [("query", truncateQuery (FormValue f "query") 500);
             ("ok", if is_ok (sqlite (runSQL (FormValue f "query")) w).1 then "true" else "false")]) _ Hw Hid)
      as (w3 & HR' & _ & Hdb). rewrite HR in HR'. injection HR' as ->.
    assert (database (w_db (handleSQLStudioRun (Some f) owner w).2) = database (w_db w3)) as ->.
    { destruct (sqlite _ w) as [[[cols rows|n]|e] w1]; cbn [fst] in Hres.
      - by destruct Hres as (_ & _ & ->).
      - destruct Hres as (_ & -> & _). apply restapi_database.
      - by destruct Hres as (_ & _ & ->). }
    by rewrite Hdb.
Qed.

(** what a statement run in SQL Studio did to the schema is in effect at once:
    when the page reports rows affected and no error, the registry of collections
    is in step with the tables as the statement left them. *)
Theorem SQLStudioRun_live f owner w run w' :
  handleSQLStudioRun (Some f) owner w = (Ok (render (SQLStudio owner (Some run))), w') ->
  forall n, sr_outcome run = Some (RowsAffected n) -> sr_error run = None ->
  RestApi.app (rest (w_db w')) = RestApi.app (rest (w_db (sqlite (runSQL (FormValue f "query")) w).2)) /\
  RestApiFacts.in_sync (rest (w_db w')).
Proof using.
  intros H n Hn He. destruct (handleSQLStudioRun_split f owner w) as (run' & w2 & HR & Ha & _ & Hres). cbv zeta in *.
  rewrite H in Ha, Hres. cbn [fst snd] in *. injection Ha as <-.
  assert (rest (w_db w2) = rest (w_db (sqlite (runSQL (FormValue f "query")) w).2)) as Hw2.
  { destruct (RecordLogged_run Audit.EventSQLExecuted (owner_actor owner) Audit.nobody
      (Some [("query", truncateQuery (FormValue f "query") 500);
             ("ok", if is_ok (sqlite (runSQL (FormValue f "query")) w).1 then "true" else "false")])
      (sqlite (runSQL (FormValue f "query")) w).2) as (w3 & l & HR' & Hdb & _).
    rewrite HR in HR'. injection HR' as ->. by rewrite Hdb. }
  destruct (sqlite _ w) as [[[cols rows|m]|e] w1]; cbn [fst snd] in *.
  - destruct Hres as (Ho & _). congruence.
  - destruct Hres as (_ & -> & Hok). apply Hok in He. destruct (restapi RestApi.ReloadSchema w2) as [x w3] eqn:E.
    cbn [fst snd] in *. apply zoom_run in E as (w4 & E & ->). destruct x as [u|]; [|done].
    apply RestApiFacts.ReloadSchema_run in E as (Happ & Hs & _). cbn [w_db] in *. split; [|exact Hs].
    cbn. by rewrite Happ, Hw2.
  - destruct Hres as (Ho & _). congruence.
Qed.

(** The text kept of a statement: all of it, or its first 500 bytes. *)
Lemma truncateQuery_prefix q n :
  exists rest, truncateQuery q n = stake n q +:+ rest /\ (rest = EmptyString \/ rest = "…").
Proof using.
  unfold truncateQuery. case_bool_decide as Hl; [|by exists "…"; auto]. exists EmptyString. split; [|by left].
  rewrite sapp_nil_r. symmetry. revert q Hl. induction n as [|n IH]; intros [|c q] Hl; cbn in *; try done; [lia|].
  f_equal. apply IH. lia.
Qed.
End studio.

(** ** Forms *)

Section forms.
Implicit Types f : Form.

Lemma Has_FormValue f k : Has f k = true -> form_value f k = Some (FormValue f k).
Proof using. unfold Has, FormValue. intros H%bool_decide_eq_true_1. by destruct (form_value f k) as [v|]; [|destruct H]. Qed.

Lemma Has_none f k : Has f k = false -> form_value f k = None.
Proof using. unfold Has. intros H%bool_decide_eq_false_1. destruct (form_value f k) as [v|]; [|done]. by destruct H. Qed.

(** an edit form turns into the row to write exactly so: a column of the table
    is NULL when its NULL box is ticked, whatever the text says; else its text,
    when the form has it; else, and every field that is no column, it is left out. *)
Theorem formToBody_exact f col k :
  formToBody f col !! k =
    if decide (k ∈ Name <$> Columns col)
    then if Has f (k +:+ "__null") then Some VNull else VText <$> form_value f k
    else None.
Proof using.
  assert (forall (cols : list Column) (body : Row), fold_left (fun (body : Row) c =>
      if Has f (Name c +:+ "__null") then <[Name c := VNull]> body
      else if Has f (Name c) then <[Name c := VText (FormValue f (Name c))]> body else body) cols body !! k =
    if decide (k ∈ Name <$> cols)
    then if Has f (k +:+ "__null") then Some VNull else
         match form_value f k with Some v => Some (VText v) | None => body !! k end
    else body !! k) as Hfold.
  { induction cols as [|c cols IH]; intros body; cbn [fold_left fmap list_fmap]; [by rewrite decide_False by apply not_elem_of_nil|].
    rewrite IH. destruct (decide (Name c = k)) as [<-|Hne].
    - rewrite (decide_True (P := _ ∈ Name c :: _)) by left.
      destruct (Has f (Name c +:+ "__null")) eqn:Hn.
      { destruct (decide _); [done|]. apply lookup_insert_eq. }
      destruct (Has f (Name c)) eqn:Hc.
      + rewrite (Has_FormValue _ _ Hc). destruct (decide _); [done|]. apply lookup_insert_eq.
      + rewrite (Has_none _ _ Hc). by destruct (decide _).
    - assert ((if Has f (Name c +:+ "__null") then <[Name c := VNull]> body
               else if Has f (Name c) then <[Name c := VText (FormValue f (Name c))]> body else body) !! k = body !! k) as ->.
      { destruct (Has f (Name c +:+ _)); [by apply lookup_insert_ne|].
        destruct (Has f (Name c)); [by apply lookup_insert_ne|done]. }
      destruct (decide (k ∈ _)) as [Hin|Hin]; [by rewrite decide_True by (right; exact Hin)|].
      rewrite decide_False; [done|]. intros [?|?]%elem_of_cons; congruence. }
  unfold formToBody. rewrite Hfold, lookup_empty. by destruct (decide _), (Has _ _), (form_value f k).
Qed.

End forms.

(** ** Creating a table *)

Section tables.

(** The columns a list of definitions names, in its order. *)
Definition named (cols : list RestApi.AdminColumnDef) : list RestApi.AdminColumnDef :=
  filter (fun c => RestApi.AName c <> EmptyString) cols.

Definition column_def (c : RestApi.AdminColumnDef) : TColumn :=
  mkTColumn (RestApi.AName c) (RestApi.AType c) (RestApi.ARequired c) false VNull.

(** What makes a list of definitions acceptable, next to the names already taken. *)
Definition acceptable (cols : list RestApi.AdminColumnDef) (seen : list string) : Prop :=
  NoDup (RestApi.AName <$> named cols) /\
  Forall (fun c => (RestApi.AName c ∉ seen) /\ re_match RestApi.identifierRe (RestApi.AName c) = true /\
            RestApi.isAllowedColumnType (RestApi.AType c) = true) (named cols).

Lemma column_defs_exact cols : forall seen,
  (acceptable cols seen -> RestApi.column_defs cols seen = inr (column_def <$> named cols)) /\
  (forall defs, RestApi.column_defs cols seen = inr defs -> acceptable cols seen).
Proof using.
  unfold acceptable, named. induction cols as [|c cols IH]; intros seen; cbn [RestApi.column_defs].
  { split; [done|]. intros defs _. split; constructor. }
  case_bool_decide as He.
  { rewrite filter_cons_False by (intros Hc; exact (Hc He)). apply IH. }
  rewrite filter_cons_True by done. cbn [fmap list_fmap]. rewrite NoDup_cons, Forall_cons.
  destruct (IH (RestApi.AName c :: seen)) as [IH1 IH2]. split.
  - intros [[Hn Hnd] [(Hs & -> & ->) Hall]]. cbn [negb]. rewrite bool_decide_eq_false_2 by done. rewrite IH1; [done|].
    split; [done|]. rewrite Forall_forall in Hall |- *. intros d Hd. destruct (Hall d Hd) as (H1 & H2 & H3).
    split_and!; try done. intros [Heq|?]%elem_of_cons; [|done]. apply Hn. rewrite <- Heq. by apply list_elem_of_fmap_2.
  - intros defs. destruct (re_match _ _) eqn:Hre; [|done]. cbn [negb]. case_bool_decide as Hs; [done|].
    destruct (RestApi.isAllowedColumnType _) eqn:Hty; [|done]. cbn [negb].
    destruct (RestApi.column_defs cols _) as [|defs']; [done|]. intros _. destruct (IH2 _ eq_refl) as [Hnd Hall].
    rewrite NoDup_cons, Forall_cons. rewrite Forall_forall in Hall. split; [split; [|done]|split; [done|]].
    + intros (d & Hd & Hin)%list_elem_of_fmap. destruct (Hall d Hin) as [Hne _]. apply Hne. rewrite <- Hd. left.
    + apply Forall_forall. intros d Hin. destruct (Hall d Hin) as (Hne & ? & ?). split; [|done].
      intros Hd. apply Hne. by right.
Qed.

Lemma form_columns_permutation f v1 v2 : v1 ≡ₚ v2 -> form_columns f v1 ≡ₚ form_columns f v2.
Proof using.
  induction 1 as [|x l1 l2 _ IH|x y l|l1 l2 l3 _ IH1 _ IH2]; cbn [form_columns]; [done| | |by etrans].
  - destruct (CutPrefix x _); [|done]. case_bool_decide; [done|by f_equiv].
  - destruct (CutPrefix x _), (CutPrefix y _); try done; repeat case_bool_decide; try done; apply Permutation_swap.
Qed.

(** the columns of a table made from a form do not depend on the order Go visits
    the form's fields in: whether they are accepted, and which they are; only the
    order they come in does. *)
Theorem create_table_order f v1 v2 seen :
  v1 ≡ₚ v2 ->
  match RestApi.column_defs (form_columns f v1) seen, RestApi.column_defs (form_columns f v2) seen with
  | inr d1, inr d2 => d1 ≡ₚ d2
  | inl _, inl _ => True
  | _, _ => False
  end.
Proof using.
  intros Hv. apply (form_columns_permutation f) in Hv.
  assert (named (form_columns f v1) ≡ₚ named (form_columns f v2)) as Hn by (unfold named; by rewrite Hv).
  assert (acceptable (form_columns f v1) seen <-> acceptable (form_columns f v2) seen) as Hacc.
  { unfold acceptable. by rewrite Hn. }
  destruct (column_defs_exact (form_columns f v1) seen) as [Ha1 Hb1].
  destruct (column_defs_exact (form_columns f v2) seen) as [Ha2 Hb2].
  destruct (RestApi.column_defs (form_columns f v1) seen) as [e1|d1].
  - destruct (RestApi.column_defs (form_columns f v2) seen) as [e2|d2]; [done|].
    specialize (Hb2 _ eq_refl). by specialize (Ha1 (proj2 Hacc Hb2)).
  - specialize (Hb1 _ eq_refl). rewrite (Ha2 (proj1 Hacc Hb1)). specialize (Ha1 Hb1). injection Ha1 as ->. by rewrite Hn.
Qed.
End tables.

(** ** Signing a customer out *)

Section users.
Context {bcrypt : Bcrypt} {sql : Sqlite} {studio : Studio}.

Lemma GetUser_run id w r w' :
  auth (Auth.GetUser id) w = (r, w') ->
  w_db w' = w_db w /\ (is_ok r = true -> id ∈ user_ids (database (w_db w))).
Proof using.
  intros (v & H & ->)%auth_run. assert (w_db v = identity (database (w_db w)) /\ (is_ok r = true ->
    id ∈ user_ids (database (w_db w)))) as [Hv Hr].
  { unfold Auth.GetUser, Auth.getUserByID, Auth.select_user_by_id in H. destruct r as [u|e].
    - apply bind_ok in H as (row & w1 & H1%map_err_ok & H). apply query_ok in H1 as [-> H1]. cbn [w_db] in *.
      destruct (find_row _ _) as [row|] eqn:E; [|done]. apply mret_ok in H as [_ ->]. split; [done|]. intros _.
      apply find_row_Some in E as [Hin <-]. by apply list_elem_of_fmap_2.
    - split; [|done]. apply bind_err in H as [H|(row & w1 & H1%map_err_ok & H)].
      + unfold wrapping, map_err in H. destruct (query _ _) as [[?|?] w1] eqn:E; [done|]. injection H as _ <-.
        by apply exec_err in E.
      + apply query_ok in H1 as [_ H1]. destruct row; [done|]. injection H as _ <-. done. }
  split; [|exact Hr]. cbn [w_db]. rewrite Hv. by destruct (w_db w) as [[]].
Qed.

(** signing a customer out everywhere either ends every session of that account
    and of no other, leaving everything else but the audit log as it was, and
    shows the account's page; or it answers 404 or 500 and changes nothing. *)
Theorem handleRevokeUserSessions_exact id owner w resp w' :
  handleRevokeUserSessions id owner w = (Ok resp, w') ->
  (resp = see_other ("/admin/ui/users/" +:+ id) /\ id ∈ user_ids (database (w_db w)) /\
   exists l, w_db w' = set_database (put_audit_log l (put_identity
     (set_sessions (filter (fun s => s_user_id s <> id)) (identity (database (w_db w)))) (database (w_db w)))) (w_db w)) \/
  ((status resp = 404%Z \/ status resp = 500%Z) /\ w_db w' = w_db w).
Proof using.
  unfold handleRevokeUserSessions. intros [(e & H & ->)|(u & w1 & H & Hk)]%try_or_ok;
    apply GetUser_run in H as [Hw1 Hid]; [right; split; [by left|done]|].
  apply try_or_ok in Hk as [(e & H & ->)|(n & w2 & H & Hk)]; apply auth_run in H as (v & H & ->).
  - right. split; [by right|]. cbn [w_db]. unfold Auth.RevokeAllSessions, wrapping, map_err in H.
    destruct (Auth.delete_sessions _ _) as [[?|?] w3] eqn:E; [done|]. injection H as _ <-.
    apply exec_err in E. rewrite E, Hw1. by destruct (w_db w) as [[]].
  - left. apply map_err_ok, update_ok in H. injection H as _ H. rewrite Hw1 in H.
    match type of Hk with (RecordLogged ?e ?x ?y ?md ≫= _) ?v0 = _ =>
      destruct (RecordLogged_run e x y md v0) as (w4 & l & HR & Hdb & _) end.
    rewrite (bind_run _ _ _ _ _ HR) in Hk. injection Hk as <- <-. split; [done|]. split; [by apply Hid|].
    exists l. rewrite Hdb. cbn [w_db]. rewrite <- H, Hw1. done.
Qed.
End users.

(** ** Witnesses *)

#[local] Existing Instance AuthFacts.toy_bcrypt.
#[local] Existing Instance RestApiFacts.toy.
#[local] Existing Instance RestApiFacts.toy_laws.

(** An engine that knows three statements. *)
Definition toy_exec (q : string) (d : SqlDb) : string + (Z * SqlDb) :=
  if bool_decide (q = "DELETE FROM owner_audit_log") then
    inr (Z.of_nat (length (audit_log (internal d))), mkSqlDb (put_audit_log [] (internal d)) (application d))
  else if bool_decide (q = "DROP TABLE notes") then
    inr (0%Z, mkSqlDb (internal d) (mkAppDb (delete "notes" (tables (application d))) (policies (application d))))
  else inl "near: syntax error".

#[export] Instance toy_studio : Studio := {|
  run_query q d := if bool_decide (q = "SELECT 1") then inr (["1"], [[VInt 1]], d) else inl "no such table";
  run_exec := toy_exec;
|}.

Definition an_owner : OwnerAuth.Owner := OwnerAuth.mkOwner "o1" "root@example.com" OwnerAuth.RoleOwner 0 0.

Definition sample_app : App :=
  mkApp (mkDatabase AuthFacts.sample_identity OwnerAuthFacts.sample_owners
           [audit_row "e0" Audit.EventLogin Audit.nobody Audit.nobody None 0]
           [mkFileRow "f1" "u1" "a.txt" "text/plain" 2 "f1" 0] (oauth OAuthFacts.sample_db))
    {[ "f1" := "ab" ]} RestApiFacts.sample_server (RateLimit.New 1 minute) (RateLimit.New 1 minute) (RateLimit.New 1 minute)
    (RateLimit.New 1 minute) [].

(** Clearing the audit log from SQL Studio is the first entry of the new one. *)
Lemma SQLStudioRun_recorded_witness :
  let f := [("query", " DELETE FROM owner_audit_log ")] in
  a_event <$> audit_log (database (w_db (handleSQLStudioRun (Some f) an_owner (sample_world 5 sample_app)).2)) =
  ["sql_executed"].
Proof.
  intros f. rewrite (proj2 (SQLStudioRun_recorded f an_owner (sample_world 5 sample_app)) eq_refl).
  - vm_compute. reflexivity.
  - evaluate.
Defined.

Lemma SQLStudioRun_live_witness :
  let f := [("query", "DROP TABLE notes")] in
  RestApiFacts.in_sync (rest (w_db (handleSQLStudioRun (Some f) an_owner (sample_world 5 sample_app)).2)).
Proof.
  intros f. refine (proj2 (SQLStudioRun_live f an_owner (sample_world 5 sample_app)
    (mkStudioRun "DROP TABLE notes" 0 (Some (RowsAffected 0)) None) _ _ 0%Z eq_refl eq_refl)).
  vm_compute. reflexivity.
Defined.

Definition a_form : Form :=
  [("name", "books"); ("col_name_0", "title"); ("col_type_0", "TEXT"); ("col_required_0", "1");
   ("col_name_1", "pages"); ("col_type_1", "INTEGER"); ("col_name_2", EmptyString)].

Lemma create_table_order_witness :
  (form_columns a_form (form_keys a_form) <> form_columns a_form (reverse (form_keys a_form))) /\
  match RestApi.column_defs (form_columns a_form (form_keys a_form)) ["id"],
        RestApi.column_defs (form_columns a_form (reverse (form_keys a_form))) ["id"] with
  | inr d1, inr d2 => d1 ≡ₚ d2
  | inl _, inl _ => True
  | _, _ => False
  end.
Proof.
  split; [vm_compute; discriminate|]. apply (create_table_order a_form (form_keys a_form) (reverse (form_keys a_form)) ["id"]).
  by rewrite reverse_Permutation.
Defined.

(** One form, two orders of the iteration, two tables. *)
Example create_table_columns_shuffled :
  let made visited :=
    fmap (fun t => tc_name <$> t_columns t)
      (tables (RestApi.app (rest (w_db (handleCreateTable (Some a_form) visited an_owner (sample_world 5 sample_app)).2)))
         !! "books") in
  made (form_keys a_form) = Some ["id"; "title"; "pages"] /\
  made (reverse (form_keys a_form)) = Some ["id"; "pages"; "title"].
Proof. vm_compute. split; reflexivity. Qed.

Lemma handleRevokeUserSessions_exact_witness :
  let w' := (handleRevokeUserSessions "u1" an_owner (sample_world 5 sample_app)).2 in
  exists l, database (w_db w') = put_audit_log l (put_identity
     (set_sessions (filter (fun s => s_user_id s <> "u1")) (identity (database sample_app))) (database sample_app)).
Proof.
  intros w'. destruct (handleRevokeUserSessions_exact "u1" an_owner (sample_world 5 sample_app)
    (see_other ("/admin/ui/users/" +:+ "u1")) w') as [(_ & _ & l & Hl)|[[H|H] _]].
  - vm_compute. reflexivity.
  - exists l. by rewrite Hl.
  - discriminate H.
  - discriminate H.
Defined.

(** A number too large for an int is the largest int, and the next one after it the
    smallest: the form's next row is numbered -9223372036854775808. *)
Example column_row_wraps :
  (handleNewTableColumnRow "99999999999999999999" (sample_world 5 sample_app)).1 =
    Ok (render (ColumnRow max_int64 min_int64)).
Proof. reflexivity. Qed.

End AdminUiFacts.
