(* ===== verification/HttpServer.v ===== *)
(** * The HTTP server

    Models src/internal/server: the handlers of the identity layer, the owner
    plane, social sign-in and maintenance, the middleware in front of them and
    the routing that puts them together with auto-REST, file storage and the
    authorize endpoint.  A body of JSON is what decoding it into the handler's
    struct gives; the request context is the account a middleware put there. *)

From S2P Require Import Prelude GoStrings Encoding Schema Auth OwnerAuth AuditLog RateLimit OAuth Register Storage Registry RestApi Http Social App AdminUi.

Module HttpServer.
Import Http App.

(** ** Requests and responses *)

Record UserJSON : Type := mkUserJSON { u_json_id : string; u_json_email : string; u_json_created_at : Z }.
Record OwnerJSON : Type := mkOwnerJSON {
  o_json_id : string; o_json_email : string; o_json_role : string; o_json_created_at : Z;
}.

Inductive Payload : Type :=
| NoBody
| Error (msg : string)
| Text (msg : string)
| Profile (u : UserJSON)
| Expires (t : Z)
| Export (profile : UserJSON) (records : list (string * list Row)) (files : list Storage.FileJSON)
| Consents (l : list OAuth.ConsentGrant)
| OwnerProfile (o : OwnerJSON)
| Owners (l : list OwnerJSON)
| Entries (l : list Audit.Entry)
| Purged (sessions owner_sessions reset_tokens : Z)
| Redirect (url : string).

Record Response : Type := mkResponse {
  status : Z; payload : Payload; set_cookies : list Cookie; retry_after : option Z;
}.

Definition reply (code : Z) (p : Payload) : Response := mkResponse code p [] None.
Definition with_cookie (c : Cookie) (r : Response) : Response :=
  mkResponse (status r) (payload r) (set_cookies r ++ [c]) (retry_after r).
Definition writeError (code : Z) (msg : string) : Response := reply code (Error msg).
Definition unauthorized : Response := writeError 401 "unauthorized".
Definition internal_error : Response := writeError 500 "internal error".
Definition on_internal (_ : error) : Response := internal_error.
Definition no_content : Response := reply 204 NoBody.
Definition invalid_body : Response := writeError 400 "invalid request body".

(** [decodeJSON]: the struct, or the answer to a body that does not decode. *)
Definition decodeJSON {A} (body : option A) (k : A -> MA Response) : MA Response :=
  match body with
  | None => mret invalid_body
  | Some x => k x
  end.

Definition userJSON (u : Auth.User) : UserJSON := mkUserJSON (Auth.ID u) (Auth.Email u) (Auth.CreatedAt u).
Definition ownerJSON (o : OwnerAuth.Owner) : OwnerJSON :=
  mkOwnerJSON (OwnerAuth.OID o) (OwnerAuth.OEmail o) (OwnerAuth.ORole o) (OwnerAuth.OCreatedAt o).

Definition is_any (err : error) (targets : list error) : bool := existsb (errors_Is err) targets.

Definition writeAuthError (err : error) : Response :=
  writeError
    (if is_any err [Auth.ErrEmailTaken] then 409
     else if is_any err [Auth.ErrInvalidCredentials; Auth.ErrSessionNotFound] then 401
     else if is_any err [Auth.ErrWeakPassword; Auth.ErrInvalidEmail; Auth.ErrResetTokenInvalid] then 400
     else 500) (error_text err).

Definition writeOwnerAuthError (err : error) : Response :=
  writeError
    (if is_any err [OwnerAuth.ErrEmailTaken] then 409
     else if is_any err [OwnerAuth.ErrInvalidCredentials; OwnerAuth.ErrSessionNotFound] then 401
     else if is_any err [OwnerAuth.ErrWeakPassword; OwnerAuth.ErrInvalidEmail; OwnerAuth.ErrInvalidRole] then 400
     else if is_any err [OwnerAuth.ErrLastOwner] then 409
     else if is_any err [OwnerAuth.ErrOwnerNotFound] then 404
     else 500) (error_text err).

(** A token in the Authorization header wins over the cookie. *)
Definition sessionTokenFromRequest (r : Request) : string :=
  match CutPrefix (Authorization r) "Bearer " with
  | Some token => token
  | None => default EmptyString (cookie_of r SessionCookieName)
  end.

(** ** Middleware *)

(** [X] is what the routes answer with, [wrap] the server's own answers in it. *)
Definition rateLimitMiddleware {X} (wrap : Response -> X) (l : limiter) (message : string)
    (onLimited : option (string -> MA unit)) (r : Request) (next : MA X) : MA X :=
  a ← get_app;
  if (RateLimit.Limit (get_limiter l a) <=? 0)%Z then next
  else
    let key := clientIP r in
    '(ok, retryAfter) ← allow l key;
    if negb ok then
      (match onLimited with Some f => f key | None => mret tt end) ;;
      mret (wrap (mkResponse 429 (Error message) [] (Some (retryAfter / second + 1)%Z)))
    else next.

Definition rateLimitLogin {X} (wrap : Response -> X) : Request -> MA X -> MA X :=
  rateLimitMiddleware wrap LoginLimiter "too many login attempts" None.
Definition rateLimitRegister {X} (wrap : Response -> X) : Request -> MA X -> MA X :=
  rateLimitMiddleware wrap RegisterLimiter "too many registration attempts" None.
Definition rateLimitOwnerLogin {X} (wrap : Response -> X) : Request -> MA X -> MA X :=
  rateLimitMiddleware wrap OwnerLoginLimiter "too many login attempts"
    (Some (fun key => RecordLogged Audit.EventLoginRateLimited Audit.nobody Audit.nobody (Some [("client_ip", key)]))).

Definition requireAuth (r : Request) (next : option Auth.User -> MA Response) : MA Response :=
  let token := sessionTokenFromRequest r in
  if bool_decide (token = EmptyString) then mret unauthorized
  else try_or (fun _ => unauthorized) (auth (Auth.ValidateSession token)) (fun user => next (Some user)).

Definition requireOwnerRole (min : OwnerAuth.Role) (r : Request) (next : option OwnerAuth.Owner -> MA Response) : MA Response :=
  match cookie_of r OwnerSessionCookieName with
  | None => mret unauthorized
  | Some c =>
      try_or (fun _ => unauthorized) (ownerAuth (OwnerAuth.ValidateSession c)) (fun owner =>
      if negb (OwnerAuth.AtLeast (OwnerAuth.ORole owner) min) then mret (writeError 403 "insufficient role")
      else next (Some owner))
  end.

(** ** The identity layer's handlers *)

Record Credentials : Type := mkCredentials { c_email : string; c_password : string }.

Definition actor_of (u : Auth.User) : Audit.Actor := Audit.mkActor (Auth.ID u) (Auth.Email u).
(** The account in the request context, or 401. *)
Definition with_user (ctx : option Auth.User) (k : Auth.User -> MA Response) : MA Response :=
  match ctx with
  | None => mret unauthorized
  | Some user => k user
  end.

Section handlers.
Context {bcrypt : Bcrypt} {resend : Resend} {sql : Sqlite}.
Variables (sender : Sender) (passwordResetURL : string).

Definition handleSignUp (body : option Credentials) : MA Response :=
  decodeJSON body (fun req =>
  try_or writeAuthError (auth (Auth.SignUp (c_email req) (c_password req))) (fun user =>
  RecordLogged Audit.EventCustomerSignup (actor_of user) (actor_of user) None ;;
  res ← attempt (auth (Auth.Login (c_email req) (c_password req)));
  let created := reply 201 (Profile (userJSON user)) in
  match res with
  | Err _ => mret created
  | Ok session => mret (with_cookie (SetCookie session) created)
  end)).

Definition handleLogin (body : option Credentials) : MA Response :=
  decodeJSON body (fun req =>
  res ← attempt (auth (Auth.Login (c_email req) (c_password req)));
  match res with
  | Err err =>
      RecordLogged Audit.EventCustomerLoginFailed Audit.nobody (Audit.mkActor EmptyString (c_email req)) None ;;
      mret (writeAuthError err)
  | Ok session =>
      RecordLogged Audit.EventCustomerLogin (Audit.mkActor (Auth.UserID session) (c_email req)) Audit.nobody None ;;
      mret (with_cookie (SetCookie session) (reply 200 (Expires (Auth.ExpiresAt session))))
  end).

Definition reset_mail (to rawToken : string) : Mail :=
  let link := passwordResetURL +:+ "?token=" +:+ QueryEscape rawToken in
  mkMail to "Reset your password"
    ("<p>Someone requested a password reset for this account.</p><p><a href=" +:+ one dquote +:+ link +:+ one dquote +:+
     ">Reset your password</a></p><p>This link expires in one hour. If you didn't request this, you can ignore this email.</p>").

Definition handleForgotPassword (body : option string) : MA Response :=
  decodeJSON body (fun mail =>
  res ← attempt (auth (Auth.CreateResetToken mail));
  match res with
  | Err _ => mret no_content
  | Ok None => mret no_content
  | Ok (Some (rawToken, userID)) =>
      RecordLogged Audit.EventCustomerPasswordResetRequested Audit.nobody (Audit.mkActor userID mail) None ;;
      sent ← attempt (email (Send sender (reset_mail mail rawToken)));
      mret no_content
  end).

(** Token and new password. *)
Definition handleResetPassword (body : option (string * string)) : MA Response :=
  decodeJSON body (fun req =>
  try_or writeAuthError (auth (Auth.ResetPassword req.1 req.2)) (fun userID =>
  RecordLogged Audit.EventCustomerPasswordResetCompleted (Audit.mkActor userID EmptyString)
    (Audit.mkActor userID EmptyString) None ;;
  revoked ← attempt (in_db (OAuth.RevokeAllForSubject userID));
  mret no_content)).

Definition handleLogout (r : Request) : MA Response :=
  let token := sessionTokenFromRequest r in
  (if bool_decide (token = EmptyString) then mret tt
   else
     res ← attempt (auth (Auth.ValidateSession token));
     (match res with
      | Ok user => RecordLogged Audit.EventCustomerLogout (actor_of user) Audit.nobody None
      | Err _ => mret tt
      end) ;;
     ignored ← attempt (auth (Auth.Logout token));
     mret tt) ;;
  mret (with_cookie ClearCookie no_content).

Definition handleMe (ctx : option Auth.User) : MA Response :=
  with_user ctx (fun user => mret (reply 200 (Profile (userJSON user)))).

Definition handleExportAccount (ctx : option Auth.User) : MA Response :=
  with_user ctx (fun user =>
  try_or on_internal (restapi (RestApi.ExportOwned (Auth.ID user))) (fun records =>
  try_or on_internal (storage (Storage.ExportOwned (Auth.ID user))) (fun files =>
  mret (reply 200 (Export (userJSON user) records files))))).

Definition handleDeleteAccount (ctx : option Auth.User) : MA Response :=
  with_user ctx (fun user =>
  try_or on_internal (restapi (RestApi.DeleteOwned (Auth.ID user))) (fun _ =>
  try_or on_internal (storage (Storage.DeleteOwned (Auth.ID user))) (fun _ =>
  try_or on_internal (in_db (OAuth.RevokeAllForSubject (Auth.ID user))) (fun _ =>
  try_or on_internal (in_db (Auth.DeleteUser (Auth.ID user))) (fun _ =>
  RecordLogged Audit.EventCustomerAccountDeleted (actor_of user) (actor_of user) None ;;
  mret (with_cookie ClearCookie no_content)))))).

Definition handleListConsents (ctx : option Auth.User) : MA Response :=
  with_user ctx (fun user =>
  try_or on_internal (in_db (OAuth.ListConsents (Auth.ID user))) (fun consents =>
  mret (reply 200 (Consents consents)))).

Definition handleRevokeConsent (r : Request) (ctx : option Auth.User) : MA Response :=
  with_user ctx (fun user =>
  try_or on_internal (in_db (OAuth.RevokeConsent (Auth.ID user) (URLParam r))) (fun _ => mret no_content)).

(** ** The owner plane's handlers *)

Definition handleOwnerLogin (body : option Credentials) : MA Response :=
  decodeJSON body (fun req =>
  res ← attempt (ownerAuth (OwnerAuth.Login (c_email req) (c_password req)));
  match res with
  | Err err =>
      RecordLogged Audit.EventLoginFailed Audit.nobody (Audit.mkActor EmptyString (c_email req)) None ;;
      mret (writeOwnerAuthError err)
  | Ok session =>
      RecordLogged Audit.EventLogin (Audit.mkActor (OwnerAuth.OwnerID session) (c_email req)) Audit.nobody None ;;
      mret (with_cookie (OwnerSetCookie session) (reply 200 (Expires (OwnerAuth.ExpiresAt session))))
  end).

Definition handleOwnerLogout (r : Request) : MA Response :=
  (match cookie_of r OwnerSessionCookieName with
   | None => mret tt
   | Some c =>
       res ← attempt (ownerAuth (OwnerAuth.ValidateSession c));
       (match res with
        | Ok owner => RecordLogged Audit.EventLogout (owner_actor owner) Audit.nobody None
        | Err _ => mret tt
        end) ;;
       ignored ← attempt (ownerAuth (OwnerAuth.Logout c));
       mret tt
   end) ;;
  mret (with_cookie OwnerClearCookie no_content).

(** The account [requireOwnerRole] put in the context: a nil pointer without it. *)
Definition ownerFromContext (ctx : option OwnerAuth.Owner) (k : OwnerAuth.Owner -> MA Response) : MA Response :=
  match ctx with
  | None => mret (reply 500 NoBody)
  | Some owner => k owner
  end.

Definition handleOwnerMe (ctx : option OwnerAuth.Owner) : MA Response :=
  ownerFromContext ctx (fun owner => mret (reply 200 (OwnerProfile (ownerJSON owner)))).

Definition text_internal (_ : error) : Response := reply 500 (Text "internal error").

Definition handleListOwners (ctx : option OwnerAuth.Owner) : MA Response :=
  try_or text_internal (ownerAuth OwnerAuth.ListOwners) (fun l => mret (reply 200 (Owners (ownerJSON <$> l)))).

Record NewOwner : Type := mkNewOwner { n_email : string; n_password : string; n_role : string }.

Definition handleCreateOwner (body : option NewOwner) (ctx : option OwnerAuth.Owner) : MA Response :=
  decodeJSON body (fun req =>
  try_or writeOwnerAuthError (ownerAuth (OwnerAuth.CreateOwner (n_email req) (n_password req) (n_role req))) (fun owner =>
  ownerFromContext ctx (fun actor =>
  RecordLogged Audit.EventOwnerCreate (owner_actor actor) (owner_actor owner) (Some [("role", OwnerAuth.ORole owner)]) ;;
  mret (reply 201 (OwnerProfile (ownerJSON owner)))))).

Definition handleDeleteOwner (r : Request) (ctx : option OwnerAuth.Owner) : MA Response :=
  try_or writeOwnerAuthError (ownerAuth (OwnerAuth.DeleteOwner (URLParam r))) (fun deleted =>
  ownerFromContext ctx (fun actor =>
  RecordLogged Audit.EventOwnerDelete (owner_actor actor) (owner_actor deleted) (Some [("role", OwnerAuth.ORole deleted)]) ;;
  mret no_content)).

Definition auditDefaultLimit : Z := 50.
Definition auditMaxLimit : Z := 200.

Definition parseAuditPagination (r : Request) : string + (Z * Z) :=
  let bad_offset := "offset must be a non-negative integer, got " +:+ Quote (query_offset r) in
  let offset (limit : Z) :=
    if bool_decide (query_offset r = EmptyString) then inr (limit, 0%Z)
    else match Atoi (query_offset r) with
         | None => inl bad_offset
         | Some n => if (n <? 0)%Z then inl bad_offset else inr (limit, n)
         end in
  let bad_limit := "limit must be a positive integer, got " +:+ Quote (query_limit r) in
  if bool_decide (query_limit r = EmptyString) then offset auditDefaultLimit
  else match Atoi (query_limit r) with
       | None => inl bad_limit
       | Some n =>
           if (n <=? 0)%Z then inl bad_limit
           else if (auditMaxLimit <? n)%Z then
             inl ("limit must not exceed " +:+ Itoa auditMaxLimit +:+ ", got " +:+ Itoa n)
           else offset n
       end.

Definition handleListAuditLog (r : Request) (ctx : option OwnerAuth.Owner) : MA Response :=
  match parseAuditPagination r with
  | inl msg => mret (writeError 400 msg)
  | inr (limit, offset) =>
      try_or text_internal (in_db (zoom audit_log put_audit_log (Audit.List_ limit offset))) (fun entries =>
      mret (reply 200 (Entries entries)))
  end.

(** ** Maintenance *)

Definition handlePurgeSessions (ctx : option OwnerAuth.Owner) : MA Response :=
  try_or on_internal (auth Auth.PurgeExpiredSessions) (fun sessionsPurged =>
  try_or on_internal (ownerAuth OwnerAuth.PurgeExpiredSessions) (fun ownerSessionsPurged =>
  try_or on_internal (auth Auth.PurgeExpiredResetTokens) (fun resetTokensPurged =>
  RecordLogged Audit.EventSessionsPurged
    (match ctx with Some owner => owner_actor owner | None => Audit.nobody end) Audit.nobody
    (Some [("sessions", Itoa sessionsPurged); ("owner_sessions", Itoa ownerSessionsPurged);
           ("reset_tokens", Itoa resetTokensPurged)]) ;;
  mret (reply 200 (Purged sessionsPurged ownerSessionsPurged resetTokensPurged))))).

End handlers.

(** ** Social sign-in *)

Section social.
Context {bcrypt : Bcrypt} {upstream : Social.Upstream}.
Variables (socialProviders : gmap string Social.Provider) (socialLoginRedirect : string).

Definition socialStateCookieName (provider : string) : string := "maubase_social_state_" +:+ provider.

Definition state_cookie (providerName state : string) : Cookie :=
  mkCookie (socialStateCookieName providerName) state "/" None 300 true true LaxMode.
Definition clearSocialStateCookie (providerName : string) : Cookie :=
  mkCookie (socialStateCookieName providerName) EmptyString "/" None (-1) true true LaxMode.

Definition randomURLSafeString : MA string := b ← rand_read; mret (RawURLEncode b).

Definition not_found : Response := reply 404 (Text "404 page not found").

Definition handleSocialStart (r : Request) : MA Response :=
  let providerName := URLParam r in
  match socialProviders !! providerName with
  | None => mret not_found
  | Some provider =>
      try_or on_internal randomURLSafeString (fun state =>
      mret (with_cookie (state_cookie providerName state) (reply 303 (Redirect (Social.AuthCodeURL provider state)))))
  end.

(** Who is signed in: nobody, when the session does not validate. *)
Definition current_user_id (r : Request) : MA string :=
  let token := sessionTokenFromRequest r in
  if bool_decide (token = EmptyString) then mret EmptyString
  else
    res ← attempt (auth (Auth.ValidateSession token));
    mret (match res with Ok u => Auth.ID u | Err _ => EmptyString end).

Definition linked_elsewhere (err : error) : Response :=
  if errors_Is err Auth.ErrSocialIdentityLinkedElsewhere then writeError 409 (error_text err) else internal_error.

(** After the state was verified: the exchange, the profile, the session. *)
Definition social_sign_in (r : Request) (provider : Social.Provider) : MA Response :=
  if negb (bool_decide (query_error r = EmptyString)) then
    mret (reply 400 (Text ("authorization denied: " +:+ query_error r)))
  else if bool_decide (query_code r = EmptyString) then mret (reply 400 (Text "missing code"))
  else
  match Social.Exchange provider (query_code r) with
  | inl _ => mret (reply 502 (Text "token exchange failed"))
  | inr tok =>
      match Social.FetchIdentity provider tok with
      | inl _ => mret (reply 502 (Text "failed to fetch profile"))
      | inr who =>
          if bool_decide (Social.ProviderUserID who = EmptyString) then mret (reply 502 (Text "failed to fetch profile"))
          else
            currentUserID ← current_user_id r;
            try_or linked_elsewhere
              (auth (Auth.LoginOrCreateViaSocial (Social.Name provider) (Social.ProviderUserID who)
                       (Social.Email who) currentUserID)) (fun p =>
            let '(session, newAccount) := p in
            let who' := Audit.mkActor (Auth.UserID session) EmptyString in
            let bit (b : bool) := if b then "true" else "false" in
            RecordLogged Audit.EventCustomerSocialSignIn who' who'
              (Some [("provider", Social.Name provider); ("new_account", bit newAccount);
                     ("already_signed_in", bit (negb (bool_decide (currentUserID = EmptyString))))]) ;;
            mret (with_cookie (SetCookie session) (reply 303 (Redirect socialLoginRedirect))))
      end
  end.

Definition handleSocialCallback (r : Request) : MA Response :=
  let providerName := URLParam r in
  match socialProviders !! providerName with
  | None => mret not_found
  | Some provider =>
      let clear (resp : Response) :=
        mkResponse (status resp) (payload resp) (clearSocialStateCookie providerName :: set_cookies resp) (retry_after resp) in
      resp ← (match cookie_of r (socialStateCookieName providerName) with
              | None => mret (reply 400 (Text "invalid or missing state"))
              | Some state =>
                  if bool_decide (query_state r = EmptyString) || negb (bool_decide (query_state r = state)) then
                    mret (reply 400 (Text "invalid or missing state"))
                  else social_sign_in r provider
              end);
      mret (clear resp)
  end.

End social.

(** ** Routes *)

Inductive Answer `{Register.TokenEndpoint} : Type :=
| Json (r : Response)
| Records (r : RestApi.Response)
| Files (r : Storage.Response)
| Browser (p : OAuth.Page)
| Keys (l : list (string * string))
| UiPage (r : AdminUi.Response)
| Registration (r : Register.Reply)
| Metadata (m : Register.authServerMetadata)
| Token (r : Register.TokenReply).

Inductive Route : Type :=
(* /api/auth *)
| SignUp (body : option Credentials)
| Login (body : option Credentials)
| Logout
| ForgotPassword (body : option string)
| ResetPassword (body : option (string * string))
| SocialStart
| SocialCallback
| Me
| ExportMe
| DeleteMe
| MyConsents
| RevokeMyConsent
(* /oauth, /.well-known *)
| AuthorizeGET (rawQuery : string)
| AuthorizePOST (rawQuery : string) (form : OAuth.AuthorizeForm)
| TokenPOST (form : string)
| RevokePOST (form : string)
| RegisterPOST (body : option (Z * Register.registerRequest))
| WellKnownMetadata
| WellKnownJWKS
| WhoAmI
(* /api/data *)
| DataSchema
| DataList (r : RestApi.Request)
| DataCreate (r : RestApi.Request)
| DataGet (r : RestApi.Request)
| DataUpdate (r : RestApi.Request)
| DataDelete (r : RestApi.Request)
(* /api/storage/files *)
| FileList
| FileUpload (u : Storage.Upload)
| FileGet
| FileDownload
| FileDelete
(* /admin *)
| OwnerLogin (body : option Credentials)
| OwnerLogout
| OwnerMe
| OwnersList
| OwnersCreate (body : option NewOwner)
| OwnersDelete
| AuditLog
| PurgeSessions
(* /admin/ui *)
| Ui (route : AdminUi.Route)
| Healthz.

Section routes.
Context {bcrypt : Bcrypt} {resend : Resend} {sql : Sqlite} {upstream : Social.Upstream}
  {provider : OAuth.Provider} {introspection : OAuth.Introspection} {studio : AdminUi.Studio}
  {host_syntax : Url.HostSyntax} {hasher : Register.SecretsHasher} {token_endpoint : Register.TokenEndpoint}.

(** What the server is configured with. *)
Record Config : Type := mkConfig {
  sender : Sender; passwordResetURL : string; issuer : string; maxUploadBytes : Z;
  socialProviders : gmap string Social.Provider; socialLoginRedirect : string;
}.

Definition json (m : MA Response) : MA Answer := r ← m; mret (Json r).
Definition records (m : MA RestApi.Response) : MA Answer := r ← m; mret (Records r).
Definition filestore (m : MA Storage.Response) : MA Answer := r ← m; mret (Files r).

Definition page (m : MA AdminUi.Response) : MA Answer := r ← m; mret (UiPage r).
Definition browser (m : MA OAuth.Page) : MA Answer := p ← m; mret (Browser p).

Definition RequireScope (scope : string) (r : Request) (next : string -> MA Answer) : MA Answer :=
  let token := OAuth.AccessTokenFromRequest (Authorization r) in
  if bool_decide (token = EmptyString) then mret (Json (writeError 401 "missing bearer token"))
  else try_or (fun _ => Json (writeError 401 "invalid or insufficient token")) (in_db (OAuth.Authenticate token scope)) next.

Definition with_subject (q : RestApi.Request) (subj : string) : RestApi.Request :=
  RestApi.mkRequest (RestApi.path_collection q) (RestApi.path_id q) subj (RestApi.q_limit q) (RestApi.q_offset q)
    (RestApi.body_len q) (RestApi.body q).

Definition data (scope : string) (r : Request) (q : RestApi.Request)
    (h : RestApi.Request -> M RestApi.Server RestApi.Response) : MA Answer :=
  RequireScope scope r (fun subj => records (restapi (h (with_subject q subj)))).

Definition requireDevMode (next : MA Answer) : MA Answer :=
  a ← get_app;
  if negb (RestApi.devMode (rest a)) then mret (Json not_found) else next.

Definition file (scope : string) (r : Request) (h : string -> M Storage.Store Storage.Response) : MA Answer :=
  RequireScope scope r (fun subj => filestore (storage (h subj))).

Definition session_cookie_of (r : Request) : option string := cookie_of r SessionCookieName.

Definition scopeFilesRead : string := "files:read".
Definition scopeFilesWrite : string := "files:write".

Definition dispatch (cfg : Config) (r : Request) (route : Route) : MA Answer :=
  match route with
  | SignUp body => json (handleSignUp body)
  | Login body => rateLimitLogin Json r (json (handleLogin body))
  | Logout => json (handleLogout r)
  | ForgotPassword body => rateLimitLogin Json r (json (handleForgotPassword (sender cfg) (passwordResetURL cfg) body))
  | ResetPassword body => rateLimitLogin Json r (json (handleResetPassword body))
  | SocialStart => rateLimitLogin Json r (json (handleSocialStart (socialProviders cfg) r))
  | SocialCallback => json (handleSocialCallback (socialProviders cfg) (socialLoginRedirect cfg) r)
  | Me => json (requireAuth r handleMe)
  | ExportMe => json (requireAuth r handleExportAccount)
  | DeleteMe => json (requireAuth r handleDeleteAccount)
  | MyConsents => json (requireAuth r handleListConsents)
  | RevokeMyConsent => json (requireAuth r (handleRevokeConsent r))
  | AuthorizeGET q => browser (in_db (OAuth.handleAuthorizeGET (issuer cfg) q (session_cookie_of r)))
  | AuthorizePOST q form =>
      rateLimitLogin Json r (browser (in_db (OAuth.handleAuthorizePOST (issuer cfg) q form (session_cookie_of r))))
  | TokenPOST form => rep ← in_db (Register.HandleToken form); mret (Token rep)
  | RevokePOST form => rep ← in_db (Register.HandleRevoke form); mret (Token rep)
  | RegisterPOST body => rateLimitRegister Json r (rep ← in_db (Register.HandleRegister body); mret (Registration rep))
  | WellKnownMetadata => mret (Metadata (Register.HandleAuthServerMetadata (issuer cfg)))
  | WellKnownJWKS => try_or (fun _ => Json (reply 500 (Text "internal error"))) (in_db OAuth.JWKS) (fun l => mret (Keys l))
  | WhoAmI => RequireScope "profile" r (fun subj => mret (Json (reply 200 (Text subj))))
  | DataSchema => requireDevMode (RequireScope RestApi.scopeRead r (fun _ => records (restapi RestApi.handleSchema)))
  | DataList q => data RestApi.scopeRead r q RestApi.handleList
  | DataCreate q => data RestApi.scopeWrite r q RestApi.handleCreate
  | DataGet q => data RestApi.scopeRead r q RestApi.handleGet
  | DataUpdate q => data RestApi.scopeWrite r q RestApi.handleUpdate
  | DataDelete q => data RestApi.scopeWrite r q RestApi.handleDelete
  | FileList => file scopeFilesRead r (fun o => Storage.handleList o (query_limit r) (query_offset r))
  | FileUpload u => file scopeFilesWrite r (fun o => Storage.handleUpload (maxUploadBytes cfg) o u)
  | FileGet => file scopeFilesRead r (fun o => Storage.handleGet o (URLParam r))
  | FileDownload => file scopeFilesRead r (fun o => Storage.handleDownload o (URLParam r))
  | FileDelete => file scopeFilesWrite r (fun o => Storage.handleDelete o (URLParam r))
  | OwnerLogin body => rateLimitOwnerLogin Json r (json (handleOwnerLogin body))
  | OwnerLogout => json (handleOwnerLogout r)
  | OwnerMe => json (requireOwnerRole OwnerAuth.RoleViewer r handleOwnerMe)
  | OwnersList => json (requireOwnerRole OwnerAuth.RoleAdmin r handleListOwners)
  | OwnersCreate body =>
      json (requireOwnerRole OwnerAuth.RoleAdmin r (fun _ =>
        requireOwnerRole OwnerAuth.RoleOwner r (handleCreateOwner body)))
  | OwnersDelete =>
      json (requireOwnerRole OwnerAuth.RoleAdmin r (fun _ =>
        requireOwnerRole OwnerAuth.RoleOwner r (handleDeleteOwner r)))
  | AuditLog => json (requireOwnerRole OwnerAuth.RoleAdmin r (handleListAuditLog r))
  | PurgeSessions => json (requireOwnerRole OwnerAuth.RoleAdmin r handlePurgeSessions)
  | Ui route => page (AdminUi.mount r route)
  | Healthz => mret (Json (reply 200 (Text "ok")))
  end.
End routes.

End HttpServer.
