(* ===== verification/HttpServerFacts.v ===== *)
(** * The HTTP server: theorems

    What every route together keeps: the audit log only grows, the accounts of
    the owner plane change only at the hand of a signed-in owner; and what single
    routes promise: an erased account is gone or can be erased again, a password
    reset signs out everywhere, a forgotten password reveals nothing, a social
    callback without its state does nothing. *)

From S2P Require Import Prelude GoStrings Encoding Schema Auth AuthFacts OwnerAuth AuditLog RateLimit OAuth OAuthFacts Register RegisterFacts Storage StorageFacts OwnerAuthFacts Registry RestApi RestApiFacts Http Social App AppFacts AdminUi AdminUiFacts HttpServer.

Module HttpServerFacts.
Import Http App AppFacts HttpServer.

(** ** Every route *)

Section every_route.
Context {bcrypt : Bcrypt} {resend : Resend} {sql : Sqlite} {upstream : Social.Upstream}
  {provider : OAuth.Provider} {introspection : OAuth.Introspection} {studio : AdminUi.Studio} {bystander : Bystander}
  {host_syntax : Url.HostSyntax} {hasher : Register.SecretsHasher} {token_endpoint : Register.TokenEndpoint}
  {token_bystander : RegisterFacts.TokenBystander}.

Ltac route_solve := unfold json, records, filestore, browser, page; repeat (within_step || (progress cbv zeta)).

Lemma throttled_modest {X} (wrap : Response -> X) l msg f r next :
  (forall g k, f = Some g -> within (on_db modest) (g k)) -> within (on_db modest) next ->
  within (on_db modest) (rateLimitMiddleware wrap l msg f r next).
Proof using.
  intros Hf Hn. unfold rateLimitMiddleware. route_solve; try done. by eapply Hf.
Qed.

Lemma requireAuth_modest r next :
  (forall u, within (on_db modest) (next u)) -> within (on_db modest) (requireAuth r next).
Proof using. intros Hn. unfold requireAuth. route_solve. Qed.

Lemma requireOwnerRole_modest min r next :
  (forall o, within (on_db modest) (next o)) -> within (on_db modest) (requireOwnerRole min r next).
Proof using. intros Hn. unfold requireOwnerRole. route_solve; auto. Qed.

Lemma RequireScope_modest scope r next :
  (forall subj, within (on_db modest) (next subj)) -> within (on_db modest) (RequireScope scope r next).
Proof using bystander token_bystander.
  intros Hn. unfold RequireScope. cbv zeta. destruct (bool_decide _); [route_solve|].
  apply within_try_or; [apply _| |exact Hn]. apply oauth_modest. unfold OAuth.Authenticate.
  apply within_bind; [apply _| |by within_solve]. apply within_map_err; [apply _|]. apply introspect_other.
Qed.

(** The routes that can change owner accounts: the two that manage them, on either
    surface, and SQL Studio. *)
Definition changes_owners (route : Route) : bool :=
  match route with
  | OwnersCreate _ | OwnersDelete => true
  | Ui page => AdminUiFacts.changes_owners page
  | _ => false
  end.

Definition runs_sql (route : Route) : bool :=
  match route with Ui page => AdminUiFacts.runs_sql page | _ => false end.

Lemma decodeJSON_modest {A} (body : option A) k :
  (forall x, within (on_db modest) (k x)) -> within (on_db modest) (decodeJSON body k).
Proof using. intros Hk. unfold decodeJSON. destruct body; [apply Hk|by route_solve]. Qed.

Lemma with_user_modest ctx k : (forall u, within (on_db modest) (k u)) -> within (on_db modest) (with_user ctx k).
Proof using. intros Hk. unfold with_user. destruct ctx; [apply Hk|by route_solve]. Qed.

Lemma ownerFromContext_modest ctx k :
  (forall u, within (on_db modest) (k u)) -> within (on_db modest) (ownerFromContext ctx k).
Proof using. intros Hk. unfold ownerFromContext. destruct ctx; [apply Hk|by route_solve]. Qed.

Ltac frame_step :=
  match goal with
  | |- within _ (rateLimitMiddleware _ _ _ _ _ _) =>
      apply throttled_modest; [first [done | by intros ? ? [= <-]; apply RecordLogged_modest]|]
  | |- within _ (requireAuth _ _) => apply requireAuth_modest; intros ?
  | |- within _ (requireOwnerRole _ _ _) => apply requireOwnerRole_modest; intros ?
  | |- within _ (RequireScope _ _ _) => apply RequireScope_modest; intros ?
  | |- within _ (decodeJSON _ _) => apply decodeJSON_modest; intros ?
  | |- within _ (with_user _ _) => apply with_user_modest; intros ?
  | |- within _ (ownerFromContext _ _) => apply ownerFromContext_modest; intros ?
  | |- within _ (restapi _) => apply restapi_modest
  | |- within _ (AdminUi.mount _ _) => by apply AdminUiFacts.mount_modest
  | |- within _ (in_db (OAuth.handleAuthorizeGET _ _ _)) =>
      apply oauth_modest, OAuthFacts.handleAuthorizeGET_other; [apply request_other|apply response_other]
  | |- within _ (in_db (OAuth.handleAuthorizePOST _ _ _ _)) =>
      apply oauth_modest, OAuthFacts.handleAuthorizePOST_other; [apply request_other|apply response_other]
  | |- within _ (in_db (Register.HandleRegister _)) => apply oauth_modest, RegisterFacts.HandleRegister_other
  | |- within _ (in_db (Register.HandleToken _)) => apply oauth_modest, RegisterFacts.HandleToken_other
  | |- within _ (in_db (Register.HandleRevoke _)) => apply oauth_modest, RegisterFacts.HandleRevoke_other
  | _ => within_step
  | |- within _ _ => progress cbv zeta
  end.

Create HintDb routes.
#[local] Hint Unfold json records filestore browser page rateLimitLogin rateLimitRegister rateLimitOwnerLogin requireDevMode data file
  handleSignUp handleLogin handleLogout handleForgotPassword handleResetPassword handleSocialStart
  handleSocialCallback social_sign_in current_user_id randomURLSafeString handleMe handleExportAccount
  handleDeleteAccount handleListConsents handleRevokeConsent handleOwnerLogin handleOwnerLogout handleOwnerMe
  handleListOwners handleListAuditLog handlePurgeSessions : routes.

Lemma dispatch_modest cfg r route :
  changes_owners route = false -> within (on_db modest) (dispatch cfg r route).
Proof using bystander token_bystander.
  intros Hr. destruct route; try discriminate Hr; cbn [dispatch]; autounfold with routes; cbv zeta.
  all: repeat frame_step.
Qed.
(** *** The audit log *)

Lemma requireOwnerRole_grows min r next :
  (forall o, within (on_db grows) (next o)) -> within (on_db grows) (requireOwnerRole min r next).
Proof using.
  intros Hn. unfold requireOwnerRole. destruct (cookie_of r _) as [c|]; [|by route_solve].
  apply within_try_or; [apply _|apply ownerAuth_grows|intros o]. destruct (negb _); [by route_solve|apply Hn].
Qed.

Lemma dispatch_grows cfg r route : runs_sql route = false -> within (on_db grows) (dispatch cfg r route).
Proof using bystander token_bystander.
  intros Hs. destruct (changes_owners route) eqn:E; [|by eapply within_mono; [apply modest_grows|apply dispatch_modest]].
  destruct route; try discriminate E; cbn [dispatch]; unfold json, page; (apply within_bind; [apply _| |by within_solve]).
  3: by apply AdminUiFacts.mount_grows.
  all: apply requireOwnerRole_grows; intros _; apply requireOwnerRole_grows; intros ctx.
  - unfold handleCreateOwner, decodeJSON. destruct body; [|by within_solve].
    apply within_try_or; [apply _|apply ownerAuth_grows|intros o]. unfold ownerFromContext. destruct ctx; [|by within_solve].
    apply within_bind; [apply _|apply RecordLogged_grows|by within_solve].
  - unfold handleDeleteOwner. apply within_try_or; [apply _|apply ownerAuth_grows|intros o].
    unfold ownerFromContext. destruct ctx; [|by within_solve].
    apply within_bind; [apply _|apply RecordLogged_grows|by within_solve].
Qed.

(** A valid session of an account ranked at least owner. *)
Definition owner_at_hand (r : Request) (a : App) : Prop :=
  exists o, signed_in_owner r o (database a) /\ OwnerAuth.AtLeast (OwnerAuth.ORole o) OwnerAuth.RoleOwner = true.

(** A page of the admin UI that asks for the rank of owner. *)
Lemma owner_page_run r p w x w' :
  AdminUi.required_role p = Some OwnerAuth.RoleOwner -> page (AdminUi.mount r p) w = (x, w') ->
  w_db w' = w_db w \/ owner_at_hand r (w_db w).
Proof using.
  intros Hp H. unfold page, mbind, M_bind in H. rewrite (AdminUiFacts.mount_gated r p _ Hp) in H.
  destruct (AdminUi.requireRole _ r _ w) as [y w1] eqn:E. assert (w' = w1) as -> by (destruct y; by injection H as _ <-).
  apply AdminUiFacts.requireRole_run in E as [[Hs _]|(o & w2 & _ & Ho & Hl & _)]; [by left|right]. by exists o.
Qed.

(** Requests one after the other, each answered in its own way. *)
Definition serve (cfg : Config) (requests : list (Request * Route)) : MA unit :=
  for_each (fun q => res ← attempt (dispatch cfg q.1 q.2); mret tt) requests.

Lemma serve_cons cfg q rest w : serve cfg (q :: rest) w = serve cfg rest (dispatch cfg q.1 q.2 w).2.
Proof using.
  unfold serve at 1. cbn [for_each]. unfold mbind at 1, M_bind at 1. rewrite attempt_bind. cbn [mret M_ret].
  done.
Qed.

(** C16: the audit trail cannot be rewritten over HTTP: whatever requests are
    served, by whomever they are sent and wherever faults stop them, the entries
    there were stay, in their order, ahead of those that were added - or one of
    the requests was a statement run in SQL Studio by somebody holding, at that
    moment, a valid session of an account ranked owner. *)
Theorem audit_append_only cfg requests w :
  audit_log (database (w_db w)) `prefix_of` audit_log (database (w_db (serve cfg requests w).2)) \/
  exists before q after, requests = before ++ q :: after /\ runs_sql q.2 = true /\
    owner_at_hand q.1 (w_db (serve cfg before w).2).
Proof using bystander token_bystander.
  revert w. induction requests as [|q rest IH]; intros w; [by left|]. rewrite serve_cons.
  assert (audit_log (database (w_db w)) `prefix_of` audit_log (database (w_db (dispatch cfg q.1 q.2 w).2)) \/
          runs_sql q.2 = true /\ owner_at_hand q.1 (w_db w)) as [Hq|[Hs Ho]].
  { destruct (runs_sql q.2) eqn:Hs; [|left; by apply dispatch_grows].
    destruct q as [r route]. cbn [fst snd] in *. destruct route as []; try discriminate Hs. cbn [dispatch].
    destruct route; try discriminate Hs. destruct (page _ w) as [x w'] eqn:E. apply owner_page_run in E; [|done]. cbn [snd].
    destruct E as [->|Ho]; [by left|by right]. }
  - destruct (IH (dispatch cfg q.1 q.2 w).2) as [Hr|(before & q' & after & -> & Hs & Ho)]; [left; by etrans|right].
    exists (q :: before), q', after. rewrite serve_cons. done.
  - right. by exists [], q, rest.
Qed.

(** *** The owner plane *)

Lemma requireOwnerRole_run min r next w x w' :
  requireOwnerRole min r next w = (x, w') ->
  w_db w' = w_db w \/
  exists o w1, w_db w1 = w_db w /\ signed_in_owner r o (database (w_db w)) /\
    OwnerAuth.AtLeast (OwnerAuth.ORole o) min = true /\ next (Some o) w1 = (x, w').
Proof using.
  unfold requireOwnerRole. destruct (cookie_of r _) as [c|] eqn:Ec; [|intros [= _ <-]; by left].
  unfold try_or. pose proof (ownerAuth_reads (OwnerAuth.ValidateSession c) w (owner_Validate_reads c)) as Hr.
  destruct (ownerAuth _ w) as [[o|e] w1] eqn:Ev; cbn [snd] in Hr; [|intros [= _ <-]; by left].
  destruct (OwnerAuth.AtLeast _ _) eqn:Hl; cbn [negb]; [|intros [= _ <-]; by left]. intros H. right. exists o, w1.
  split_and!; try done. unfold ownerAuth, in_db, zoom in Ev. cbn [w_env w_db] in Ev.
  destruct (OwnerAuth.ValidateSession c _) as [v w2] eqn:E. injection Ev as -> _. by exists c, (w_env w), w2.
Qed.

(** C3: nobody but an owner changes the team: whatever request is served, on the
    JSON API or the admin UI, and wherever faults stop it, the accounts of the
    owner plane are as before, or the request carried the cookie of a valid
    session of an account whose role is at least "owner" and was one of those that
    manage accounts or run a statement in SQL Studio. *)
Theorem owner_accounts_guarded cfg r route w x w' :
  dispatch cfg r route w = (x, w') ->
  owner_users (owners (database (w_db w'))) = owner_users (owners (database (w_db w))) \/
  changes_owners route = true /\ owner_at_hand r (w_db w).
Proof using bystander token_bystander.
  intros H. destruct (changes_owners route) eqn:E.
  2: { left. pose proof (dispatch_modest cfg r route E w) as [_ Ho]. by rewrite H in Ho. }
  assert (forall next, (y ← requireOwnerRole OwnerAuth.RoleAdmin r (fun _ => requireOwnerRole OwnerAuth.RoleOwner r next);
                        mret (Json y)) w = (x, w') -> w_db w' = w_db w \/ owner_at_hand r (w_db w)) as Hgate.
  { intros next Hn. unfold mbind, M_bind in Hn.
    destruct (requireOwnerRole OwnerAuth.RoleAdmin r _ w) as [y w1] eqn:E1.
    assert (w' = w1) as -> by (destruct y; by injection Hn as _ <-).
    apply requireOwnerRole_run in E1 as [Hs|(o1 & w2 & Hw2 & _ & _ & E1)]; [by left|].
    apply requireOwnerRole_run in E1 as [Hs|(o & w3 & Hw3 & Ho & Hl & _)]; [left; congruence|].
    right. exists o. by rewrite <- Hw2. }
  assert (w_db w' = w_db w \/ owner_at_hand r (w_db w)) as [->|Ho]; [|by left|by right].
  destruct route; try discriminate E; cbn [dispatch] in H; unfold json in H; try (by apply Hgate in H).
  eapply owner_page_run; [|exact H]. by destruct route.
Qed.
End every_route.

(** ** Erasing an account *)

Section erasure.
Context {bcrypt : Bcrypt} {sql : Sqlite} {laws : SqliteLaws}.

(** C7: erasing an account either removes everything of it - its rows in every
    owned collection, its files and their bytes, the codes and tokens issued for
    it, its consents, sessions, reset tokens and links, and the account itself -
    and answers 204; or answers 500 and leaves the account, with its sessions and
    password, as it was, so that the request can be repeated. *)
Theorem handleDeleteAccount_complete user w resp w' :
  RestApiFacts.in_sync (rest (w_db w)) -> unique_on f_id (files (database (w_db w))) ->
  handleDeleteAccount (Some user) w = (Ok resp, w') ->
  (status resp = 500%Z /\ identity (database (w_db w')) = identity (database (w_db w))) \/
  (status resp = 204%Z /\ account_gone (Auth.ID user) (w_db w) (w_db w')).
Proof using laws.
  intros Hs Hu. unfold handleDeleteAccount, with_user.
  intros [(e & H1 & ->)|(u1 & w1 & H1 & H)]%try_or_ok; apply restapi_erase_run in H1 as [[s1 E1] R1]; try exact Hs.
  { left. by rewrite E1. }
  apply try_or_ok in H as [(e & H2 & ->)|(u2 & w2 & H2 & H)]; apply storage_erase_run in H2 as [(fs & dk & E2) R2];
    try (by rewrite E1).
  { left. by rewrite E2, E1. }
  apply try_or_ok in H as [(e & H3 & ->)|(u3 & w3 & H3 & H)]; apply oauth_revoke_run in H3 as (d & E3 & I3 & F3 & R3).
  { left. rewrite E3. cbn [set_database database]. by rewrite I3, E2, E1. }
  apply try_or_ok in H as [(e & H4 & ->)|(u4 & w4 & H4 & H)]; apply DeleteUser_run in H4.
  { left. rewrite H4, E3. cbn [set_database database]. by rewrite I3, E2, E1. }
  destruct (RecordLogged_run Audit.EventCustomerAccountDeleted (actor_of user) (actor_of user) None w4)
    as (w5 & l & H5 & El & _).
  unfold mbind, M_bind in H. rewrite H5 in H. injection H as <- <-. right. split; [done|].
  destruct (R2 eq_refl) as [RF RB]. specialize (R1 eq_refl). specialize (R3 eq_refl).
  assert (database (w_db w5) = put_audit_log l (delete_user_cascade (Auth.ID user) d)) as Hdb.
  { rewrite El, H4, E3. done. }
  split.
  - rewrite El, H4, E3, E2. exact R1.
  - rewrite Hdb. cbn. apply Forall_filter_sub. rewrite F3. exact RF.
  - intros f Hf Ho. rewrite El, H4, E3. cbn. apply RB; [|done]. by rewrite E1.
  - intros t. rewrite Hdb. apply R3.
  - rewrite Hdb. apply Forall_filter_fact.
  - rewrite Hdb. unfold user_ids. cbn. intros [Hn _]%(elem_of_key_filter u_id (fun k => k <> Auth.ID user)). done.
  - rewrite Hdb. apply Forall_filter_fact.
  - rewrite Hdb. apply Forall_filter_fact.
  - rewrite Hdb. apply Forall_filter_fact.
Qed.

(** Everything but the audit log. *)
Definition but_audit (a : App) : App := set_database (put_audit_log [] (database a)) a.

Lemma RecordLogged_effect e x y md w :
  (RecordLogged e x y md w).1 = Ok tt /\ but_audit (w_db (RecordLogged e x y md w).2) = but_audit (w_db w) /\
  w_env (RecordLogged e x y md w).2 = (env_step (env_draw (w_env w)).2).2.
Proof using.
  unfold RecordLogged, audit, in_db, zoom, Audit.RecordLogged. rewrite attempt_bind. cbn [w_env w_db fst snd].
  split_and!; [done|by destruct (w_db w) as [[]]|]. unfold Audit.Record_, wrapping, map_err, mbind, M_bind, new_uuid, exec_at.
  cbn [w_env w_db fst snd]. destruct (env_draw (w_env w)) as [n e1]. cbn [snd w_env w_db].
  destruct (env_step e1) as [[?|] e2]; [done|]. by destruct (bool_decide _).
Qed.

Lemma GetUser_names id w user w1 : auth (Auth.GetUser id) w = (Ok user, w1) -> Auth.ID user = id.
Proof using.
  intros (v & H & _)%auth_run. unfold Auth.GetUser, Auth.getUserByID, Auth.select_user_by_id in H.
  apply bind_ok in H as (row & w2 & H1%map_err_ok & H). apply query_ok in H1 as [-> _].
  destruct (find_row _ _) as [row|] eqn:E; [|done]. apply mret_ok in H as [-> _]. by apply find_row_Some in E as [_ <-].
Qed.

(** C8: deleting a customer from the admin UI has exactly the consequences of the
    customer's own request to be erased: from the same state, meeting the same
    faults, the two leave everything but the audit log - rows, files, bytes,
    grants, sessions, the account - the same, and the one succeeds just when the
    other does. *)
Theorem handleDeleteUser_as_own id owner user w w1 :
  auth (Auth.GetUser id) w = (Ok user, w1) ->
  let own := handleDeleteAccount (Some user) w1 in
  let forced := AdminUi.handleDeleteUser id owner w in
  but_audit (w_db forced.2) = but_audit (w_db own.2) /\ w_env forced.2 = w_env own.2 /\
  (forced.1 = Ok (AdminUi.see_other "/admin/ui/users") <->
   own.1 = Ok (with_cookie ClearCookie no_content)).
Proof using.
  intros Hu. pose proof (GetUser_names _ _ _ _ Hu) as <-. cbv zeta.
  unfold AdminUi.handleDeleteUser. rewrite (try_or_run _ _ _ _ _ _ Hu). unfold handleDeleteAccount, with_user.
  assert (forall X Y (f : error -> X) (g : error -> Y) (m : MA unit) (k : MA X) (l : MA Y) (x : X) (y : Y) v,
    (forall e, f e <> x) -> (forall e, g e <> y) ->
    (forall v', but_audit (w_db (k v').2) = but_audit (w_db (l v').2) /\ w_env (k v').2 = w_env (l v').2 /\
       ((k v').1 = Ok x <-> (l v').1 = Ok y)) ->
    but_audit (w_db (try_or f m (fun _ => k) v).2) = but_audit (w_db (try_or g m (fun _ => l) v).2) /\
    w_env (try_or f m (fun _ => k) v).2 = w_env (try_or g m (fun _ => l) v).2 /\
    ((try_or f m (fun _ => k) v).1 = Ok x <-> (try_or g m (fun _ => l) v).1 = Ok y)) as Hstep.
  { intros X Y f g m k l x y v Hf Hg Hkl. unfold try_or. destruct (m v) as [[u|e] v']; [apply Hkl|].
    split_and!; [done..|]. cbn. split; [intros [= H]; by apply Hf in H|intros [= H]; by apply Hg in H]. }
  assert (forall e, AdminUi.delete_failed e <> AdminUi.see_other "/admin/ui/users") as Hf by (by intros e [=]).
  assert (forall e, on_internal e <> with_cookie ClearCookie no_content) as Hg by (by intros e [=]).
  do 3 (apply Hstep; [exact Hf|exact Hg|intros ?]). apply Hstep; [exact Hf|exact Hg|intros last].
  match goal with |- context [RecordLogged ?e ?x ?y ?md ≫= _] =>
    lazymatch e with
    | Audit.EventUserDelete => destruct (RecordLogged_effect e x y md last) as (A1 & A2 & A3)
    end end.
  match goal with |- context [RecordLogged ?e ?x ?y ?md ≫= _] =>
    lazymatch e with
    | Audit.EventCustomerAccountDeleted => destruct (RecordLogged_effect e x y md last) as (B1 & B2 & B3)
    end end.
  destruct (RecordLogged Audit.EventUserDelete _ _ _ last) as [? v1] eqn:E1. cbn [fst snd] in *. subst.
  destruct (RecordLogged Audit.EventCustomerAccountDeleted _ _ _ last) as [? v2] eqn:E2. cbn [fst snd] in *. subst.
  rewrite (bind_run _ _ _ _ _ E1), (bind_run _ _ _ _ _ E2). unfold mret, M_ret. cbn [fst snd].
  split_and!; [by rewrite A2, B2|by rewrite A3, B3|done].
Qed.
End erasure.

(** ** Cookies *)

(** Every cookie is safe, a throttled answer says when to come back, and a code is
    one HTTP has. *)
Definition well_formed (resp : Response) : Prop :=
  Forall safe_cookie (set_cookies resp) /\ (status resp = 429%Z <-> is_Some (retry_after resp)) /\
  (200 <= status resp < 600)%Z.

Definition well_formed_answer `{Register.TokenEndpoint} (a : Answer) : Prop :=
  match a with
  | Json resp => well_formed resp
  | UiPage resp => AdminUiFacts.well_formed resp
  | _ => True
  end.

Section cookies.
Context {bcrypt : Bcrypt} {resend : Resend} {sql : Sqlite} {upstream : Social.Upstream}
  {provider : OAuth.Provider} {introspection : OAuth.Introspection} {studio : AdminUi.Studio}
  {host_syntax : Url.HostSyntax} {hasher : Register.SecretsHasher} {token_endpoint : Register.TokenEndpoint}.

Lemma reply_well_formed code p : code <> 429%Z -> (200 <= code < 600)%Z -> well_formed (reply code p).
Proof using. intros Hne Hc. split_and!; [by constructor|split; [done|intros [? [=]]]|apply Hc..]. Qed.

Lemma with_cookie_well_formed c resp : safe_cookie c -> well_formed resp -> well_formed (with_cookie c resp).
Proof using. intros Hc (H1 & H2 & H3). split_and!; [apply Forall_app; split; [done|by constructor]|done|apply H3..]. Qed.

Lemma state_cookie_safe p s : safe_cookie (state_cookie p s).
Proof using. by split. Qed.

Lemma auth_error_well_formed e : well_formed (writeAuthError e).
Proof using. unfold writeAuthError. apply reply_well_formed; repeat (destruct (is_any _ _)); done. Qed.
Lemma owner_error_well_formed e : well_formed (writeOwnerAuthError e).
Proof using. unfold writeOwnerAuthError. apply reply_well_formed; repeat (destruct (is_any _ _)); done. Qed.
Lemma linked_well_formed e : well_formed (linked_elsewhere e).
Proof using. unfold linked_elsewhere. destruct (errors_Is _ _); by apply reply_well_formed. Qed.

Create HintDb answers.
#[local] Hint Resolve session_cookie_safe clear_cookie_safe owner_cookie_safe owner_clear_cookie_safe state_cookie_safe
  auth_error_well_formed owner_error_well_formed linked_well_formed : answers.

Lemma json_yields (m : MA Response) : yields m well_formed -> yields (json m) well_formed_answer.
Proof using. intros Hm. unfold json. eapply yields_cut; [exact Hm|]. intros resp Hr. by apply yields_ret. Qed.

Lemma page_yields r route : yields (page (AdminUi.mount r route)) well_formed_answer.
Proof using. unfold page. eapply yields_cut; [apply AdminUiFacts.mount_yields|]. intros resp Hr. by apply yields_ret. Qed.

Lemma throttled_yields {X} (wrap : Response -> X) (P : X -> Prop) l msg f r next :
  (forall resp, well_formed resp -> P (wrap resp)) -> yields next P ->
  yields (rateLimitMiddleware wrap l msg f r next) P.
Proof using.
  intros Hw Hn. unfold rateLimitMiddleware. apply yields_bind. intros a. destruct (_ <=? 0)%Z; [done|]. cbv zeta.
  apply yields_bind. intros [ok wait]. destruct (negb ok); [|done]. apply yields_bind. intros _.
  apply yields_ret, Hw. split_and!; [by constructor|by split|done..].
Qed.

Ltac answer_step :=
  match goal with
  | |- forall _, _ => intros ?
  | |- yields (match ?x with _ => _ end) _ => destruct x
  | |- yields (mret _) _ => apply yields_ret
  | |- yields (fail _) _ => apply yields_fail
  | |- yields (try_or _ _ _) _ => apply yields_try_or
  | |- yields (rateLimitMiddleware _ _ _ _ _ _) _ => apply throttled_yields; [done|]
  | |- yields (json _) _ => apply json_yields
  | |- yields (page _) _ => apply page_yields
  | |- yields (_ ≫= _) _ => apply yields_bind
  | |- well_formed_answer _ => cbn [well_formed_answer]; try exact I
  | |- well_formed (reply _ _) => by apply reply_well_formed
  | |- well_formed (writeError _ _) => by apply reply_well_formed
  | |- well_formed (with_cookie _ _) => apply with_cookie_well_formed
  | |- well_formed unauthorized => by apply reply_well_formed
  | |- well_formed internal_error => by apply reply_well_formed
  | |- well_formed (on_internal _) => by apply reply_well_formed
  | |- well_formed (text_internal _) => by apply reply_well_formed
  | |- well_formed no_content => by apply reply_well_formed
  | |- well_formed not_found => by apply reply_well_formed
  | |- well_formed invalid_body => by apply reply_well_formed
  | _ => solve [auto with answers nocore]
  end.

#[local] Hint Unfold json records filestore browser rateLimitLogin rateLimitRegister rateLimitOwnerLogin requireDevMode data file
  RequireScope requireAuth requireOwnerRole decodeJSON with_user ownerFromContext
  handleSignUp handleLogin handleLogout handleForgotPassword handleResetPassword handleSocialStart
  social_sign_in randomURLSafeString handleMe handleExportAccount
  handleDeleteAccount handleListConsents handleRevokeConsent handleOwnerLogin handleOwnerLogout handleOwnerMe
  handleListOwners handleListAuditLog handlePurgeSessions handleCreateOwner handleDeleteOwner : answers.

Lemma social_callback_yields ps url r : yields (handleSocialCallback ps url r) well_formed.
Proof using.
  unfold handleSocialCallback. cbv zeta. destruct (ps !! _) as [p|]; [|by repeat answer_step].
  eapply (yields_cut _ _ well_formed).
  - autounfold with answers. cbv zeta. repeat answer_step.
  - intros resp (H1 & H2 & H3). apply yields_ret. split_and!; [constructor; [by split|exact H1]|exact H2|apply H3..].
Qed.
#[local] Hint Resolve social_callback_yields : answers.

End cookies.

(** ** Passwords *)

Section passwords.
Context {bcrypt : Bcrypt} {resend : Resend}.

Lemma Send_run sender m w r w' :
  Send sender m w = (r, w') -> w_db w' = w_db w \/ w_db w' = w_db w ++ [m].
Proof.
  destruct sender as [|k from]; cbn [Send]; [by intros [= _ <-]; left|]. unfold mbind, M_bind, wrapping, map_err.
  destruct (update _ w) as [[x|e] w1] eqn:E; [|intros [= _ <-]; left; by eapply exec_err].
  apply update_ok in E. injection E as <- E. intros H. assert (w_db w' = w_db w1) as ->.
  { destruct (300 <=? _)%Z; by injection H as _ <-. }
  rewrite <- E. destruct (300 <=? _)%Z; auto.
Qed.

Lemma CreateResetToken_account mail w raw uid w' :
  Auth.CreateResetToken mail w = (Ok (Some (raw, uid)), w') ->
  exists u, u ∈ users (w_db w) /\ u_id u = uid /\ u_email u = Auth.normalizeEmail mail.
Proof.
  unfold Auth.CreateResetToken. intros H. run_inv.
  unfold Auth.select_user_by_email in Hrun. apply query_ok in Hrun as [-> _].
  destruct (find_row _ _) as [row|] eqn:E; [|by run_inv].
  apply find_row_Some in E as [Hin He]. run_inv.
  match goal with H : Some _ = Some _ |- _ => injection H as -> -> end. by exists row.
Qed.

(** C30: asking for a password reset reveals nothing about who has an account:
    whatever is registered and whatever fails, a well-formed request is answered
    with an empty 204; mail goes out only to the address that was asked for, and
    only if it belongs to an account. *)
Theorem forgot_password_reveals_nothing sender url mail w r w' :
  handleForgotPassword sender url (Some mail) w = (r, w') ->
  r = Ok no_content /\
  (delivered (w_db w') = delivered (w_db w) \/
   exists m u, delivered (w_db w') = delivered (w_db w) ++ [m] /\ To m = mail /\
     u ∈ users (identity (database (w_db w))) /\ u_email u = Auth.normalizeEmail mail).
Proof.
  unfold handleForgotPassword, decodeJSON. rewrite attempt_bind.
  destruct (auth (Auth.CreateResetToken mail) w) as [[[[raw uid]|]|e] w1] eqn:E; cbn [fst snd];
    apply auth_run in E as (v & E & ->); [|intros [= <- <-]; by split; [|left]..].
  apply CreateResetToken_account in E as (u & Hu & _ & Hmail). cbn [w_db] in Hu. intros H.
  destruct (RecordLogged_run Audit.EventCustomerPasswordResetRequested Audit.nobody (Audit.mkActor uid mail) None
    (mkWorld (w_env v) (set_database (put_identity (w_db v) (database (w_db w))) (w_db w)))) as (w2 & l & H2 & Hl & _).
  unfold mbind at 1, M_bind at 1 in H. rewrite H2 in H. rewrite attempt_bind in H.
  destruct (email _ w2) as [x w3] eqn:E3. cbn [fst snd] in H. injection H as <- <-. split; [done|].
  apply zoom_run in E3 as (w4 & E3 & ->). apply Send_run in E3. cbn [w_db set_delivered delivered] in *.
  assert (delivered (w_db w2) = delivered (w_db w)) as Hd.
  { by rewrite Hl. }
  rewrite Hd in E3. destruct E3 as [->| ->]; [by left|right]. by eexists _, u.
Qed.

Lemma ResetPassword_effect token pw w uid w' :
  Auth.ResetPassword token pw w = (Ok uid, w') -> exists hash, AuthFacts.reset_effect uid hash (w_db w) (w_db w').
Proof.
  unfold Auth.ResetPassword. destruct (bool_decide _); [discriminate|]. intros H. run_inv.
  apply AuthFacts.hashPassword_ok in Hrun as (E0 & _). apply transaction_ok in H as (w1 & w2 & E1 & H & E2).
  apply AuthFacts.redeem_ok in H as (row & _ & _ & _ & _ & _ & Heff). exists r. by rewrite E2, <- E0, <- E1.
Qed.

Lemma ResetPassword_forward token pw : forward (Auth.ResetPassword token pw).
Proof.
  unfold Auth.ResetPassword, Auth.hashPassword, Auth.redeem, Auth.delete_sessions. forward_solve.
Qed.

Lemma RevokeAllForSubject_quiet subj w r w' :
  quiet w -> in_db (OAuth.RevokeAllForSubject subj) w = (r, w') -> is_ok r = true.
Proof.
  intros Hq (w1 & H & _)%zoom_run.
  assert (forall ts (v : World Database), quiet v -> is_ok (for_each (fun t => wrapping ("revoke " +:+ OAuth.table_name t +:+ " for subject")
      (OAuth.delete_grants t (fun r => js_Subject (g_session r) = subj))) ts v).1 = true) as Hall.
  { induction ts as [|t ts IH]; intros v Hv; cbn [for_each]; [done|].
    unfold mbind, M_bind, wrapping, map_err, OAuth.delete_grants. rewrite update_quiet by done. by apply IH. }
  specialize (Hall OAuth.oauthGrantTables (mkWorld (w_env w) (database (w_db w))) Hq).
  change (is_ok (OAuth.RevokeAllForSubject subj (mkWorld (w_env w) (database (w_db w)))).1 = true) in Hall.
  by rewrite H in Hall.
Qed.

(** a completed password reset signs out everywhere: no session of the account
    is left, and, unless a fault prevents the revocation, no authorization code or
    token issued to any client on its behalf either. *)
Theorem reset_signs_out_everywhere token pw w w' :
  handleResetPassword (Some (token, pw)) w = (Ok no_content, w') ->
  exists uid hash, AuthFacts.reset_effect uid hash (identity (database (w_db w))) (identity (database (w_db w'))) /\
    Forall (fun s => s_user_id s <> uid) (sessions (identity (database (w_db w')))) /\
    (quiet w -> forall t, Forall (fun g => js_Subject (g_session g) <> uid) (OAuth.grants t (database (w_db w')))).
Proof.
  unfold handleResetPassword, decodeJSON. intros [(e & H & He)|(uid & w1 & H1 & H)]%try_or_ok.
  { unfold writeAuthError, no_content in He. discriminate He. }
  apply auth_run in H1 as (v & H1 & ->).
  assert (quiet w -> quiet v) as Hfwd.
  { intros Hq. pose proof (forward_quiet _ (mkWorld (w_env w) (identity (database (w_db w)))) (ResetPassword_forward token pw) Hq) as Hv.
    cbn [fst snd] in H1. by rewrite H1 in Hv. }
  apply ResetPassword_effect in H1 as [hash Heff]. cbn [w_db] in Heff.
  destruct (RecordLogged_run Audit.EventCustomerPasswordResetCompleted (Audit.mkActor uid EmptyString)
    (Audit.mkActor uid EmptyString) None
    (mkWorld (w_env v) (set_database (put_identity (w_db v) (database (w_db w))) (w_db w)))) as (w2 & l & H2 & Hl & Hq2).
  cbn [fst snd] in H. unfold mbind at 1, M_bind at 1 in H. rewrite H2 in H. rewrite attempt_bind in H.
  destruct (in_db (OAuth.RevokeAllForSubject uid) w2) as [x w3] eqn:E3. cbn [fst snd] in H. injection H as <-.
  pose proof E3 as E3'. apply oauth_revoke_run in E3 as (d & E3 & Hi & _ & Hg).
  assert (identity (database (w_db w3)) = w_db v) as Hid by (rewrite E3; cbn; by rewrite Hi, Hl).
  exists uid, hash. rewrite Hid. split; [done|]. split.
  - destruct Heff as (_ & _ & -> & _). apply Forall_filter_fact.
  - intros Hq. rewrite E3. apply Hg. assert (quiet w2) as Hw2.
    { apply Hq2. exact (Hfwd Hq). }
    apply RevokeAllForSubject_quiet in E3'; [|done]. by rewrite E3'.
Qed.
End passwords.

(** ** Social sign-in and throttling *)

Section guards.
Context {bcrypt : Bcrypt} {resend : Resend} {sql : Sqlite} {upstream : Social.Upstream}
  {provider : OAuth.Provider} {introspection : OAuth.Introspection} {studio : AdminUi.Studio}
  {host_syntax : Url.HostSyntax} {hasher : Register.SecretsHasher} {token_endpoint : Register.TokenEndpoint}.

(** a social callback that does not carry the state its browser was given - no
    state cookie, no state parameter, or another one - is turned away before
    anything happens: nothing is sent to the provider, no session is made, and
    nothing stored changes. *)
Theorem social_callback_needs_state cfg r p w :
  socialProviders cfg !! URLParam r = Some p ->
  cookie_of r (socialStateCookieName (URLParam r)) <> Some (query_state r) \/ query_state r = EmptyString ->
  dispatch cfg r SocialCallback w =
    (Ok (Json (with_cookie (clearSocialStateCookie (URLParam r)) (reply 400 (Text "invalid or missing state")))), w).
Proof using.
  intros Hp Hstate. cbn [dispatch]. unfold json, handleSocialCallback. rewrite Hp. cbv zeta.
  destruct (cookie_of r _) as [state|]; [|reflexivity].
  assert (bool_decide (query_state r = EmptyString) || negb (bool_decide (query_state r = state)) = true) as Hb.
  { destruct Hstate as [Hne|He]; [|by rewrite bool_decide_eq_true_2].
    rewrite (bool_decide_eq_false_2 (query_state r = state)) by congruence. apply orb_true_r. }
  by rewrite Hb.
Qed.

(** The rank a route asks for. *)
Definition rank_asked (route : Route) : option OwnerAuth.Role :=
  match route with
  | OwnerMe => Some OwnerAuth.RoleViewer
  | OwnersList | AuditLog | PurgeSessions => Some OwnerAuth.RoleAdmin
  | OwnersCreate _ | OwnersDelete => Some OwnerAuth.RoleOwner
  | Ui p => AdminUi.required_role p
  | _ => None
  end.

(** How the owner plane turns a request away. *)
Definition turned_away `{Register.TokenEndpoint} (a : Answer) : Prop :=
  a = Json unauthorized \/ a = Json (writeError 403 "insufficient role") \/
  a = UiPage (AdminUi.see_other "/admin/ui/login") \/
  exists o, a = UiPage (AdminUi.reply 403 (AdminUi.Html (AdminUi.Forbidden o))).

(** C35: the owner plane is closed to everybody else: without a valid session of an
    account of the rank a route of the JSON API or a page of the admin UI asks
    for, the request is turned away with 401, 403 or the way to the login page,
    and nothing stored changes. *)
Theorem owner_routes_closed cfg r route min w x w' :
  rank_asked route = Some min ->
  (forall o, signed_in_owner r o (database (w_db w)) -> OwnerAuth.AtLeast (OwnerAuth.ORole o) min = false) ->
  dispatch cfg r route w = (x, w') ->
  w_db w' = w_db w /\ exists a, x = Ok a /\ turned_away a.
Proof using.
  intros Hreq Hno H. unfold turned_away.
  assert (forall m next v y v', w_db v = w_db w -> requireOwnerRole m r next v = (y, v') ->
    w_db v' = w_db w /\ (y = Ok unauthorized \/ y = Ok (writeError 403 "insufficient role")) \/
    exists o v1, w_db v1 = w_db w /\ signed_in_owner r o (database (w_db w)) /\
      OwnerAuth.AtLeast (OwnerAuth.ORole o) m = true /\ next (Some o) v1 = (y, v')) as Hgate.
  { intros m next v y v' Hv. unfold requireOwnerRole. destruct (cookie_of r _) as [c|] eqn:Ec; [|intros [= <- <-]; left; auto].
    unfold try_or. pose proof (ownerAuth_reads (OwnerAuth.ValidateSession c) v (owner_Validate_reads c)) as Hr.
    destruct (ownerAuth _ v) as [[o|e] v1] eqn:Ev; cbn [snd] in Hr; [|intros [= <- <-]; left; rewrite Hr; auto].
    destruct (OwnerAuth.AtLeast _ _) eqn:Hl; cbn [negb]; [|intros [= <- <-]; left; rewrite Hr; auto].
    intros Hn. right. exists o, v1. rewrite Hr, Hv. split_and!; try done.
    unfold ownerAuth, in_db, zoom in Ev. cbn [w_env w_db] in Ev. rewrite Hv in Ev.
    destruct (OwnerAuth.ValidateSession c _) as [z w2] eqn:E. injection Ev as -> _. by exists c, (w_env v), w2. }
  assert (forall m next, (y ← requireOwnerRole m r next; mret (Json y)) w = (x, w') ->
    w_db w' = w_db w /\ (exists a, x = Ok a /\ turned_away a) \/
    exists o v1 y, w_db v1 = w_db w /\ signed_in_owner r o (database (w_db w)) /\
      OwnerAuth.AtLeast (OwnerAuth.ORole o) m = true /\ next (Some o) v1 = (y, w') /\
      (forall z, y = Ok z -> x = Ok (Json z))) as Hjson.
  { intros m next Hm. unfold mbind, M_bind in Hm.
    destruct (requireOwnerRole m r next w) as [y v'] eqn:E1. apply Hgate in E1; [|done].
    assert (w' = v') as -> by (destruct y; by injection Hm as _ <-).
    destruct E1 as [[E1 [->| ->]]|(o & v1 & H1 & H2 & H3 & H4)];
      [left; injection Hm as <-; split; [done|]; eexists; split; [done|]; by left
      |left; injection Hm as <-; split; [done|]; eexists; split; [done|]; by right; left|].
    right. exists o, v1, y. split_and!; try done. intros z ->. by injection Hm as <-. }
  assert (forall p, AdminUi.required_role p = Some min -> page (AdminUi.mount r p) w = (x, w') ->
    w_db w' = w_db w /\ exists a, x = Ok a /\ turned_away a) as Hpage.
  { intros p Hp Hm. unfold page, mbind, M_bind in Hm. rewrite (AdminUiFacts.mount_gated r p _ Hp) in Hm.
    destruct (AdminUi.requireRole _ r _ w) as [y v] eqn:E1.
    apply AdminUiFacts.requireRole_run in E1 as [[Hs Hy]|(o & v1 & _ & Ho & Hl & _)]; [|by rewrite Hno in Hl].
    destruct Hy as [->|[o ->]]; injection Hm as <- <-; (split; [done|]); eexists; (split; [done|]); right; right;
      [by left|right; by exists o]. }
  destruct route as []; try discriminate Hreq; cbn [rank_asked dispatch] in *; [..|by eapply Hpage];
    injection Hreq as <-; unfold json in H;
    apply Hjson in H as [H|(o & v1 & y & H1 & H2 & H3 & H4 & H5)]; try exact H;
    try (by rewrite Hno in H3);
    (apply Hgate in H4 as [[H4 [->| ->]]|(o2 & v2 & _ & G2 & G3 & _)]; [| |by rewrite Hno in G3|exact H1]);
    (split; [done|]; eexists; split; [by apply H5|]); [by left|by right; left|by left|by right; left].
Qed.

Lemma refused_wait t k l wait l' : RateLimit.Allow t k l = (false, wait, l') -> (0 < wait)%Z.
Proof using.
  unfold RateLimit.Allow. destruct (RateLimit.buckets l !! k) as [b|]; [|discriminate].
  destruct (RateLimit.elapsed l t b) eqn:E; [discriminate|]. destruct (_ <? _)%Z; [|discriminate].
  intros [= <- _]. unfold RateLimit.elapsed in E. apply Z.leb_gt in E. lia.
Qed.

(** a throttled request goes no further: when the limiter refuses the client's
    address, the answer is 429 with a positive delay, the endpoint behind is not
    run, and of all that is stored only the limiter itself, and on the owner
    plane the audit trail, has changed. *)
Theorem throttled_request_stops {X} (wrap : Response -> X) l msg r next w x w' :
  (0 < RateLimit.Limit (get_limiter l (w_db w)))%Z ->
  (RateLimit.Allow (clock w) (clientIP r) (get_limiter l (w_db w))).1.1 = false ->
  rateLimitMiddleware wrap l msg None r next w = (x, w') ->
  exists wait, (0 < wait)%Z /\ x = Ok (wrap (mkResponse 429 (Error msg) [] (Some wait))) /\
    w_db w' = set_limiter l (RateLimit.Allow (clock w) (clientIP r) (get_limiter l (w_db w))).2 (w_db w).
Proof using.
  intros Hl Ha H. unfold rateLimitMiddleware, get_app in H. unfold mbind at 1, M_bind at 1 in H.
  destruct (_ <=? 0)%Z eqn:E; [apply Z.leb_le in E; lia|]. cbv zeta in H. unfold mbind at 1, M_bind at 1, allow in H.
  destruct (RateLimit.Allow _ _ _) as [[ok wait] l'] eqn:EA. cbn [fst snd] in Ha. subst ok. cbn [negb fst snd] in H.
  injection H as <- <-. exists (wait / second + 1)%Z. split; [|done].
  apply refused_wait in EA. assert (0 <= wait / second)%Z by (apply Z.div_pos; [lia|done]). lia.
Qed.
End guards.

(** ** Witnesses *)

#[local] Existing Instance AuthFacts.toy_bcrypt.
#[local] Existing Instance OAuthFacts.toy_provider.
#[local] Existing Instance RestApiFacts.toy.
#[local] Existing Instance RestApiFacts.toy_laws.
#[local] Existing Instance AdminUiFacts.toy_studio.
Abbreviation sample_app := AdminUiFacts.sample_app.
#[local] Existing Instance RegisterFacts.toy_hosts.
#[local] Existing Instance RegisterFacts.toy_hasher.
#[local] Existing Instance RegisterFacts.toy_tokens.
#[local] Existing Instance RegisterFacts.toy_token_bystander.

#[local] Instance toy_resend : Resend := {| post_emails _ _ _ := (200%Z, EmptyString) |}.
#[local] Instance toy_introspection : OAuth.Introspection := {|
  OAuth.AccessTokenFromRequest h := h;
  OAuth.IntrospectToken t sc := if bool_decide (t = EmptyString) then fail (Errorf "no token")
                                else mret (mkJWTSession t EmptyString EmptyString 0 EmptyString EmptyString);
|}.
#[local] Instance toy_upstream : Social.Upstream := {|
  Social.token_endpoint _ _ := inr "tok";
  Social.google_userinfo _ := inr (Social.mkAnswer 200 EmptyString (inr ("7", "ann@example.com")));
  Social.github_user _ := inr (Social.mkAnswer 500 "oops" (inl (Errorf "no JSON")));
  Social.github_emails _ := inl (Errorf "no route");
  Social.authorize_url p st := p +:+ st;
|}.

Lemma toy_bystander : Bystander.
Proof.
  split.
  - intros q w. cbn. by destruct (bool_decide _).
  - by intros ar s w.
  - intros t sc w. cbn. by destruct (bool_decide _).
Qed.

Definition cfg : Config :=
  mkConfig (ResendSender "key" "noreply@example.com") "https://app/reset" "https://issuer" 1000
    {[ "google" := Social.mkProvider "google" Social.Google ]} "https://app".

(** A request with the given cookies. *)
Definition a_request (jar : list (string * string)) (param state : string) : Request :=
  mkRequest EmptyString jar "203.0.113.9:4711" param EmptyString EmptyString state EmptyString "code".

Lemma audit_append_only_witness :
  let sql := Ui (AdminUi.UiSqlRun (Some [("query", "DELETE FROM owner_audit_log")])) in
  let reqs := [(a_request [] EmptyString EmptyString, Login (Some (mkCredentials "ann@example.com" "password")));
               (a_request [(SessionCookieName, "cookie")] EmptyString EmptyString, DeleteMe);
               (a_request [(OwnerSessionCookieName, "stolen")] EmptyString EmptyString, sql)] in
  audit_log (database sample_app) `prefix_of` audit_log (database (w_db (serve cfg reqs (sample_world 5 sample_app)).2)).
Proof.
  intros sql reqs.
  destruct (audit_append_only (bystander := toy_bystander) cfg reqs (sample_world 5 sample_app))
    as [H|(before & q & after & Hq & Hs & o & (c & e & w1 & Hc & Ho) & _)]; [exact H|].
  exfalso. destruct before as [|b1 [|b2 [|b3 before]]].
  - injection Hq as <- _. discriminate Hs.
  - injection Hq as _ <- _. discriminate Hs.
  - injection Hq as <- <- <- _. vm_compute in Hc. injection Hc as <-. vm_compute in Ho. destruct e as [[|[[]]]]; discriminate Ho.
  - injection Hq as _ _ _ Hq. by destruct before.
Defined.

Lemma owner_accounts_guarded_witness :
  let w := sample_world 5 sample_app in
  owner_users (owners (database (w_db (dispatch cfg (a_request [(OwnerSessionCookieName, "cookie")] "o1" EmptyString) OwnersDelete w).2))) =
  owner_users (owners (database sample_app)).
Proof.
  intros w.
  destruct (owner_accounts_guarded (bystander := toy_bystander) cfg (a_request [(OwnerSessionCookieName, "cookie")] "o1" EmptyString)
    OwnersDelete w _ _ (surjective_pairing _)) as [H|[_ _]]; [exact H|vm_compute; reflexivity].
Defined.

Lemma owner_routes_closed_witness :
  let w := sample_world 5 sample_app in
  w_db (dispatch cfg (a_request [] "o1" EmptyString) OwnersDelete w).2 = sample_app.
Proof.
  intros w.
  apply (owner_routes_closed cfg (a_request [] "o1" EmptyString) OwnersDelete OwnerAuth.RoleOwner w
    (dispatch cfg (a_request [] "o1" EmptyString) OwnersDelete w).1); [reflexivity| |apply surjective_pairing].
  intros o (c & e & w1 & Hc & _). discriminate Hc.
Defined.

Lemma handleDeleteAccount_complete_witness :
  let w' := (handleDeleteAccount (Some (Auth.mkUser "u1" "ann@example.com" 0 0)) (sample_world 5 sample_app)).2 in
  files (database (w_db w')) = [].
Proof.
  intros w'.
  destruct (handleDeleteAccount_complete (laws := RestApiFacts.toy_laws) (Auth.mkUser "u1" "ann@example.com" 0 0)
    (sample_world 5 sample_app) (with_cookie ClearCookie no_content) w') as [[H _]|[_ H]].
  - exact RestApiFacts.sample_in_sync.
  - evaluate.
  - vm_compute. reflexivity.
  - discriminate H.
  - vm_compute. reflexivity.
Defined.

Lemma handleDeleteUser_as_own_witness :
  let user := Auth.mkUser "u1" "ann@example.com" 0 0 in
  let w := sample_world 5 sample_app in
  but_audit (w_db (AdminUi.handleDeleteUser "u1" AdminUiFacts.an_owner w).2) =
    but_audit (w_db (handleDeleteAccount (Some user) w).2) /\
  u_id <$> users (identity (database (w_db (AdminUi.handleDeleteUser "u1" AdminUiFacts.an_owner w).2))) = [].
Proof.
  intros user w. split; [|vm_compute; reflexivity].
  apply (handleDeleteUser_as_own "u1" AdminUiFacts.an_owner user w w). vm_compute. reflexivity.
Defined.

Lemma forgot_password_reveals_nothing_witness :
  let ask mail := (handleForgotPassword (sender cfg) "https://app/reset" (Some mail) (sample_world 5 sample_app)).1 in
  ask "ann@example.com" = ask "nobody@example.com".
Proof.
  intros ask. unfold ask.
  destruct (forgot_password_reveals_nothing (sender cfg) "https://app/reset" "ann@example.com" (sample_world 5 sample_app) _ _
    (surjective_pairing _)) as [-> _].
  by destruct (forgot_password_reveals_nothing (sender cfg) "https://app/reset" "nobody@example.com" (sample_world 5 sample_app) _ _
    (surjective_pairing _)) as [-> _].
Defined.

Lemma reset_signs_out_everywhere_witness :
  let w' := (handleResetPassword (Some ("tok", "new-password")) (sample_world 5 sample_app)).2 in
  exists uid, Forall (fun g => js_Subject (g_session g) <> uid) (OAuth.grants RefreshTokens (database (w_db w'))).
Proof.
  intros w'. destruct (reset_signs_out_everywhere "tok" "new-password" (sample_world 5 sample_app) w') as (uid & hash & _ & _ & Hg).
  - vm_compute. reflexivity.
  - exists uid. apply Hg. reflexivity.
Defined.

Lemma social_callback_needs_state_witness :
  (dispatch cfg (a_request [(socialStateCookieName "google", "abc")] "google" "xyz") SocialCallback (sample_world 5 sample_app)).2 =
  sample_world 5 sample_app.
Proof.
  rewrite (social_callback_needs_state cfg _ (Social.mkProvider "google" Social.Google)); [reflexivity|vm_compute; reflexivity|].
  left. vm_compute. discriminate.
Defined.

Lemma throttled_request_stops_witness :
  let r := a_request [] EmptyString EmptyString in
  let w := (allow LoginLimiter (clientIP r) (sample_world 5 sample_app)).2 in
  exists wait, (0 < wait)%Z /\
    (rateLimitMiddleware id LoginLimiter "too many login attempts" None r (mret no_content) w).1 =
      Ok (mkResponse 429 (Error "too many login attempts") [] (Some wait)).
Proof.
  intros r w. destruct (throttled_request_stops id LoginLimiter "too many login attempts" r (mret no_content) w
    (rateLimitMiddleware id LoginLimiter "too many login attempts" None r (mret no_content) w).1
    (rateLimitMiddleware id LoginLimiter "too many login attempts" None r (mret no_content) w).2)
    as (wait & Hw & Hx & _); [vm_compute; reflexivity|vm_compute; reflexivity|apply surjective_pairing|].
  exists wait. split; [exact Hw|]. exact Hx.
Defined.

(** The audit entry of a login names the address as it was typed, which need not
    be the account's. *)
Example login_audited_as_typed :
  let w' := (handleLogin (Some (mkCredentials " ANN@example.com" "password")) (sample_world 5 sample_app)).2 in
  a_actor_email <$> drop 1 (audit_log (database (w_db w'))) = [Some " ANN@example.com"] /\
  u_email <$> users (identity (database (w_db w'))) = ["ann@example.com"].
Proof. vm_compute. split; reflexivity. Qed.

End HttpServerFacts.
