(* ===== verification/Live.v ===== *)
(** * The server at work

    The HTTP server and the realtime broker together: what is published by the
    requests is collected and sent by their goroutines while other requests run and
    connections come, speak and go.  Models the handshake of
    src/internal/realtime/server.go and Broker.Publish as auto-REST calls it. *)

From S2P Require Import Prelude GoStrings Schema Auth OwnerAuth RateLimit OAuth Register Storage Registry RestApi Http Social App AdminUi HttpServer Realtime.

Module Live.
Import Http App.

Section live.
Context {bcrypt : Bcrypt} {resend : Resend} {sql : Sqlite} {upstream : Social.Upstream}
  {provider : OAuth.Provider} {introspection : OAuth.Introspection} {studio : AdminUi.Studio}
  {host_syntax : Url.HostSyntax} {hasher : Register.SecretsHasher} {token_endpoint : Register.TokenEndpoint}.

Definition scopeRead : string := "records:read".

(** The handshake of the WebSocket endpoint: the subject, or 401. *)
Definition handshake (r : Request) : MA (option string) :=
  let token := OAuth.AccessTokenFromRequest (Authorization r) in
  if bool_decide (token = EmptyString) then mret None
  else try_or (fun _ => None) (in_db (OAuth.Authenticate token scopeRead)) (fun subject => mret (Some subject)).

(** The events the handlers hand to the broker. *)
Definition created (c : string) (record : Row) : Realtime.Event Row := Realtime.mkEvent "created" c (Some record) EmptyString.
Definition updated (c : string) (record : Row) : Realtime.Event Row := Realtime.mkEvent "updated" c (Some record) EmptyString.
Definition deleted (c id : string) : Realtime.Event Row := Realtime.mkEvent "deleted" c None id.
Definition event_of (e : RestApi.Event) : Realtime.Event Row :=
  match e with
  | RestApi.EvCreated c record => created c record
  | RestApi.EvUpdated c record => updated c record
  | RestApi.EvDeleted c id => deleted c id
  end.

(** The server; the calls of Broker.Publish that have not collected their recipients
    yet; the broker with the sends under way. *)
Record Live : Type := mkLive {
  site : World App;
  publishing : list (RestApi.Event * string);
  hub : Realtime.System Row;
}.

Definition outbox_of (w : World App) : list (RestApi.Event * string) := RestApi.outbox (rest (w_db w)).

Inductive action : Type :=
| Serve (r : Request) (route : HttpServer.Route)
| Collect (i : nat)
| Connect (r : Request)
| Client (a : Realtime.action Row).

(** What a connection's goroutines and the sends of a publish do on their own. *)
Definition spontaneous (a : Realtime.action Row) : bool :=
  match a with
  | Realtime.AConnect _ | Realtime.ACollect _ _ => false
  | _ => true
  end.

Variable cfg : HttpServer.Config.

Inductive step : Live -> action -> Live -> Prop :=
| step_serve l r route w' x :
    HttpServer.dispatch cfg r route (site l) = (x, w') ->
    step l (Serve r route)
      (mkLive w' (publishing l ++ drop (length (outbox_of (site l))) (outbox_of w')) (hub l))
| step_collect l i ev owner hub' :
    publishing l !! i = Some (ev, owner) ->
    Realtime.step (hub l) (Realtime.ACollect (event_of ev) owner) hub' ->
    step l (Collect i) (mkLive (site l) (delete i (publishing l)) hub')
| step_connect l r subject w' hub' :
    handshake r (site l) = (Ok (Some subject), w') ->
    Realtime.step (hub l) (Realtime.AConnect subject) hub' ->
    step l (Connect r) (mkLive w' (publishing l) hub')
| step_refused l r x w' :
    (* 401, or Upgrade failed *)
    handshake r (site l) = (x, w') ->
    step l (Connect r) (mkLive w' (publishing l) (hub l))
| step_client l a hub' :
    spontaneous a = true -> Realtime.step (hub l) a hub' ->
    step l (Client a) (mkLive (site l) (publishing l) hub').

(** The server after some actions. *)
Inductive run (l0 : Live) : list action -> Live -> Prop :=
| run_nil : run l0 [] l0
| run_snoc acts l a l' : run l0 acts l -> step l a l' -> run l0 (acts ++ [a]) l'.

(** As it starts to listen: nobody connected, nothing published. *)
Definition starting (w : World App) : Live := mkLive w [] (Realtime.mkSystem Realtime.NewBroker []).

End live.
End Live.
