(* ===== verification/LiveFacts.v ===== *)
(** * The server at work: theorems

    What a request publishes, on every route and whatever fails; and that in every
    interleaving of requests and connections a record somebody owns reaches no
    connection of anybody else. *)

From S2P Require Import Prelude GoStrings Encoding Schema Auth AuthFacts OwnerAuth AuditLog RateLimit OAuth OAuthFacts Register RegisterFacts Storage StorageFacts OwnerAuthFacts Registry RestApi RestApiFacts Http Social App AppFacts AdminUi AdminUiFacts HttpServer HttpServerFacts Realtime RealtimeFacts Live.

Module LiveFacts.
Import Http App AppFacts HttpServer Registry RestApi RestApiFacts.

(** ** What a request publishes *)

(** A call of Broker.Publish by a collection of the registry: one that may be read;
    a record goes to the owner it has where reads belong to owners, to everybody
    else. *)
Definition fair (r : registry) (e : Event * string) : Prop :=
  exists n col, r !! n = Some col /\ ReadRule col <> RuleDenied /\
    match e.1 with
    | EvCreated c rec | EvUpdated c rec => c = CName col /\ e.2 = ownerGateValue col rec
    | EvDeleted c _ => c = CName col
    end.

Section frames.
Context {sql : Sqlite}.
Variable r0 : registry.

(** While the registry is [r0] it stays so, and what is published is fair. *)
Definition posting (s s' : Server) : Prop := reg s = r0 -> reg s' = r0 /\ publishes (fair r0) s s'.

#[local] Instance posting_preorder : PreOrder posting.
Proof.
  split.
  - intros s H. split; [done|]. exists []. by rewrite app_nil_r.
  - intros s1 s2 s3 H1 H2 Hr. destruct (H1 Hr) as [Hr2 P1]. destruct (H2 Hr2) as [Hr3 P2].
    split; [done|by etrans].
Qed.

Lemma posting_table {A} name cols (f : Table -> string + (A * Table)) : within posting (exec (on_table name cols f)).
Proof. apply within_on_table; [apply _|]. intros s t a t' _ _ _ Hr. split; [done|]. exists []. by rewrite app_nil_r. Qed.

Lemma posting_insert name fields : within posting (insert_into name fields).
Proof. apply posting_table. Qed.
Lemma posting_update name fields conds : within posting (update_where name fields conds).
Proof. apply posting_table. Qed.
Lemma posting_delete name conds : within posting (delete_where name conds).
Proof. apply posting_table. Qed.
Lemma posting_select name conds : within posting (select_where name conds).
Proof. intros w. rewrite select_where_reads. reflexivity. Qed.

Lemma posting_publish n col ev o :
  r0 !! n = Some col ->
  match ev with
  | EvCreated c rec | EvUpdated c rec => c = CName col /\ o = ownerGateValue col rec
  | EvDeleted c _ => c = CName col
  end -> within posting (publish col ev o).
Proof.
  intros Hc Hev w Hr. unfold publish. destruct (negb _); [by split; [|exists []; rewrite app_nil_r]|]. simpl.
  case_bool_decide as Hd; [by split; [|exists []; rewrite app_nil_r]|]. split; [done|].
  exists [(ev, o)]. split; [done|]. constructor; [|constructor]. exists n, col. auto.
Qed.

#[local] Hint Resolve posting_insert posting_update posting_delete posting_select : within.

Lemma posting_created n col rec : r0 !! n = Some col -> within posting (publish col (EvCreated (CName col) rec) (ownerGateValue col rec)).
Proof. intros Hc. by eapply posting_publish. Qed.
Lemma posting_updated n col rec : r0 !! n = Some col -> within posting (publish col (EvUpdated (CName col) rec) (ownerGateValue col rec)).
Proof. intros Hc. by eapply posting_publish. Qed.
Lemma posting_deleted n col id o : r0 !! n = Some col -> within posting (publish col (EvDeleted (CName col) id) o).
Proof. intros Hc. by eapply posting_publish. Qed.

#[local] Hint Extern 5 (within posting (publish _ _ _)) =>
  first [eapply posting_created; eassumption|eapply posting_updated; eassumption|eapply posting_deleted; eassumption] : within.

(** *** The handlers of auto-REST *)

Lemma posting_get_server : within posting get_server.
Proof. by intros w. Qed.

Lemma posting_gate col id : within posting (gate_before_delete col id).
Proof. unfold gate_before_delete, ownerValueForPK. within_solve. Qed.

Lemma posting_fetch col pk scoped subj : within posting (fetchByPK col pk scoped subj).
Proof. intros w. rewrite fetchByPK_reads. reflexivity. Qed.

#[local] Hint Resolve posting_get_server posting_gate posting_fetch : within.

Lemma posting_with_collection r rule (k : Collection -> M Server Response) :
  (forall n col, r0 !! n = Some col -> within posting (k col)) -> within posting (with_collection r rule k).
Proof.
  intros Hk w Hr. unfold with_collection. unfold mbind, M_bind, get_server, Get.
  destruct (reg (w_db w) !! path_collection r) as [col|] eqn:E; [|by split; [|exists []; rewrite app_nil_r]].
  destruct (bool_decide _); [by split; [|exists []; rewrite app_nil_r]|]. rewrite Hr in E. by apply (Hk _ _ E w).
Qed.

Lemma posting_handlers h r :
  h ∈ [handleList; handleGet; handleCreate; handleUpdate; handleDelete] -> within posting (h r).
Proof.
  rewrite !elem_of_cons, elem_of_nil. intros [->|[->|[->|[->|[->|[]]]]]];
    unfold handleList, handleGet, handleCreate, handleUpdate, handleDelete, fill_pk; apply posting_with_collection; intros n col Hc.
  all: within_solve.
Qed.

(** *** Accounts, and the admin UI *)

Lemma posting_export subj : within posting (ExportOwned subj).
Proof.
  unfold ExportOwned. apply within_bind; [apply _|apply posting_get_server|intros s].
  generalize (@nil (string * list Row)) as out. induction (ownedCollections (reg s)) as [|col l IH]; intros out; cbn [export_loop];
    [by within_solve|]. case_bool_decide; [apply IH|]. apply within_bind; [apply _|apply posting_select|intros rs; apply IH].
Qed.

Lemma posting_schema : within posting handleSchema.
Proof. unfold handleSchema. within_solve. Qed.

Lemma posting_delete_owned_in n col subj : r0 !! n = Some col -> within posting (delete_owned_in subj col).
Proof.
  intros Hc. unfold delete_owned_in, pkValuesForOwner. within_solve.
  all: apply within_for_each; [apply _|intros id _; by eapply posting_deleted].
Qed.

Lemma posting_delete_all subj : within posting (DeleteOwned subj).
Proof.
  intros w Hr. unfold DeleteOwned. unfold mbind, M_bind, get_server. rewrite Hr.
  apply (within_for_each posting); [|done]. intros col [_ [n Hc]]%elem_of_ownedCollections.
  by eapply posting_delete_owned_in.
Qed.

Lemma posting_admin_list col l o sc sd : within posting (AdminListRows col l o sc sd).
Proof. unfold AdminListRows. within_solve. Qed.
Lemma posting_admin_count col : within posting (AdminCountRows col).
Proof. unfold AdminCountRows. within_solve. Qed.
Lemma posting_admin_get col pk : within posting (AdminGetRow col pk).
Proof. unfold AdminGetRow. within_solve. Qed.
#[local] Hint Resolve posting_admin_get : within.

Lemma posting_admin_create n col f : r0 !! n = Some col -> within posting (AdminCreateRow col f).
Proof. intros Hc. unfold AdminCreateRow, fill_pk. within_solve. Qed.
Lemma posting_admin_update n col pk f : r0 !! n = Some col -> within posting (AdminUpdateRow col pk f).
Proof. intros Hc. unfold AdminUpdateRow. within_solve. Qed.
Lemma posting_admin_delete n col pk : r0 !! n = Some col -> within posting (AdminDeleteRow col pk).
Proof. intros Hc. unfold AdminDeleteRow. within_solve. Qed.

End frames.

(** *** The whole application *)

Definition on_rest (R : relation Server) : relation App := fun a a' => R (rest a) (rest a').
#[local] Instance on_rest_preorder R `{!PreOrder R} : PreOrder (on_rest R).
Proof. split; unfold on_rest; [intros a; reflexivity|intros a1 a2 a3 H1 H2; by etrans]. Qed.
#[local] Existing Instance posting_preorder.

Section application.
Context {bcrypt : Bcrypt} {resend : Resend} {sql : Sqlite} {upstream : Social.Upstream}
  {provider : OAuth.Provider} {introspection : OAuth.Introspection} {studio : AdminUi.Studio}
  {host_syntax : Url.HostSyntax} {hasher : Register.SecretsHasher} {token_endpoint : Register.TokenEndpoint}.

Section frames.
Variable R : relation Server.
Context `{!PreOrder R}.

Lemma rest_in_db {A} (m : M Database A) : within (on_rest R) (in_db m).
Proof. intros w. unfold in_db, zoom. destruct (m _). unfold on_rest. cbn. reflexivity. Qed.
Lemma rest_storage {A} (m : M Storage.Store A) : within (on_rest R) (storage m).
Proof. intros w. unfold storage, zoom. destruct (m _). unfold on_rest. cbn. reflexivity. Qed.
Lemma rest_email {A} (m : M (list Mail) A) : within (on_rest R) (email m).
Proof. intros w. unfold email, zoom. destruct (m _). unfold on_rest. cbn. reflexivity. Qed.
Lemma rest_restapi {A} (m : M Server A) : within R m -> within (on_rest R) (restapi m).
Proof. intros Hm. apply (within_zoom R); [done|]. by intros a s. Qed.
Lemma rest_allow l k : within (on_rest R) (allow l k).
Proof. intros w. unfold allow. destruct (RateLimit.Allow _ _ _) as [[ok wait] l']. destruct l; unfold on_rest; cbn; reflexivity. Qed.
Lemma rest_get_app : within (on_rest R) get_app.
Proof. intros w. reflexivity. Qed.
Lemma rest_auth {A} (m : M IdentityDb A) : within (on_rest R) (auth m).
Proof. apply rest_in_db. Qed.
Lemma rest_owner {A} (m : M OwnerDb A) : within (on_rest R) (ownerAuth m).
Proof. apply rest_in_db. Qed.
Lemma rest_recorded e x y md : within (on_rest R) (RecordLogged e x y md).
Proof. apply rest_in_db. Qed.
End frames.

#[local] Hint Resolve rest_in_db rest_storage rest_email rest_allow rest_get_app rest_auth rest_owner rest_recorded : within.

Section routes.
Variable r0 : registry.
Abbreviation posts := (on_rest (posting r0)).

Lemma posts_with_collection name k :
  (forall n col, r0 !! n = Some col -> within posts (k col)) -> within posts (AdminUi.with_collection name k).
Proof.
  intros Hk w Hr. unfold AdminUi.with_collection, mbind, M_bind, get_app, Get.
  destruct (reg (rest (w_db w)) !! name) as [col|] eqn:E; [|by split; [|exists []; rewrite app_nil_r]].
  rewrite Hr in E. by apply (Hk _ _ E w).
Qed.

Lemma posts_with_row name id k :
  (forall col row, within posts (k col row)) -> within posts (AdminUi.with_row name id k).
Proof.
  intros Hk. apply posts_with_collection. intros n col _.
  apply within_try_or; [apply _|apply rest_restapi, posting_admin_get|intros row; apply Hk].
Qed.

Lemma posts_handler h q : h ∈ [handleList; handleGet; handleCreate; handleUpdate; handleDelete] -> within posts (restapi (h q)).
Proof. intros Hh. by apply rest_restapi, posting_handlers. Qed.

Ltac route_step :=
  match goal with
  | |- within _ (restapi (DeleteOwned _)) => apply rest_restapi, posting_delete_all
  | |- within _ (restapi (ExportOwned _)) => apply rest_restapi, posting_export
  | |- within _ (restapi handleSchema) => apply rest_restapi, posting_schema
  | |- within _ (restapi (handleList _)) => apply posts_handler; rewrite !elem_of_cons; auto
  | |- within _ (restapi (handleGet _)) => apply posts_handler; rewrite !elem_of_cons; auto
  | |- within _ (restapi (handleCreate _)) => apply posts_handler; rewrite !elem_of_cons; auto
  | |- within _ (restapi (handleUpdate _)) => apply posts_handler; rewrite !elem_of_cons; auto 6
  | |- within _ (restapi (handleDelete _)) => apply posts_handler; rewrite !elem_of_cons; auto 7
  | |- within _ (restapi (AdminListRows _ _ _ _ _)) => apply rest_restapi, posting_admin_list
  | |- within _ (restapi (AdminCountRows _)) => apply rest_restapi, posting_admin_count
  | |- within _ (restapi (AdminGetRow _ _)) => apply rest_restapi, posting_admin_get
  | |- within _ (restapi (AdminCreateRow _ _)) => eapply rest_restapi, posting_admin_create; eassumption
  | |- within _ (restapi (AdminUpdateRow _ _ _)) => eapply rest_restapi, posting_admin_update; eassumption
  | |- within _ (restapi (AdminDeleteRow _ _)) => eapply rest_restapi, posting_admin_delete; eassumption
  | |- within _ (AdminUi.with_collection _ _) => apply posts_with_collection; intros ? ? ?
  | |- within _ (AdminUi.with_row _ _ _) => apply posts_with_row; intros ? ?
  | |- within _ (AdminUi.ParseForm _ _) => apply AdminUiFacts.ParseForm_within; [apply _|intros ?]
  | |- within _ (AdminUi.requireRole _ _ _) => apply AdminUiFacts.requireRole_within; [apply _|intros ?; apply rest_owner; apply _|intros ?]
  | |- within _ (in_db _) => apply rest_in_db; apply _
  | |- within _ (storage _) => apply rest_storage; apply _
  | |- within _ (email _) => apply rest_email; apply _
  | |- within _ (auth _) => apply rest_auth; apply _
  | |- within _ (ownerAuth _) => apply rest_owner; apply _
  | |- within _ (allow _ _) => apply rest_allow; apply _
  | |- within _ get_app => apply rest_get_app; apply _
  | |- within _ (RecordLogged _ _ _ _) => apply rest_recorded; apply _
  | _ => within_step
  | |- within _ _ => progress cbv zeta
  end.

(** The routes that read the schema again. *)
Definition reloads (route : Route) : bool :=
  match route with Ui (AdminUi.UiTableCreate _ _) | Ui (AdminUi.UiSqlRun _) => true | _ => false end.

Create HintDb routes.
#[local] Hint Unfold AdminUi.handleLoginPage AdminUi.handleLoginSubmit AdminUi.handleLogout AdminUi.handleOwnersPage
  AdminUi.renderOwnersWithError AdminUi.handleCreateOwner AdminUi.handleDeleteOwner AdminUi.handleUsersPage
  AdminUi.renderUsersWithError AdminUi.handleUserDetail AdminUi.handleCreateUser AdminUi.handleDeleteUser
  AdminUi.handleRevokeUserSessions AdminUi.handleAuditLogPage AdminUi.handlePurgeSessions AdminUi.handleDataCollections
  AdminUi.handleDataRows AdminUi.handleDataRowFragment AdminUi.handleDataEditRowFragment AdminUi.handleDataCreate
  AdminUi.handleDataEditForm AdminUi.handleDataUpdate AdminUi.handleDataDelete AdminUi.handleNewTableColumnRow
  AdminUi.rateLimitLogin : routes.

Lemma posts_page r page owner :
  reloads (Ui page) = false -> within posts (AdminUi.page_handler r page owner).
Proof.
  intros Hr. destruct page; try discriminate Hr; cbn [AdminUi.page_handler]; autounfold with routes; cbv zeta.
  all: repeat route_step.
Qed.

Lemma posts_mount r page : reloads (Ui page) = false -> within posts (AdminUi.mount r page).
Proof.
  intros Hr. pose proof (fun o => posts_page r page o Hr) as Hp.
  destruct page; try discriminate Hr; cbn [AdminUi.mount AdminUi.required_role]; autounfold with routes; cbv zeta.
  all: first [apply AdminUiFacts.requireRole_within; [apply _|intros c; apply rest_owner; apply _|exact Hp]|idtac].
  all: repeat route_step.
Qed.

#[local] Hint Unfold json records filestore browser page rateLimitLogin rateLimitRegister rateLimitOwnerLogin
  rateLimitMiddleware HttpServer.requireDevMode requireAuth requireOwnerRole RequireScope decodeJSON with_user ownerFromContext data file
  handleSignUp handleLogin handleLogout handleForgotPassword handleResetPassword handleSocialStart handleCreateOwner handleDeleteOwner
  handleSocialCallback social_sign_in current_user_id randomURLSafeString handleMe handleExportAccount
  handleDeleteAccount handleListConsents handleRevokeConsent handleOwnerLogin handleOwnerLogout handleOwnerMe
  handleListOwners handleListAuditLog handlePurgeSessions : routes.

Lemma posts_dispatch cfg r route : reloads route = false -> within posts (dispatch cfg r route).
Proof.
  intros Hr. destruct route; cbn [dispatch]; autounfold with routes; cbv zeta.
  all: try (apply within_bind; [apply _|by apply posts_mount|by within_solve]).
  all: repeat route_step.
Qed.
End routes.

(** *** The routes that read the schema again publish nothing *)

Definition silent (s s' : Server) : Prop := outbox s' = outbox s.
#[local] Instance silent_preorder : PreOrder silent.
Proof. split; unfold silent; [done|congruence]. Qed.

Lemma silent_reload : within silent ReloadSchema.
Proof.
  unfold ReloadSchema. within_solve; [|done]. by apply (within_zoom (fun _ _ => True)).
Qed.

Lemma silent_create_table name scoped cols : within silent (AdminCreateTable name scoped cols).
Proof.
  unfold AdminCreateTable. within_solve; [|apply silent_reload]. by destruct (tables _ !! name); simplify_eq.
Qed.

Lemma silent_sqlite {A} (m : M AdminUi.SqlDb A) : within (on_rest silent) (AdminUi.sqlite m).
Proof. apply (within_zoom (fun _ _ => True)); [by intros w|]. done. Qed.

Lemma silent_dispatch cfg r route : reloads route = true -> within (on_rest silent) (dispatch cfg r route).
Proof.
  destruct route as []; try discriminate. destruct route; try discriminate; intros _; cbn [dispatch]; unfold page.
  all: apply within_bind; [apply _| |by within_solve]; cbn [AdminUi.mount AdminUi.required_role AdminUi.page_handler].
  all: apply AdminUiFacts.requireRole_within; [apply _|intros c; apply rest_owner; apply _|intros o].
  - unfold AdminUi.handleCreateTable. apply AdminUiFacts.ParseForm_within; [apply _|intros f].
    apply within_bind; [apply _| |by within_solve]. apply within_attempt; [apply _|]. apply rest_restapi, silent_create_table.
  - unfold AdminUi.handleSQLStudioRun. apply AdminUiFacts.ParseForm_within; [apply _|intros f].
    repeat first [apply rest_recorded; apply _|apply silent_sqlite|apply rest_restapi, silent_reload|within_step|progress cbv zeta].
Qed.

Lemma dispatch_fair cfg r route w :
  exists evs, outbox (rest (w_db (dispatch cfg r route w).2)) = outbox (rest (w_db w)) ++ evs /\
    Forall (fair (reg (rest (w_db w)))) evs.
Proof.
  destruct (reloads route) eqn:E.
  - exists []. rewrite app_nil_r. split; [by apply silent_dispatch|constructor].
  - by destruct (posts_dispatch (reg (rest (w_db w))) cfg r route E w eq_refl) as [_ H].
Qed.

End application.

(** ** What connections receive *)

Section hub.
Context {R : Type}.
Implicit Types (b : Realtime.Broker R) (P : Realtime.Event R -> string -> Prop).

(** No connection goes, and each stays with its subject. *)
Definition steady b b' : Prop :=
  forall c k, Realtime.conns b !! c = Some k ->
    exists k', Realtime.conns b' !! c = Some k' /\ Realtime.Subject k' = Realtime.Subject k.

(** Every event that has arrived, or is on its way to a connection, may reach its
    subject. *)
Record hub_ok P (s : Realtime.System R) : Prop := {
  hub_arrived : forall c k ev, Realtime.conns (Realtime.broker s) !! c = Some k -> ev ∈ Realtime.events k -> P ev (Realtime.Subject k);
  hub_sent : forall i ev cs c, Realtime.in_flight s !! i = Some (ev, cs) -> c ∈ cs ->
    exists k, Realtime.conns (Realtime.broker s) !! c = Some k /\ P ev (Realtime.Subject k);
}.

(** A step that keeps the connections with no event they did not have. *)
Lemma hub_ok_fewer P s b' :
  hub_ok P s -> steady (Realtime.broker s) b' ->
  (forall c k', Realtime.conns b' !! c = Some k' -> Realtime.events k' = [] \/
     exists k, Realtime.conns (Realtime.broker s) !! c = Some k /\ Realtime.Subject k' = Realtime.Subject k /\
       Realtime.events k' ⊆ Realtime.events k) ->
  hub_ok P (Realtime.mkSystem b' (Realtime.in_flight s)).
Proof.
  intros [H1 H2] Hs Hf. split; cbn [Realtime.broker Realtime.in_flight].
  - intros c k' ev Hc Hev. destruct (Hf c k' Hc) as [Hn|(k & Hk & Hsub & Hin)]; [rewrite Hn in Hev; by apply elem_of_nil in Hev|].
    rewrite Hsub. eapply H1; [exact Hk|by apply Hin].
  - intros i ev cs c Hi Hc. destruct (H2 i ev cs c Hi Hc) as (k & Hk & HP). destruct (Hs c k Hk) as (k' & Hk' & Hsub).
    exists k'. by rewrite Hsub.
Qed.

Lemma send_steady ev c b b' :
  Realtime.send ev c b = Some b' ->
  steady b b' /\
  forall c' k', Realtime.conns b' !! c' = Some k' -> exists k, Realtime.conns b !! c' = Some k /\
    Realtime.Subject k' = Realtime.Subject k /\
    forall e, e ∈ Realtime.events k' -> e ∈ Realtime.events k \/ e = ev /\ c' = c.
Proof.
  unfold Realtime.send, steady. destruct (Realtime.conns b !! c) as [k|] eqn:E; [|intros [= <-]; split; eauto 10].
  destruct (Realtime.closed k); [done|]. case_bool_decide; intros [= <-]; [|split; eauto 10]. cbn [Realtime.conns]. split.
  - intros c' k' Hc. destruct (decide (c' = c)) as [->|Hne].
    + rewrite lookup_insert_eq. eexists. split; [done|]. simpl. congruence.
    + rewrite lookup_insert_ne by done. eauto.
  - intros c' k'. destruct (decide (c' = c)) as [->|Hne].
    + rewrite lookup_insert_eq. intros [= <-]. exists k. split_and!; [done|done|]. cbn [Realtime.events]. intros e.
      rewrite elem_of_app, list_elem_of_singleton. tauto.
    + rewrite lookup_insert_ne by done. intros Hk. exists k'. split_and!; eauto.
Qed.

Lemma readPump_conns c msg b : Realtime.conns (Realtime.readPump_step c msg b) = Realtime.conns b.
Proof.
  unfold Realtime.readPump_step, Realtime.Subscribe, Realtime.Unsubscribe. repeat case_bool_decide; try done.
  by destruct (Realtime.subs b !! _).
Qed.

Lemma hub_step P s a s' :
  Realtime.step s a s' -> hub_ok P s ->
  (forall ev o, a = Realtime.ACollect ev o -> forall subj, o = EmptyString \/ subj = o -> P ev subj) ->
  hub_ok P s'.
Proof.
  intros Hst Hok Hnew. destruct Hst as [s subject|s c msg Ho|s c Ho|s ev o|s i ev c cs b' Hi Hs|s c ev b' Hr].
  - assert (forall k, Realtime.conns (Realtime.broker s) !! fresh (dom (Realtime.conns (Realtime.broker s))) = Some k -> False) as Hf.
    { intros k Hk. apply (is_fresh (dom (Realtime.conns (Realtime.broker s)))). apply elem_of_dom. eauto. }
    apply hub_ok_fewer; [done| |]; unfold Realtime.NewConn; cbv zeta; cbn [snd Realtime.conns Realtime.subs].
    + intros c k Hc. exists k. simpl. rewrite lookup_insert_ne; [done|]. intros <-. by apply Hf in Hc.
    + intros c k'. destruct (decide (c = fresh (dom (Realtime.conns (Realtime.broker s))))) as [->|Hne].
      * rewrite lookup_insert_eq. intros [= <-]. by left.
      * rewrite lookup_insert_ne by done. intros Hc. right. exists k'. by split_and!.
  - apply hub_ok_fewer; [done| |]; intros c' k'; rewrite readPump_conns; [eauto|]. right. exists k'. by split_and!.
  - apply hub_ok_fewer; [done| |]; unfold steady, Realtime.Close; cbn [Realtime.conns].
    + intros c' k Hc. destruct (decide (c' = c)) as [->|Hne].
      * rewrite lookup_alter_eq, Hc. by eexists.
      * rewrite lookup_alter_ne by done. eauto.
    + intros c' k'. destruct (decide (c' = c)) as [->|Hne].
      * rewrite lookup_alter_eq. destruct (Realtime.conns _ !! c) as [k|] eqn:E; [|done]. intros [= <-]. right. exists k. by split_and!.
      * rewrite lookup_alter_ne by done. right. exists k'. by split_and!.
  - destruct Hok as [H1 H2]. split; cbn [Realtime.broker Realtime.in_flight]; [exact H1|].
    intros i ev' cs c Hi Hc. apply lookup_app_Some in Hi as [Hi|[_ Hi]]; [by eapply H2|].
    apply list_lookup_singleton_Some in Hi as [_ [= <- <-]].
    apply RealtimeFacts.collect_spec in Hc as [_ Hc]. unfold Realtime.may_see in Hc.
    destruct (Realtime.conns _ !! c) as [k|]; [|done]. exists k. split; [done|].
    unfold Realtime.authorized in Hc. apply orb_true_iff in Hc as [Hc%bool_decide_eq_true|Hc%bool_decide_eq_true]; eauto.
  - destruct Hok as [H1 H2]. destruct (send_steady _ _ _ _ Hs) as [Hst Hin].
    split; cbn [Realtime.broker Realtime.in_flight].
    + intros c' k' e Hc He. destruct (Hin c' k' Hc) as (k & Hk & Hsub & Hev). rewrite Hsub.
      destruct (Hev e He) as [He'|[-> ->]]; [by eapply H1|].
      destruct (H2 i ev (c :: cs) c Hi) as (k2 & Hk2 & HP); [left|]. by simplify_eq.
    + intros j e cs' c' Hj Hc. assert (exists cs2, Realtime.in_flight s !! j = Some (e, cs2) /\ c' ∈ cs2) as (cs2 & Hj2 & Hc2).
      { destruct (decide (j = i)) as [->|Hne].
        - rewrite list_lookup_insert_eq in Hj by (by eapply lookup_lt_Some). injection Hj as <- <-.
          exists (c :: cs). split; [done|by right].
        - rewrite list_lookup_insert_ne in Hj by done. eauto. }
      destruct (H2 j e cs2 c' Hj2 Hc2) as (k & Hk & HP). destruct (Hst c' k Hk) as (k' & Hk' & Hsub).
      exists k'. by rewrite Hsub.
  - unfold Realtime.receive in Hr. destruct (Realtime.conns (Realtime.broker s) !! c) as [k|] eqn:E; [|done]. simpl in Hr.
    destruct (Realtime.events k) as [|e rest] eqn:Ee; [done|]. injection Hr as <- <-.
    apply hub_ok_fewer; [done| |]; unfold steady; cbn [Realtime.conns]; intros c' k'; destruct (decide (c' = c)) as [->|Hne];
      rewrite ?lookup_insert_eq, ?lookup_insert_ne by done; eauto.
    + intros Hc. eexists. split; [done|]. simpl. congruence.
    + intros [= <-]. right. exists k. split_and!; [done|done|]. cbn. rewrite Ee. set_solver.
Qed.

End hub.

(** ** In every interleaving *)

Section live.
Context {bcrypt : Bcrypt} {resend : Resend} {sql : Sqlite} {upstream : Social.Upstream}
  {provider : OAuth.Provider} {introspection : OAuth.Introspection} {studio : AdminUi.Studio}
  {host_syntax : Url.HostSyntax} {hasher : Register.SecretsHasher} {token_endpoint : Register.TokenEndpoint}.
Variable cfg : Config.
Variable l0 : Live.Live.
Abbreviation run := (Live.run cfg l0).

(** A call of Broker.Publish some request made on the way. *)
Definition published_on (acts : list Live.action) (e : Event * string) : Prop :=
  exists acts1 l1, acts1 `prefix_of` acts /\ run acts1 l1 /\ fair (reg (rest (w_db (Live.site l1)))) e.

Lemma published_later acts a e : published_on acts e -> published_on (acts ++ [a]) e.
Proof. intros (acts1 & l1 & H1 & H2). exists acts1, l1. split; [by apply prefix_app_r|done]. Qed.

Definition may_reach (acts : list Live.action) (ev : Realtime.Event Row) (subject : string) : Prop :=
  exists e owner, published_on acts (e, owner) /\ ev = Live.event_of e /\ (owner = EmptyString \/ subject = owner).

Lemma hub_ok_mono {R} (P Q : Realtime.Event R -> string -> Prop) s : (forall ev subj, P ev subj -> Q ev subj) -> hub_ok P s -> hub_ok Q s.
Proof. intros HPQ [H1 H2]. split; [eauto|]. intros i ev cs c Hi Hc. destruct (H2 i ev cs c Hi Hc) as (k & Hk & HP). eauto. Qed.

Definition live_ok (acts : list Live.action) (l : Live.Live) : Prop :=
  (forall e, e ∈ Live.publishing l -> published_on acts e) /\ hub_ok (may_reach acts) (Live.hub l).

Lemma may_reach_later acts a ev subj : may_reach acts ev subj -> may_reach (acts ++ [a]) ev subj.
Proof. intros (e & o & H1 & H2). exists e, o. split; [by apply published_later|done]. Qed.

Lemma live_step acts l a l' : run acts l -> Live.step cfg l a l' -> live_ok acts l -> live_ok (acts ++ [a]) l'.
Proof.
  intros Hrun Hst [Hp Hh].
  assert (forall e, e ∈ Live.publishing l -> published_on (acts ++ [a]) e) as Hp' by (intros e He; by apply published_later, Hp).
  assert (hub_ok (may_reach (acts ++ [a])) (Live.hub l)) as Hh' by (eapply hub_ok_mono; [apply may_reach_later|exact Hh]).
  clear Hp Hh. destruct Hst as [l r route w' x Hd|l i ev owner hub' Hi Hst|l r subject w' hub' _ Hst|l r x w' _|l a hub' Ha Hst].
  - split; cbn [Live.publishing Live.hub]; [|done]. intros e [He|He]%elem_of_app; [by apply Hp'|].
    destruct (dispatch_fair cfg r route (Live.site l)) as (evs & Ho & Hf). rewrite Hd in Ho. cbn [snd] in Ho.
    unfold Live.outbox_of in He. rewrite Ho, drop_app_length in He. rewrite Forall_forall in Hf.
    exists acts, l. split; [by apply prefix_app_r|]. split; [done|]. by apply Hf.
  - split; cbn [Live.publishing Live.hub].
    + intros e He. apply Hp'. by eapply list_elem_of_delete_inv.
    + eapply hub_step; [exact Hst|done|]. intros e o [= <- <-] subj Hs. exists ev, owner. split; [|done].
      apply Hp'. by eapply list_elem_of_lookup_2.
  - split; cbn [Live.publishing Live.hub]; [done|]. eapply hub_step; [exact Hst|done|]. by intros e o.
  - by split.
  - split; cbn [Live.publishing Live.hub]; [done|]. eapply hub_step; [exact Hst|done|]. by intros e o ->.
Qed.

Lemma live_invariant acts l : live_ok [] l0 -> run acts l -> live_ok acts l.
Proof. intros H0. induction 1 as [|acts l a l' Hr IH Hst]; [done|]. by eapply live_step. Qed.

End live.

Section theorems.
Context {bcrypt : Bcrypt} {resend : Resend} {sql : Sqlite} {upstream : Social.Upstream}
  {provider : OAuth.Provider} {introspection : OAuth.Introspection} {studio : AdminUi.Studio}
  {host_syntax : Url.HostSyntax} {hasher : Register.SecretsHasher} {token_endpoint : Register.TokenEndpoint}.

Lemma starting_ok cfg (w : World App) : live_ok cfg (Live.starting w) [] (Live.starting w).
Proof.
  split; cbn.
  - intros e He. by apply elem_of_nil in He.
  - split; cbn.
    + intros c k ev Hc. by rewrite lookup_empty in Hc.
    + by intros i ev cs c Hi.
Qed.

Lemma ownerGateValue_owner col rec o :
  ReadRule col = RuleOwner -> OwnerColumn col <> EmptyString -> rec !! OwnerColumn col = Some (VText o) ->
  ownerGateValue col rec = o.
Proof.
  intros Hr Ho Hrec. unfold ownerGateValue. rewrite (bool_decide_eq_true_2 (_ = RuleOwner)) by done.
  rewrite (bool_decide_eq_false_2 (_ = EmptyString)) by done. simpl. by rewrite Hrec.
Qed.

(** C4: from the request to the socket: in every interleaving of requests on every route,
    connections, subscriptions, sends and faults, a record that arrives on a connection
    was published by a collection registered at that time that may be read; and where
    reads belong to owners, the connection is the one of the record's owner. *)
Theorem records_reach_their_owner cfg w acts l c k ev rec :
  Live.run cfg (Live.starting w) acts l ->
  Realtime.conns (Realtime.broker (Live.hub l)) !! c = Some k -> ev ∈ Realtime.events k ->
  Realtime.Record_ ev = Some rec ->
  exists acts1 l1 n col,
    acts1 `prefix_of` acts /\ Live.run cfg (Live.starting w) acts1 l1 /\
    reg (rest (w_db (Live.site l1))) !! n = Some col /\ Realtime.Collection ev = CName col /\ ReadRule col <> RuleDenied /\
    forall o, ReadRule col = RuleOwner -> OwnerColumn col <> EmptyString ->
      rec !! OwnerColumn col = Some (VText o) -> o <> EmptyString -> Realtime.Subject k = o.
Proof.
  intros Hrun Hc Hev Hrec. destruct (live_invariant _ _ _ _ (starting_ok cfg w) Hrun) as [_ [Harr _]].
  destruct (Harr _ _ _ Hc Hev) as (e & owner & (acts1 & l1 & Hp & Hr1 & n & col & Hn & Hd & He) & -> & Ho).
  exists acts1, l1, n, col. cbn [fst snd] in *. destruct e as [cn rec'|cn rec'|cn id]; cbn in Hrec; [..|done];
    injection Hrec as ->; destruct He as [-> ->]; split_and!; try done; intros o Hrule Hcol Hown Hne.
  all: rewrite (ownerGateValue_owner col rec o) in Ho by done; destruct Ho as [Ho|Ho]; done.
Qed.

Lemma step_subjects {R} (s : Realtime.System R) a s' c k' :
  Realtime.step s a s' -> Realtime.conns (Realtime.broker s') !! c = Some k' ->
  a = Realtime.AConnect (Realtime.Subject k') \/
  exists k, Realtime.conns (Realtime.broker s) !! c = Some k /\ Realtime.Subject k = Realtime.Subject k'.
Proof.
  destruct 1 as [s subject|s c0 msg Ho|s c0 Ho|s ev o|s i ev c0 cs b' Hi Hs|s c0 ev b' Hr]; cbn [Realtime.broker].
  - unfold Realtime.NewConn. cbv zeta. cbn [snd Realtime.conns].
    destruct (decide (c = fresh (dom (Realtime.conns (Realtime.broker s))))) as [->|Hne].
    + rewrite lookup_insert_eq. intros [= <-]. by left.
    + rewrite lookup_insert_ne by done. eauto.
  - rewrite readPump_conns. eauto.
  - unfold Realtime.Close. cbn [Realtime.conns]. destruct (decide (c = c0)) as [->|Hne].
    + rewrite lookup_alter_eq. destruct (Realtime.conns _ !! c0) as [k|]; [|done]. intros [= <-]. right. by exists k.
    + rewrite lookup_alter_ne by done. eauto.
  - eauto.
  - intros Hc. destruct (send_steady _ _ _ _ Hs) as [_ Hin]. destruct (Hin c k' Hc) as (k & Hk & Hsub & _). right. by exists k.
  - unfold Realtime.receive in Hr. destruct (Realtime.conns (Realtime.broker s) !! c0) as [k|] eqn:E; [|done]. simpl in Hr.
    destruct (Realtime.events k); [done|]. injection Hr as <- <-. cbn [Realtime.conns]. destruct (decide (c = c0)) as [->|Hne].
    + rewrite lookup_insert_eq. intros [= <-]. right. by exists k.
    + rewrite lookup_insert_ne by done. eauto.
Qed.

(** C34: Nobody listens without a token: every connection passed a handshake that found a
    bearer token of its subject good for reading records. *)
Theorem connections_authenticated cfg w acts l c k :
  Live.run cfg (Live.starting w) acts l ->
  Realtime.conns (Realtime.broker (Live.hub l)) !! c = Some k ->
  exists acts1 l1 r w1 w2, acts1 `prefix_of` acts /\ Live.run cfg (Live.starting w) acts1 l1 /\
    w_db w1 = database (w_db (Live.site l1)) /\ OAuth.AccessTokenFromRequest (Authorization r) <> EmptyString /\
    OAuth.Authenticate (OAuth.AccessTokenFromRequest (Authorization r)) "records:read" w1 = (Ok (Realtime.Subject k), w2).
Proof.
  intros Hrun. revert c k. induction Hrun as [|acts l a l' Hr IH Hst]; intros c k Hc.
  { cbn in Hc. by rewrite lookup_empty in Hc. }
  assert (forall k0, Realtime.conns (Realtime.broker (Live.hub l)) !! c = Some k0 -> Realtime.Subject k0 = Realtime.Subject k ->
    exists acts1 l1 r w1 w2, acts1 `prefix_of` acts ++ [a] /\ Live.run cfg (Live.starting w) acts1 l1 /\
      w_db w1 = database (w_db (Live.site l1)) /\ OAuth.AccessTokenFromRequest (Authorization r) <> EmptyString /\
      OAuth.Authenticate (OAuth.AccessTokenFromRequest (Authorization r)) "records:read" w1 = (Ok (Realtime.Subject k), w2)) as Hold.
  { intros k0 Hk0 <-. destruct (IH c k0 Hk0) as (acts1 & l1 & r & w1 & w2 & H1 & H2). exists acts1, l1, r, w1, w2.
    split; [by apply prefix_app_r|exact H2]. }
  destruct Hst as [l r route w' x Hd|l i ev owner hub' Hi Hst|l r subject w' hub' Hh Hst|l r x w' _|l a hub' Ha Hst];
    cbn [Live.hub] in Hc; try (by eapply Hold).
  - destruct (step_subjects _ _ _ _ _ Hst Hc) as [H|(k0 & H1 & H2)]; [done|by eapply Hold].
  - destruct (step_subjects _ _ _ _ _ Hst Hc) as [[= ->]|(k0 & H1 & H2)]; [|by eapply Hold].
    unfold Live.handshake in Hh. case_bool_decide as Ht; [done|]. unfold try_or in Hh.
    destruct (in_db _ (Live.site l)) as [[subj|e] w1] eqn:E; [|done]. injection Hh as -> <-.
    apply zoom_run in E as (w2 & E & ->). exists acts, l, r. eexists. exists w2.
    split_and!; [by apply prefix_app_r|done| |exact Ht|exact E]. done.
  - destruct (step_subjects _ _ _ _ _ Hst Hc) as [->|(k0 & H1 & H2)]; [done|by eapply Hold].
Qed.

End theorems.

(** ** Witnesses *)

#[local] Existing Instance AuthFacts.toy_bcrypt.
#[local] Existing Instance OAuthFacts.toy_provider.
#[local] Existing Instance RestApiFacts.toy.
#[local] Existing Instance AdminUiFacts.toy_studio.
#[local] Existing Instance RegisterFacts.toy_hosts.
#[local] Existing Instance RegisterFacts.toy_hasher.
#[local] Existing Instance RegisterFacts.toy_tokens.
#[local] Existing Instance HttpServerFacts.toy_resend.
#[local] Existing Instance HttpServerFacts.toy_introspection.
#[local] Existing Instance HttpServerFacts.toy_upstream.

Definition bearer (token : string) : App.Request :=
  App.mkRequest token [] "203.0.113.9:4711" EmptyString EmptyString EmptyString EmptyString EmptyString EmptyString.
Definition creation : Route := DataCreate (RestApiFacts.request EmptyString EmptyString RestApiFacts.post_body).
Definition subscription : Realtime.Message := Realtime.mkMessage "subscribe" "notes".
Definition serving : World App := sample_world 5 AdminUiFacts.sample_app.

(** Bob and Ann connect and subscribe, then Ann creates a note. *)
Definition connected (l : Live.Live) (who : string) : Live.Live :=
  Live.mkLive (Live.handshake (bearer who) (Live.site l)).2 (Live.publishing l)
    (Realtime.mkSystem (Realtime.NewConn who (Realtime.broker (Live.hub l))).2 (Realtime.in_flight (Live.hub l))).
Definition spoken (l : Live.Live) (c : nat) : Live.Live :=
  Live.mkLive (Live.site l) (Live.publishing l)
    (Realtime.mkSystem (Realtime.readPump_step c subscription (Realtime.broker (Live.hub l))) (Realtime.in_flight (Live.hub l))).
Definition ready_to_publish : Live.Live :=
  let l := spoken (spoken (connected (connected (Live.starting serving) "bob") "ann") 0) 1 in
  let w' := (dispatch HttpServerFacts.cfg (bearer "ann") creation (Live.site l)).2 in
  Live.mkLive w' (drop (length (Live.outbox_of (Live.site l))) (Live.outbox_of w')) (Live.hub l).
Definition note_event : Realtime.Event Row :=
  match Live.publishing ready_to_publish with
  | (e, _) :: _ => Live.event_of e
  | [] => Realtime.mkEvent EmptyString EmptyString None EmptyString
  end.

Example what_is_published :
  exists rec, Live.publishing ready_to_publish = [(EvCreated "notes" rec, "ann")] /\ rec !! "owner_id" = Some (VText "ann") /\
    Realtime.collect note_event "ann" (Realtime.broker (Live.hub ready_to_publish)) = [1].
Proof. eexists. vm_compute. done. Qed.

Definition collected : Live.Live :=
  Live.mkLive (Live.site ready_to_publish) []
    (Realtime.mkSystem (Realtime.broker (Live.hub ready_to_publish)) [(note_event, [1])]).
Definition arrived : Live.Live :=
  Live.mkLive (Live.site collected) (Live.publishing collected)
    (Realtime.mkSystem (default Realtime.NewBroker (Realtime.send note_event 1 (Realtime.broker (Live.hub ready_to_publish))))
                       [(note_event, [])]).

Definition whole_way : list Live.action :=
  [Live.Connect (bearer "bob"); Live.Connect (bearer "ann"); Live.Client (Realtime.AMessage 0 subscription);
   Live.Client (Realtime.AMessage 1 subscription); Live.Serve (bearer "ann") creation; Live.Collect 0; Live.Client (Realtime.ASend 0)].

Lemma connected_step l who :
  (Live.handshake (bearer who) (Live.site l)).1 = Ok (Some who) ->
  Live.step HttpServerFacts.cfg l (Live.Connect (bearer who)) (connected l who).
Proof.
  intros H. eapply Live.step_connect; [|apply Realtime.step_connect].
  rewrite (surjective_pairing (Live.handshake _ _)). by rewrite H.
Qed.

Lemma spoken_step l c :
  Realtime.is_open c (Realtime.broker (Live.hub l)) ->
  Live.step HttpServerFacts.cfg l (Live.Client (Realtime.AMessage c subscription)) (spoken l c).
Proof. intros H. apply Live.step_client; [done|by apply Realtime.step_message]. Qed.

Lemma whole_way_run : Live.run HttpServerFacts.cfg (Live.starting serving) whole_way arrived.
Proof.
  assert (forall l0 l1 l2 a acts, Live.run HttpServerFacts.cfg l0 acts l1 -> Live.step HttpServerFacts.cfg l1 a l2 ->
    Live.run HttpServerFacts.cfg l0 (acts ++ [a]) l2) as Hsnoc by (intros; by eapply Live.run_snoc).
  eapply (Hsnoc _ collected _ _ [_; _; _; _; _; _]); [eapply (Hsnoc _ ready_to_publish _ _ [_; _; _; _; _]);
    [eapply (Hsnoc _ _ _ _ [_; _; _; _]); [eapply (Hsnoc _ _ _ _ [_; _; _]); [eapply (Hsnoc _ _ _ _ [_; _]);
    [eapply (Hsnoc _ _ _ _ [_]); [eapply (Hsnoc _ _ _ _ []); [apply Live.run_nil|]|]|]|]|]|]|].
  - apply connected_step. vm_compute. reflexivity.
  - apply connected_step. vm_compute. reflexivity.
  - apply spoken_step. eexists. vm_compute. done.
  - apply spoken_step. eexists. vm_compute. done.
  - unfold ready_to_publish. cbv zeta. eapply Live.step_serve. apply surjective_pairing.
  - destruct what_is_published as (rec & Hp & _ & Hc). unfold collected. rewrite <- Hc.
    assert (Live.publishing ready_to_publish !! 0 = Some (EvCreated "notes" rec, "ann")) as H0 by (by rewrite Hp).
    assert (note_event = Live.event_of (EvCreated "notes" rec)) as He by (unfold note_event; by rewrite Hp).
    pose proof (Live.step_collect HttpServerFacts.cfg _ 0 _ _ _ H0 (Realtime.step_collect (Live.hub ready_to_publish) _ _)) as Hs.
    rewrite Hp in Hs. rewrite He. exact Hs.
  - apply Live.step_client; [done|].
    assert (Realtime.send note_event 1 (Realtime.broker (Live.hub collected)) =
            Some (default Realtime.NewBroker (Realtime.send note_event 1 (Realtime.broker (Live.hub ready_to_publish))))) as Hs
      by (vm_compute; reflexivity).
    exact (Realtime.step_send (Live.hub collected) 0 note_event 1 [] _ eq_refl Hs).
Qed.

Lemma arrived_exactly :
  exists k rec, Realtime.conns (Realtime.broker (Live.hub arrived)) !! 1 = Some k /\
    Realtime.events k = [note_event] /\ Realtime.Record_ note_event = Some rec /\
    from_option Realtime.events [] (Realtime.conns (Realtime.broker (Live.hub arrived)) !! 0) = [].
Proof.
  assert (Realtime.events <$> (Realtime.conns (Realtime.broker (Live.hub arrived)) !! 1) = Some [note_event]) as H1
    by (vm_compute; reflexivity).
  apply fmap_Some in H1 as (k & Hk & Hev).
  assert (is_Some (Realtime.Record_ note_event)) as [rec Hrec] by (vm_compute; by eexists).
  exists k, rec. split; [exact Hk|]. split; [by symmetry|]. split; [exact Hrec|]. vm_compute. reflexivity.
Qed.

Lemma records_reach_their_owner_witness :
  exists k rec acts1 l1 n col, Realtime.conns (Realtime.broker (Live.hub arrived)) !! 1 = Some k /\
    Realtime.Record_ note_event = Some rec /\ Live.run HttpServerFacts.cfg (Live.starting serving) acts1 l1 /\
    reg (rest (w_db (Live.site l1))) !! n = Some col /\ Realtime.Collection note_event = CName col.
Proof.
  destruct arrived_exactly as (k & rec & Hk & Hev & Hrec & _).
  destruct (records_reach_their_owner HttpServerFacts.cfg serving whole_way arrived 1 k note_event rec whole_way_run Hk)
    as (acts1 & l1 & n & col & _ & Hr & Hn & Hc & _).
  - rewrite Hev. left.
  - exact Hrec.
  - exists k, rec, acts1, l1, n, col. repeat split; [exact Hk|exact Hrec|exact Hr|exact Hn|exact Hc].
Defined.

Lemma connections_authenticated_witness :
  exists k r w1 w2, Realtime.conns (Realtime.broker (Live.hub arrived)) !! 1 = Some k /\
    OAuth.Authenticate (OAuth.AccessTokenFromRequest (Authorization r)) "records:read" w1 = (Ok (Realtime.Subject k), w2).
Proof.
  destruct arrived_exactly as (k & rec & Hk & _).
  destruct (connections_authenticated HttpServerFacts.cfg serving whole_way arrived 1 k whole_way_run Hk)
    as (acts1 & l1 & r & w1 & w2 & _ & _ & _ & _ & Ha).
  exists k, r, w1, w2. split; [exact Hk|exact Ha].
Defined.

End LiveFacts.
