(* ===== verification/Boot.v ===== *)
(** * Starting: the main program

    Models src/cmd/maubase/main.go: the dispatch of the command line, what "serve"
    does before it listens, and the janitor that runs next to the server.  The
    migrations work on the database file of the host, the packages on the tables
    they own in it: a machine holds both.  Signals, the shutdown of the HTTP server
    and the timestamps of the log are left out. *)

From S2P Require Import Prelude GoStrings Migrations GoFiles Schema Config Cli Scaffold.
From S2P Require Import Auth OwnerAuth OAuth RateLimit Storage Http Social Registry RestApi App AdminUi HttpServer.

Module Boot.

Record Machine (U : Type) : Type := mkMachine { host : Cli.Host U; app : App.App }.
Arguments mkMachine {U} _ _.
Arguments host {U} _.
Arguments app {U} _.

(** How the process ends, or that it is serving. *)
Inductive Outcome : Type :=
| Exited (code : Z)
| Serving (cfg : HttpServer.Config)
| Panicked (msg : string).

(** In the usage text a tilde stands for a double quote. *)
Definition unquote (s : string) : string := ReplaceByte "~" (one dquote) s.

Definition usage : list string :=
  ["maubase: a self-hostable backend";
   EmptyString;
   "Usage:";
   "  maubase serve                     Start the server";
   "  maubase init [dir]                Scaffold a brand new deployment (migrations/, .env.example, agent-context docs, .gitignore)";
   "  maubase init --js-client [dir]    Also vendor the TypeScript client (sdk/js/dist) into maubase-client/";
   "  maubase init --update-agent-docs [dir]";
   "                                     Refresh the scaffolded skill/AGENTS.md in place after a maubase upgrade";
   "  maubase migrate new <name>        Scaffold the next-numbered application migration file";
   "  maubase migrate up                Apply pending application migrations";
   "  maubase migrate down [n]          Revert the last n applied migrations (default 1)";
   "  maubase migrate redo [n]          Revert then reapply the last n applied migrations (default 1)";
   "  maubase migrate to <ver>          Move to exactly <ver> (a filename or numeric prefix), forward or back";
   "  maubase migrate status            List application migrations and whether each is applied";
   "  maubase migrate diff              Report tables the database has that no applied migration explains (or vice versa)";
   "  maubase help                      Show this message";
   "  maubase version                   Show the maubase version";
   EmptyString;
   "Every path below (and MAUBASE_DB_PATH/MAUBASE_MIGRATIONS_DIR generally)";
   unquote "resolves relative to the current directory — run ~maubase serve~ from";
   "inside a specific project to serve that project, not whichever one a";
   "globally-installed binary last happened to run from.";
   EmptyString;
   unquote "A migration file's SQL goes under a ~-- +migrate Up~ marker; an optional";
   unquote "~-- +migrate Down~ section (see ~maubase migrate new~'s template) is what";
   unquote "~migrate down~/~redo~/~to~ run to revert it — a migration with no Down";
   "section can't be reverted.";
   EmptyString;
   unquote "~migrate diff~ catches schema drift from the admin UI's create-table";
   "form or SQL Studio, which change the live schema without ever touching";
   "migrations/ — it only reports (exits non-zero if it finds anything), it";
   "never modifies the database or writes a migration for you.";
   EmptyString;
   unquote "Flags for ~migrate~ subcommands:";
   "  -dir string   application migrations directory (default: $MAUBASE_MIGRATIONS_DIR, or migrations)";
   unquote "  -db string    path to the SQLite database file, ~up~/~down~/~redo~/~to~/~status~/~diff~ only (default: $MAUBASE_DB_PATH, or data/maubase.db)"].

Section boot.
Context {U : Type} `{!SqlEngine U} {bcrypt : Bcrypt} {sql : Sqlite}.
Local Abbreviation MB := (M (Machine U)).

Definition on_host {A} (m : M (Cli.Host U) A) : MB A := zoom host (fun h b => mkMachine h (app b)) m.
Definition on_app {A} (m : M App.App A) : MB A := zoom app (fun a b => mkMachine (host b) a) m.
Definition in_db {A} (m : M Database A) : MB A := on_app (App.in_db m).

(** [log.Printf]. *)
Definition log (line : string) : MB unit := on_host (Cli.warn line).

(** A command that works on files and prints. *)
Definition on_desk {A} (m : M Scaffold.Desk A) : MB A :=
  on_host (zoom (fun h => Scaffold.mkDesk (Cli.fs h) (Cli.stdout h))
                (fun d h => Cli.mkHost (Scaffold.tree d) (Cli.dbs h) (Cli.embedded h) (Scaffold.lines d) (Cli.stderr h)) m).

(** ** Before listening *)

(** [db.Migrate]: the files embedded in the binary. *)
Definition Migrate (db : string) : MB (option error) :=
  on_host (zoom (fun h => Migrate.mkSite (Some (Cli.embedded h)) (Cli.db_at h (Files.Clean db)))
                (Cli.put_site db) Migrate.Migrate_).

Definition MigrateDir (dir db : string) : MB (option error) := on_host (Cli.on_site dir db (Migrate.MigrateDir dir)).

(** A function that returns an error and nothing else. *)
Definition must (m : MB (option error)) : MB unit :=
  r ← m; match r with Some e => fail e | None => mret tt end.

(** [oauth.NewServer], as far as it works on the database. *)
Definition NewServer : M Database unit :=
  wrapping "ensure hmac secret" OAuth.EnsureHMACSecret ;;
  wrapping "ensure signing key" OAuth.EnsureKey ;;
  mret tt.

(** The owner it created, if it did. *)
Definition bootstrapOwner (cfg : Config.Config) : MB unit :=
  if bool_decide (Config.BootstrapOwnerEmail cfg = EmptyString) || bool_decide (Config.BootstrapOwnerPassword cfg = EmptyString)
  then mret tt
  else
    r ← attempt (on_app (App.ownerAuth (OwnerAuth.Bootstrap (Config.BootstrapOwnerEmail cfg) (Config.BootstrapOwnerPassword cfg))));
    match r with
    | Err err => if errors_Is err OwnerAuth.ErrAlreadyBootstrapped then mret tt else fail err
    | Ok owner => log ("bootstrapped first owner: " +:+ OwnerAuth.OEmail owner)
    end.

Definition NewLocalBackend (dir : string) : MB unit :=
  wrapping "create storage dir" (on_host (Cli.MkdirAll dir)).

Definition discover : MB Registry.registry :=
  on_app (App.restapi (zoom RestApi.app RestApi.set_app Registry.Discover)).

(** [redis.ParseURL], a third-party package: its error, if it has one. *)
Variable redis_ParseURL : string -> option error.

Definition NewRedisRelay (url : string) : MB unit :=
  match redis_ParseURL url with
  | Some e => fail (Wrap "parse redis url" e)
  | None => _ ← new_uuid; mret tt
  end.

(** The sender mail goes through. *)
Definition emailSender (cfg : Config.Config) : Http.Sender :=
  if negb (bool_decide (Config.ResendAPIKey cfg = EmptyString)) && negb (bool_decide (Config.EmailFrom cfg = EmptyString))
  then Http.ResendSender (Config.ResendAPIKey cfg) (Config.EmailFrom cfg)
  else Http.NoopSender.

Definition socialProviders (cfg : Config.Config) : gmap string Social.Provider :=
  let offered id secret := negb (bool_decide (id = EmptyString)) && negb (bool_decide (secret = EmptyString)) in
  let google := if offered (Config.GoogleClientID cfg) (Config.GoogleClientSecret cfg)
                then <["google" := Social.mkProvider "google" Social.Google]> ∅ else ∅ in
  if offered (Config.GitHubClientID cfg) (Config.GitHubClientSecret cfg)
  then <["github" := Social.mkProvider "github" Social.GitHub]> google else google.

Definition server_config (cfg : Config.Config) : HttpServer.Config :=
  HttpServer.mkConfig (emailSender cfg) (Config.PasswordResetURL cfg) (Config.Issuer cfg) (Config.MaxUploadBytes cfg)
    (socialProviders cfg) (Config.SocialLoginRedirectURL cfg).

(** The services as they are built: the registry found, empty limiters. *)
Definition services (cfg : Config.Config) (reg : Registry.registry) (a : App.App) : App.App :=
  let limiter := RateLimit.New (Config.LoginRateLimit cfg) (Config.LoginRateWindow cfg) in
  App.mkApp (App.database a) (App.disk a)
    (RestApi.mkServer (RestApi.app (App.rest a)) reg true [] (Config.MaxRequestBodyBytes cfg) (Config.IsDevelopment cfg))
    limiter limiter limiter limiter (App.delivered a).

Definition build (cfg : Config.Config) (reg : Registry.registry) : MB unit := fun w =>
  (Ok tt, mkWorld (w_env w) (mkMachine (host (w_db w)) (services cfg reg (app (w_db w))))).

Variable Getenv : string -> string.

(** [time.NewTicker] panics on an interval that is not positive, in the janitor's
    goroutine, which ends the process; here that comes before the first request. *)
Definition run : MB Outcome :=
  let cfg := Config.Load Getenv in
  on_host (Cli.Open (Config.DBPath cfg)) ;;
  must (Migrate (Config.DBPath cfg)) ;;
  wrapping "apply application migrations" (must (MigrateDir (Config.MigrationsDir cfg) (Config.DBPath cfg))) ;;
  wrapping "init oauth server" (in_db NewServer) ;;
  wrapping "bootstrap owner" (bootstrapOwner cfg) ;;
  (if bool_decide (Config.RedisURL cfg = EmptyString) then mret tt
   else wrapping "init redis relay" (NewRedisRelay (Config.RedisURL cfg))) ;;
  reg ← wrapping "discover rest collections" discover;
  wrapping "init storage backend" (NewLocalBackend (Config.StorageDir cfg)) ;;
  build cfg reg ;;
  if (Config.SessionCleanupInterval cfg <=? 0)%Z then mret (Panicked "non-positive interval for NewTicker")
  else
    log ("listening on " +:+ Config.Addr cfg +:+ " (db: " +:+ Config.DBPath cfg +:+ ")") ;;
    query (fun _ => tt) ;;
    mret (Serving (server_config cfg)).

(** ** The janitor *)

Definition purge (what : string) (rows : string) (m : MB Z) : MB unit :=
  r ← attempt m;
  match r with
  | Err err => log ("session janitor: purge " +:+ what +:+ ": " +:+ error_text err)
  | Ok n => if (0 <? n)%Z then log ("session janitor: purged " +:+ Itoa n +:+ " " +:+ rows) else mret tt
  end.

(** What one tick does. *)
Definition runSessionJanitor : MB unit :=
  purge "sessions" "expired session(s)" (on_app (App.auth Auth.PurgeExpiredSessions)) ;;
  purge "owner sessions" "expired owner session(s)" (on_app (App.ownerAuth OwnerAuth.PurgeExpiredSessions)) ;;
  purge "reset tokens" "expired/used reset token(s)" (on_app (App.auth Auth.PurgeExpiredResetTokens)).

(** ** The command *)

Definition printUsage : MB unit := on_host (for_each Cli.warn usage).

(** [log.Fatal] when there is an error. *)
Definition fatal {A} (m : MB A) (k : A -> MB Outcome) : MB Outcome :=
  r ← attempt m;
  match r with
  | Err e => log (error_text e) ;; mret (Exited 1)
  | Ok a => k a
  end.

Variable build_info : option Scaffold.BuildInfo.
Variable dist : list (Files.Path * Files.Node).

(** [args] are [os.Args] behind the name of the program. *)
Definition main (args : list string) : MB Outcome :=
  match args with
  | [] => printUsage ;; mret (Exited 0)
  | cmd :: rest =>
      if bool_decide (cmd = "serve") then fatal run mret
      else if bool_decide (cmd = "init") then
        fatal (on_desk (Scaffold.runInit build_info dist rest)) (fun _ => mret (Exited 0))
      else if bool_decide (cmd = "migrate") then
        fatal (on_host (Cli.runMigrate Getenv rest)) (fun _ => mret (Exited 0))
      else if bool_decide (cmd ∈ ["help"; "-h"; "--help"]) then printUsage ;; mret (Exited 0)
      else if bool_decide (cmd ∈ ["version"; "-v"; "--version"]) then
        on_host (Cli.say (Scaffold.versionString build_info)) ;; mret (Exited 0)
      else printUsage ;; log ("unknown command " +:+ Quote cmd) ;; mret (Exited 1)
  end.

End boot.

End Boot.
