(* ===== verification/BootFacts.v ===== *)
(** * Starting: theorems

    Nothing is served, and no data touched, before every migration is in; the first
    owner is made once; the janitor removes dead rows only, whatever fails. *)

From S2P Require Import Prelude GoStrings Migrations MigrationsFacts GoFiles Schema Config Cli CliFacts Scaffold.
From S2P Require Import Auth AuthFacts OwnerAuth OwnerAuthFacts OAuth OAuthFacts RateLimit Storage Http Social Registry RegistryFacts RestApi RestApiFacts App AdminUi HttpServer Boot.

Module BootFacts.

Import Migrate MigrateFacts Boot.

(** ** Configuration *)

(** A duration given in seconds is taken as it is up to the largest one an int of
    nanoseconds holds; beyond it the product wraps around. *)
Theorem getEnvSeconds_exact Getenv key fallback n :
  Getenv key <> EmptyString -> Atoi (Getenv key) = Some n ->
  Config.getEnvSeconds Getenv key fallback =
    if (n <? 0)%Z then fallback
    else if (n <=? max_int64 / second)%Z then (n * second)%Z
    else wrap_int64 (n * second).
Proof.
  intros Hne Ha. unfold Config.getEnvSeconds, Config.getEnvInt. rewrite bool_decide_eq_false_2, Ha by done.
  destruct (Z.ltb_spec n 0); [done|]. destruct (Z.leb_spec n (max_int64 / second)) as [Hn|]; [|done].
  unfold wrap_int64, min_int64. rewrite Z.mod_small; [lia|]. unfold max_int64, second in *. change (2 ^ 64)%Z with 18446744073709551616%Z. 
  change (9223372036854775807 / 1000000000)%Z with 9223372036%Z in Hn. lia.
Qed.

Definition interval_of (v : string) : Z :=
  Config.SessionCleanupInterval
    (Config.Load (fun k => if bool_decide (k = "MAUBASE_SESSION_CLEANUP_INTERVAL_SECONDS") then v else EmptyString)).

Example interval_zero_or_wrapped :
  interval_of "0" = 0%Z /\ (interval_of "9223372037" <? 0)%Z = true /\ interval_of "-5" = hour /\ interval_of "soon" = hour.
Proof. vm_compute. done. Qed.

Definition not_already (e : error) : Prop := errors_Is e OwnerAuth.ErrAlreadyBootstrapped = false.

(** ** The host's part *)

Section migrate.
Context {U : Type} `{!SqlEngine U}.

Definition all_recorded (p : string) (es : list DirEntry) (d : SQLDB U) : Prop :=
  forall n, n ∈ migration_names es -> p +:+ n ∈ recorded d.

(** What a complete pass of applying leaves recorded. *)
Lemma complete_pass p es (d0 d d' : SQLDB U) applied :
  rows_of d0 = rows_of d -> pending p d es = applied -> steps d0 (up_label p es <$> applied) d' ->
  all_recorded p es d' /\ (forall v, v ∈ recorded d -> v ∈ recorded d').
Proof.
  intros Hrows Hp Hst. apply step_ups_recorded in Hst. unfold all_recorded.
  assert (recorded d0 = recorded d) as E by (unfold recorded; by rewrite Hrows). rewrite E in Hst. rewrite Hst.
  split.
  - intros n Hn. apply elem_of_app. destruct (decide (p +:+ n ∈ recorded d)) as [|Hnew]; [by left|right].
    apply list_elem_of_fmap. exists n. split; [done|]. rewrite <- Hp. by apply list_elem_of_filter.
  - intros v Hv. apply elem_of_app. by left.
Qed.

Lemma Migrate_run es (w : World (Site U)) r w' :
  site_dir (w_db w) = Some es -> NoDup (omap file_name es) ->
  Migrate_ w = (r, w') ->
  (forall v, v ∈ recorded (site_db (w_db w)) -> v ∈ recorded (site_db (w_db w'))) /\
  (r = Ok None -> all_recorded EmptyString es (site_db (w_db w'))).
Proof.
  intros Hes Hnd H. unfold Migrate_, try_or in H. destruct (ensureMigrationsTable w) as [[[]|e] w1] eqn:E1.
  - apply ensure_ok in E1 as [Hd Hs]. rewrite Hes in Hd.
    destruct (applyMigrations_run EmptyString w1 es Hd Hnd) as (ap & rest & err & w2 & E2 & Hp & Hr & Hst & _).
    unfold mbind in H. unfold M_bind in H. rewrite E2 in H. injection H as <- <-. cbn [snd].
    pose proof (step_ups_recorded _ _ _ _ _ Hst) as Hrec.
    assert (forall v, v ∈ recorded (site_db (w_db w)) -> v ∈ recorded (site_db (w_db w2))) as Hmono.
    { intros v Hv. rewrite Hrec, Hs. apply elem_of_app. by left. }
    split; [done|]. intros [= ->]. rewrite (Hr eq_refl), app_nil_r in Hp.
    exact (proj1 (complete_pass EmptyString es _ (site_db (w_db w1)) _ ap eq_refl Hp Hst)).
  - injection H as <- <-. split; [|done]. intros v Hv.
    destruct (ensure_unchanged w) as (Hr & _). rewrite E1 in Hr. simpl in Hr. unfold recorded. by rewrite Hr.
Qed.

Lemma MigrateDir_run dir es (w : World (Site U)) r w' :
  site_dir (w_db w) = Some es -> NoDup (omap file_name es) ->
  Migrate.MigrateDir dir w = (r, w') ->
  (forall v, v ∈ recorded (site_db (w_db w)) -> v ∈ recorded (site_db (w_db w'))) /\
  (r = Ok None -> all_recorded app_prefix es (site_db (w_db w'))).
Proof.
  intros Hes Hnd H. unfold Migrate.MigrateDir in H.
  destruct (MigrateDirApplied_run dir w es Hes Hnd) as (ap & rest & err & w2 & d0 & E2 & Hp & Hr & Hrows & _ & Hst & _).
  unfold mbind in H. unfold M_bind in H. rewrite E2 in H. injection H as <- <-. cbn [snd].
  assert (forall v, v ∈ recorded (site_db (w_db w)) -> v ∈ recorded (site_db (w_db w2))) as Hmono.
  { intros v Hv. rewrite (step_ups_recorded _ _ _ _ _ Hst). apply elem_of_app. left. unfold recorded in *. by rewrite Hrows. }
  split; [done|]. intros [= ->]. rewrite (Hr eq_refl), app_nil_r in Hp.
  exact (proj1 (complete_pass app_prefix es d0 _ _ ap Hrows Hp Hst)).
Qed.

Lemma MigrateDir_absent dir (w : World (Site U)) r w' :
  site_dir (w_db w) = None -> Migrate.MigrateDir dir w = (r, w') -> site_db (w_db w') = site_db (w_db w).
Proof.
  intros Hn H. unfold Migrate.MigrateDir, MigrateDirApplied, try_or in H. unfold mbind in H. unfold M_bind in H.
  destruct (wrapping _ os_Stat w) as [[b|e] w1] eqn:E.
  - apply map_err_ok, query_ok in E as [Hb Hw]. subst b. rewrite Hn in H. simpl in H. injection H as _ <-. by rewrite Hw.
  - injection H as _ <-. unfold wrapping, map_err in E.
    destruct (os_Stat w) as [[?|?] w2] eqn:E1; [done|]. apply (exec_err _ w) in E1. injection E as _ <-.
    simpl. by rewrite E1.
Qed.

(** What was recorded stays recorded. *)
Definition remembers (d d' : SQLDB U) : Prop := forall v, v ∈ recorded d -> v ∈ recorded d'.

Lemma all_recorded_remembers p es d d' : remembers d d' -> all_recorded p es d -> all_recorded p es d'.
Proof. intros H He n Hn. by apply H, He. Qed.

End migrate.

(** ** Before listening *)

Section boot.
Context {U : Type} `{!SqlEngine U} {bcrypt : Bcrypt} {sql : Sqlite}.

(** The migrations that have to be in before anything else happens: those of the
    binary and those of the deployment's directory. *)
Definition migrated (cfg : Config.Config) (m0 m : Machine U) : Prop :=
  let d := Cli.db_at (host m) (Files.Clean (Config.DBPath cfg)) in
  all_recorded EmptyString (Cli.embedded (host m0)) d /\
  forall es, Cli.dir_at (Cli.fs (host m0)) (Config.MigrationsDir cfg) = Some es -> all_recorded app_prefix es d.

Lemma on_host_run {A} (m : M (Cli.Host U) A) (w : World (Machine U)) r w' :
  on_host m w = (r, w') ->
  exists v, m (mkWorld (w_env w) (host (w_db w))) = (r, mkWorld (w_env w') v) /\
    w_db w' = mkMachine v (app (w_db w)).
Proof. unfold on_host, zoom. destruct (m _) as [r1 [e v]] eqn:E. intros [= <- <-]. simpl. eauto. Qed.

(** The stages behind the migrations leave the database of the host alone. *)
Definition host_kept (m m' : Machine U) : Prop :=
  Cli.dbs (host m') = Cli.dbs (host m) /\ Cli.embedded (host m') = Cli.embedded (host m).

#[export] Instance host_kept_preorder : PreOrder host_kept.
Proof. split; [done|]. intros m1 m2 m3 [] []. split; congruence. Qed.

Lemma on_app_host {A} (m : M App.App A) : within host_kept (on_app m).
Proof. intros w. unfold on_app, zoom. by destruct (m _). Qed.

(** Directories stay directories and files stay files. *)
Definition grows (f f' : Files.FS) : Prop :=
  (forall q, f !! q = Some Files.Dir -> f' !! q = Some Files.Dir) /\
  (forall q c, f !! q = Some (Files.File c) -> exists c', f' !! q = Some (Files.File c')).

Lemma grows_refl f : grows f f.
Proof. split; eauto. Qed.

Lemma grows_dir_at f f' dir es :
  grows f f' -> Cli.dir_at f dir = Some es ->
  exists es', Cli.dir_at f' dir = Some es' /\ forall n, n ∈ migration_names es -> n ∈ migration_names es'.
Proof.
  intros [Hd Hf]. unfold Cli.dir_at. destruct (bool_decide (dir = EmptyString)); [done|].
  destruct (Files.is_dir f (Files.Clean dir)) eqn:Ed; [|done]. intros [= <-].
  assert (Files.is_dir f' (Files.Clean dir) = true) as ->.
  { unfold Files.is_dir in *. apply orb_true_iff in Ed as [->|Ed%bool_decide_eq_true]; [done|].
    apply orb_true_iff. right. by apply bool_decide_eq_true, Hd. }
  eexists. split; [done|]. intros n. unfold migration_names. rewrite !elem_of_sort_strings.
  rewrite !CliFacts.elem_of_files. intros [c Hc]. by apply Hf in Hc.
Qed.

Lemma MkdirAll_grows p w w' : Files.MkdirAll p w = (Ok tt, w') -> grows (w_db w) (w_db w').
Proof.
  intros (Hf & _ & Hd)%Files.MkdirAll_ok. split; intros q; [intros Hq|intros c Hq; eauto].
  destruct (Hd q) as [E|E]; [exact (eq_trans E Hq)|exact E].
Qed.

Lemma connect_grows p (w : World (Cli.Host U)) w' :
  Cli.connect p w = (Ok tt, w') -> grows (Cli.fs (w_db w)) (Cli.fs (w_db w')).
Proof.
  intros H%exec_ok. destruct (Files.is_dir (Cli.fs (w_db w)) p) eqn:Ed; [done|].
  assert (Cli.fs (w_db w') = Cli.fs (w_db w) \/
          Cli.fs (w_db w') = <[p := Files.File EmptyString]> (Cli.fs (w_db w))) as [->| ->].
  { destruct (Cli.fs (w_db w) !! p) as [[c|]|], (Cli.dbs (w_db w) !! p).
    all: try (injection H as H; rewrite <- H; auto; fail).
    all: try (case_bool_decide; [|done]; injection H as H; rewrite <- H; auto; fail).
    all: destruct (Files.is_dir _ (removelast _)); [|done]; injection H as H; rewrite <- H; auto. }
  - apply grows_refl.
  - split; intros q; destruct (decide (q = p)) as [->|Hne].
    + intros Hq. unfold Files.is_dir in Ed. apply orb_false_iff in Ed as [_ Ed%bool_decide_eq_false]. done.
    + by rewrite lookup_insert_ne.
    + intros c _. rewrite lookup_insert_eq. eauto.
    + intros c. rewrite lookup_insert_ne by done. eauto.
Qed.

Lemma Open_dir path dir (w : World (Cli.Host U)) w' es :
  Cli.Open path w = (Ok tt, w') -> Cli.dir_at (Cli.fs (w_db w)) dir = Some es ->
  exists es', Cli.dir_at (Cli.fs (w_db w')) dir = Some es' /\ forall n, n ∈ migration_names es -> n ∈ migration_names es'.
Proof.
  intros H Hes. unfold Cli.Open in H. apply bind_ok in H as ([] & w1 & H1 & H). apply map_err_ok, connect_grows in H.
  assert (grows (Cli.fs (w_db w)) (Cli.fs (w_db w1))) as H0.
  { case_bool_decide; [apply mret_ok in H1 as [_ ->]; apply grows_refl|]. apply map_err_ok in H1.
    apply CliFacts.on_fs_ok in H1 as (f1 & Hm & E1). apply MkdirAll_grows in Hm. by rewrite E1. }
  destruct (grows_dir_at _ _ _ _ H0 Hes) as (es1 & Hes1 & Hn1).
  destruct (grows_dir_at _ _ _ _ H Hes1) as (es2 & Hes2 & Hn2). eauto.
Qed.

Lemma must_run (m : M (Machine U) (option error)) (w : World (Machine U)) (r : result unit) w' :
  must m w = (r, w') -> exists r0, m w = (r0, w') /\ (r = Ok tt -> r0 = Ok None).
Proof.
  unfold must. intros [(e & E & ->)|([e|] & w1 & E & [= <- <-])]%bind_cases; eauto. all: eexists; (split; [exact E|done]).
Qed.

Lemma Migrate_machine db (w : World (Machine U)) r w' :
  NoDup (omap file_name (Cli.embedded (host (w_db w)))) -> Boot.Migrate db w = (r, w') ->
  exists h, w_db w' = mkMachine h (app (w_db w)) /\ Cli.fs h = Cli.fs (host (w_db w)) /\
    Cli.embedded h = Cli.embedded (host (w_db w)) /\
    (r = Ok None -> all_recorded EmptyString (Cli.embedded h) (Cli.db_at h (Files.Clean db))).
Proof.
  intros Hnd (h & H & Hw)%on_host_run. exists h. split; [done|].
  apply zoom_run in H as (w1 & Hm & [= _ ->]).
  eapply Migrate_run in Hm as [_ Hall]; [|done|exact Hnd].
  split_and!; [done..|]. intros Hr. unfold Cli.db_at. simpl. rewrite lookup_insert_eq. by apply Hall.
Qed.

Lemma MigrateDir_machine dir db (w : World (Machine U)) r w' :
  Boot.MigrateDir dir db w = (r, w') ->
  exists h, w_db w' = mkMachine h (app (w_db w)) /\ Cli.fs h = Cli.fs (host (w_db w)) /\
    Cli.embedded h = Cli.embedded (host (w_db w)) /\
    remembers (Cli.db_at (host (w_db w)) (Files.Clean db)) (Cli.db_at h (Files.Clean db)) /\
    (forall es, r = Ok None -> Cli.dir_at (Cli.fs h) dir = Some es ->
       all_recorded app_prefix es (Cli.db_at h (Files.Clean db))).
Proof.
  intros (h & H & Hw)%on_host_run. exists h. split; [done|].
  assert (Cli.embedded h = Cli.embedded (host (w_db w))) as He by (by apply zoom_run in H as (w2 & _ & [= _ ->])).
  apply CliFacts.on_site_run in H as (w1 & Hm & _ & Hfs & _ & Hd). cbn [w_db] in *.
  split_and!; [done..| |]; rewrite Hd.
  - destruct (Cli.dir_at (Cli.fs (host (w_db w))) dir) as [es|] eqn:Ed.
    + eapply MigrateDir_run in Hm as [Hr _]; [exact Hr|exact Ed|by eapply CliFacts.dir_files_nodup].
    + apply MigrateDir_absent in Hm; [|exact Ed]. rewrite Hm. by intros v.
  - intros es Hr Ed. rewrite Hfs in Ed.
    eapply MigrateDir_run in Hm as [_ Hall]; [by apply Hall|exact Ed|by eapply CliFacts.dir_files_nodup].
Qed.

Variable redis_ParseURL : string -> option error.
Variable Getenv : string -> string.
Let cfg : Config.Config := Config.Load Getenv.

Definition after_migrations : M (Machine U) Outcome :=
  wrapping "init oauth server" (in_db NewServer) ;;
  wrapping "bootstrap owner" (bootstrapOwner cfg) ;;
  (if bool_decide (Config.RedisURL cfg = EmptyString) then mret tt
   else wrapping "init redis relay" (NewRedisRelay redis_ParseURL (Config.RedisURL cfg))) ;;
  reg ← wrapping "discover rest collections" discover;
  wrapping "init storage backend" (NewLocalBackend (Config.StorageDir cfg)) ;;
  build cfg reg ;;
  if (Config.SessionCleanupInterval cfg <=? 0)%Z then mret (Panicked "non-positive interval for NewTicker")
  else
    log ("listening on " +:+ Config.Addr cfg +:+ " (db: " +:+ Config.DBPath cfg +:+ ")") ;;
    query (fun _ => tt) ;;
    mret (Serving (server_config cfg)).

Lemma run_stages :
  run redis_ParseURL Getenv =
    (on_host (Cli.Open (Config.DBPath cfg)) ;;
     must (Boot.Migrate (Config.DBPath cfg)) ;;
     wrapping "apply application migrations" (must (Boot.MigrateDir (Config.MigrationsDir cfg) (Config.DBPath cfg))) ;;
     after_migrations).
Proof. reflexivity. Qed.

Lemma log_host line : within host_kept (log (U := U) line).
Proof. intros w. done. Qed.

Lemma on_fs_host (m : M Files.FS unit) : within host_kept (on_host (Cli.on_fs m)).
Proof. intros w. unfold on_host, Cli.on_fs, zoom. by destruct (m _). Qed.

#[local] Hint Resolve log_host on_fs_host on_app_host : within.

Lemma MkdirAll_host dir : within host_kept (on_host (Cli.MkdirAll dir)).
Proof.
  unfold Cli.MkdirAll. case_bool_decide; [|apply on_fs_host].
  intros w. unfold on_host, zoom, exec, exec_at. by destruct (env_step _) as [[?|] ?].
Qed.

Lemma bootstrapOwner_host : within host_kept (bootstrapOwner cfg).
Proof. unfold bootstrapOwner. within_solve; auto with within. Qed.

Lemma build_host reg : within host_kept (build cfg reg).
Proof. intros w. done. Qed.

Lemma after_migrations_host : within host_kept after_migrations.
Proof.
  unfold after_migrations, in_db, NewRedisRelay, NewLocalBackend, discover.
  within_solve; auto using MkdirAll_host, bootstrapOwner_host, build_host with within.
Qed.

Lemma migrated_kept m0 m m' : host_kept m m' -> migrated cfg m0 m -> migrated cfg m0 m'.
Proof. intros [Hd _]. unfold migrated, Cli.db_at. by rewrite Hd. Qed.

Lemma Open_embedded path (w : World (Cli.Host U)) r w' :
  Cli.Open path w = (r, w') -> Cli.embedded (w_db w') = Cli.embedded (w_db w).
Proof.
  intros H. assert (within (fun h h' : Cli.Host U => Cli.embedded h' = Cli.embedded h) (Cli.Open path)) as Hw.
  { assert (PreOrder (fun h h' : Cli.Host U => Cli.embedded h' = Cli.embedded h)).
    { split; [done|]. intros h1 h2 h3. congruence. }
    unfold Cli.Open, Cli.connect. within_solve.
    - intros u. unfold Cli.on_fs, zoom. by destruct (Files.MkdirAll _ _).
    - destruct (Files.is_dir _ _); [done|].
      destruct (Cli.fs d !! Files.Clean path) as [[c|]|], (Cli.dbs d !! Files.Clean path).
      all: repeat case_bool_decide; try destruct (Files.is_dir _ (removelast _)); by simplify_eq. }
  specialize (Hw w). by rewrite H in Hw.
Qed.

Lemma nothing_before_migrations_run w r w' :
  NoDup (omap file_name (Cli.embedded (host (w_db w)))) ->
  run redis_ParseURL Getenv w = (r, w') ->
  (app (w_db w') = app (w_db w) /\ is_ok r = false) \/ migrated cfg (w_db w) (w_db w').
Proof.
  intros Hnd. rewrite run_stages. intros [(e & E & ->)|([] & w1 & E & H)]%bind_cases.
  { left. apply on_host_run in E as (h & _ & ->). done. }
  apply on_host_run in E as (h1 & Ho & Hw1). pose proof (Open_embedded _ _ _ _ Ho) as He1. cbn [w_db] in He1.
  assert (Hh1 : host (w_db w1) = h1) by (by rewrite Hw1).
  assert (Ha1 : app (w_db w1) = app (w_db w)) by (by rewrite Hw1).
  apply bind_cases in H as [(e & E & ->)|([] & w2 & E & H)]; apply must_run in E as (r2 & E & Hr2).
  all: apply Migrate_machine in E as (h2 & Hw2 & Hf2 & He2 & Hall2); [|by rewrite Hh1, He1].
  { left. rewrite Hw2. done. }
  apply bind_cases in H as [(e & E & ->)|([] & w3 & E & H)]; [apply map_err_err in E as (e' & E)|apply map_err_ok in E];
    apply must_run in E as (r3 & E & Hr3); apply MigrateDir_machine in E as (h3 & Hw3 & Hf3 & He3 & Hmono & Hall3).
  { left. rewrite Hw3, Hw2. done. }
  right. pose proof (after_migrations_host w3) as Hk. rewrite H in Hk. apply (migrated_kept _ _ _ Hk).
  assert (host (w_db w2) = h2) as Hh2 by (by rewrite Hw2). rewrite Hh2 in *. rewrite Hh1 in *.
  split; rewrite Hw3; cbn [host].
  - apply (all_recorded_remembers _ _ _ _ Hmono). rewrite <- He1, <- He2. by apply Hall2, Hr2.
  - intros es Hes. eapply (Open_dir _ _ _ _ _ Ho) in Hes as (es' & Hes' & Hn). cbn [w_db] in Hes'.
    intros n Hin. apply (Hall3 es'); [by apply Hr3|by rewrite Hf3, Hf2|by apply Hn].
Qed.


(** ** The first owner *)

Lemma not_already_wrap p e : not_already e -> not_already (Wrap p e).
Proof. done. Qed.

Lemma createOwner_fails email password role : fails (OwnerAuth.createOwner email password role) not_already.
Proof.
  unfold OwnerAuth.createOwner. destruct (negb _); [by apply fails_fail|]. case_bool_decide; [by apply fails_fail|].
  apply fails_bind; [eapply fails_map_err; [intros e; apply (not_already_wrap _ e)|]|intros h; apply fails_bind; [by apply fails_new_uuid|intros id; apply fails_bind]].
  - unfold OwnerAuth.hashPassword. apply fails_bind; [by apply fails_rand_read|]. intros salt.
    destruct (GenerateFromPassword salt password); [by apply fails_fail|by apply fails_ret].
  - apply (fails_map_err _ not_already); [|by apply fails_exec_at]. intros e He. by destruct (Contains _ _).
  - intros _. unfold OwnerAuth.GetOwner. apply fails_bind.
    + eapply fails_map_err; [intros e; apply (not_already_wrap _ e)|by apply fails_exec_at].
    + intros [r|]; [by apply fails_ret|by apply fails_fail].
Qed.

Lemma createOwner_makes email password role w o w' :
  OwnerAuth.createOwner email password role w = (Ok o, w') -> owner_users (w_db w') <> [].
Proof.
  unfold OwnerAuth.createOwner. destruct (negb _); [done|]. case_bool_decide as Hlen; [done|].
  intros (h & w1 & _ & H)%bind_ok. apply bind_ok in H as (id & w2 & _ & H). apply bind_ok in H as ([] & w3 & _ & H).
  unfold OwnerAuth.GetOwner in H. apply bind_ok in H as ([row|] & w4 & (Hrow & Hdb)%map_err_ok%query_ok & H); [|done].
  apply mret_ok in H as [_ ->]. rewrite Hdb. intros Hn. by rewrite Hn in Hrow.
Qed.

Lemma Bootstrap_outcome email password w r w' :
  OwnerAuth.Bootstrap email password w = (r, w') ->
  match r with Ok _ => True | Err e => errors_Is e OwnerAuth.ErrAlreadyBootstrapped = true end ->
  owner_users (w_db w') <> [].
Proof.
  unfold OwnerAuth.Bootstrap. intros H Hr. apply bind_cases in H as [(e & E & ->)|(n & w1 & [-> Hw1]%map_err_ok%query_ok & H)].
  - eapply (fails_map_err not_already not_already) in E; [|done|by apply fails_exec_at]. unfold not_already in E. congruence.
  - case_bool_decide as Hn.
    + injection H as _ <-. rewrite Hw1. intros E. rewrite E in Hn. simpl in Hn. lia.
    + destruct r as [o|e]; [by eapply createOwner_makes|]. apply createOwner_fails in H. unfold not_already in H. congruence.
Qed.

(** *** Ready *)

Definition oauth_ready (d : Database) : Prop :=
  oauth_hmac_secret (Schema.oauth d) <> None /\ OAuthFacts.published d <> [].

Lemma EnsureHMACSecret_sets w s w' :
  OAuth.EnsureHMACSecret w = (Ok s, w') -> oauth_hmac_secret (Schema.oauth (w_db w')) = Some s.
Proof.
  unfold OAuth.EnsureHMACSecret. intros (row & w1 & [-> Hw1]%query_ok & H)%bind_ok.
  destruct (oauth_hmac_secret _) as [s0|] eqn:E; [apply mret_ok in H as [-> ->]; congruence|].
  apply bind_ok in H as (s1 & w2 & _ & H). apply bind_ok in H as ([] & w3 & H3%map_err_ok%exec_ok & H).
  apply mret_ok in H as [-> ->]. destruct (oauth_hmac_secret (Schema.oauth (w_db w2))); [done|]. injection H3 as <-. done.
Qed.

Lemma NewServer_ready w w' : NewServer w = (Ok tt, w') -> oauth_ready (w_db w').
Proof.
  unfold NewServer. intros (s & w1 & H1%map_err_ok%EnsureHMACSecret_sets & H)%bind_ok.
  apply bind_ok in H as (k & w2 & H2%map_err_ok & H). apply mret_ok in H as [_ ->].
  pose proof (OAuthFacts.EnsureKey_secrets w1) as [_ Hs]. rewrite H2 in Hs. apply Hs in H1.
  apply OAuthFacts.EnsureKey_published in H2. split.
  - intros E. cbn [snd] in H1. congruence.
  - intros E. rewrite E in H2. by apply elem_of_nil in H2.
Qed.

Lemma bootstrapOwner_ready w w' :
  bootstrapOwner (U := U) cfg w = (Ok tt, w') ->
  Schema.oauth (App.database (app (w_db w'))) = Schema.oauth (App.database (app (w_db w))) /\
  (Config.BootstrapOwnerEmail cfg <> EmptyString -> Config.BootstrapOwnerPassword cfg <> EmptyString ->
   owner_users (owners (App.database (app (w_db w')))) <> []).
Proof.
  unfold bootstrapOwner. case_bool_decide as He; cbn [orb]; [by intros [= <-]|].
  case_bool_decide as Hp; [by intros [= <-]|]. rewrite attempt_bind.
  destruct (on_app _ w) as [r w1] eqn:E. cbn [fst snd].
  apply zoom_run in E as (w2 & E & ->). apply zoom_run in E as (w3 & E & ->). apply zoom_run in E as (w4 & E & ->).
  pose proof (Bootstrap_outcome _ _ _ _ _ E) as Ho. clear E. cbn [w_db w_env] in *. intros H.
  assert (Schema.oauth (App.database (app (w_db w'))) = Schema.oauth (App.database (app (w_db w))) /\
          owners (App.database (app (w_db w'))) = w_db w4 /\
          match r with Ok _ => True | Err e => errors_Is e OwnerAuth.ErrAlreadyBootstrapped = true end) as (H1 & H2 & H3).
  { destruct r as [o|e]; [injection H as <-; done|]. destruct (errors_Is e _); [|done]. injection H as <-. done. }
  split; [done|]. rewrite H2. auto.
Qed.

Lemma discover_ready w reg w' :
  discover (U := U) w = (Ok reg, w') ->
  w_db w' = w_db w /\
  forall name c, reg !! name = Some c <->
    exists t, tables (RestApi.app (App.rest (app (w_db w)))) !! name = Some t /\
      RegistryFacts.exposed_as (policies (RestApi.app (App.rest (app (w_db w))))) name t c.
Proof.
  intros (w1 & H & Hw)%zoom_ok. apply zoom_ok in H as (w2 & H & Hw1). apply zoom_ok in H as (w3 & H & Hw2).
  apply RegistryFacts.Discover_run in H as [Hd Hreg]. cbn [w_db w_env] in *. split; [|exact Hreg].
  rewrite Hw, Hw1, Hw2, Hd. by destruct (w_db w) as [h [? ? [] ? ? ? ? ?]].
Qed.

(** What a server that listens has: a session cleanup interval the ticker accepts, the
    secrets of the OAuth server, the owner asked for, and the schema as its tables are. *)
Record ready (m : Machine U) : Prop := {
  ready_interval : (0 < Config.SessionCleanupInterval cfg)%Z;
  ready_oauth : oauth_ready (App.database (app m));
  ready_owner : Config.BootstrapOwnerEmail cfg <> EmptyString -> Config.BootstrapOwnerPassword cfg <> EmptyString ->
    owner_users (owners (App.database (app m))) <> [];
  ready_registry : forall name c, RestApi.reg (App.rest (app m)) !! name = Some c <->
    exists t, tables (RestApi.app (App.rest (app m))) !! name = Some t /\
      RegistryFacts.exposed_as (policies (RestApi.app (App.rest (app m)))) name t c;
  ready_limiters : forall l, App.get_limiter l (app m) = RateLimit.New (Config.LoginRateLimit cfg) (Config.LoginRateWindow cfg);
}.

Lemma NewRedisRelay_same url : within (@eq (Machine U)) (NewRedisRelay redis_ParseURL url).
Proof. unfold NewRedisRelay. destruct (redis_ParseURL url); within_solve. Qed.

Lemma relay_same : within (@eq (Machine U))
  (if bool_decide (Config.RedisURL cfg = EmptyString) then mret tt
   else wrapping "init redis relay" (NewRedisRelay redis_ParseURL (Config.RedisURL cfg))).
Proof. case_bool_decide; [by intros w|]. apply within_map_err, NewRedisRelay_same. apply _. Qed.

Lemma after_migrations_ready w c w' :
  after_migrations w = (Ok (Serving c), w') -> ready (w_db w') /\ c = server_config cfg.
Proof.
  unfold after_migrations. intros ([] & w1 & H1%map_err_ok & H)%bind_ok.
  apply zoom_ok in H1 as (u1 & H1 & Hw1). apply zoom_ok in H1 as (u2 & H1 & Hu1). apply NewServer_ready in H1.
  apply bind_ok in H as ([] & w2 & H2%map_err_ok & H). apply bootstrapOwner_ready in H2 as [Ho2 Hown].
  apply bind_ok in H as ([] & w3 & H3 & H). apply (within_ok _ _ _ _ _ relay_same) in H3.
  apply bind_ok in H as (reg & w4 & H4%map_err_ok & H). apply discover_ready in H4 as [H4 Hreg].
  apply bind_ok in H as ([] & w5 & H5%map_err_ok & H). unfold NewLocalBackend in H5. apply map_err_ok in H5.
  apply on_host_run in H5 as (h5 & _ & Hw5).
  apply bind_ok in H as ([] & w6 & [= <-] & H).
  destruct (Z.leb_spec (Config.SessionCleanupInterval cfg) 0); [by apply mret_ok in H as [H _]|].
  apply bind_ok in H as ([] & w7 & [= <-] & H). apply bind_ok in H as ([] & w8 & [_ Hw8]%query_ok & H).
  apply mret_ok in H as [[= ->] ->]. split; [|done].
  assert (app (w_db w8) = services cfg reg (app (w_db w3))) as Happ by (rewrite Hw8; cbn [app]; by rewrite Hw5, H4).
  rewrite Hu1 in Hw1. rewrite <- H3 in *. 
  constructor; rewrite ?Happ; cbn [services App.database App.rest RestApi.reg RestApi.app].
  - done.
  - unfold oauth_ready, OAuthFacts.published. rewrite Ho2, Hw1. exact H1.
  - done.
  - exact Hreg.
  - by intros [].
Qed.


(** ** The janitor *)

(** The environment after a statement: it may only stand still in a quiet one. *)
Definition env_next (e e' : Env) : Prop := env_le e e' /\ (env_sched e = [] -> e' = e).

#[export] Instance env_next_preorder : PreOrder env_next.
Proof.
  split; [split; [by split|done]|]. intros e1 e2 e3 [[] E1] [[] E2]. split; [split; lia || congruence || auto|].
  intros H. specialize (E1 H). subst e2. by apply E2.
Qed.

Lemma dated_update {D A} p (f : Z -> D -> A * D) (w : World D) r w' :
  (t ← now; wrapping p (update (f t))) w = (r, w') ->
  env_next (w_env w) (w_env w') /\
  ((w_db w' = w_db w /\ ~ quiet w) \/ w_db w' = (f (clock w) (w_db w)).2).
Proof.
  intros H. assert (env_le (w_env w) (w_env w')) as He.
  { change (w_env w') with (w_env (r, w').2). rewrite <- H. apply forward_bind; [apply forward_now|intros t].
    apply forward_map_err. unfold update, exec. apply forward_exec_at. }
  unfold now, mbind, M_bind, wrapping, map_err in H. destruct (decide (quiet w)) as [Hq|Hq].
  - rewrite update_quiet in H by done. injection H as _ <-. split; [done|by right].
  - split; [by split|]. destruct (update _ w) as [[a|e] w1] eqn:E; injection H as _ <-.
    + right. apply update_ok in E. by rewrite E.
    + left. by apply exec_err in E.
Qed.

Lemma purge_run what rows (m : M App.App Z) (w : World (Machine U)) r w' :
  purge what rows (on_app m) w = (r, w') ->
  r = Ok tt /\ host_kept (w_db w) (w_db w') /\
  exists x w1, m (mkWorld (w_env w) (app (w_db w))) = (x, w1) /\ w_env w' = w_env w1 /\ app (w_db w') = w_db w1.
Proof.
  unfold purge. rewrite attempt_bind. unfold on_app at 1 2, zoom.
  destruct (m _) as [x w1] eqn:E. cbn [fst snd]. destruct x as [n|e].
  - destruct (0 <? n)%Z; intros [= <- <-]; split_and!; eauto; done.
  - intros [= <- <-]; split_and!; eauto; done.
Qed.

(** A row of a list goes when it is dead at the time of the sweep; a sweep that fails
    removes none. *)
Definition swept {A} (dead : Z -> A -> Prop) `{!forall t x, Decision (dead t x)} (w w' : World (Machine U)) (l l' : list A) : Prop :=
  (l' = l /\ ~ quiet w) \/
  exists t, (clock w <= t <= clock w')%Z /\ (quiet w -> t = clock w) /\ l' = filter (fun x => ~ dead t x) l.

Definition session_dead (t : Z) (r : SessionRow) : Prop := (s_expires_at r <= t)%Z.
Definition owner_session_dead (t : Z) (r : OwnerSessionRow) : Prop := (os_expires_at r <= t)%Z.
Definition reset_dead (t : Z) (r : ResetRow) : Prop := (r_expires_at r <= t)%Z \/ r_used_at r <> None.

#[export] Instance session_dead_dec t r : Decision (session_dead t r).
Proof. unfold session_dead. apply _. Defined.
#[export] Instance owner_session_dead_dec t r : Decision (owner_session_dead t r).
Proof. unfold owner_session_dead. apply _. Defined.
#[export] Instance reset_dead_dec t r : Decision (reset_dead t r).
Proof. unfold reset_dead. apply _. Defined.

Definition put_swept (s : list SessionRow) (rt : list ResetRow) (os : list OwnerSessionRow) (a : App.App) : App.App :=
  let d := App.database a in
  App.set_database
    (mkDatabase (mkIdentity (users (identity d)) s rt (social_identities (identity d)))
                (mkOwnerDb (owner_users (owners d)) os) (audit_log d) (files d) (Schema.oauth d)) a.

Lemma swept_of {A} (dead : Z -> A -> Prop) `{!forall t x, Decision (dead t x)} (w w' : World (Machine U)) e1 e2 (l l' : list A) :
  env_next (w_env w) e1 -> env_next e1 e2 -> env_next e2 (w_env w') ->
  (l' = l /\ env_sched e1 <> []) \/ l' = filter (fun x => ~ dead (env_clock e1) x) l -> swept dead w w' l l'.
Proof.
  intros [[] H1] [[] H12] [[] H2] [[-> Hq]| ->]; [left|right].
  - split; [done|]. intros Hw. apply Hq. auto.
  - exists (env_clock e1). unfold clock. split_and!; [lia|lia| |done]. intros Hq. by rewrite (H1 Hq).
Qed.

(** What a purge leaves of a list. *)
Definition left_by {D A} (dead : Z -> A -> Prop) `{!forall t x, Decision (dead t x)} (w : World D) (l l' : list A) : Prop :=
  (l' = l /\ ~ quiet w) \/ l' = filter (fun x => ~ dead (clock w) x) l.

Ltac solve_purge :=
  let w := fresh "w" in let H := fresh "H" in let He := fresh "He" in let Hq := fresh "Hq" in
  intros (? & H & ->)%zoom_run; apply zoom_run in H as (w & H & ->);
  apply dated_update in H as [He H]; split; [exact He|]; cbn [w_db w_env] in *;
  destruct H as [[H Hq]|H]; rewrite H; eexists;
  (split; [first [left; split; [done|exact Hq]|right; done]|]);
  first [done|match goal with w0 : World App.App |- _ => by destruct (w_db w0) as [[[] [] ? ? ?] ? ? ? ? ? ? ?] end].

Lemma purge_sessions_run (w : World App.App) x w1 :
  App.auth Auth.PurgeExpiredSessions w = (x, w1) ->
  let d := App.database (w_db w) in
  env_next (w_env w) (w_env w1) /\ exists s, left_by session_dead w (sessions (identity d)) s /\
    w_db w1 = put_swept s (reset_tokens (identity d)) (owner_sessions (owners d)) (w_db w).
Proof. solve_purge. Qed.

Lemma purge_resets_run (w : World App.App) x w1 :
  App.auth Auth.PurgeExpiredResetTokens w = (x, w1) ->
  let d := App.database (w_db w) in
  env_next (w_env w) (w_env w1) /\ exists s, left_by reset_dead w (reset_tokens (identity d)) s /\
    w_db w1 = put_swept (sessions (identity d)) s (owner_sessions (owners d)) (w_db w).
Proof. solve_purge. Qed.

Lemma purge_owner_sessions_run (w : World App.App) x w1 :
  App.ownerAuth OwnerAuth.PurgeExpiredSessions w = (x, w1) ->
  let d := App.database (w_db w) in
  env_next (w_env w) (w_env w1) /\ exists s, left_by owner_session_dead w (owner_sessions (owners d)) s /\
    w_db w1 = put_swept (sessions (identity d)) (reset_tokens (identity d)) s (w_db w).
Proof. solve_purge. Qed.

(** C39: A tick of the janitor never fails, removes dead rows only, whatever fails on the
    way, and touches nothing else; each sweep is decided at its own time, and when
    nothing fails all three are complete. *)
Theorem runSessionJanitor_exact (w : World (Machine U)) r w' :
  runSessionJanitor w = (r, w') ->
  r = Ok tt /\ host_kept (w_db w) (w_db w') /\
  let d := App.database (app (w_db w)) in
  exists s rt os, app (w_db w') = put_swept s rt os (app (w_db w)) /\
    swept session_dead w w' (sessions (identity d)) s /\
    swept owner_session_dead w w' (owner_sessions (owners d)) os /\
    swept reset_dead w w' (reset_tokens (identity d)) rt.
Proof.
  unfold runSessionJanitor. intros H.
  apply bind_cases in H as [(e & E & _)|([] & w1 & E1 & H)]; [by apply purge_run in E as [E _]|].
  apply bind_cases in H as [(e & E & _)|([] & w2 & E2 & H)]; [by apply purge_run in E as [E _]|].
  apply purge_run in E1 as (_ & K1 & x1 & v1 & E1 & V1 & A1), E2 as (_ & K2 & x2 & v2 & E2 & V2 & A2),
    H as (-> & K3 & x3 & v3 & E3 & V3 & A3).
  apply purge_sessions_run in E1 as (N1 & s & S1 & D1). apply purge_owner_sessions_run in E2 as (N2 & os & S2 & D2).
  apply purge_resets_run in E3 as (N3 & rt & S3 & D3).
  split; [done|]. split; [by etrans; [exact K1|etrans]|].
  exists s, rt, os. cbn [w_env w_db] in *. rewrite <- V1 in N1. rewrite <- V2 in N2. rewrite <- V3 in N3.
  rewrite <- A1 in D1. rewrite <- A2, D1 in D2. rewrite <- A3, D2 in D3. rewrite D1 in S2. rewrite D2 in S3.
  split; [exact D3|]. split_and!.
  - apply (swept_of session_dead w w' (w_env w) (w_env w1)); [done|done|by etrans|exact S1].
  - apply (swept_of owner_session_dead w w' (w_env w1) (w_env w2)); [done|done|done|exact S2].
  - apply (swept_of reset_dead w w' (w_env w2) (w_env w')); [by etrans|done|done|exact S3].
Qed.

Definition told (lines : list string) (m : Machine U) : Machine U :=
  let h := host m in
  mkMachine (Cli.mkHost (Cli.fs h) (Cli.dbs h) (Cli.embedded h) (Cli.stdout h) (Cli.stderr h ++ lines)) (app m).

Lemma for_each_warn lines : forall w : World (Cli.Host U),
  for_each Cli.warn lines w =
    (Ok tt, let h := w_db w in
            mkWorld (w_env w) (Cli.mkHost (Cli.fs h) (Cli.dbs h) (Cli.embedded h) (Cli.stdout h) (Cli.stderr h ++ lines))).
Proof.
  induction lines as [|l lines IH]; intros [e [f d em so se]].
  - simpl. by rewrite app_nil_r.
  - simpl. unfold mbind, M_bind, Cli.warn. simpl. rewrite IH. simpl. by rewrite <- app_assoc.
Qed.

Lemma printUsage_run (w : World (Machine U)) : printUsage w = (Ok tt, mkWorld (w_env w) (told usage (w_db w))).
Proof. unfold printUsage, on_host, zoom. by rewrite for_each_warn. Qed.

(** An unknown command gets the usage, a line that names it and an exit status of 1;
    nothing else happens. *)
Theorem main_unknown build_info dist cmd rest (w : World (Machine U)) :
  cmd ∉ ["serve"; "init"; "migrate"; "help"; "-h"; "--help"; "version"; "-v"; "--version"] ->
  main redis_ParseURL Getenv build_info dist (cmd :: rest) w =
    (Ok (Exited 1), mkWorld (w_env w) (told (usage ++ ["unknown command " +:+ Quote cmd]) (w_db w))).
Proof.
  intros Hc. unfold main. rewrite !not_elem_of_cons in Hc. destruct Hc as (?&?&?&?&?&?&?&?&?&_).
  rewrite !bool_decide_eq_false_2; [|set_solver..]. unfold mbind at 1, M_bind at 1. rewrite printUsage_run.
  unfold mbind, M_bind, log, on_host, zoom, Cli.warn, told. cbn -[usage Quote]. by rewrite <- app_assoc.
Qed.

End boot.

(** ** Witnesses *)

#[local] Existing Instance toy_engine.
#[local] Existing Instance AuthFacts.toy_bcrypt.
#[local] Existing Instance RestApiFacts.toy.

Definition toy_env (key : string) : string :=
  if bool_decide (key = "MAUBASE_DB_PATH") then "a.db"
  else if bool_decide (key = "MAUBASE_MIGRATIONS_DIR") then "m"
  else if bool_decide (key = "MAUBASE_STORAGE_DIR") then "s"
  else if bool_decide (key = "MAUBASE_BOOTSTRAP_OWNER_EMAIL") then "Root@example.com"
  else if bool_decide (key = "MAUBASE_BOOTSTRAP_OWNER_PASSWORD") then "password"
  else EmptyString.

Definition old_sessions : IdentityDb :=
  mkIdentity [mkUserRow "u1" "ann@example.com" "h" 0 0]
    [mkSessionRow "s1" "u1" "h1" 0 4; mkSessionRow "s2" "u1" "h2" 0 100] [] [].

Definition new_app : App.App :=
  App.mkApp (mkDatabase old_sessions (mkOwnerDb [] []) [] [] (mkOAuthDb [] [] (fun _ => []) [] [] None)) ∅
    (RestApi.mkServer RegistryFacts.sample_app ∅ false [] 0 false) (RateLimit.New 0 0) (RateLimit.New 0 0)
    (RateLimit.New 0 0) (RateLimit.New 0 0) [].

Definition new_host : Cli.Host (gmap string string) :=
  Cli.mkHost CliFacts.toy_fs ∅ [File "0001_users.sql" (render "create users" "drop users")] [] [].

Definition new_machine : World (Machine (gmap string string)) := sample_world 5 (mkMachine new_host new_app).

Definition no_redis (url : string) : option error := None.

(** The whole of a first start, and the first tick of the janitor. *)
Example first_start :
  let '(r, w) := run no_redis toy_env new_machine in
  (if r is Ok (Serving _) then True else False) /\
  recorded (Cli.db_at (host (w_db w)) ["a.db"]) = ["0001_users.sql"; "app:0001_posts.sql"; "app:0002_tags.sql"] /\
  Cli.stderr (host (w_db w)) = ["bootstrapped first owner: root@example.com"; "listening on :8080 (db: a.db)"] /\
  (map_to_list (RestApi.reg (App.rest (app (w_db w))))).*1 = ["notes"] /\
  s_id <$> sessions (identity (App.database (app (w_db (runSessionJanitor w).2)))) = ["s2"].
Proof. vm_compute. done. Qed.

Lemma getEnvSeconds_exact_witness :
  Config.getEnvSeconds (fun _ => "9223372037") "X" 60 = (-9223372036709551616)%Z.
Proof. refine (getEnvSeconds_exact (fun _ => "9223372037") "X" 60 9223372037 _ _); [discriminate|vm_compute; reflexivity]. Defined.



Lemma runSessionJanitor_exact_witness :
  let w := new_machine in
  exists s rt os, app (w_db (runSessionJanitor w).2) = put_swept s rt os new_app /\
    swept session_dead w (runSessionJanitor w).2 (sessions old_sessions) s.
Proof.
  intros w. destruct (runSessionJanitor_exact w _ _ (surjective_pairing _)) as (_ & _ & s & rt & os & H1 & H2 & _).
  exists s, rt, os. split; [exact H1|exact H2].
Defined.

Lemma main_unknown_witness :
  (main no_redis toy_env None [] ["serv"] new_machine).1 = Ok (Exited 1).
Proof. rewrite (main_unknown no_redis toy_env None [] "serv" [] new_machine); [reflexivity|evaluate]. Defined.

End BootFacts.
